(* ===== verification/_CoqProject ===== *)
-Q . S2P
Prelude.v
JsValue.v
Float64.v
DateTime.v
Metrics.v
Table.v
Effects.v
Rules.v
Policy.v
Guarantee.v
Reconciler.v
Refinement.v
Failures.v
Successive.v
Concurrency.v
Isolation.v
Serializable.v
HttpTrigger.v
EndToEnd.v
Justified.v
Doubles.v
Startup.v
