(* ===== verification/Prelude.v ===== *)
(** * Token-usage monitor: a verification development

    The program verified here is [src/src/functions/httpTrigger.ts], an HTTP
    triggered function that reads the month-to-date token consumption of every
    model deployment from a metrics API, keeps one record per
    (deployment, month) in a table store, and mails an alert the first time a
    deployment's total exceeds [THRESHOLD].

    ** The program's parts and the files that model them

    The files are listed in the order they build on each other.

    - [Prelude] (this file): the [outcome] type of fallible calls, the
      development's tactics and hint databases ([monitor], [monitor_rw]), and
      the lemmas on strings and lists the components share.
    - [JsValue]: the numbers and errors of the program.  The code only adds
      usage samples, compares them with [>] and prints them, so the
      components are written against the interface [JsNumber] (a type with
      [nadd], [ngt], [nshow] and the strict-order laws of [>]); [jsnum] (an
      integer or NaN) is the instance the examples run on.  [jserror] is the
      error object the code inspects ([error.statusCode === 404]);
      [template] is a value in a template literal.
    - [Float64]: the numbers of the code, 64-bit floating point, restricted
      to those the program meets when the samples are integers: the doubles
      with an integral value ([FInt]), the infinities and NaN, with
      round-to-nearest-even ([f64_of_Z], [f64_add]), overflow at 2^1024,
      [>] and [Number::toString] ([f64_show]); the instance [f64] of
      [JsNumber].
    - [DateTime]: the ECMAScript date arithmetic behind
      [new Date().toISOString()], and [getCurrentMonthString] as
      [monthStringOf].
    - [Metrics]: the parts of the response of the metrics API that the
      handler reads, and the replies of the environment.
    - [Table]: the entity the code stores ([partitionKey], [rowKey],
      [SumToken], [ActionDone], [LastUpdated]) and the contract of the table
      client ([getEntity], [createEntity], [updateEntity]) on a finite map.
    - [Effects]: the code is [async]; every [await] is a call to a service
      that may fail.  A program is a tree [prog] of calls ([Do] of an [op]),
      results ([Ret]) and exceptions ([Throw]); [try_catch] is the code's
      [try]/[catch]; [exec_op] runs one call against the [world] (table,
      mail service, clock, console) under a [choice] of the environment (how
      much time passes, whether the call fails before or after it took
      effect, the status the mail service reports); [run] runs a program
      under a list of choices; [wpe E p Q w] says that [Q] holds after [p]
      from [w] whatever the environment chooses within [E], and [wp] is
      [wpe] of the environment that may do anything.
    - [Rules]: the relations a call establishes between the world before and
      after ([idle], [submitted], [delivered], [wrote]) and one rule per call:
      for any environment, and for the environments that answer a call (the
      classes [Answers] and [Delivers]).
    - [Policy]: [THRESHOLD] and [shouldSendAlert].
    - [Guarantee]: the guarantee of one reconciliation as relations that
      compose ([reconciles], [calm], [mail_effect]), and the rules of the
      calls that write a record.
    - [Reconciler]: [sendMail] and [evaluateTokenUsageForAlert], the
      read-modify-write of one deployment's record, in the three steps of its
      body ([fetchOrCreate]: lines 62-80, [alertPhase]: lines 82-95,
      [updatePhase]: lines 97-101); the specification of each step and the
      theorems on runs under every environment.
    - [Refinement]: the record, the policy and the reconciliation of the
      design as pure functions ([UsageRecord], [shouldAlert],
      [reconcileRecord]) and the proof that a run in which no call fails
      computes them; the scenarios of the design, run.
    - [Failures]: the runs in which the notifier reports a failure, the table
      rejects the write of the flag, or the table rejects the read.
    - [Successive]: invocations one after the other, each reconciling the
      record with its own usage and under its own faults ([successive]).
    - [Concurrency]: tasks in flight together.  A pool of programs is run by
      [interleave]: before each call the environment picks the task to
      resume ([Schedule]), so that the runs of the pool are the interleavings
      of the calls of its tasks; the result is a program, to which [run] and
      [wpe] apply.
    - [Isolation]: rely and guarantee for the tasks of a pool.
      [wpg E R G p Q w]: every call of [p] is a step within [G] and [Q] holds
      at the end, when between the calls of [p] the world changes by steps
      within [R].  [wpg_interleave_until] is the rule of parallel
      composition for [interleave_until]; [run_reconciliations] is the pool
      of lines 152-161.
    - [Serializable]: what a task sees of the world ([view]: its record and
      the messages about its deployment), what it relies on ([apart]) and
      guarantees ([acts]); the design for a pool ([reconcileAll],
      [alertsDue]).
    - [HttpTrigger]: the handler [httpTrigger] (lines 129-174) with
      [getCurrentMonthTimespan], [getCurrentMonthString], the sum of the
      samples, the tasks of the deployments ([deploymentTask], the callback of
      [map]), [Promise_all] and the [catch] block.
    - [EndToEnd]: the handler composed with the pool and the reconciler;
      [usagesOf] is what the handler computes from a response and hands to
      the reconciler; the class [Replies] is what the handler needs of an
      environment to get that response.
    - [Justified]: the invocations of the handler one after the other
      ([invocations]), and the invariant they keep ([flags_justified]).
    - [Doubles]: the program instantiated with [f64], against the program
      on [jsnum].
    - [Startup]: what happens when the module is loaded (lines 17-33:
      [loadModule] reads [process.env] and builds the clients) and the
      registration of the handler (lines 176-180: [registrations]); [invoke]
      is the host that hands a request to the function registered for its
      route and method.

    ** What the theorems show

    - [Policy]: the alert decision is exactly "usage above the threshold and
      no alert recorded".
    - [Effects]: [run] and [wpe] agree ([wpe_run]); the laws of [bind],
      [try_catch] and [await_]; each call touches only the part of the world
      it names.
    - [Reconciler]: under every behaviour of the environment, one
      reconciliation never throws, submits at most one message and only when
      an alert is due, leaves every other record untouched, never lowers a
      stored [SumToken], never clears [ActionDone], and raises the flag only
      once the message is delivered.  Row keys are injective on months of one
      length, and a row key made from a month string gives back deployment
      and month.
    - [Refinement]: [shouldSendAlert] is [shouldAlert] on the record an
      entity stands for; a fault-free run maps the table, seen as usage
      records, to the table with [reconcileRecord] of the old record under
      the deployment's key, and sends the alert exactly when [shouldAlert]
      holds; a second run with the same usage changes nothing; with integer
      usages the stored usage is the maximum; a usage that is NaN is ignored
      and a stored NaN is never replaced.
    - [Failures]: a notifier failure leaves the record as it was, the usage
      included (the design has the usage update independent of the alert);
      a rejected write of the flag after a delivered mail leads to a second
      alert in the next run; a failing read writes and sends nothing.
    - [Successive]: over every sequence of invocations, with every fault,
      the table stays well formed, a raised flag is backed by a delivered
      alert and is never cleared, a marked record gets no further alert; and
      an invocation that observes a usage above the threshold and whose
      calls succeed leaves the alert delivered, whatever failed before
      ([alert_eventually_delivered]).
    - [Concurrency]: the invariant rule of a pool ([wp_interleave]); one
      reconciliation makes at most eleven calls; concurrent reconciliations
      all resolve, in any order and under any faults.  Two reconciliations of
      one record are not isolated from each other: [race_stale_write_back] and
      [race_create_conflict] are the runs in which the flag is cleared and the
      usage lowered, and in which a creation that comes second ends its
      reconciliation.
    - [Isolation]: reconciliations of distinct deployments are isolated: in
      every interleaving and under every fault the record of each evolves
      as its own reconciliation allows and no other record changes.
    - [Serializable]: when no call fails, the concurrent reconciliations of
      distinct deployments compute the design in every interleaving: the
      records are those the reconciliations leave one after the other
      ([reconciliations_refine]), each deployment gets its alert once if it
      is due, and neither the order of the deployments nor the order in
      which the tasks are resumed changes the records or the set of alerts.
    - [EndToEnd]: an invocation in which the usage source answers with
      distinct, named deployments and no call fails answers 200 and leaves
      the table and the mail service as the design asks, for the usages
      [usagesOf] the response holds and the month of a time read during the
      invocation ([httpTrigger_refines]); whichever calls to the table and
      the mail service fail, it answers 200 and each record evolves as its
      reconciliation allows ([httpTrigger_isolated]).
    - [Justified]: with no assumption on the services, the response of the
      metrics API or the scheduling, races on one record included, an
      invocation keeps the table well formed and every marked record
      backed by a delivered alert ([httpTrigger_flags_justified]); so no
      world reached from an empty table has a record marked without a
      delivered alert ([invocations_flags_justified]); and after any such
      history an invocation in which nothing fails leaves an alert
      delivered for every deployment above the threshold
      ([invocation_delivers_alerts]).
    - [Float64] and [Doubles]: doubles with integral values are closed under
      the operations of the program; [f64_of_Z] is exact up to 2^53 and on
      every representable integer; [f64_show] prints a safe integer in
      decimal digits; as long as the samples and the partial sums stay
      within 2^53, usage, decision and text of the alert are those computed
      on integers; beyond, a sample can be absorbed by the rounding and sums
      overflow to Infinity.
    - [Startup]: the module reads six variables and validates none: an unset
      resource makes the handler query a resource named [undefined]; a GET
      on the route of the function starts [httpTrigger], any other request
      starts nothing.
    - [HttpTrigger]: the handler always resolves with a response; it answers
      200 whenever the usage source answers a well-formed response, whatever
      the reconciliations do; it answers with the error of the usage source
      and touches nothing when the query fails; the usage of a deployment is
      the sum of its samples, and NaN if one has no total; the runs in which
      a time series has no name, a sample no total, and the month changes
      during the query.
    - [DateTime]: [YearFromDay] is the year that contains a day; the month
      string is YYYY-MM in the years 0 to 9999 and has seven characters
      always; the time span starts at local midnight of the first of the
      local month, which is in the month of the month string when local time
      is UTC and need not be otherwise.

    ** Bounds and assumptions

    - Numbers are those of a [JsNumber] instance.  The instance [jsnum] is
      exact on integers and has NaN; the instance [f64] rounds as doubles
      do.  Samples are integers (token counts): doubles with a fractional
      part are not modelled.
    - The settings are [option string]: a variable that is not set is
      [undefined], and an absent text prints as [undefined] in a template.
    - A run consumes one [choice] per call; a list that runs out is continued
      with the fault-free choice [normal], so [run] is total and needs no
      fuel: programs are finite trees.
    - [interleave] takes fuel, the number of calls it may run.  One
      reconciliation makes at most eleven calls ([evaluate_bounded]); the
      handler gives its pool eleven calls per task, which
      [wp_interleave_until] shows to be enough for every task to settle.
    - The theorems of [Serializable] and [EndToEnd] are about deployments
      with distinct names ([NoDup]) and runs in which no call fails
      ([fault_free], [source_replies]); with a name listed twice the tasks
      race ([Concurrency]), and with faults only the guarantees of
      [Isolation] and [Reconciler] hold.
    - Local time is UTC plus a fixed offset [tza]; a change of the offset
      within the month (daylight saving) is not modelled.
    - The metrics response is typed as the code reads it; a response whose
      [value], [timeseries], [metadatavalues] or [data] is not an array is
      not modelled.
    - Entities are typed records: the table is written by this program only,
      so [ActionDone] is a boolean and [SumToken] a number.  The [etag] and
      [timestamp] the service adds are not modelled ([updateEntity] is
      unconditional in the code).
    - The theorems on runs assume [table_wf]: each entity is stored under its
      own keys, which every operation of the table preserves.
    - The table client, the mail client, the clock and the console are not
      under [src/]: their behaviour ([exec_op], [table_get], [table_create],
      [table_update]) follows the design document and the calls the code
      makes.

    ** Not modelled

    The import statements (lines 1-15) declare names only.  The clients are
    modelled by the arguments they are built from: what the client
    libraries do with an endpoint, a table name or a connection string that
    is [undefined] happens outside [src/].  The headers and the parameters
    of the HTTP query other than the URL and the bearer token, the body of
    the request and the invocation context, which the handler does not
    read, are left out.  Samples with a fractional part and changes of the
    offset of local time within a month are outside the model. *)

From stdpp Require Import base tactics option list strings.
From Stdlib Require Import ZArith Lia.

(** ** The outcome of a fallible call: a value or an error *)

Inductive outcome (E A : Type) : Type :=
| Ok (a : A)
| Err (e : E).

Arguments Ok {E A} a.
Arguments Err {E A} e.

Definition is_ok {E A} (r : outcome E A) : bool :=
  match r with Ok _ => true | Err _ => false end.

Definition outcome_bind {E A B} (r : outcome E A) (f : A -> outcome E B) : outcome E B :=
  match r with Ok a => f a | Err e => Err e end.

Definition outcome_map {E A B} (f : A -> B) (r : outcome E A) : outcome E B :=
  match r with Ok a => Ok (f a) | Err e => Err e end.

Definition outcome_get {E A} (d : A) (r : outcome E A) : A :=
  match r with Ok a => a | Err _ => d end.

#[export] Instance outcome_eq_dec {E A} `{EqDecision E, EqDecision A} :
  EqDecision (outcome E A).
Proof. solve_decision. Defined.

(** ** Tactics and hints *)

Create HintDb monitor discriminated.
Create Rewrite HintDb monitor_rw.

(** Split on the boolean or [decide] test the goal or a hypothesis is stuck on. *)
Ltac case_test :=
  match goal with
  | |- context [if ?b then _ else _] => destruct b eqn:?
  | H : context [if ?b then _ else _] |- _ => destruct b eqn:?
  end.

(** Split on the [match] scrutinee the goal is stuck on. *)
Ltac case_scrut :=
  match goal with
  | |- context [match ?x with _ => _ end] => destruct x eqn:?
  end.

(** ** Strings *)

Lemma string_app_cons (a : Ascii.ascii) (s t : string) :
  String a s +:+ t = String a (s +:+ t).
Proof. reflexivity. Qed.

Lemma string_app_length (s t : string) :
  String.length (s +:+ t) = String.length s + String.length t.
Proof.
  induction s as [|a s IH]; [done|].
  rewrite string_app_cons. simpl. by rewrite IH.
Qed.

Lemma string_app_nil_r (s : string) : s +:+ "" = s.
Proof. induction s as [|a s IH]; [done|]. by rewrite string_app_cons, IH. Qed.

Lemma string_app_assoc (s t u : string) : (s +:+ t) +:+ u = s +:+ (t +:+ u).
Proof. induction s as [|a s IH]; [done|]. by rewrite !string_app_cons, IH. Qed.

(** The first [length s] characters of [s +:+ t] are [s]. *)
Lemma substring_app_prefix (s t : string) :
  String.substring 0 (String.length s) (s +:+ t) = s.
Proof.
  induction s as [|a s IH]; [by destruct t|].
  rewrite string_app_cons. simpl. by rewrite IH.
Qed.

(** The characters of [s +:+ t] after the first [length s] are [t]. *)
Lemma substring_app_suffix (s t : string) :
  String.substring (String.length s) (String.length t) (s +:+ t) = t.
Proof.
  induction s as [|a s IH]; [|by rewrite string_app_cons].
  change ("" +:+ t) with t. rewrite <- (string_app_nil_r t) at 2. apply substring_app_prefix.
Qed.

Lemma string_app_inj_prefix (s t1 t2 : string) : s +:+ t1 = s +:+ t2 -> t1 = t2.
Proof.
  induction s as [|a s IH]; [done|]. rewrite !string_app_cons. intros [= H]. by apply IH.
Qed.

(** Two concatenations with suffixes of the same length are equal only if
    their parts are. *)
Lemma string_app_inj_suffix (s1 s2 t1 t2 : string) :
  String.length t1 = String.length t2 ->
  s1 +:+ t1 = s2 +:+ t2 -> s1 = s2 /\ t1 = t2.
Proof.
  revert s2. induction s1 as [|a s1 IH]; intros [|b s2] Hlen Heq.
  - done.
  - apply (f_equal String.length) in Heq.
    rewrite !string_app_length in Heq. simpl in Heq. lia.
  - apply (f_equal String.length) in Heq.
    rewrite !string_app_length in Heq. simpl in Heq. lia.
  - rewrite !string_app_cons in Heq. injection Heq as -> Heq.
    destruct (IH _ Hlen Heq) as [-> ->]. done.
Qed.

#[export] Hint Rewrite string_app_length string_app_nil_r : monitor_rw.

(** ** Booleans and options *)

Lemma negb_andb_true (a b : bool) : negb a && b = true <-> a = false /\ b = true.
Proof. destruct a, b; simpl; intuition congruence. Qed.

(** ** Lists: a list that extends another by at most one element *)

Definition extends_by_at_most_one {A} (l l' : list A) : Prop :=
  l' = l \/ exists x, l' = l ++ [x].

(** Nothing of a list passes a filter that none of its elements passes. *)
Lemma filter_none {A} (P : A -> Prop) `{!forall x, Decision (P x)} (l : list A) :
  Forall (fun x => ~ P x) l -> filter P l = [].
Proof. induction 1 as [|x l Hx _ IH]; [done|]. by rewrite filter_cons_False. Qed.

Lemma extends_refl {A} (l : list A) : extends_by_at_most_one l l.
Proof. by left. Qed.

Lemma extends_snoc {A} (l : list A) (x : A) : extends_by_at_most_one l (l ++ [x]).
Proof. right. by exists x. Qed.

Lemma extends_length {A} (l l' : list A) :
  extends_by_at_most_one l l' -> length l <= length l' <= S (length l).
Proof. intros [-> | [x ->]]; rewrite ?length_app; simpl; lia. Qed.

#[export] Hint Resolve extends_refl extends_snoc : monitor.

(** ** Lists: a list split by the classes of its elements

    [P k x] says that [x] is of the class [k].  When every element of [l] is
    of exactly one class among [keys], the elements of [l] class by class are
    the elements of [l], in another order. *)

Section FilterPartition.
Context {A K : Type} (P : K -> A -> Prop) `{!forall k x, Decision (P k x)}.
Implicit Types (keys : list K) (l : list A).

Lemma bind_filter_nil keys : keys ≫= (fun k => filter (P k) []) = [].
Proof. induction keys as [|k keys IH]; [done|]. by rewrite bind_cons, IH. Qed.

Lemma bind_filter_absent x l keys :
  (forall k, k ∈ keys -> ~ P k x) ->
  keys ≫= (fun k => filter (P k) (x :: l)) = keys ≫= (fun k => filter (P k) l).
Proof.
  induction keys as [|k keys IH]; intros Hno; [done|].
  rewrite !bind_cons, filter_cons_False, IH; [done|..].
  - intros k' Hk'. by apply Hno, list_elem_of_further.
  - apply Hno, list_elem_of_here.
Qed.

Lemma bind_filter_present x l keys k0 :
  NoDup keys -> (forall k, k ∈ keys -> P k x -> k = k0) -> k0 ∈ keys -> P k0 x ->
  keys ≫= (fun k => filter (P k) (x :: l)) ≡ₚ x :: keys ≫= (fun k => filter (P k) l).
Proof.
  induction keys as [|k keys IH]; intros Hnd Huniq Hin Hx; [by apply elem_of_nil in Hin|].
  apply NoDup_cons in Hnd as [Hk Hnd]. rewrite !bind_cons.
  destruct (decide (P k x)) as [Hkx|Hkx].
  - rewrite filter_cons_True by done. rewrite bind_filter_absent; [done|].
    intros k' Hk' Hx'. apply Hk.
    rewrite (Huniq k (list_elem_of_here _ _) Hkx).
    by rewrite <- (Huniq k' (list_elem_of_further _ _ _ Hk') Hx').
  - rewrite filter_cons_False by done. apply elem_of_cons in Hin as [->|Hin]; [done|].
    rewrite IH; [by rewrite Permutation_middle | done | | done..].
    intros k' Hk'. by apply Huniq, list_elem_of_further.
Qed.

Lemma filter_partition keys l :
  NoDup keys ->
  Forall (fun x => exists k0, k0 ∈ keys /\ P k0 x /\ forall k, k ∈ keys -> P k x -> k = k0) l ->
  keys ≫= (fun k => filter (P k) l) ≡ₚ l.
Proof.
  intros Hnd. induction 1 as [|x l (k0 & Hin & Hx & Huniq) _ IH]; [by rewrite bind_filter_nil|].
  by rewrite (bind_filter_present x l keys k0), IH.
Qed.

End FilterPartition.
