(* ===== verification/JsValue.v ===== *)
(** * JsValue: the JavaScript values the program computes with

    Numbers: the code adds usage samples ([sum + d.total]), compares totals
    with [>] and prints them in the mail text.  [JsNumber] is the interface
    the components are written against: the operations, and the laws of [>]
    that hold of IEEE doubles (a strict order; NaN is above and below
    nothing).  [jsnum] is the instance used to run examples: an exact integer
    or NaN, which is what sums of integer samples below 2^53 are.

    Errors: [jserror] is the error object a rejected call carries, with the
    fields the code inspects ([statusCode], [response.status],
    [response.data], [message]). *)

From stdpp Require Import base tactics option strings pretty.
From Stdlib Require Import ZArith Lia.
From S2P Require Import Prelude.

(** ** Numbers *)

Class JsNumber (num : Type) := {
  num_eq_dec :: EqDecision num;
  (** an integer literal of the source, such as [1000] or [0] *)
  nlit : Z -> num;
  (** what [undefined] is as an operand of [+]: NaN *)
  nnan : num;
  (** [a + b] *)
  nadd : num -> num -> num;
  (** [a > b] *)
  ngt : num -> num -> bool;
  (** the text of [a] in a template literal *)
  nshow : num -> string;
  ngt_irrefl : forall a, ngt a a = false;
  ngt_trans : forall a b c, ngt a b = true -> ngt b c = true -> ngt a c = true;
}.

(** The value a high-water mark holds after [if (x > mark) mark = x]. *)
Definition raise_to {num} `{!JsNumber num} (mark x : num) : num :=
  if ngt x mark then x else mark.

(** [a] is not above [b]: what "never decreases" means when NaN is around. *)
Definition not_above {num} `{!JsNumber num} (a b : num) : Prop := ngt a b = false.

Inductive jsnum : Type :=
| JInt (z : Z)
| JNaN.

Definition jsnum_add (a b : jsnum) : jsnum :=
  match a, b with
  | JInt x, JInt y => JInt (x + y)
  | _, _ => JNaN
  end.

Definition jsnum_gt (a b : jsnum) : bool :=
  match a, b with
  | JInt x, JInt y => bool_decide (y < x)%Z
  | _, _ => false
  end.

Definition jsnum_show (a : jsnum) : string :=
  match a with
  | JInt z => pretty z
  | JNaN => "NaN"
  end.

#[export] Instance jsnum_eq_dec : EqDecision jsnum.
Proof. solve_decision. Defined.

(** ** Strings

    A value read from [process.env] is a string or [undefined]. *)

(** [`${x}`]: the text of [x] in a template literal. *)
Definition template (x : option string) : string := default "undefined" x.

(** ** Errors *)

Record http_response : Type := mkResponse {
  resp_status : Z;
  resp_data : string;
}.

Record jserror : Type := mkError {
  err_name : string;
  err_message : string;
  err_statusCode : option Z;
  err_response : option http_response;
}.

#[export] Instance http_response_eq_dec : EqDecision http_response.
Proof. solve_decision. Defined.

#[export] Instance jserror_eq_dec : EqDecision jserror.
Proof. solve_decision. Defined.

(** [new Error(message)] *)
Definition Error (message : string) : jserror :=
  mkError "Error" message None None.

(** The error of the table client for an HTTP status: it carries
    [statusCode], and the response it was built from. *)
Definition RestError (status : Z) (code : string) : jserror :=
  mkError "RestError" code (Some status) (Some (mkResponse status code)).

(** [error.statusCode === n] *)
Definition statusCode_is (n : Z) (e : jserror) : bool :=
  bool_decide (err_statusCode e = Some n).

(** ** Laws of the numbers *)

Section NumberLaws.
Context {num : Type} `{!JsNumber num}.

Lemma ngt_asym (a b : num) : ngt a b = true -> ngt b a = false.
Proof.
  intros Hab. destruct (ngt b a) eqn:Hba; [|done].
  by rewrite <- (ngt_irrefl a), (ngt_trans a b a Hab Hba).
Qed.

Lemma raise_to_not_below (mark x : num) : not_above mark (raise_to mark x).
Proof.
  unfold not_above, raise_to. destruct (ngt x mark) eqn:Hgt.
  - by apply ngt_asym.
  - apply ngt_irrefl.
Qed.

Lemma raise_to_cases (mark x : num) :
  (ngt x mark = true /\ raise_to mark x = x) \/
  (ngt x mark = false /\ raise_to mark x = mark).
Proof. unfold raise_to. destruct (ngt x mark); auto. Qed.

Lemma raise_to_idem (mark x : num) : raise_to (raise_to mark x) x = raise_to mark x.
Proof.
  unfold raise_to. destruct (ngt x mark) eqn:Hgt.
  - by rewrite ngt_irrefl.
  - by rewrite Hgt.
Qed.

End NumberLaws.

(** ** The integer-or-NaN numbers are an instance *)

Lemma jsnum_gt_irrefl (a : jsnum) : jsnum_gt a a = false.
Proof. destruct a; simpl; [|done]. apply bool_decide_eq_false. lia. Qed.

Lemma jsnum_gt_trans (a b c : jsnum) :
  jsnum_gt a b = true -> jsnum_gt b c = true -> jsnum_gt a c = true.
Proof.
  destruct a, b, c; simpl; try done.
  rewrite !bool_decide_eq_true. lia.
Qed.

#[export] Instance jsnum_JsNumber : JsNumber jsnum := {|
  nlit := JInt;
  nnan := JNaN;
  nadd := jsnum_add;
  ngt := jsnum_gt;
  nshow := jsnum_show;
  ngt_irrefl := jsnum_gt_irrefl;
  ngt_trans := jsnum_gt_trans;
|}.

Lemma jsnum_gt_int (x y : Z) : ngt (JInt x) (JInt y) = true <-> (y < x)%Z.
Proof. simpl. apply bool_decide_eq_true. Qed.

Lemma jsnum_gt_nan_l (b : jsnum) : ngt JNaN b = false.
Proof. done. Qed.

Lemma jsnum_gt_nan_r (a : jsnum) : ngt a JNaN = false.
Proof. by destruct a. Qed.

Lemma jsnum_raise_to_int (x y : Z) : raise_to (JInt x) (JInt y) = JInt (Z.max x y).
Proof.
  unfold raise_to. simpl. case_bool_decide; f_equal; lia.
Qed.

(** A stored NaN is never replaced: the mark is stuck. *)
Lemma jsnum_raise_to_nan (x : jsnum) : raise_to JNaN x = JNaN.
Proof. unfold raise_to. by rewrite jsnum_gt_nan_r. Qed.

#[export] Hint Resolve raise_to_not_below : monitor.
#[export] Hint Rewrite @raise_to_idem jsnum_raise_to_int jsnum_raise_to_nan : monitor_rw.
