(* ===== verification/Float64.v ===== *)
(** * Float64: the doubles the program computes with

    A JavaScript number is an IEEE 754 double.  The program adds the samples
    of a deployment, compares sums with [>] and prints a sum in the text of
    the alert.  When the samples are integers every number of the program is
    a double with an integral value, an infinity or NaN, and these are closed
    under [+]: the sum of two integral doubles is their exact sum rounded to
    53 significant bits, ties to even, or an infinity from 2^1024 on.  [f64]
    is that set of values; [-0] is not told from [0], as neither [+] from
    [0], [>] nor the printed text can tell them apart.

    [f64_of_Z] rounds an integer to the nearest double (what a literal of
    the source and a number of the JSON response denote), [f64_add] and
    [f64_gt] are [+] and [>], and [f64_show] is the text of a number in a
    template literal (Number::toString of ECMAScript: the shortest digits
    that read back as the same double, followed by zeros, or in exponent
    form from 10^21 on).

    The theorems: the values are closed under the operations ([f64_wf]), the
    integers up to 2^53 are exact and print as their decimal text, the digits
    of any double read back as that double, and [f64] is a [JsNumber], so
    every theorem on the reconciler and the handler holds of doubles. *)

From stdpp Require Import base tactics option list strings pretty.
From Stdlib Require Import ZArith Lia.
From S2P Require Import Prelude JsValue.

#[local] Open Scope Z_scope.

Inductive f64 : Type :=
| FInt (z : Z)
| FInf (negative : bool)
| FNaN.

#[export] Instance f64_eq_dec : EqDecision f64.
Proof. solve_decision. Defined.

(** ** Rounding *)

(** The exponent of the unit in the last place of a double of the magnitude
    of [z]: a double has 53 significant bits. *)
Definition ulp_exponent (z : Z) : Z := Z.max 0 (Z.log2 (Z.abs z) + 1 - 53).

(** [z] rounded to the nearest multiple of [2^s], a tie to the even one. *)
Definition round_to_multiple (s z : Z) : Z :=
  let q := z / 2 ^ s in
  let r := z mod 2 ^ s in
  match 2 * r ?= 2 ^ s with
  | Lt => q * 2 ^ s
  | Gt => (q + 1) * 2 ^ s
  | Eq => if Z.even q then q * 2 ^ s else (q + 1) * 2 ^ s
  end.

(** The double nearest to the integer [z]. *)
Definition f64_of_Z (z : Z) : f64 :=
  let r := round_to_multiple (ulp_exponent z) z in
  if 2 ^ 1024 <=? Z.abs r then FInf (z <? 0) else FInt r.

(** The integers that are doubles. *)
Definition is_double (z : Z) : bool :=
  (Z.abs z <? 2 ^ 1024) && (z mod 2 ^ ulp_exponent z =? 0).

Definition f64_wf (a : f64) : Prop :=
  match a with
  | FInt z => is_double z = true
  | _ => True
  end.

(** ** The operations *)

(** [a + b] *)
Definition f64_add (a b : f64) : f64 :=
  match a, b with
  | FNaN, _ | _, FNaN => FNaN
  | FInf s, FInf s' => if bool_decide (s = s') then FInf s else FNaN
  | FInf s, FInt _ | FInt _, FInf s => FInf s
  | FInt x, FInt y => f64_of_Z (x + y)
  end.

(** [a > b] *)
Definition f64_gt (a b : f64) : bool :=
  match a, b with
  | FNaN, _ | _, FNaN => false
  | FInf s, FInf s' => negb s && s'
  | FInf s, FInt _ => negb s
  | FInt _, FInf s => s
  | FInt x, FInt y => bool_decide (y < x)
  end.

(** ** The text of a number *)

Fixpoint digits10_go (fuel : nat) (x : Z) : Z :=
  match fuel with
  | O => 0
  | S fuel => if x <? 10 then 1 else 1 + digits10_go fuel (x / 10)
  end.

(** The number of decimal digits of [x], for [0 < x < 10^310]. *)
Definition digits10 (x : Z) : Z := digits10_go 310 x.

(** The double that the digits [s] followed by [n - k] zeros denote, [k] the
    number of digits of [s]. *)
Definition f64_of_digits (s n k : Z) : f64 := f64_of_Z (s * 10 ^ (n - k)).

(** The [k]-digit numbers [s] for which [s * 10^(n-k)] reads as the double
    [x]: they are among the two that enclose [x / 10^(n-k)]. *)
Definition candidates (x k n : Z) : list (Z * Z) :=
  let p := 10 ^ (n - k) in
  filter (fun c => 10 ^ (k - 1) <= c.1 < 10 ^ k /\ f64_of_digits c.1 n k = FInt x)
    [(x / p, n); (x / p + 1, n)].

Definition distance (x k : Z) (c : Z * Z) : Z := Z.abs (c.1 * 10 ^ (c.2 - k) - x).

(** The candidate closest to [x], the even one of two as close. *)
Definition closer (x k : Z) (c c' : Z * Z) : Z * Z :=
  if (distance x k c' <? distance x k c) ||
     ((distance x k c' =? distance x k c) && Z.even c'.1)
  then c' else c.

Definition closest (x k : Z) (cs : list (Z * Z)) : option (Z * Z) :=
  match cs with
  | [] => None
  | c :: cs => Some (foldl (closer x k) c cs)
  end.

(** The least [k] from [k] on, and [s] and [n] with it, such that the [k]
    digits of [s] and [n - k] zeros read as [x]. *)
Fixpoint shortest_from (fuel : nat) (x d k : Z) : option (Z * Z * Z) :=
  match fuel with
  | O => None
  | S fuel =>
      match closest x k (candidates x k d ++ candidates x k (d + 1)) with
      | Some (s, n) => Some (s, n, k)
      | None => shortest_from fuel x d (k + 1)
      end
  end.

(** [s], [n] and [k] of Number::toString for an integral double [x > 0];
    seventeen digits tell any two doubles apart. *)
Definition shortest (x : Z) : Z * Z * Z :=
  let d := digits10 x in
  default (x, d, d) (shortest_from (Z.to_nat (Z.min 17 d)) x d 1).

Fixpoint zeros_nat (n : nat) : string :=
  match n with
  | O => ""
  | S n => "0" +:+ zeros_nat n
  end.

Definition zeros (n : Z) : string := zeros_nat (Z.to_nat n).

Definition show_digits (snk : Z * Z * Z) : string :=
  let '(s, n, k) := snk in
  if n <=? 21 then pretty s +:+ zeros (n - k)
  else
    (if k =? 1 then pretty s
     else String.substring 0 1 (pretty s) +:+ "." +:+
          String.substring 1 (Z.to_nat (k - 1)) (pretty s))
    +:+ "e+" +:+ pretty (n - 1).

Definition f64_show (a : f64) : string :=
  match a with
  | FNaN => "NaN"
  | FInf negative => if negative then "-Infinity" else "Infinity"
  | FInt z =>
      if z =? 0 then "0"
      else if z <? 0 then "-" +:+ show_digits (shortest (- z))
      else show_digits (shortest z)
  end.

(** ** The doubles are numbers *)

Lemma f64_gt_irrefl (a : f64) : f64_gt a a = false.
Proof.
  destruct a as [z|[]|]; simpl; try done. apply bool_decide_eq_false. lia.
Qed.

Lemma f64_gt_trans (a b c : f64) :
  f64_gt a b = true -> f64_gt b c = true -> f64_gt a c = true.
Proof.
  destruct a as [x|[]|], b as [y|[]|], c as [z|[]|]; simpl; try done.
  rewrite !bool_decide_eq_true. lia.
Qed.

#[export] Instance f64_JsNumber : JsNumber f64 := {|
  nlit := f64_of_Z;
  nnan := FNaN;
  nadd := f64_add;
  ngt := f64_gt;
  nshow := f64_show;
  ngt_irrefl := f64_gt_irrefl;
  ngt_trans := f64_gt_trans;
|}.

(** ** Rounding is to the nearest multiple *)

Section Rounding.
Implicit Types s z : Z.

Lemma pow2_pos s : 0 < 2 ^ s \/ (s < 0 /\ 2 ^ s = 0).
Proof.
  destruct (Z.le_gt_cases 0 s); [left; by apply Z.pow_pos_nonneg|].
  right. split; [done | by apply Z.pow_neg_r].
Qed.

Lemma round_to_multiple_cases s z :
  0 <= s ->
  exists q, round_to_multiple s z = q * 2 ^ s /\ 2 * Z.abs (q * 2 ^ s - z) <= 2 ^ s /\
    (q = z / 2 ^ s \/ q = z / 2 ^ s + 1).
Proof.
  intros Hs. assert (0 < 2 ^ s) as Hp by (by apply Z.pow_pos_nonneg).
  unfold round_to_multiple.
  pose proof (Z.div_mod z (2 ^ s) ltac:(lia)) as Hz.
  pose proof (Z.mod_pos_bound z (2 ^ s) Hp) as Hr.
  destruct (Z.compare_spec (2 * (z mod 2 ^ s)) (2 ^ s)) as [He|Hlt|Hgt];
    [destruct (Z.even _)|..]; eexists; (split; [reflexivity|]); lia.
Qed.

Lemma round_to_multiple_exact s z : 0 <= s -> z mod 2 ^ s = 0 -> round_to_multiple s z = z.
Proof.
  intros Hs Hm. assert (0 < 2 ^ s) as Hp by (by apply Z.pow_pos_nonneg).
  unfold round_to_multiple. rewrite Hm.
  pose proof (Z.div_mod z (2 ^ s) ltac:(lia)) as Hz.
  destruct (Z.compare_spec (2 * 0) (2 ^ s)); lia.
Qed.

Lemma ulp_exponent_nonneg z : 0 <= ulp_exponent z.
Proof. unfold ulp_exponent. lia. Qed.

(** Below 2^53 the unit in the last place is 1. *)
Lemma ulp_exponent_small z : Z.abs z < 2 ^ 53 -> ulp_exponent z = 0.
Proof.
  intros Hz. unfold ulp_exponent.
  destruct (decide (z = 0)) as [->|Hnz]; [done|].
  assert (Z.log2 (Z.abs z) < 53) by (apply Z.log2_lt_pow2; lia). lia.
Qed.

(** From 2^53 on a double lies between 2^52 and 2^53 units in the last
    place. *)
Lemma ulp_exponent_large z :
  2 ^ 53 <= Z.abs z ->
  0 < ulp_exponent z /\
  2 ^ 52 * 2 ^ ulp_exponent z <= Z.abs z < 2 ^ 53 * 2 ^ ulp_exponent z.
Proof.
  intros Hz. unfold ulp_exponent.
  assert (53 <= Z.log2 (Z.abs z)) by (apply Z.log2_le_pow2; lia).
  rewrite Z.max_r by lia.
  destruct (Z.log2_spec (Z.abs z)) as [Hlo Hhi]; [lia|].
  replace (Z.succ (Z.log2 (Z.abs z))) with (53 + (Z.log2 (Z.abs z) + 1 - 53)) in Hhi by lia.
  replace (Z.log2 (Z.abs z)) with (52 + (Z.log2 (Z.abs z) + 1 - 53)) in Hlo at 1 by lia.
  rewrite Z.pow_add_r in Hlo, Hhi by lia. lia.
Qed.

Lemma ulp_exponent_unique s z :
  0 < s -> 2 ^ 52 * 2 ^ s <= Z.abs z < 2 ^ 53 * 2 ^ s -> ulp_exponent z = s.
Proof.
  intros Hs Hz. unfold ulp_exponent.
  rewrite <- !Z.pow_add_r in Hz by lia.
  assert (Z.log2 (Z.abs z) = 52 + s) as ->; [|lia].
  apply Z.log2_unique; [lia|]. by replace (Z.succ (52 + s)) with (53 + s) by lia.
Qed.

Lemma is_double_spec z :
  is_double z = true <-> Z.abs z < 2 ^ 1024 /\ z mod 2 ^ ulp_exponent z = 0.
Proof. unfold is_double. rewrite andb_true_iff, Z.ltb_lt, Z.eqb_eq. done. Qed.

(** A double is its own rounding. *)
Lemma f64_of_Z_double z : is_double z = true -> f64_of_Z z = FInt z.
Proof.
  intros [Hlt Hm]%is_double_spec. unfold f64_of_Z.
  rewrite round_to_multiple_exact by (done || apply ulp_exponent_nonneg).
  by rewrite (proj2 (Z.leb_gt _ _)).
Qed.

Lemma is_double_small z : Z.abs z <= 2 ^ 53 -> is_double z = true.
Proof.
  intros Hz. destruct (decide (Z.abs z = 2 ^ 53)) as [He|Hne].
  - assert (z = 2 ^ 53 \/ z = - 2 ^ 53) as [-> | ->] by lia; by vm_compute.
  - apply is_double_spec. rewrite ulp_exponent_small by lia.
    split; [|apply Z.mod_1_r]. eapply Z.le_lt_trans; [exact Hz | by vm_compute].
Qed.

(** The magnitude of a rounded integer from 2^53 on: between 2^52 and 2^53
    units in the last place of the integer, both included. *)
Lemma round_large s z q :
  0 < s -> 2 ^ 52 * 2 ^ s <= Z.abs z < 2 ^ 53 * 2 ^ s ->
  2 * Z.abs (q * 2 ^ s - z) <= 2 ^ s -> 2 ^ 52 <= Z.abs q <= 2 ^ 53.
Proof.
  intros Hs Hz Hq. assert (0 < 2 ^ s) as Hp by (apply Z.pow_pos_nonneg; lia).
  assert (0 < 2 ^ 52 /\ 2 ^ 53 = 2 * 2 ^ 52) as [H52 H53] by (by vm_compute).
  rewrite H53 in *. generalize dependent (2 ^ 52). generalize dependent (2 ^ s).
  intros P HP m Hz Hm _. nia.
Qed.

Lemma is_double_multiple s q :
  0 < s -> 2 ^ 52 <= Z.abs q <= 2 ^ 53 -> Z.abs (q * 2 ^ s) < 2 ^ 1024 ->
  is_double (q * 2 ^ s) = true.
Proof.
  intros Hs Hq Hlt. assert (0 < 2 ^ s) as Hp by (apply Z.pow_pos_nonneg; lia).
  apply is_double_spec. split; [done|].
  destruct (decide (Z.abs q = 2 ^ 53)) as [He|Hne].
  - rewrite (ulp_exponent_unique (s + 1)).
    + assert (q = 2 ^ 52 * 2 \/ q = - 2 ^ 52 * 2) as [-> | ->] by lia;
        rewrite Z.pow_add_r by lia.
      * rewrite <- Z.mul_assoc, (Z.mul_comm 2). apply Z.mod_mul. lia.
      * rewrite <- Z.mul_assoc, (Z.mul_comm 2). apply Z.mod_mul. lia.
    + lia.
    + rewrite Z.abs_mul, He, (Z.abs_eq (2 ^ s)), Z.pow_add_r by lia.
      assert (2 ^ 53 = 2 ^ 52 * 2) as -> by (by vm_compute). lia.
  - rewrite (ulp_exponent_unique s); [apply Z.mod_mul; lia | lia |].
    rewrite Z.abs_mul, (Z.abs_eq (2 ^ s)) by lia. nia.
Qed.

(** The rounding of an integer is a double or an infinity. *)
Lemma f64_of_Z_wf z : f64_wf (f64_of_Z z).
Proof.
  unfold f64_of_Z.
  destruct (round_to_multiple_cases (ulp_exponent z) z (ulp_exponent_nonneg z))
    as (q & -> & Hnear & _).
  destruct (Z.leb_spec (2 ^ 1024) (Z.abs (q * 2 ^ ulp_exponent z))) as [|Hlt]; [done|].
  simpl. destruct (Z.lt_ge_cases (Z.abs z) (2 ^ 53)) as [Hsmall|Hlarge].
  - rewrite ulp_exponent_small in * by done. apply is_double_small.
    rewrite Z.pow_0_r in *. lia.
  - destruct (ulp_exponent_large z Hlarge) as [Hs Hz].
    apply is_double_multiple; [done | by eapply round_large | done].
Qed.

Lemma f64_add_wf (a b : f64) : f64_wf (f64_add a b).
Proof.
  destruct a as [x|s|], b as [y|s'|]; simpl; try done; [apply f64_of_Z_wf|].
  by case_bool_decide.
Qed.

End Rounding.

(** ** Exact sums and rounded sums *)

Section Sums.
Implicit Types x y z : Z.

Lemma f64_of_Z_small z : Z.abs z <= 2 ^ 53 -> f64_of_Z z = FInt z.
Proof. intros Hz. by apply f64_of_Z_double, is_double_small. Qed.

(** An integer from 2^53 on does not round below 2^53. *)
Lemma f64_of_Z_large z r : 2 ^ 53 <= z -> f64_of_Z z = FInt r -> 2 ^ 53 <= r.
Proof.
  intros Hz. unfold f64_of_Z.
  destruct (round_to_multiple_cases (ulp_exponent z) z (ulp_exponent_nonneg z))
    as (q & -> & Hnear & _).
  destruct (Z.leb_spec (2 ^ 1024) (Z.abs (q * 2 ^ ulp_exponent z))) as [|_]; [done|].
  intros [= <-]. assert (0 < 2 ^ 52 /\ 2 ^ 53 = 2 * 2 ^ 52) as [H52 H53] by (by vm_compute).
  assert (2 ^ 53 <= Z.abs z) as Hz' by lia.
  destruct (ulp_exponent_large z Hz') as [Hs Hb].
  pose proof (round_large _ _ _ Hs Hb Hnear) as Hq.
  assert (1 < 2 ^ ulp_exponent z) as Hp by (apply Z.pow_gt_1; lia).
  rewrite H53 in *. remember (2 ^ 52) as m eqn:Hm. remember (2 ^ ulp_exponent z) as P eqn:HP.
  clear Hm HP H53 Hs. assert (m <= q) by nia. nia.
Qed.

(** The rounded sum is within half a unit in the last place of the sum. *)
Lemma f64_add_near x y r :
  f64_add (FInt x) (FInt y) = FInt r ->
  2 * Z.abs (r - (x + y)) <= 2 ^ ulp_exponent (x + y).
Proof.
  simpl. unfold f64_of_Z.
  destruct (round_to_multiple_cases (ulp_exponent (x + y)) (x + y) (ulp_exponent_nonneg _))
    as (q & -> & Hnear & _).
  destruct (Z.leb_spec (2 ^ 1024) (Z.abs (q * 2 ^ ulp_exponent (x + y)))); [done|].
  by intros [= <-].
Qed.

End Sums.

(** ** The digits *)

Section Digits.
Implicit Types x s n k d : Z.

Lemma digits10_go_spec (fuel : nat) x :
  0 < x < 10 ^ Z.of_nat fuel ->
  0 < digits10_go fuel x /\ 10 ^ (digits10_go fuel x - 1) <= x < 10 ^ digits10_go fuel x.
Proof.
  revert x. induction fuel as [|fuel IH]; intros x Hx; [simpl in Hx; lia|].
  simpl digits10_go. destruct (Z.ltb_spec x 10) as [Hlt|Hge].
  { change (10 ^ (1 - 1)) with 1. change (10 ^ 1) with 10. lia. }
  rewrite Nat2Z.inj_succ, Z.pow_succ_r in Hx by lia.
  destruct (IH (x / 10)) as (Hd & Hlo & Hhi); [Z.div_mod_to_equations; lia|].
  replace (1 + digits10_go fuel (x / 10) - 1) with (Z.succ (digits10_go fuel (x / 10) - 1)) by lia.
  rewrite (Z.add_comm 1), Z.add_1_r, !Z.pow_succ_r by lia.
  Z.div_mod_to_equations; lia.
Qed.

Lemma digits10_spec x :
  0 < x < 2 ^ 1024 -> 0 < digits10 x /\ 10 ^ (digits10 x - 1) <= x < 10 ^ digits10 x.
Proof.
  intros Hx. apply digits10_go_spec. split; [lia|].
  eapply Z.lt_trans; [apply Hx | by vm_compute].
Qed.

(** The number of digits of a number is determined by the powers of ten
    that enclose it. *)
Lemma digits_unique x n d :
  10 ^ (d - 1) <= x < 10 ^ d -> 10 ^ (n - 1) <= x < 10 ^ n -> 0 < d -> 0 < n -> n = d.
Proof.
  intros Hd Hn Hd0 Hn0. destruct (Z.lt_trichotomy n d) as [Hlt|[->|Hgt]]; [|done|].
  - pose proof (Z.pow_le_mono_r 10 n (d - 1) ltac:(lia) ltac:(lia)). lia.
  - pose proof (Z.pow_le_mono_r 10 d (n - 1) ltac:(lia) ltac:(lia)). lia.
Qed.

Lemma closer_cases x k c c' : closer x k c c' = c \/ closer x k c c' = c'.
Proof. unfold closer. destruct (_ || _); auto. Qed.

Lemma closest_elem_of x k cs c : closest x k cs = Some c -> c ∈ cs.
Proof.
  destruct cs as [|c0 cs]; [done|]. simpl. intros [= <-].
  revert c0. induction cs as [|c1 cs IH]; intros c0; simpl; [apply list_elem_of_here|].
  destruct (closer_cases x k c0 c1) as [-> | ->].
  - specialize (IH c0). rewrite !elem_of_cons in *. naive_solver.
  - apply list_elem_of_further, IH.
Qed.

(** What [candidates] keeps. *)
Lemma candidates_elem_of x k n s n' :
  (s, n') ∈ candidates x k n ->
  n' = n /\ 10 ^ (k - 1) <= s < 10 ^ k /\ f64_of_digits s n k = FInt x.
Proof.
  unfold candidates. rewrite list_elem_of_filter. simpl.
  rewrite !elem_of_cons, elem_of_nil. naive_solver.
Qed.

Lemma shortest_from_spec (fuel : nat) x d k s n k' :
  shortest_from fuel x d k = Some (s, n, k') ->
  (n = d \/ n = d + 1) /\ 10 ^ (k' - 1) <= s < 10 ^ k' /\ f64_of_digits s n k' = FInt x.
Proof.
  revert k. induction fuel as [|fuel IH]; intros k; simpl; [done|].
  destruct (closest x k _) as [[s0 n0]|] eqn:Hc; [|apply IH].
  intros [= -> -> ->]. apply closest_elem_of, elem_of_app in Hc.
  destruct Hc as [Hc|Hc]; apply candidates_elem_of in Hc; naive_solver.
Qed.

End Digits.

(** ** The text of the integers *)

Section Text.
Implicit Types x s n k d : Z.

Lemma pretty_N_go_app (x : N) (s t : string) :
  pretty_N_go x (s +:+ t) = pretty_N_go x s +:+ t.
Proof.
  revert s. induction (N.lt_wf_0 x) as [x _ IH]; intros s.
  destruct (decide (x = 0)%N) as [->|Hx]; [by rewrite !pretty_N_go_0|].
  rewrite (pretty_N_go_step x s), (pretty_N_go_step x (s +:+ t)) by lia.
  rewrite <- string_app_cons. apply IH, N.div_lt; lia.
Qed.

Lemma pretty_times_10 x : 0 < x -> pretty (x * 10) = pretty x +:+ "0".
Proof.
  intros Hx. destruct x as [|p|p]; try lia.
  change (Z.pos p * 10) with (Z.pos (p * 10)).
  unfold pretty, pretty_Z, pretty_positive, pretty, pretty_N.
  rewrite !decide_False by done. rewrite pretty_N_go_step by lia.
  change (N.pos (p * 10)) with (N.pos p * 10)%N.
  rewrite N.div_mul, N.Div0.mod_mul by done.
  apply (pretty_N_go_app (N.pos p) "" "0").
Qed.

Lemma zeros_nat_succ (j : nat) : zeros_nat (S j) = zeros_nat j +:+ "0".
Proof. induction j as [|j IH]; [done|]. simpl. by rewrite IH at 1. Qed.

Lemma pretty_times_pow10 s j : 0 < s -> 0 <= j -> pretty (s * 10 ^ j) = pretty s +:+ zeros j.
Proof.
  intros Hs Hj. unfold zeros. rewrite <- (Z2Nat.id j) at 1 by done.
  induction (Z.to_nat j) as [|i IH].
  - by rewrite Z.mul_1_r, string_app_nil_r.
  - rewrite Nat2Z.inj_succ, Z.pow_succ_r, zeros_nat_succ, <- string_app_assoc, <- IH by lia.
    rewrite <- pretty_times_10 by (apply Z.mul_pos_pos; [done | apply Z.pow_pos_nonneg; lia]).
    f_equal. lia.
Qed.

(** [s], [n] and [k] of a double: [k] digits that, with [n - k] zeros, read
    as the double. *)
Lemma shortest_spec x :
  is_double x = true -> 0 < x ->
  exists s n k, shortest x = (s, n, k) /\
    (n = digits10 x \/ n = digits10 x + 1) /\ 10 ^ (k - 1) <= s < 10 ^ k /\
    f64_of_digits s n k = FInt x.
Proof.
  intros Hx Hpos. unfold shortest.
  destruct (shortest_from _ x (digits10 x) 1) as [[[s n] k]|] eqn:Hs; simpl.
  - exists s, n, k. split; [done|]. by eapply shortest_from_spec.
  - exists x, (digits10 x), (digits10 x). split; [done|]. split; [by left|].
    apply is_double_spec in Hx as Hx'. split; [apply digits10_spec; lia|].
    unfold f64_of_digits. rewrite Z.sub_diag, Z.mul_1_r. by apply f64_of_Z_double.
Qed.

(** Below 2^53 the digits and the zeros are the decimal text of the
    integer. *)
Lemma shortest_safe x :
  0 < x < 2 ^ 53 ->
  exists s n k, shortest x = (s, n, k) /\ s * 10 ^ (n - k) = x /\ 0 < s /\ 0 <= n - k /\ n <= 21.
Proof.
  intros Hx. assert (2 ^ 53 < 10 ^ 16 /\ 2 ^ 53 < 2 ^ 1024) as [H16 H1024] by (by vm_compute).
  destruct (shortest_spec x) as (s & n & k & Hs & Hn & Hk & Hr); [apply is_double_small; lia | lia |].
  exists s, n, k. split; [done|]. unfold f64_of_digits in Hr.
  assert (0 <= 10 ^ (k - 1)) by (apply Z.pow_nonneg; lia).
  assert (0 <= 10 ^ (n - k)) as Hp by (apply Z.pow_nonneg; lia).
  assert (s * 10 ^ (n - k) = x) as Hv.
  { destruct (Z.lt_ge_cases (s * 10 ^ (n - k)) (2 ^ 53)) as [Hlt|Hge].
    - rewrite f64_of_Z_small in Hr by nia. by injection Hr.
    - apply (f64_of_Z_large _ x Hge) in Hr. lia. }
  destruct (digits10_spec x ltac:(lia)) as (Hd & Hlo & Hhi).
  assert (digits10 x <= 16).
  { destruct (Z.le_gt_cases (digits10 x) 16) as [|Hgt]; [done|].
    pose proof (Z.pow_le_mono_r 10 16 (digits10 x - 1) ltac:(lia) ltac:(lia)). lia. }
  split; [done|]. split; [nia|]. split; [|lia].
  destruct (Z.le_gt_cases 0 (n - k)) as [|Hneg]; [done|].
  rewrite Z.pow_neg_r in Hv by done. lia.
Qed.

Lemma show_digits_safe x : 0 < x < 2 ^ 53 -> show_digits (shortest x) = pretty x.
Proof.
  intros Hx. destruct (shortest_safe x Hx) as (s & n & k & -> & <- & Hs & Hnk & Hn).
  unfold show_digits. rewrite (proj2 (Z.leb_le _ _) Hn). by rewrite pretty_times_pow10.
Qed.

Lemma f64_show_safe z : Z.abs z < 2 ^ 53 -> f64_show (FInt z) = pretty z.
Proof.
  intros Hz. unfold f64_show. destruct (Z.eqb_spec z 0) as [->|Hnz]; [done|].
  destruct (Z.ltb_spec z 0) as [Hneg|Hpos].
  - rewrite show_digits_safe by lia. by destruct z.
  - apply show_digits_safe. lia.
Qed.

End Text.

#[global] Arguments f64_of_Z : simpl never.
#[global] Arguments f64_add : simpl never.
#[global] Arguments f64_show : simpl never.

(** ** Examples *)

Example f64_show_examples :
  f64_show (f64_of_Z 1500) = "1500" /\
  f64_show (f64_of_Z (-40)) = "-40" /\
  f64_show (f64_of_Z (2 ^ 53 + 1)) = "9007199254740992" /\
  f64_show (f64_of_Z (2 ^ 60)) = "1152921504606847000" /\
  f64_show (f64_of_Z (10 ^ 21)) = "1e+21" /\
  f64_show (f64_of_Z (10 ^ 23)) = "1e+23" /\
  f64_show (f64_of_Z (123456789 * 10 ^ 20)) = "1.23456789e+28" /\
  f64_show (f64_of_Z (2 ^ 1024 - 2 ^ 970 - 1)) = "1.7976931348623157e+308" /\
  f64_show (f64_of_Z (2 ^ 1024 - 2 ^ 970)) = "Infinity".
Proof. by vm_compute. Qed.
