(* ===== verification/DateTime.v ===== *)
(** * DateTime: the date arithmetic behind [new Date().toISOString()]

    A JavaScript [Date] is a time value: milliseconds since the epoch, UTC.
    The code turns it into text with [toISOString] (for [LastUpdated], for the
    query's time span) and takes the first seven characters as the month
    ([getCurrentMonthString]).

    The definitions follow the ECMAScript specification of the Date object
    ([Day], [TimeWithinDay], [DaysInYear], [DayFromYear], [MonthFromTime],
    [DateFromTime], ...).  The specification defines [YearFromTime] as "the
    largest year whose first day is not after t"; [YearFromDay] computes it
    from an estimate and one correction, and [YearFromDay_spec] with
    [YearFromDay_unique] prove that it is that year. *)

From stdpp Require Import base tactics list strings.
From Stdlib Require Import ZArith Lia.
From S2P Require Import Prelude.

#[local] Open Scope Z_scope.

(** ** Time values *)

Definition msPerDay : Z := 86400000.
Definition msPerHour : Z := 3600000.
Definition msPerMinute : Z := 60000.
Definition msPerSecond : Z := 1000.

Definition Day (t : Z) : Z := t / msPerDay.
Definition TimeWithinDay (t : Z) : Z := t mod msPerDay.

Definition DaysInYear (y : Z) : Z :=
  if negb (y mod 4 =? 0) then 365
  else if negb (y mod 100 =? 0) then 366
  else if negb (y mod 400 =? 0) then 365
  else 366.

Definition DayFromYear (y : Z) : Z :=
  365 * (y - 1970) + (y - 1969) / 4 - (y - 1901) / 100 + (y - 1601) / 400.

Definition TimeFromYear (y : Z) : Z := msPerDay * DayFromYear y.

(** The year of day number [d]: an estimate from the mean length of a year
    (146097 days in 400 years), corrected by at most one. *)
Definition YearFromDay (d : Z) : Z :=
  let y := 1970 + (400 * d) / 146097 in
  if d <? DayFromYear y then y - 1
  else if DayFromYear (y + 1) <=? d then y + 1
  else y.

Definition YearFromTime (t : Z) : Z := YearFromDay (Day t).

Definition InLeapYear (t : Z) : Z :=
  if DaysInYear (YearFromTime t) =? 366 then 1 else 0.

Definition DayWithinYear (t : Z) : Z := Day t - DayFromYear (YearFromTime t).

(** The month, from 0 (January) to 11. *)
Definition MonthFromTime (t : Z) : Z :=
  let d := DayWithinYear t in
  let l := InLeapYear t in
  if d <? 31 then 0
  else if d <? 59 + l then 1
  else if d <? 90 + l then 2
  else if d <? 120 + l then 3
  else if d <? 151 + l then 4
  else if d <? 181 + l then 5
  else if d <? 212 + l then 6
  else if d <? 243 + l then 7
  else if d <? 273 + l then 8
  else if d <? 304 + l then 9
  else if d <? 334 + l then 10
  else 11.

(** The day of the month, from 1. *)
Definition DateFromTime (t : Z) : Z :=
  let d := DayWithinYear t in
  let l := InLeapYear t in
  match MonthFromTime t with
  | 0 => d + 1
  | 1 => d - 30
  | 2 => d - 58 - l
  | 3 => d - 89 - l
  | 4 => d - 119 - l
  | 5 => d - 150 - l
  | 6 => d - 180 - l
  | 7 => d - 211 - l
  | 8 => d - 242 - l
  | 9 => d - 272 - l
  | 10 => d - 303 - l
  | _ => d - 333 - l
  end.

(** The day within the year on which month [m] starts, [l] being 1 in a
    leap year. *)
Definition MonthStartDay (m l : Z) : Z :=
  match m with
  | 0 => 0
  | 1 => 31
  | 2 => 59 + l
  | 3 => 90 + l
  | 4 => 120 + l
  | 5 => 151 + l
  | 6 => 181 + l
  | 7 => 212 + l
  | 8 => 243 + l
  | 9 => 273 + l
  | 10 => 304 + l
  | _ => 334 + l
  end.

(** [MakeDay(year, month, 1)] for a month from 0 to 11. *)
Definition MakeDay1 (y m : Z) : Z :=
  DayFromYear y + MonthStartDay m (if DaysInYear y =? 366 then 1 else 0).

Definition MakeDate (day time : Z) : Z := day * msPerDay + time.

(** Local time, for a time zone [tza] milliseconds ahead of UTC. *)
Definition LocalTime (tza t : Z) : Z := t + tza.
Definition UTC (tza t : Z) : Z := t - tza.

(** [new Date(today.getFullYear(), today.getMonth(), 1)]: midnight, local
    time, of the first day of the local month of [today]. *)
Definition startOfLocalMonth (tza today : Z) : Z :=
  UTC tza (MakeDate (MakeDay1 (YearFromTime (LocalTime tza today))
                              (MonthFromTime (LocalTime tza today))) 0).

Definition HourFromTime (t : Z) : Z := (t / msPerHour) mod 24.
Definition MinFromTime (t : Z) : Z := (t / msPerMinute) mod 60.
Definition SecFromTime (t : Z) : Z := (t / msPerSecond) mod 60.
Definition msFromTime (t : Z) : Z := t mod msPerSecond.

(** ** Text *)

Definition digit_char (d : Z) : Ascii.ascii :=
  Ascii.ascii_of_nat (48 + Z.to_nat (d mod 10)).

(** The last [w] decimal digits of [n], zero padded. *)
Fixpoint pad_digits (w : nat) (n : Z) : string :=
  match w with
  | O => ""
  | S w' => pad_digits w' (n / 10) +:+ String (digit_char n) ""
  end.

(** The year of an ISO date: four digits, or a sign and six digits outside
    0..9999. *)
Definition iso_year (y : Z) : string :=
  if (0 <=? y) && (y <=? 9999) then pad_digits 4 y
  else (if y <? 0 then "-" else "+") +:+ pad_digits 6 (Z.abs y).

(** [new Date(t).toISOString()] : YYYY-MM-DDTHH:mm:ss.sssZ *)
Definition toISOString (t : Z) : string :=
  iso_year (YearFromTime t) +:+ "-" +:+ pad_digits 2 (MonthFromTime t + 1) +:+ "-" +:+
  pad_digits 2 (DateFromTime t) +:+ "T" +:+ pad_digits 2 (HourFromTime t) +:+ ":" +:+
  pad_digits 2 (MinFromTime t) +:+ ":" +:+ pad_digits 2 (SecFromTime t) +:+ "." +:+
  pad_digits 3 (msFromTime t) +:+ "Z".

(** [s.slice(0, n)] for [n] within the length or not *)
Definition slice_to (n : nat) (s : string) : string := String.substring 0 n s.

(** The month of a time value as the code writes it: [toISOString().slice(0, 7)]. *)
Definition monthStringOf (t : Z) : string := slice_to 7 (toISOString t).

(** ** The year of a day *)

Lemma DayFromYear_bounds (y : Z) :
  146097 * (y - 1970) - 600 <= 400 * DayFromYear y <= 146097 * (y - 1970) + 600.
Proof. unfold DayFromYear. Z.div_mod_to_equations. lia. Qed.

Lemma DayFromYear_step (y : Z) : 365 <= DayFromYear (y + 1) - DayFromYear y <= 366.
Proof. unfold DayFromYear. Z.div_mod_to_equations. lia. Qed.

Lemma DayFromYear_DaysInYear (y : Z) : DayFromYear (y + 1) = DayFromYear y + DaysInYear y.
Proof.
  unfold DayFromYear, DaysInYear.
  repeat case_test; simpl in *; Z.div_mod_to_equations; lia.
Qed.

Lemma DayFromYear_lt (y1 y2 : Z) : y1 < y2 -> DayFromYear y1 < DayFromYear y2.
Proof. unfold DayFromYear. intros Hlt. Z.div_mod_to_equations. lia. Qed.

(** [YearFromDay d] is a year that contains day [d]. *)
Theorem YearFromDay_spec (d : Z) :
  DayFromYear (YearFromDay d) <= d < DayFromYear (YearFromDay d + 1).
Proof.
  unfold YearFromDay. cbv zeta.
  set (y := 1970 + 400 * d / 146097).
  assert (Hy : 146097 * (y - 1970) <= 400 * d < 146097 * (y - 1970) + 146097).
  { unfold y. Z.div_mod_to_equations. lia. }
  clearbody y.
  pose proof (DayFromYear_bounds (y - 1)). pose proof (DayFromYear_bounds (y + 1 + 1)).
  pose proof (DayFromYear_step y). pose proof (DayFromYear_step (y + 1)).
  destruct (d <? DayFromYear y) eqn:E1; [apply Z.ltb_lt in E1 | apply Z.ltb_ge in E1].
  - replace (y - 1 + 1) with y by lia. lia.
  - destruct (DayFromYear (y + 1) <=? d) eqn:E2;
      [apply Z.leb_le in E2 | apply Z.leb_gt in E2]; lia.
Qed.

(** It is the only one: the largest year that starts on or before [d]. *)
Theorem YearFromDay_unique (d y : Z) :
  DayFromYear y <= d < DayFromYear (y + 1) -> YearFromDay d = y.
Proof.
  intros Hy. pose proof (YearFromDay_spec d) as Hs.
  destruct (Z.lt_trichotomy (YearFromDay d) y) as [Hlt | [Heq | Hgt]]; [|done|].
  - destruct (decide (YearFromDay d + 1 = y)) as [<-|Hne]; [lia|].
    pose proof (DayFromYear_lt (YearFromDay d + 1) y). lia.
  - destruct (decide (YearFromDay d = y + 1)) as [Heq|Hne]; [rewrite Heq in Hs; lia|].
    pose proof (DayFromYear_lt (y + 1) (YearFromDay d)). lia.
Qed.

Lemma DayWithinYear_range (t : Z) :
  0 <= DayWithinYear t < DaysInYear (YearFromTime t).
Proof.
  unfold DayWithinYear, YearFromTime.
  pose proof (YearFromDay_spec (Day t)) as Hs.
  rewrite DayFromYear_DaysInYear in Hs. lia.
Qed.

Lemma DaysInYear_cases (y : Z) : DaysInYear y = 365 \/ DaysInYear y = 366.
Proof. unfold DaysInYear. repeat case_test; auto. Qed.

Lemma MonthFromTime_range (t : Z) : 0 <= MonthFromTime t <= 11.
Proof. unfold MonthFromTime. cbv zeta. repeat case_test; lia. Qed.

(** ** The first day of a month *)

Lemma DayFromYear_next (y : Z) :
  DayFromYear (y + 1) = DayFromYear y + 365 + (if DaysInYear y =? 366 then 1 else 0).
Proof. rewrite DayFromYear_DaysInYear. destruct (DaysInYear_cases y) as [-> | ->]; simpl; lia. Qed.

Lemma MonthStartDay_range (m l : Z) : 0 <= l <= 1 -> 0 <= MonthStartDay m l <= 335.
Proof. intros Hl. unfold MonthStartDay. repeat case_scrut; lia. Qed.

(** The first of the month lies in its year. *)
Lemma MakeDay1_year (y m : Z) : YearFromDay (MakeDay1 y m) = y.
Proof.
  apply YearFromDay_unique. unfold MakeDay1. rewrite DayFromYear_next.
  pose proof (MonthStartDay_range m (if DaysInYear y =? 366 then 1 else 0)).
  destruct (DaysInYear y =? 366); lia.
Qed.

Lemma Day_MakeDate (day : Z) : Day (MakeDate day 0) = day.
Proof. unfold Day, MakeDate, msPerDay. Z.div_mod_to_equations. lia. Qed.

Lemma TimeWithinDay_MakeDate (day : Z) : TimeWithinDay (MakeDate day 0) = 0.
Proof. unfold TimeWithinDay, MakeDate, msPerDay. Z.div_mod_to_equations. lia. Qed.

(** ... in its month ... *)
Lemma MakeDay1_month (y m : Z) :
  0 <= m <= 11 -> MonthFromTime (MakeDate (MakeDay1 y m) 0) = m.
Proof.
  intros Hm. unfold MonthFromTime, DayWithinYear, InLeapYear, YearFromTime.
  rewrite Day_MakeDate, MakeDay1_year. unfold MakeDay1. cbv zeta.
  destruct (DaysInYear y =? 366);
    assert (m = 0 \/ m = 1 \/ m = 2 \/ m = 3 \/ m = 4 \/ m = 5 \/ m = 6 \/ m = 7 \/
            m = 8 \/ m = 9 \/ m = 10 \/ m = 11) as Hcases by lia;
    repeat (destruct Hcases as [->|Hcases]); subst; reflexivity || (simpl; repeat case_test; lia).
Qed.

(** ... and is its day 1. *)
Lemma MakeDay1_date (y m : Z) :
  0 <= m <= 11 -> DateFromTime (MakeDate (MakeDay1 y m) 0) = 1.
Proof.
  intros Hm. unfold DateFromTime. rewrite (MakeDay1_month y m Hm).
  unfold DayWithinYear, InLeapYear, YearFromTime.
  rewrite Day_MakeDate, MakeDay1_year. unfold MakeDay1. cbv zeta.
  destruct (DaysInYear y =? 366);
    assert (m = 0 \/ m = 1 \/ m = 2 \/ m = 3 \/ m = 4 \/ m = 5 \/ m = 6 \/ m = 7 \/
            m = 8 \/ m = 9 \/ m = 10 \/ m = 11) as Hcases by lia;
    repeat (destruct Hcases as [->|Hcases]); subst; simpl; lia.
Qed.

(** The first of the month of [t] is not after [t]. *)
Lemma MakeDay1_le (t : Z) : MakeDay1 (YearFromTime t) (MonthFromTime t) <= Day t.
Proof.
  unfold MakeDay1, MonthFromTime, InLeapYear, DayWithinYear. cbv zeta.
  pose proof (DayWithinYear_range t) as Hr. unfold DayWithinYear in Hr.
  destruct (DaysInYear (YearFromTime t) =? 366); repeat case_test; simpl; lia.
Qed.

(** ** Lengths *)

Lemma pad_digits_length (w : nat) (n : Z) : String.length (pad_digits w n) = w.
Proof.
  revert n. induction w as [|w IH]; intros n; simpl; [done|].
  rewrite string_app_length, IH. simpl. lia.
Qed.

Lemma iso_year_length (y : Z) :
  String.length (iso_year y) = if (0 <=? y) && (y <=? 9999) then 4%nat else 7%nat.
Proof.
  unfold iso_year. destruct ((0 <=? y) && (y <=? 9999)).
  - apply pad_digits_length.
  - rewrite string_app_length, pad_digits_length. by destruct (y <? 0).
Qed.

Lemma toISOString_length (t : Z) :
  String.length (toISOString t) =
  if (0 <=? YearFromTime t) && (YearFromTime t <=? 9999) then 24%nat else 27%nat.
Proof.
  unfold toISOString.
  rewrite !string_app_length, !pad_digits_length, iso_year_length.
  by destruct ((0 <=? YearFromTime t) && (YearFromTime t <=? 9999)).
Qed.

Lemma substring_length (n : nat) (s : string) :
  (n <= String.length s)%nat -> String.length (String.substring 0 n s) = n.
Proof.
  revert s. induction n as [|n IH]; intros [|a s] Hn; simpl in *; try done; try lia.
  rewrite IH; [done | lia].
Qed.

Lemma monthStringOf_length (t : Z) : String.length (monthStringOf t) = 7%nat.
Proof.
  apply substring_length. rewrite toISOString_length. case_test; lia.
Qed.

#[export] Hint Rewrite pad_digits_length monthStringOf_length : monitor_rw.

(** ** The month string *)

(** C33: In the years 0 to 9999 the month string is the four digits of the UTC
    year, a dash and the two digits of the UTC month, counted from 1. *)
Theorem monthStringOf_spec (t : Z) :
  0 <= YearFromTime t <= 9999 ->
  monthStringOf t = pad_digits 4 (YearFromTime t) +:+ "-" +:+ pad_digits 2 (MonthFromTime t + 1).
Proof.
  intros Hy. unfold monthStringOf, slice_to, toISOString, iso_year.
  replace ((0 <=? YearFromTime t) && (YearFromTime t <=? 9999)) with true
    by (symmetry; apply andb_true_iff; lia).
  set (month := pad_digits 4 (YearFromTime t) +:+ "-" +:+ pad_digits 2 (MonthFromTime t + 1)).
  assert (String.length month = 7%nat) as <-.
  { unfold month. by rewrite !string_app_length, !pad_digits_length. }
  rewrite <- (string_app_assoc "-" (pad_digits 2 (MonthFromTime t + 1))),
    <- (string_app_assoc (pad_digits 4 _)).
  apply substring_app_prefix.
Qed.

(** ** The start of the local month *)

(** C34: [new Date(today.getFullYear(), today.getMonth(), 1)] is, in local time,
    midnight of day 1 of the year and month of [today], and it is not after
    [today]. *)
Theorem startOfLocalMonth_spec (tza today : Z) :
  YearFromTime (LocalTime tza (startOfLocalMonth tza today)) = YearFromTime (LocalTime tza today) /\
  MonthFromTime (LocalTime tza (startOfLocalMonth tza today)) = MonthFromTime (LocalTime tza today) /\
  DateFromTime (LocalTime tza (startOfLocalMonth tza today)) = 1 /\
  TimeWithinDay (LocalTime tza (startOfLocalMonth tza today)) = 0 /\
  startOfLocalMonth tza today <= today.
Proof.
  unfold startOfLocalMonth, LocalTime, UTC.
  set (t := today + tza). pose proof (MonthFromTime_range t) as Hm.
  replace (MakeDate (MakeDay1 (YearFromTime t) (MonthFromTime t)) 0 - tza + tza)
    with (MakeDate (MakeDay1 (YearFromTime t) (MonthFromTime t)) 0) by lia.
  repeat split.
  - unfold YearFromTime at 1. by rewrite Day_MakeDate, MakeDay1_year.
  - by apply MakeDay1_month.
  - by apply MakeDay1_date.
  - apply TimeWithinDay_MakeDate.
  - pose proof (MakeDay1_le t) as Hle. unfold MakeDate.
    assert (Day t * msPerDay <= t); [|unfold t in *; unfold msPerDay in *; nia].
    unfold Day, msPerDay. Z.div_mod_to_equations. lia.
Qed.

(** When local time is UTC, the time span of the query starts in the month
    [getCurrentMonthString] names. *)
Theorem startOfLocalMonth_month_utc (today : Z) :
  0 <= YearFromTime today <= 9999 ->
  monthStringOf (startOfLocalMonth 0 today) = monthStringOf today.
Proof.
  intros Hy. destruct (startOfLocalMonth_spec 0 today) as (Hyear & Hmonth & _).
  unfold LocalTime in Hyear, Hmonth. rewrite !Z.add_0_r in Hyear, Hmonth.
  rewrite !monthStringOf_spec; [by rewrite Hyear, Hmonth | done | by rewrite Hyear].
Qed.


Lemma startOfLocalMonth_month_utc_witness :
  0 <= YearFromTime 1730159999999 <= 9999 /\
  monthStringOf (startOfLocalMonth 0 1730159999999) = monthStringOf 1730159999999.
Proof.
  assert (0 <= YearFromTime 1730159999999 <= 9999) as Hy by (vm_compute; split; discriminate).
  split; [done|]. apply (startOfLocalMonth_month_utc _ Hy).
Defined.

(** Outside these years the slice is not a month: it is the sign and the six
    digits of the year. *)
Example monthStringOf_year_10000 : monthStringOf 253402300800000 = "+010000".
Proof. reflexivity. Qed.

Lemma monthStringOf_spec_witness :
  0 <= YearFromTime 1730159999999 <= 9999 /\
  monthStringOf 1730159999999 =
    pad_digits 4 (YearFromTime 1730159999999) +:+ "-" +:+ pad_digits 2 (MonthFromTime 1730159999999 + 1).
Proof.
  assert (0 <= YearFromTime 1730159999999 <= 9999) as Hy by (vm_compute; split; discriminate).
  split; [done|]. apply (monthStringOf_spec _ Hy).
Defined.

(** ** Known dates *)

Example toISOString_epoch : toISOString 0 = "1970-01-01T00:00:00.000Z".
Proof. reflexivity. Qed.

Example toISOString_2024_10_28 :
  toISOString 1730159999999 = "2024-10-28T23:59:59.999Z".
Proof. reflexivity. Qed.

Example toISOString_leap_day :
  toISOString 1709164800000 = "2024-02-29T00:00:00.000Z".
Proof. reflexivity. Qed.

Example toISOString_before_epoch :
  toISOString (-1) = "1969-12-31T23:59:59.999Z".
Proof. reflexivity. Qed.

Example monthStringOf_2024_10 : monthStringOf 1730159999999 = "2024-10".
Proof. reflexivity. Qed.
