(* ===== verification/Metrics.v ===== *)
(** * Metrics: what the metrics API answers

    The parts of the response of the Azure Monitor metrics query that
    [httpTrigger] reads: [response.data.value[0].timeseries], and of each
    time series [metadatavalues[0].value] (the deployment's name) and
    [data], the daily samples with their [total].  A sample of a day without
    traffic has no [total]. *)

From stdpp Require Import base tactics option list strings.
From Stdlib Require Import ZArith.

Record Sample : Type := mkSample {
  total : option Z;
}.

Record TimeSeries : Type := mkTimeSeries {
  metadatavalues : list string;
  data : list Sample;
}.

Record Metric : Type := mkMetric {
  timeseries : list TimeSeries;
}.

Record MetricsData : Type := mkMetricsData {
  value : list Metric;
}.

(** What the identity service and the metrics API answer to a call, and
    which of the pending tasks the runtime resumes next. *)
Record reply : Type := mkReply {
  rp_token : string;
  rp_metrics : MetricsData;
  rp_pick : nat;
}.

Definition no_reply : reply := mkReply "" (mkMetricsData []) 0.

#[export] Instance Sample_eq_dec : EqDecision Sample.
Proof. solve_decision. Defined.

#[export] Instance TimeSeries_eq_dec : EqDecision TimeSeries.
Proof. solve_decision. Defined.

#[export] Instance Metric_eq_dec : EqDecision Metric.
Proof. solve_decision. Defined.

#[export] Instance MetricsData_eq_dec : EqDecision MetricsData.
Proof. solve_decision. Defined.

#[export] Instance reply_eq_dec : EqDecision reply.
Proof. solve_decision. Defined.
