(* ===== verification/Table.v ===== *)
(** * Table: the usage record and the table client's contract

    [Entity] is the object the code stores: the literal of
    [evaluateTokenUsageForAlert] with its five fields.  The table is a finite
    map from (partitionKey, rowKey) to entities; [table_get], [table_create]
    and [table_update] are what the service answers to [getEntity],
    [createEntity] and [updateEntity]: a missing entity is a 404, creating an
    existing one a 409, and an update (merge mode, no etag condition, every
    field given) replaces the stored entity. *)

From stdpp Require Import base tactics option strings gmap.
From Stdlib Require Import ZArith.
From S2P Require Import Prelude JsValue.

Record Entity (num : Type) : Type := mkEntity {
  partitionKey : string;
  rowKey : string;
  SumToken : num;
  ActionDone : bool;
  LastUpdated : string;
}.

Arguments mkEntity {num} _ _ _ _ _.
Arguments partitionKey {num} _.
Arguments rowKey {num} _.
Arguments SumToken {num} _.
Arguments ActionDone {num} _.
Arguments LastUpdated {num} _.

#[export] Instance Entity_eq_dec {num} `{EqDecision num} : EqDecision (Entity num).
Proof. solve_decision. Defined.

(** [entity.ActionDone = v], [entity.SumToken = v], [entity.LastUpdated = v] *)
Definition set_ActionDone {num} (v : bool) (e : Entity num) : Entity num :=
  mkEntity (partitionKey e) (rowKey e) (SumToken e) v (LastUpdated e).

Definition set_SumToken {num} (v : num) (e : Entity num) : Entity num :=
  mkEntity (partitionKey e) (rowKey e) v (ActionDone e) (LastUpdated e).

Definition set_LastUpdated {num} (v : string) (e : Entity num) : Entity num :=
  mkEntity (partitionKey e) (rowKey e) (SumToken e) (ActionDone e) v.

Definition entity_key {num} (e : Entity num) : string * string :=
  (partitionKey e, rowKey e).

Lemma entity_key_set_ActionDone {num} (v : bool) (e : Entity num) :
  entity_key (set_ActionDone v e) = entity_key e.
Proof. done. Qed.

Lemma entity_key_set_SumToken {num} (v : num) (e : Entity num) :
  entity_key (set_SumToken v e) = entity_key e.
Proof. done. Qed.

Lemma entity_key_set_LastUpdated {num} (v : string) (e : Entity num) :
  entity_key (set_LastUpdated v e) = entity_key e.
Proof. done. Qed.

#[export] Hint Rewrite @entity_key_set_ActionDone @entity_key_set_SumToken
  @entity_key_set_LastUpdated : monitor_rw.

Abbreviation table num := (gmap (string * string) (Entity num)).

(** A table holds each entity under its own key. *)
Definition table_wf {num} (t : table num) : Prop :=
  forall k e, t !! k = Some e -> entity_key e = k.

Section Contract.
Context {num : Type}.
Implicit Types (t : table num) (e : Entity num).

Definition table_get (pk rk : string) t : outcome jserror (Entity num) :=
  match t !! (pk, rk) with
  | Some e => Ok e
  | None => Err (RestError 404 "ResourceNotFound")
  end.

Definition table_create e t : table num * outcome jserror unit :=
  match t !! entity_key e with
  | Some _ => (t, Err (RestError 409 "EntityAlreadyExists"))
  | None => (<[entity_key e := e]> t, Ok tt)
  end.

Definition table_update e t : table num * outcome jserror unit :=
  match t !! entity_key e with
  | Some _ => (<[entity_key e := e]> t, Ok tt)
  | None => (t, Err (RestError 404 "ResourceNotFound"))
  end.

(** ** The contract *)

Lemma table_get_Ok pk rk t e :
  table_get pk rk t = Ok e <-> t !! (pk, rk) = Some e.
Proof. unfold table_get. destruct (t !! (pk, rk)); split; congruence. Qed.

Lemma table_get_Err pk rk t err :
  table_get pk rk t = Err err ->
  t !! (pk, rk) = None /\ err_statusCode err = Some 404%Z.
Proof. unfold table_get. destruct (t !! (pk, rk)); [done|]. by intros [= <-]. Qed.

Lemma table_create_lookup e t k :
  (table_create e t).1 !! k =
  if decide (k = entity_key e) then Some (default e (t !! k)) else t !! k.
Proof.
  unfold table_create. destruct (t !! entity_key e) eqn:Hl; simpl.
  - case_decide; [subst; by rewrite Hl | done].
  - case_decide; [subst; by rewrite lookup_insert_eq, Hl | by rewrite lookup_insert_ne].
Qed.

Lemma table_create_Ok e t :
  (table_create e t).2 = Ok tt <-> t !! entity_key e = None.
Proof. unfold table_create. destruct (t !! entity_key e); simpl; split; congruence. Qed.

Lemma table_create_Err e t err :
  (table_create e t).2 = Err err ->
  (table_create e t).1 = t /\ is_Some (t !! entity_key e) /\ err_statusCode err = Some 409%Z.
Proof.
  unfold table_create. destruct (t !! entity_key e); simpl; [|done].
  intros [= <-]. eauto.
Qed.

Lemma table_update_lookup e t k :
  (table_update e t).1 !! k =
  if decide (k = entity_key e) then const e <$> t !! k else t !! k.
Proof.
  unfold table_update. destruct (t !! entity_key e) eqn:Hl; simpl.
  - case_decide; [subst; by rewrite lookup_insert_eq, Hl | by rewrite lookup_insert_ne].
  - case_decide; [subst; by rewrite Hl | done].
Qed.

Lemma table_update_Ok e t :
  (table_update e t).2 = Ok tt <-> is_Some (t !! entity_key e).
Proof.
  unfold table_update. destruct (t !! entity_key e); simpl; split; eauto; try congruence.
  by intros [? ?].
Qed.

(** No call of the contract removes or adds a key other than the entity's,
    and the keys stay the entities' own. *)
Lemma table_create_wf e t : table_wf t -> table_wf (table_create e t).1.
Proof.
  intros Hwf k e'. rewrite table_create_lookup. case_decide as Hk.
  - subst. destruct (t !! entity_key e) eqn:Hl; simpl; intros [= <-]; eauto.
  - apply Hwf.
Qed.

Lemma table_update_wf e t : table_wf t -> table_wf (table_update e t).1.
Proof.
  intros Hwf k e'. rewrite table_update_lookup. case_decide as Hk.
  - subst. destruct (t !! entity_key e); simpl; [by intros [= <-] | done].
  - apply Hwf.
Qed.

Lemma table_create_dom e t : dom (table_create e t).1 = {[entity_key e]} ∪ dom t.
Proof.
  unfold table_create. destruct (t !! entity_key e) eqn:Hl; simpl.
  - apply elem_of_dom_2 in Hl. set_solver.
  - by rewrite dom_insert_L.
Qed.

Lemma table_update_dom e t : dom (table_update e t).1 = dom t.
Proof.
  unfold table_update. destruct (t !! entity_key e) eqn:Hl; simpl; [|done].
  apply elem_of_dom_2 in Hl. rewrite dom_insert_L. set_solver.
Qed.

End Contract.

#[export] Hint Resolve table_create_wf table_update_wf : monitor.
