(* ===== verification/Effects.v ===== *)
(** * Effects: asynchronous programs, the services they call, and faults

    The functions of [httpTrigger.ts] are [async]: they call the table
    client, the mail client, the clock and the console, and every call can
    reject.  A program is a finite tree: [Ret] a value, [Throw] an error, or
    [Do] a call and continue with its outcome.  [await_] is the code's
    [await] (a rejection is rethrown) and [try_catch] its [try]/[catch].

    The [world] is the state of the services.  [exec_op] runs one call in a
    world under the environment's [choice]: how much time passed, whether the
    call failed before or after taking effect, and which final status the
    mail service reports.  [run] runs a program under a list of choices, and
    [wpe E p Q w] says that [Q] holds of the final world and outcome of [p]
    from [w] whatever the environment chooses within [E]; [wp] is [wpe] of
    the environment that may choose anything, [faultless] the environment in
    which every call is answered and the mail delivered. *)

From stdpp Require Import base tactics option list strings gmap.
From Stdlib Require Import ZArith Lia.
From S2P Require Import Prelude JsValue Metrics Table.

(** ** Data of the services *)

Record EmailMessage : Type := mkEmail {
  senderAddress : option string;
  recipients : list (option string);
  subject : string;
  plainText : string;
}.

#[export] Instance EmailMessage_eq_dec : EqDecision EmailMessage.
Proof. solve_decision. Defined.

Inductive logline : Type :=
| LogInfo (text : string)
| LogInfoError (text : string) (e : jserror)
| LogError (text : string) (deployment : string) (e : jserror).

#[export] Instance logline_eq_dec : EqDecision logline.
Proof. solve_decision. Defined.

Inductive fault : Type :=
| NoFault
| FailBefore (e : jserror)
| FailAfter (e : jserror).

Record choice : Type := mkChoice {
  ch_tick : N;
  ch_fault : fault;
  ch_status : string;
  ch_reply : reply;
}.

(** The environment at its best: no time passes, nothing fails, mail is
    delivered. *)
Definition normal : choice := mkChoice 0 NoFault "Succeeded" no_reply.

Definition failing_before (e : jserror) : choice :=
  mkChoice 0 (FailBefore e) "Succeeded" no_reply.
Definition failing_after (e : jserror) : choice :=
  mkChoice 0 (FailAfter e) "Succeeded" no_reply.
Definition mail_status (s : string) : choice := mkChoice 0 NoFault s no_reply.
Definition replying (token : string) (metrics : MetricsData) : choice :=
  mkChoice 0 NoFault "Succeeded" (mkReply token metrics 0).
Definition picking (i : nat) : choice :=
  mkChoice 0 NoFault "Succeeded" (mkReply "" (mkMetricsData []) i).

(** The choices at which the service answers and the mail is delivered. *)
Definition fault_free (c : choice) : Prop :=
  ch_fault c = NoFault /\ ch_status c = "Succeeded".

Section Effects.
Context {num : Type}.

(** ** Calls *)

Inductive op : Type -> Type :=
| GetEntity (pk rk : string) : op (Entity num)
| CreateEntity (e : Entity num) : op unit
| UpdateEntity (e : Entity num) : op unit
| BeginSend (m : EmailMessage) : op nat
| PollUntilDone (poller : nat) : op string
| DateNow : op Z
| ConsoleLog (text : string) : op unit
| ConsoleError (text deployment : string) (e : jserror) : op unit
| GetToken (scope : string) : op string
| AxiosGet (url authorization : string) : op MetricsData
| ConsoleLogError (text : string) (e : jserror) : op unit
| Schedule (n : nat) : op nat.

(** ** Programs *)

Inductive prog (A : Type) : Type :=
| Ret (a : A)
| Throw (e : jserror)
| Do {R : Type} (o : op R) (k : outcome jserror R -> prog A).

Arguments Ret {A} a.
Arguments Throw {A} e.
Arguments Do {A R} o k.

Fixpoint bind {A B} (p : prog A) (f : A -> prog B) : prog B :=
  match p with
  | Ret a => f a
  | Throw e => Throw e
  | Do o k => Do o (fun r => bind (k r) f)
  end.

(** [try { p } catch (error) { h error }] *)
Fixpoint try_catch {A} (p : prog A) (h : jserror -> prog A) : prog A :=
  match p with
  | Ret a => Ret a
  | Throw e => h e
  | Do o k => Do o (fun r => try_catch (k r) h)
  end.

(** [await o]: the value of a call that resolved; a rejection is thrown. *)
Definition await_ {R} (o : op R) : prog R :=
  Do o (fun r => match r with Ok v => Ret v | Err e => Throw e end).

(** ** The world *)

Record world : Type := mkWorld {
  w_table : table num;
  w_submitted : list EmailMessage;
  w_outbox : list EmailMessage;
  w_clock : Z;
  w_console : list logline;
}.

Definition set_table (t : table num) (w : world) : world :=
  mkWorld t (w_submitted w) (w_outbox w) (w_clock w) (w_console w).

Definition submit (m : EmailMessage) (w : world) : world :=
  mkWorld (w_table w) (w_submitted w ++ [m]) (w_outbox w) (w_clock w) (w_console w).

Definition deliver (m : EmailMessage) (w : world) : world :=
  mkWorld (w_table w) (w_submitted w) (w_outbox w ++ [m]) (w_clock w) (w_console w).

Definition advance (n : N) (w : world) : world :=
  mkWorld (w_table w) (w_submitted w) (w_outbox w) (w_clock w + Z.of_N n) (w_console w).

Definition log (l : logline) (w : world) : world :=
  mkWorld (w_table w) (w_submitted w) (w_outbox w) (w_clock w) (w_console w ++ [l]).

(** What a call does when the service answers. *)
Definition effect {R} (o : op R) (c : choice) (w : world) : world * outcome jserror R :=
  match o in op R return world * outcome jserror R with
  | GetEntity pk rk => (w, table_get pk rk (w_table w))
  | CreateEntity e =>
      (set_table (table_create e (w_table w)).1 w, (table_create e (w_table w)).2)
  | UpdateEntity e =>
      (set_table (table_update e (w_table w)).1 w, (table_update e (w_table w)).2)
  | BeginSend m => (submit m w, Ok (length (w_submitted w)))
  | PollUntilDone poller =>
      match w_submitted w !! poller with
      | Some m =>
          if String.eqb (ch_status c) "Succeeded"
          then (deliver m w, Ok (ch_status c))
          else (w, Ok (ch_status c))
      | None => (w, Err (Error "unknown operation"))
      end
  | DateNow => (w, Ok (w_clock w))
  | ConsoleLog text => (log (LogInfo text) w, Ok tt)
  | ConsoleError text d e => (log (LogError text d e) w, Ok tt)
  | GetToken _ => (w, Ok (rp_token (ch_reply c)))
  | AxiosGet _ _ => (w, Ok (rp_metrics (ch_reply c)))
  | ConsoleLogError text e => (log (LogInfoError text e) w, Ok tt)
  | Schedule n => (w, Ok (rp_pick (ch_reply c) mod n))
  end.

(** The clock and the console are local: they cannot fail. *)
Definition is_remote {R} (o : op R) : bool :=
  match o with
  | DateNow | ConsoleLog _ | ConsoleError _ _ _ | ConsoleLogError _ _ | Schedule _ => false
  | _ => true
  end.

Definition exec_op {R} (o : op R) (c : choice) (w : world) : world * outcome jserror R :=
  let w := advance (ch_tick c) w in
  if is_remote o then
    match ch_fault c with
    | NoFault => effect o c w
    | FailBefore e => (w, Err e)
    | FailAfter e => ((effect o c w).1, Err e)
    end
  else effect o c w.

(** ** Running a program *)

Fixpoint run {A} (p : prog A) (cs : list choice) (w : world)
  : world * outcome jserror A * list choice :=
  match p with
  | Ret a => (w, Ok a, cs)
  | Throw e => (w, Err e, cs)
  | Do o k =>
      let '(w', r) := exec_op o (hd normal cs) w in
      run (k r) (tl cs) w'
  end.

Definition run_world {A} (p : prog A) (cs : list choice) (w : world) : world :=
  (run p cs w).1.1.

Definition run_result {A} (p : prog A) (cs : list choice) (w : world) : outcome jserror A :=
  (run p cs w).1.2.

(** What the environment may choose when a call is made. *)
Definition env : Type := forall R, op R -> choice -> Prop.

Definition any_env : env := fun _ _ _ => True.

(** No call fails and the mail service delivers. *)
Definition faultless : env :=
  fun _ _ c => fault_free c.

(** [Q] holds after [p], whatever the environment chooses within [E]. *)
Fixpoint wpe {A} (E : env) (p : prog A) (Q : world -> outcome jserror A -> Prop)
    (w : world) : Prop :=
  match p with
  | Ret a => Q w (Ok a)
  | Throw e => Q w (Err e)
  | Do o k => forall c, E _ o c -> wpe E (k (exec_op o c w).2) Q (exec_op o c w).1
  end.

(** The choices of the list [cs] that a run of [p] consumes are within [E]. *)
Fixpoint respects {A} (E : env) (p : prog A) (cs : list choice) (w : world) : Prop :=
  match p with
  | Ret _ | Throw _ => True
  | Do o k =>
      E _ o (hd normal cs) /\
      respects E (k (exec_op o (hd normal cs) w).2) (tl cs) (exec_op o (hd normal cs) w).1
  end.

(** The record a call reads or writes, if any. *)
Definition op_key {R} (o : op R) : option (string * string) :=
  match o with
  | GetEntity pk rk => Some (pk, rk)
  | CreateEntity e | UpdateEntity e => Some (entity_key e)
  | _ => None
  end.

Definition only_key (k : string * string) : forall R, op R -> Prop :=
  fun R o => op_key o = None \/ op_key o = Some k.

(** The calls that neither send mail nor write to the console. *)
Definition is_quiet {R} (o : op R) : bool :=
  match o with
  | GetEntity _ _ | CreateEntity _ | UpdateEntity _ | DateNow | GetToken _ | AxiosGet _ _
  | Schedule _ => true
  | _ => false
  end.

End Effects.

Arguments op : clear implicits.
Arguments prog : clear implicits.
Arguments world : clear implicits.
Arguments Ret {num A} a.
Arguments Throw {num A} e.
Arguments Do {num A R} o k.

(** [Q] holds after [p], whatever the environment does. *)
Abbreviation wp := (wpe any_env).

#[export] Instance prog_ret {num} : MRet (prog num) := fun A a => Ret a.
#[export] Instance prog_bind {num} : MBind (prog num) := fun A B f p => bind p f.

(** ** Laws of programs *)

Section Laws.
Context {num : Type}.
Implicit Types (w : world num) (cs : list choice).

Lemma run_bind {A B} (p : prog num A) (f : A -> prog num B) cs w :
  run (p ≫= f) cs w =
  match run p cs w with
  | (w', Ok a, cs') => run (f a) cs' w'
  | (w', Err e, cs') => (w', Err e, cs')
  end.
Proof.
  revert cs w. induction p as [a|e|R o k IH]; intros cs w; simpl; try done.
  destruct (exec_op o (hd normal cs) w) as [w' r]. apply IH.
Qed.

Lemma run_try_catch {A} (p : prog num A) (h : jserror -> prog num A) cs w :
  run (try_catch p h) cs w =
  match run p cs w with
  | (w', Ok a, cs') => (w', Ok a, cs')
  | (w', Err e, cs') => run (h e) cs' w'
  end.
Proof.
  revert cs w. induction p as [a|e|R o k IH]; intros cs w; simpl; try done.
  destruct (exec_op o (hd normal cs) w) as [w' r]. apply IH.
Qed.

Lemma run_await {R} (o : op num R) cs w :
  run (await_ o) cs w = ((exec_op o (hd normal cs) w).1, (exec_op o (hd normal cs) w).2, tl cs).
Proof. simpl. by destruct (exec_op o (hd normal cs) w) as [w' [v|e]]. Qed.

Implicit Types (E : env (num := num)).

Lemma wp_mono {A} E (p : prog num A) (Q Q' : world num -> outcome jserror A -> Prop) w :
  (forall w' r, Q w' r -> Q' w' r) -> wpe E p Q w -> wpe E p Q' w.
Proof.
  intros HQ. revert w. induction p as [a|e|R o k IH]; intros w; simpl; auto.
Qed.

(** A property proved for a larger set of choices holds for a smaller one. *)
Lemma wp_env {A} E E' (p : prog num A) Q w :
  (forall R o c, E' R o c -> E R o c) -> wpe E p Q w -> wpe E' p Q w.
Proof.
  intros HE. revert w. induction p as [a|e|R o k IH]; intros w; simpl; auto.
Qed.

Lemma wp_any_env {A} E (p : prog num A) Q w : wp p Q w -> wpe E p Q w.
Proof. by apply wp_env. Qed.

Lemma wp_any {A} E (p : prog num A) w : wpe E p (fun _ _ => True) w.
Proof. revert w. induction p as [a|e|R o k IH]; intros w; simpl; auto. Qed.

Lemma wp_conj {A} E (p : prog num A) (Q1 Q2 : world num -> outcome jserror A -> Prop) w :
  wpe E p Q1 w -> wpe E p Q2 w -> wpe E p (fun w' r => Q1 w' r /\ Q2 w' r) w.
Proof.
  revert w. induction p as [a|e|R o k IH]; intros w; simpl; auto.
Qed.

Lemma wp_ret {A} E (a : A) (Q : world num -> outcome jserror A -> Prop) w :
  wpe E (mret a) Q w <-> Q w (Ok a).
Proof. done. Qed.

Lemma wp_throw {A} E (e : jserror) (Q : world num -> outcome jserror A -> Prop) w :
  wpe E (Throw e) Q w <-> Q w (Err e).
Proof. done. Qed.

Lemma wp_bind {A B} E (p : prog num A) (f : A -> prog num B) Q w :
  wpe E (p ≫= f) Q w <->
  wpe E p (fun w' r => match r with Ok a => wpe E (f a) Q w' | Err e => Q w' (Err e) end) w.
Proof.
  revert w. induction p as [a|e|R o k IH]; intros w; simpl; try done.
  split; intros H c Hc; apply IH, H, Hc.
Qed.

Lemma wp_try_catch {A} E (p : prog num A) (h : jserror -> prog num A) Q w :
  wpe E (try_catch p h) Q w <->
  wpe E p (fun w' r => match r with Ok a => Q w' (Ok a) | Err e => wpe E (h e) Q w' end) w.
Proof.
  revert w. induction p as [a|e|R o k IH]; intros w; simpl; try done.
  split; intros H c Hc; apply IH, H, Hc.
Qed.

Lemma wpe_await {R} E (o : op num R) (Q : world num -> outcome jserror R -> Prop) w :
  wpe E (await_ o) Q w <-> forall c, E R o c -> Q (exec_op o c w).1 (exec_op o c w).2.
Proof.
  simpl. split; intros H c Hc; specialize (H c Hc); by destruct (exec_op o c w).2.
Qed.

Lemma wp_await {R} (o : op num R) (Q : world num -> outcome jserror R -> Prop) w :
  wp (await_ o) Q w <-> forall c, Q (exec_op o c w).1 (exec_op o c w).2.
Proof. rewrite wpe_await. unfold any_env. naive_solver. Qed.

(** [wpe E] is exactly "for every list of choices within [E]". *)
Theorem wpe_run {A} E (p : prog num A) Q w :
  wpe E p Q w <->
  forall cs, respects E p cs w -> Q (run_world p cs w) (run_result p cs w).
Proof.
  unfold run_world, run_result. revert w.
  induction p as [a|e|R o k IH]; intros w; simpl.
  - split; [done | intros H; by apply (H [])].
  - split; [done | intros H; by apply (H [])].
  - split.
    + intros H cs [Hc Hcs]. specialize (H (hd normal cs) Hc).
      destruct (exec_op o (hd normal cs) w) as [w' r]. by apply IH.
    + intros H c Hc. apply IH. intros cs Hcs. specialize (H (c :: cs)). simpl in H.
      destruct (exec_op o c w) as [w' r]. by apply H.
Qed.

Lemma respects_any {A} (p : prog num A) cs w : respects any_env p cs w.
Proof.
  revert cs w. induction p as [a|e|R o k IH]; intros cs w; simpl; [done..|].
  split; [done | apply IH].
Qed.

Theorem wp_run {A} (p : prog num A) Q w :
  wp p Q w <-> forall cs, Q (run_world p cs w) (run_result p cs w).
Proof.
  rewrite wpe_run. split; intros H cs; [apply H, respects_any | intros _; apply H].
Qed.

(** A list of fault-free choices is within [faultless], whatever the program. *)
Lemma respects_faultless {A} (p : prog num A) cs w :
  Forall fault_free cs ->
  respects faultless p cs w.
Proof.
  revert cs w. induction p as [a|e|R o k IH]; intros cs w Hcs; simpl; [done..|].
  split.
  - destruct Hcs; [by split | done].
  - apply IH. destruct Hcs; [constructor | done].
Qed.

End Laws.

(** ** What one call does to the world *)

Section Calls.
Context {num : Type}.
Implicit Types (w : world num) (c : choice) (k : string * string).

Lemma exec_op_clock {R} (o : op num R) c w :
  w_clock (exec_op o c w).1 = (w_clock w + Z.of_N (ch_tick c))%Z.
Proof.
  destruct c as [tick [|err|err] status reply]; destruct o; unfold exec_op; simpl;
    repeat case_scrut; simpl; done.
Qed.

Lemma exec_op_console {R} (o : op num R) c w :
  w_console w `prefix_of` w_console (exec_op o c w).1.
Proof.
  destruct c as [tick [|err|err] status reply]; destruct o; unfold exec_op; simpl;
    repeat case_scrut; simpl; try done; by apply prefix_app_r.
Qed.

Lemma exec_op_submitted {R} (o : op num R) c w :
  w_submitted w `prefix_of` w_submitted (exec_op o c w).1.
Proof.
  destruct c as [tick [|err|err] status reply]; destruct o; unfold exec_op; simpl;
    repeat case_scrut; simpl; try done; by apply prefix_app_r.
Qed.

Lemma exec_op_outbox {R} (o : op num R) c w :
  w_outbox w `prefix_of` w_outbox (exec_op o c w).1.
Proof.
  destruct c as [tick [|err|err] status reply]; destruct o; unfold exec_op; simpl;
    repeat case_scrut; simpl; try done; by apply prefix_app_r.
Qed.

Lemma exec_op_quiet {R} (o : op num R) c w :
  is_quiet o = true ->
  w_submitted (exec_op o c w).1 = w_submitted w /\
  w_outbox (exec_op o c w).1 = w_outbox w /\
  w_console (exec_op o c w).1 = w_console w.
Proof.
  destruct c as [tick [|err|err] status reply]; destruct o; unfold exec_op; simpl;
    repeat case_scrut; simpl; done.
Qed.

Lemma exec_op_table_local {R} (o : op num R) c w :
  op_key o = None -> w_table (exec_op o c w).1 = w_table w.
Proof.
  destruct c as [tick [|err|err] status reply]; destruct o; unfold exec_op; simpl;
    repeat case_scrut; simpl; done.
Qed.

Lemma exec_get_table pk rk c w :
  w_table (exec_op (GetEntity pk rk) c w).1 = w_table w.
Proof. by destruct c as [tick [|err|err] status reply]. Qed.

Lemma exec_get_Ok pk rk c w e :
  (exec_op (GetEntity pk rk) c w).2 = Ok e -> w_table w !! (pk, rk) = Some e.
Proof.
  destruct c as [tick [|err|err] status reply]; unfold exec_op; simpl; [|done..].
  apply table_get_Ok.
Qed.

Lemma exec_create_table e c w :
  w_table (exec_op (CreateEntity e) c w).1 = w_table w \/
  (w_table w !! entity_key e = None /\
   w_table (exec_op (CreateEntity e) c w).1 = <[entity_key e := e]> (w_table w)).
Proof.
  destruct c as [tick [|err|err] status reply]; unfold exec_op; simpl; unfold table_create;
    destruct (w_table w !! entity_key e) eqn:Hl; simpl; auto.
Qed.

Lemma exec_create_Ok e c w :
  (exec_op (CreateEntity e) c w).2 = Ok tt ->
  w_table w !! entity_key e = None /\
  w_table (exec_op (CreateEntity e) c w).1 = <[entity_key e := e]> (w_table w).
Proof.
  destruct c as [tick [|err|err] status reply]; unfold exec_op; simpl; unfold table_create;
    destruct (w_table w !! entity_key e) eqn:Hl; simpl; done.
Qed.

Lemma exec_update_table e c w :
  w_table (exec_op (UpdateEntity e) c w).1 = w_table w \/
  (is_Some (w_table w !! entity_key e) /\
   w_table (exec_op (UpdateEntity e) c w).1 = <[entity_key e := e]> (w_table w)).
Proof.
  destruct c as [tick [|err|err] status reply]; unfold exec_op; simpl; unfold table_update;
    destruct (w_table w !! entity_key e) eqn:Hl; simpl; eauto.
Qed.

Lemma exec_update_Ok e c w :
  (exec_op (UpdateEntity e) c w).2 = Ok tt ->
  is_Some (w_table w !! entity_key e) /\
  w_table (exec_op (UpdateEntity e) c w).1 = <[entity_key e := e]> (w_table w).
Proof.
  destruct c as [tick [|err|err] status reply]; unfold exec_op; simpl; unfold table_update;
    destruct (w_table w !! entity_key e) eqn:Hl; simpl; eauto; done.
Qed.

Lemma exec_op_table_other {R} (o : op num R) c w k :
  op_key o <> Some k -> w_table (exec_op o c w).1 !! k = w_table w !! k.
Proof.
  intros Hk. destruct o; try (by rewrite exec_op_table_local).
  - by rewrite exec_get_table.
  - destruct (exec_create_table e c w) as [->|[_ ->]]; [done|].
    apply lookup_insert_ne. simpl in Hk. congruence.
  - destruct (exec_update_table e c w) as [->|[_ ->]]; [done|].
    apply lookup_insert_ne. simpl in Hk. congruence.
Qed.

Lemma table_wf_insert (t : table num) (e : Entity num) :
  table_wf t -> table_wf (<[entity_key e := e]> t).
Proof.
  intros Hwf k e'. rewrite lookup_insert. case_decide; [by intros [= <-] | apply Hwf].
Qed.

Lemma exec_op_wf {R} (o : op num R) c w :
  table_wf (w_table w) -> table_wf (w_table (exec_op o c w).1).
Proof.
  intros Hwf. destruct o; try (by rewrite exec_op_table_local).
  - by rewrite exec_get_table.
  - destruct (exec_create_table e c w) as [->|[_ ->]]; auto using table_wf_insert.
  - destruct (exec_update_table e c w) as [->|[_ ->]]; auto using table_wf_insert.
Qed.

Lemma exec_op_local_Ok {R} (o : op num R) c w :
  is_remote o = false -> exists v, (exec_op o c w).2 = Ok v.
Proof.
  destruct o; try done; intros _; unfold exec_op; simpl; eauto.
Qed.

End Calls.


#[export] Hint Resolve exec_op_console exec_op_submitted exec_op_outbox exec_op_wf
  table_wf_insert : monitor.

(** [simpl] leaves programs as they are written: the rules take them apart. *)
#[global] Arguments prog_bind : simpl never.
#[global] Arguments await_ : simpl never.
#[global] Arguments try_catch : simpl never.
#[global] Arguments wpe : simpl never.
