(* ===== verification/Rules.v ===== *)
(** * Rules: reasoning about the calls of a program

    One rule per call, in continuation-passing style: to prove [wpe] of a
    call followed by the rest of the program, prove the rest in every world
    the call can leave behind.  The worlds are described by relations: [idle]
    (only time passed and the console grew), [submitted] (a message was
    handed to the mail service), [delivered] (a message reached the outbox)
    and [wrote] (an entity was written under its key).

    The first rules hold in every environment and have a case for the
    failure of the call.  The rules named [wpn_] are for an environment that
    answers the call (class [Answers]) and, for the mail, delivers it (class
    [Delivers]): they tell the result of the call. *)

From stdpp Require Import base tactics option list strings gmap.
From Stdlib Require Import ZArith Lia.
From S2P Require Import Prelude JsValue Metrics Table Effects.

Section CallRules.
Context {num : Type}.
Implicit Types (w : world num) (c : choice) (k : string * string) (m : EmailMessage).

(** Nothing happened but time and console output. *)
Record idle w w' : Prop := mkIdle {
  idle_table : w_table w' = w_table w;
  idle_submitted : w_submitted w' = w_submitted w;
  idle_outbox : w_outbox w' = w_outbox w;
  idle_clock : (w_clock w <= w_clock w')%Z;
  idle_console : w_console w `prefix_of` w_console w';
}.

(** The message [m] was handed to the mail service. *)
Record submitted m w w' : Prop := mkSubmitted {
  sub_table : w_table w' = w_table w;
  sub_submitted : w_submitted w' = w_submitted w ++ [m];
  sub_outbox : w_outbox w' = w_outbox w;
  sub_clock : (w_clock w <= w_clock w')%Z;
  sub_console : w_console w `prefix_of` w_console w';
}.

(** The entity [e] was written under its key. *)
Record wrote (e : Entity num) w w' : Prop := mkWrote {
  wrote_table : w_table w' = <[entity_key e := e]> (w_table w);
  wrote_submitted : w_submitted w' = w_submitted w;
  wrote_outbox : w_outbox w' = w_outbox w;
  wrote_clock : (w_clock w <= w_clock w')%Z;
  wrote_console : w_console w `prefix_of` w_console w';
}.

(** The message [m] was delivered. *)
Record delivered m w w' : Prop := mkDelivered {
  del_table : w_table w' = w_table w;
  del_submitted : w_submitted w' = w_submitted w;
  del_outbox : w_outbox w' = w_outbox w ++ [m];
  del_clock : (w_clock w <= w_clock w')%Z;
  del_console : w_console w `prefix_of` w_console w';
}.

#[export] Instance idle_preorder : PreOrder idle.
Proof.
  split.
  - intros w. by split.
  - intros w1 w2 w3 [] []. split; try congruence; [lia | by etrans].
Qed.

Definition is_idle {R} (o : op num R) : bool :=
  match o with
  | GetEntity _ _ | DateNow | ConsoleLog _ | ConsoleError _ _ _
  | GetToken _ | AxiosGet _ _ | ConsoleLogError _ _ | Schedule _ => true
  | _ => false
  end.

Lemma exec_op_idle {R} (o : op num R) c w : is_idle o = true -> idle w (exec_op o c w).1.
Proof.
  intros Ho. split; auto with monitor.
  - destruct o; try done; by rewrite ?exec_get_table, ?exec_op_table_local.
  - destruct c as [tick [|err|err] status reply]; destruct o; done.
  - destruct c as [tick [|err|err] status reply]; destruct o; done.
  - rewrite exec_op_clock. lia.
Qed.

Lemma exec_op_failed_before {R} (o : op num R) c w err :
  is_remote o = true -> ch_fault c = FailBefore err ->
  idle w (exec_op o c w).1 /\ (exec_op o c w).2 = Err err.
Proof.
  intros Ho Hc. unfold exec_op. rewrite Ho, Hc. simpl. split; [|done].
  split; simpl; try done. lia.
Qed.

(** ** Rules for the calls *)

Lemma wp_get pk rk Q w :
  (forall w' r, idle w w' ->
     (forall e, r = Ok e -> w_table w !! (pk, rk) = Some e) -> Q w' r) ->
  wp (await_ (GetEntity pk rk)) Q w.
Proof.
  intros H. apply wp_await. intros c. apply H; [by apply exec_op_idle|].
  intros e. apply exec_get_Ok.
Qed.

(** A call that neither writes nor sends, whatever it answers. *)
Lemma wp_idle {R} E (o : op num R) Q w :
  is_idle o = true -> (forall w' r, idle w w' -> Q w' r) -> wpe E (await_ o) Q w.
Proof. intros Hi H. apply wpe_await. intros c _. apply H. by apply exec_op_idle. Qed.

(** The clock: the time when it is read. *)
Lemma wp_date_now E Q w :
  (forall w', idle w w' -> Q w' (Ok (w_clock w'))) -> wpe E (await_ DateNow) Q w.
Proof. intros H. apply wpe_await. intros c _. apply H. by apply exec_op_idle. Qed.

Lemma wp_local {R} E (o : op num R) Q w :
  is_remote o = false -> is_idle o = true ->
  (forall w' v, idle w w' -> Q w' (Ok v)) ->
  wpe E (await_ o) Q w.
Proof.
  intros Hl Hi H. apply wpe_await. intros c _.
  destruct (exec_op_local_Ok o c w Hl) as [v Hv]. rewrite Hv.
  apply H. by apply exec_op_idle.
Qed.

Lemma wp_begin_send m Q w :
  (forall w' err, idle w w' \/ submitted m w w' -> Q w' (Err err)) ->
  (forall w', submitted m w w' -> Q w' (Ok (length (w_submitted w)))) ->
  wp (await_ (BeginSend m)) Q w.
Proof.
  intros Herr Hok. apply wp_await. intros [tick [|err|err] status reply].
  - apply Hok. split; simpl; try done. lia.
  - apply Herr. left. split; simpl; try done. lia.
  - apply Herr. right. split; simpl; try done. lia.
Qed.

Lemma wp_poll p m Q w :
  w_submitted w !! p = Some m ->
  (forall w' err, idle w w' \/ delivered m w w' -> Q w' (Err err)) ->
  (forall w', delivered m w w' -> Q w' (Ok "Succeeded")) ->
  (forall w' status, status <> "Succeeded" -> idle w w' -> Q w' (Ok status)) ->
  wp (await_ (PollUntilDone p)) Q w.
Proof.
  intros Hp Herr Hok Hnot. apply wp_await. intros [tick [|err|err] status reply].
  - unfold exec_op. simpl. rewrite Hp.
    destruct (String.eqb_spec status "Succeeded") as [->|Hne]; simpl.
    + apply Hok. split; simpl; try done. lia.
    + apply Hnot; [done|]. split; simpl; try done. lia.
  - apply Herr. left. split; simpl; try done. lia.
  - unfold exec_op. simpl. rewrite Hp. destruct (String.eqb status "Succeeded"); simpl.
    + apply Herr. right. split; simpl; try done. lia.
    + apply Herr. left. split; simpl; try done. lia.
Qed.

(** ** Rules for the calls that are answered

    An environment [E] answers the call [o] when it never makes it fail; it
    delivers when the mail service reports [Succeeded].  The rules below tell
    what an answered call returns and leaves behind. *)

Class Answers {R} (E : @env num) (o : op num R) : Prop := {
  answers : forall c, E R o c -> ch_fault c = NoFault;
}.

Class Delivers (E : @env num) : Prop := {
  delivers : forall poller c, E _ (PollUntilDone poller) c -> ch_status c = "Succeeded";
}.

#[export] Instance faultless_answers {R} (o : op num R) : Answers faultless o.
Proof. split. by intros c [? _]. Qed.

#[export] Instance faultless_delivers : Delivers faultless.
Proof. split. by intros p c [_ ?]. Qed.

(** An answered remote call has its effect. *)
Lemma exec_op_answered {R} (o : op num R) c w :
  ch_fault c = NoFault -> exec_op o c w = effect o c (advance (ch_tick c) w).
Proof. intros Hc. unfold exec_op. rewrite Hc. by destruct (is_remote o). Qed.

Lemma wpn_get E pk rk `{!Answers E (GetEntity pk rk)} Q w :
  (forall w', idle w w' -> Q w' (table_get pk rk (w_table w))) ->
  wpe E (await_ (GetEntity pk rk)) Q w.
Proof.
  intros H. apply wpe_await. intros c Hc%answers. rewrite exec_op_answered by done.
  apply H. split; simpl; try done. lia.
Qed.

Lemma wpn_create E e `{!Answers E (CreateEntity e)} Q w :
  w_table w !! entity_key e = None ->
  (forall w', wrote e w w' -> Q w' (Ok tt)) ->
  wpe E (await_ (CreateEntity e)) Q w.
Proof.
  intros Hl H. apply wpe_await. intros c Hc%answers. rewrite exec_op_answered by done.
  simpl. unfold table_create. simpl. rewrite Hl. simpl.
  apply H. split; simpl; try done. lia.
Qed.

Lemma wpn_update E e `{!Answers E (UpdateEntity e)} Q w :
  is_Some (w_table w !! entity_key e) ->
  (forall w', wrote e w w' -> Q w' (Ok tt)) ->
  wpe E (await_ (UpdateEntity e)) Q w.
Proof.
  intros [e0 Hl] H. apply wpe_await. intros c Hc%answers. rewrite exec_op_answered by done.
  simpl. unfold table_update. simpl. rewrite Hl. simpl.
  apply H. split; simpl; try done. lia.
Qed.

Lemma wpn_begin_send E m `{!Answers E (BeginSend m)} Q w :
  (forall w', submitted m w w' -> Q w' (Ok (length (w_submitted w)))) ->
  wpe E (await_ (BeginSend m)) Q w.
Proof.
  intros H. apply wpe_await. intros c Hc%answers. rewrite exec_op_answered by done.
  apply H. split; simpl; try done. lia.
Qed.

Lemma wpn_poll E poller m `{!Answers E (PollUntilDone poller), !Delivers E} Q w :
  w_submitted w !! poller = Some m ->
  (forall w', delivered m w w' -> Q w' (Ok "Succeeded")) ->
  wpe E (await_ (PollUntilDone poller)) Q w.
Proof.
  intros Hp H. apply wpe_await. intros c Hc. rewrite exec_op_answered by by eapply answers.
  simpl. rewrite Hp, (delivers _ _ Hc). simpl.
  apply H. split; simpl; try done. lia.
Qed.

(** The mail service answers, with another status than [Succeeded]. *)
Lemma wpn_poll_undelivered E poller m `{!Answers E (PollUntilDone poller)} Q w :
  (forall c, E _ (PollUntilDone poller) c -> ch_status c <> "Succeeded") ->
  w_submitted w !! poller = Some m ->
  (forall w' status, status <> "Succeeded" -> idle w w' -> Q w' (Ok status)) ->
  wpe E (await_ (PollUntilDone poller)) Q w.
Proof.
  intros Hst Hp H. apply wpe_await. intros c Hc.
  rewrite exec_op_answered by by eapply answers.
  simpl. rewrite Hp. apply Hst in Hc. destruct (String.eqb_spec (ch_status c) "Succeeded"); [done|].
  apply H; [done|]. split; simpl; try done. lia.
Qed.

Lemma wpn_get_token E scope `{!Answers E (GetToken scope)} Q w :
  (forall w' token, idle w w' -> Q w' (Ok token)) ->
  wpe E (await_ (GetToken scope)) Q w.
Proof.
  intros H. apply wpe_await. intros c Hc%answers. rewrite exec_op_answered by done.
  apply H. split; simpl; try done. lia.
Qed.

(** The metrics API answers, with data among those of [P]. *)
Lemma wpn_axios_get E url authorization `{!Answers E (AxiosGet url authorization)}
    (P : MetricsData -> Prop) Q w :
  (forall c, E _ (AxiosGet url authorization) c -> P (rp_metrics (ch_reply c))) ->
  (forall w' response, P response -> idle w w' -> Q w' (Ok response)) ->
  wpe E (await_ (AxiosGet url authorization)) Q w.
Proof.
  intros HP H. apply wpe_await. intros c Hc. rewrite exec_op_answered by by eapply answers.
  apply H; [by apply HP|]. split; simpl; try done. lia.
Qed.

(** A remote call that the environment rejects before it takes effect, with
    an error among those of [P]. *)
Lemma wpn_rejected {R} E (o : op num R) (P : jserror -> Prop) Q w :
  is_remote o = true ->
  (forall c, E R o c -> exists err, ch_fault c = FailBefore err /\ P err) ->
  (forall w' err, P err -> idle w w' -> Q w' (Err err)) ->
  wpe E (await_ o) Q w.
Proof.
  intros Ho HE H. apply wpe_await. intros c (err & Hc & HP)%HE.
  destruct (exec_op_failed_before o c w err Ho Hc) as [I ->]. by apply H.
Qed.

End CallRules.

(** [answered r]: apply the rule [r] of an answered call, the environment
    found by instance search. *)
Tactic Notation "answered" uconstr(r) := apply r; try tc_solve.

Section Console.
Context {num : Type}.
Implicit Types (w : world num).

(** What is logged stays in the console. *)
Lemma wp_console_error E text d err Q w :
  (forall w', idle w w' -> LogError text d err ∈ w_console w' -> Q w' (Ok tt)) ->
  wpe E (await_ (ConsoleError text d err)) Q w.
Proof.
  intros H. apply wpe_await. intros c _. apply H.
  - by apply exec_op_idle.
  - unfold exec_op. simpl. set_solver.
Qed.

Lemma wp_console_log_error E text err Q w :
  (forall w', idle w w' -> LogInfoError text err ∈ w_console w' -> Q w' (Ok tt)) ->
  wpe E (await_ (ConsoleLogError text err)) Q w.
Proof.
  intros H. apply wpe_await. intros c _. apply H.
  - by apply exec_op_idle.
  - unfold exec_op. simpl. set_solver.
Qed.

Lemma idle_logged (l : logline) w w' : idle w w' -> l ∈ w_console w -> l ∈ w_console w'.
Proof. intros [_ _ _ _ [l' ->]] ?. set_solver. Qed.

End Console.
