(* ===== verification/Policy.v ===== *)
(** * Policy: when an alert is due

    [THRESHOLD] and [shouldSendAlert] of [httpTrigger.ts]: an alert is due
    when no alert is recorded for the entity ([!entity?.ActionDone], true also
    of a null entity) and the usage is above the threshold. *)

From stdpp Require Import base tactics option strings.
From Stdlib Require Import ZArith Lia.
From S2P Require Import Prelude JsValue Table.

Section Policy.
Context {num : Type} `{!JsNumber num}.

Definition THRESHOLD : num := nlit 1000.

Definition shouldSendAlert (entity : option (Entity num)) (sumToken : num) : bool :=
  negb (from_option ActionDone false entity) && ngt sumToken THRESHOLD.

(** The alert flag a record holds once a usage was seen and its alert, if
    due, was delivered. *)
Definition alerted (entity : option (Entity num)) (sumToken : num) : bool :=
  from_option ActionDone false entity || ngt sumToken THRESHOLD.

(** C7: an alert is due exactly when the usage is above the threshold and the
    entity is null or not marked done. *)
Theorem shouldSendAlert_true_iff (entity : option (Entity num)) (sumToken : num) :
  shouldSendAlert entity sumToken = true <->
  ngt sumToken THRESHOLD = true /\
  (entity = None \/ exists e, entity = Some e /\ ActionDone e = false).
Proof.
  unfold shouldSendAlert. rewrite negb_andb_true.
  destruct entity as [e|]; simpl; split.
  - intros [? ?]. eauto.
  - intros [? [?|(e' & [= <-] & ?)]]; [done | auto].
  - intros [_ ?]. auto.
  - intros [? _]. auto.
Qed.

(** What a due alert says of the entity it was decided on. *)
Lemma shouldSendAlert_due (e : Entity num) (sumToken : num) :
  shouldSendAlert (Some e) sumToken = true ->
  ngt sumToken THRESHOLD = true /\ ActionDone e = false.
Proof. unfold shouldSendAlert. rewrite negb_andb_true. simpl. by intros [? ?]. Qed.

(** Once an alert is recorded, none is due, whatever the usage. *)
Lemma shouldSendAlert_done (e : Entity num) (sumToken : num) :
  ActionDone e = true -> shouldSendAlert (Some e) sumToken = false.
Proof. unfold shouldSendAlert. simpl. by intros ->. Qed.

(** A usage that is not above the threshold never raises an alert. *)
Lemma shouldSendAlert_below (entity : option (Entity num)) (sumToken : num) :
  ngt sumToken THRESHOLD = false -> shouldSendAlert entity sumToken = false.
Proof. unfold shouldSendAlert. intros ->. apply andb_false_r. Qed.

(** A first observation above the threshold raises one. *)
Lemma shouldSendAlert_absent (sumToken : num) :
  ngt sumToken THRESHOLD = true -> shouldSendAlert None sumToken = true.
Proof. unfold shouldSendAlert. by intros ->. Qed.

Lemma shouldSendAlert_fresh (e : Entity num) (sumToken : num) :
  ActionDone e = false ->
  shouldSendAlert (Some e) sumToken = ngt sumToken THRESHOLD.
Proof. unfold shouldSendAlert. simpl. by intros ->. Qed.

(** The decision reads the alert flag only. *)
Lemma shouldSendAlert_flag_only (e e' : Entity num) (sumToken : num) :
  ActionDone e = ActionDone e' ->
  shouldSendAlert (Some e) sumToken = shouldSendAlert (Some e') sumToken.
Proof. unfold shouldSendAlert. simpl. by intros ->. Qed.

Lemma alerted_shouldSendAlert (entity : option (Entity num)) (sumToken : num) :
  alerted entity sumToken =
  from_option ActionDone false entity || shouldSendAlert entity sumToken.
Proof.
  unfold alerted, shouldSendAlert.
  by destruct (from_option ActionDone false entity), (ngt sumToken THRESHOLD).
Qed.

End Policy.

(** ** On the integer-or-NaN numbers *)

(** with integer usages the alert is due exactly above 1000, and a NaN
    usage never raises it. *)
Theorem shouldSendAlert_jsnum (entity : option (Entity jsnum)) (sumToken : jsnum) :
  shouldSendAlert entity sumToken = true <->
  (exists n : Z, sumToken = JInt n /\ (1000 < n)%Z) /\
  from_option ActionDone false entity = false.
Proof.
  unfold shouldSendAlert, THRESHOLD. rewrite negb_andb_true.
  destruct sumToken as [n|]; simpl.
  - rewrite bool_decide_eq_true. split.
    + intros [? ?]. eauto.
    + intros [(n' & [= <-] & ?) ?]. auto.
  - split; [intros [_ ?]; done | intros [(n' & ? & _) _]; done].
Qed.

#[export] Hint Resolve shouldSendAlert_done shouldSendAlert_below : monitor.
