(* ===== verification/Guarantee.v ===== *)
(** * Guarantee: what one reconciliation may do to the world

    [reconciles k sum w w'] relates a world to a later one when the only
    changes are those a reconciliation of the record [k] with the usage [sum]
    is allowed to make: other records are untouched, the record [k] is not
    deleted, its [SumToken] stays or becomes [sum] when [sum] is above it, its
    [ActionDone] stays or becomes true when [sum] is above the threshold,
    time does not go back and the console and the mail lists only grow.  It
    is a preorder, so the guarantees of the steps of a program compose.

    [mail_effect] is the part that does not compose: at most one message is
    submitted, only when an alert is due, and the flag is raised only once
    the message is delivered. *)

From stdpp Require Import base tactics option list strings gmap.
From Stdlib Require Import ZArith Lia.
From S2P Require Import Prelude JsValue Table Effects Rules Policy.

Section Relation.
Context {num : Type} `{!JsNumber num}.
Implicit Types (w : world num) (e : Entity num) (k : string * string) (sum : num).

Definition slot_evolves sum (o o' : option (Entity num)) : Prop :=
  match o, o' with
  | None, None => True
  | None, Some e' =>
      SumToken e' = sum /\ (ActionDone e' = true -> ngt sum THRESHOLD = true)
  | Some e, Some e' =>
      (SumToken e' = SumToken e \/ (ngt sum (SumToken e) = true /\ SumToken e' = sum)) /\
      (ActionDone e' = ActionDone e \/ (ngt sum THRESHOLD = true /\ ActionDone e' = true))
  | Some _, None => False
  end.

Record reconciles k sum w w' : Prop := mkReconciles {
  rec_other : forall k', k' <> k -> w_table w' !! k' = w_table w !! k';
  rec_slot : slot_evolves sum (w_table w !! k) (w_table w' !! k);
  rec_wf : table_wf (w_table w) -> table_wf (w_table w');
  rec_clock : (w_clock w <= w_clock w')%Z;
  rec_console : w_console w `prefix_of` w_console w';
  rec_submitted : w_submitted w `prefix_of` w_submitted w';
  rec_outbox : w_outbox w `prefix_of` w_outbox w';
}.

Lemma slot_evolves_refl sum o : slot_evolves sum o o.
Proof. destruct o; simpl; auto. Qed.

Lemma slot_evolves_trans sum o1 o2 o3 :
  slot_evolves sum o1 o2 -> slot_evolves sum o2 o3 -> slot_evolves sum o1 o3.
Proof.
  destruct o1 as [e1|], o2 as [e2|], o3 as [e3|]; simpl; try done.
  - intros [Hs1 Ha1] [Hs2 Ha2]. split.
    + destruct Hs1 as [Hs1|[Hgt Hs1]], Hs2 as [Hs2|[Hgt2 Hs2]];
        [left; congruence | right; split; congruence ..].
    + destruct Ha1 as [Ha1|[Hgt Ha1]], Ha2 as [Ha2|[Hgt2 Ha2]];
        [left; congruence | right; split; congruence ..].
  - intros [Hs1 Ha1] [Hs2 Ha2]. split.
    + destruct Hs2 as [Hs2|[Hgt2 Hs2]]; congruence.
    + destruct Ha2 as [Ha2|[Hgt2 Ha2]]; [rewrite Ha2; auto | done].
Qed.

#[export] Instance reconciles_preorder k sum : PreOrder (reconciles k sum).
Proof.
  split.
  - intros w. split; auto using slot_evolves_refl. lia.
  - intros w1 w2 w3 H12 H23. split.
    + intros k' Hk'. by rewrite (rec_other _ _ _ _ H23), (rec_other _ _ _ _ H12).
    + eapply slot_evolves_trans; [apply H12 | apply H23].
    + intros Hwf. by apply H23, H12.
    + pose proof (rec_clock _ _ _ _ H12). pose proof (rec_clock _ _ _ _ H23). lia.
    + etrans; [apply H12 | apply H23].
    + etrans; [apply H12 | apply H23].
    + etrans; [apply H12 | apply H23].
Qed.

(** The alert flag of the record [k], false when there is no record. *)
Definition flag k w : bool := from_option ActionDone false (w_table w !! k).

Inductive mail_effect k (m : EmailMessage) (due : bool) w w' : Prop :=
| mail_none :
    w_submitted w' = w_submitted w -> w_outbox w' = w_outbox w ->
    flag k w' = flag k w -> mail_effect k m due w w'
| mail_undelivered :
    due = true -> w_submitted w' = w_submitted w ++ [m] ->
    w_outbox w' = w_outbox w -> flag k w' = flag k w -> mail_effect k m due w w'
| mail_delivered :
    due = true -> w_submitted w' = w_submitted w ++ [m] ->
    w_outbox w' = w_outbox w ++ [m] -> mail_effect k m due w w'.

(** Between two worlds the mail lists and the flag are the same, within the
    guarantee. *)
Record calm k sum w w' : Prop := mkCalm {
  calm_reconciles : reconciles k sum w w';
  calm_submitted : w_submitted w' = w_submitted w;
  calm_outbox : w_outbox w' = w_outbox w;
  calm_flag : flag k w' = flag k w;
}.

#[export] Instance calm_preorder k sum : PreOrder (calm k sum).
Proof.
  split.
  - intros w. by split.
  - intros w1 w2 w3 [] []. split; try congruence. by etrans.
Qed.

Lemma idle_reconciles k sum w w' : idle w w' -> reconciles k sum w w'.
Proof.
  intros [Ht Hs Ho Hc Hl]. split; rewrite ?Ht, ?Hs, ?Ho; try done.
  apply slot_evolves_refl.
Qed.

Lemma submitted_reconciles m k sum w w' : submitted m w w' -> reconciles k sum w w'.
Proof.
  intros [Ht Hs Ho Hc Hl]. split; rewrite ?Ht, ?Hs, ?Ho; try done.
  - apply slot_evolves_refl.
  - by apply prefix_app_r.
Qed.

Lemma delivered_reconciles m k sum w w' : delivered m w w' -> reconciles k sum w w'.
Proof.
  intros [Ht Hs Ho Hc Hl]. split; rewrite ?Ht, ?Hs, ?Ho; try done.
  - apply slot_evolves_refl.
  - by apply prefix_app_r.
Qed.

Lemma idle_calm k sum w w' : idle w w' -> calm k sum w w'.
Proof.
  intros Hi. split; [by apply idle_reconciles | apply Hi..|].
  unfold flag. by rewrite (idle_table _ _ Hi).
Qed.

Lemma mail_effect_calm_l k sum m due w1 w2 w3 :
  calm k sum w1 w2 -> mail_effect k m due w2 w3 -> mail_effect k m due w1 w3.
Proof.
  intros [_ Hs Ho Hf] [Hs' Ho' Hf'|Hd Hs' Ho' Hf'|Hd Hs' Ho'].
  - apply mail_none; congruence.
  - apply mail_undelivered; congruence.
  - apply mail_delivered; congruence.
Qed.

Lemma mail_effect_calm_r k sum m due w1 w2 w3 :
  mail_effect k m due w1 w2 -> calm k sum w2 w3 -> mail_effect k m due w1 w3.
Proof.
  intros [Hs Ho Hf|Hd Hs Ho Hf|Hd Hs Ho] [_ Hs' Ho' Hf'].
  - apply mail_none; congruence.
  - apply mail_undelivered; congruence.
  - apply mail_delivered; congruence.
Qed.

Lemma mail_effect_due k m (due due' : bool) w w' :
  (due = true -> due' = true) -> mail_effect k m due w w' -> mail_effect k m due' w w'.
Proof.
  intros Hd [| |]; [by apply mail_none | apply mail_undelivered | apply mail_delivered]; auto.
Qed.

(** Nothing is sent when no alert is due. *)
Lemma mail_effect_not_due k m w w' :
  mail_effect k m false w w' ->
  w_submitted w' = w_submitted w /\ w_outbox w' = w_outbox w.
Proof. by intros [| |]. Qed.

Lemma flag_not_due k w sum : flag k w = true -> shouldSendAlert (w_table w !! k) sum = false.
Proof. unfold shouldSendAlert. fold (flag k w). by intros ->. Qed.

Lemma mail_effect_submitted k m due w w' :
  mail_effect k m due w w' -> extends_by_at_most_one (w_submitted w) (w_submitted w').
Proof. intros [Hs _ _|_ Hs _ _|_ Hs _]; rewrite Hs; auto with monitor. Qed.

Lemma mail_effect_outbox k m due w w' :
  mail_effect k m due w w' -> extends_by_at_most_one (w_outbox w) (w_outbox w').
Proof. intros [_ Ho _|_ _ Ho _|_ _ Ho]; rewrite Ho; auto with monitor. Qed.

(** What the guarantee says of a record that exists, and of the flag. *)
Lemma reconciles_slot k sum w w' e :
  reconciles k sum w w' -> w_table w !! k = Some e ->
  exists e', w_table w' !! k = Some e' /\
    (SumToken e' = SumToken e \/ (ngt sum (SumToken e) = true /\ SumToken e' = sum)) /\
    (ActionDone e' = ActionDone e \/ (ngt sum THRESHOLD = true /\ ActionDone e' = true)).
Proof.
  intros [_ Hslot _ _ _ _ _] Hl. rewrite Hl in Hslot.
  destruct (w_table w' !! k) as [e'|]; [eauto | done].
Qed.

Lemma reconciles_flag k sum w w' :
  reconciles k sum w w' -> flag k w = true -> flag k w' = true.
Proof.
  intros Hr. unfold flag. destruct (w_table w !! k) as [e|] eqn:Hl; [|done].
  destruct (reconciles_slot _ _ _ _ _ Hr Hl) as (e' & -> & _ & [Ha|[_ Ha]]); simpl; congruence.
Qed.

Lemma reconciles_flag_threshold k sum w w' :
  reconciles k sum w w' -> flag k w = false -> flag k w' = true ->
  ngt sum THRESHOLD = true.
Proof.
  intros Hr. unfold flag. destruct (w_table w !! k) as [e|] eqn:Hl.
  - destruct (reconciles_slot _ _ _ _ _ Hr Hl) as (e' & -> & _ & [Ha|[? _]]); simpl;
      [congruence | done].
  - destruct Hr as [_ Hslot _ _ _ _ _]. rewrite Hl in Hslot.
    destruct (w_table w' !! k) as [e'|]; simpl; [|done]. destruct Hslot. auto.
Qed.

(** A call on the record [k], or on no record, is within the guarantee if
    the record evolves as allowed. *)
Lemma reconciles_exec {R} (o : op num R) c w k sum :
  only_key k R o ->
  slot_evolves sum (w_table w !! k) (w_table (exec_op o c w).1 !! k) ->
  reconciles k sum w (exec_op o c w).1.
Proof.
  intros Hkey Hslot. split; auto with monitor.
  - intros k' Hk'. apply exec_op_table_other. destruct Hkey; congruence.
  - rewrite exec_op_clock. lia.
Qed.

Lemma reconciles_local {R} (o : op num R) c w k sum :
  op_key o = None -> reconciles k sum w (exec_op o c w).1.
Proof.
  intros Hkey. apply reconciles_exec; [by left|].
  rewrite exec_op_table_local by done. apply slot_evolves_refl.
Qed.

Lemma reconciles_get pk rk c w sum :
  reconciles (pk, rk) sum w (exec_op (GetEntity pk rk) c w).1.
Proof.
  apply reconciles_exec; [by right|].
  rewrite exec_get_table. apply slot_evolves_refl.
Qed.

Lemma reconciles_create e c w sum :
  SumToken e = sum -> ActionDone e = false ->
  reconciles (entity_key e) sum w (exec_op (CreateEntity e) c w).1.
Proof.
  intros Hs Ha. apply reconciles_exec; [by right|].
  destruct (exec_create_table e c w) as [->|[Hnone ->]]; [apply slot_evolves_refl|].
  rewrite Hnone, lookup_insert_eq. simpl. by rewrite Ha.
Qed.

Lemma reconciles_update e0 e c w sum :
  w_table w !! entity_key e = Some e0 ->
  slot_evolves sum (Some e0) (Some e) ->
  reconciles (entity_key e) sum w (exec_op (UpdateEntity e) c w).1.
Proof.
  intros Hl Hslot. apply reconciles_exec; [by right|].
  destruct (exec_update_table e c w) as [->|[_ ->]]; [apply slot_evolves_refl|].
  by rewrite Hl, lookup_insert_eq.
Qed.

(** The record [entity_key e] held [e0] and was, or was not, replaced by
    [e]. *)
Record updated e0 e sum w w' : Prop := mkUpdated {
  upd_reconciles : reconciles (entity_key e) sum w w';
  upd_submitted : w_submitted w' = w_submitted w;
  upd_outbox : w_outbox w' = w_outbox w;
  upd_slot : w_table w' !! entity_key e = Some e0 \/ w_table w' !! entity_key e = Some e;
}.

Lemma updated_calm e0 e sum w w' :
  w_table w !! entity_key e = Some e0 -> ActionDone e = ActionDone e0 ->
  updated e0 e sum w w' -> calm (entity_key e) sum w w'.
Proof.
  intros Hl Ha [Hr Hs Ho Hslot]. split; try done.
  unfold flag. rewrite Hl. by destruct Hslot as [-> | ->].
Qed.

(** ** Rules for the calls that write the table *)

Lemma wp_create e Q w sum :
  SumToken e = sum -> ActionDone e = false ->
  (forall w' err, calm (entity_key e) sum w w' -> Q w' (Err err)) ->
  (forall w', calm (entity_key e) sum w w' -> w_table w !! entity_key e = None ->
     w_table w' !! entity_key e = Some e -> Q w' (Ok tt)) ->
  wp (await_ (CreateEntity e)) Q w.
Proof.
  intros Hs Ha Herr Hok. apply wp_await. intros c.
  assert (calm (entity_key e) sum w (exec_op (CreateEntity e) c w).1) as Hcalm.
  { destruct (exec_op_quiet (CreateEntity e) c w eq_refl) as (? & ? & _).
    split; [by apply reconciles_create | done..|].
    unfold flag. destruct (exec_create_table e c w) as [->|[Hnone ->]]; [done|].
    by rewrite Hnone, lookup_insert_eq. }
  pose proof (exec_create_Ok e c w) as HOk.
  destruct (exec_op (CreateEntity e) c w).2 as [[]|err]; [|by apply Herr].
  destruct (HOk eq_refl) as [Hnone Hins]. apply Hok; [done..|].
  by rewrite Hins, lookup_insert_eq.
Qed.

Lemma wp_update e0 e Q w sum :
  w_table w !! entity_key e = Some e0 ->
  slot_evolves sum (Some e0) (Some e) ->
  (forall w' err, updated e0 e sum w w' -> Q w' (Err err)) ->
  (forall w', updated e0 e sum w w' -> w_table w' !! entity_key e = Some e ->
     Q w' (Ok tt)) ->
  wp (await_ (UpdateEntity e)) Q w.
Proof.
  intros Hl Hslot Herr Hok. apply wp_await. intros c.
  assert (updated e0 e sum w (exec_op (UpdateEntity e) c w).1) as Hupd.
  { destruct (exec_op_quiet (UpdateEntity e) c w eq_refl) as (? & ? & _).
    split; [by eapply reconciles_update | done..|].
    destruct (exec_update_table e c w) as [->|[_ ->]]; [by left|].
    right. apply lookup_insert_eq. }
  pose proof (exec_update_Ok e c w) as HOk.
  destruct (exec_op (UpdateEntity e) c w).2 as [[]|err]; [|by apply Herr].
  destruct (HOk eq_refl) as [_ Hins]. apply Hok; [done|].
  by rewrite Hins, lookup_insert_eq.
Qed.

End Relation.

#[export] Hint Resolve idle_reconciles idle_calm : monitor.
#[export] Hint Resolve mail_effect_submitted mail_effect_outbox : monitor.


(** A chain of worlds, each related to the next, relates its ends. *)
Ltac chain :=
  repeat match goal with
  | |- reconciles _ _ ?a ?a => reflexivity
  | |- calm _ _ ?a ?a => reflexivity
  | |- idle ?a ?a => reflexivity
  | H : idle ?a ?b |- idle ?a ?c => transitivity b; [exact H|]
  | H : idle ?a ?b |- calm _ _ ?a ?c => transitivity b; [exact (idle_calm _ _ _ _ H)|]
  | H : calm _ _ ?a ?b |- calm _ _ ?a ?c => transitivity b; [exact H|]
  | H : idle ?a ?b |- reconciles _ _ ?a ?c =>
      transitivity b; [exact (idle_reconciles _ _ _ _ H)|]
  | H : calm _ _ ?a ?b |- reconciles _ _ ?a ?c =>
      transitivity b; [exact (calm_reconciles _ _ _ _ H)|]
  | H : reconciles _ _ ?a ?b |- reconciles _ _ ?a ?c => transitivity b; [exact H|]
  | H : updated _ _ _ ?a ?b |- reconciles _ _ ?a ?c =>
      transitivity b; [exact (upd_reconciles _ _ _ _ _ H)|]
  | H : submitted _ ?a ?b |- reconciles _ _ ?a ?c =>
      transitivity b; [exact (submitted_reconciles _ _ _ _ _ H)|]
  | H : delivered _ ?a ?b |- reconciles _ _ ?a ?c =>
      transitivity b; [exact (delivered_reconciles _ _ _ _ _ H)|]
  end.

(** The table and the mail lists of the worlds of a chain, as equations. *)
Ltac fields :=
  repeat match goal with
  | H : idle _ _ |- _ => destruct H as [? ? ? _ _]
  | H : submitted _ _ _ |- _ => destruct H as [? ? ? _ _]
  | H : delivered _ _ _ |- _ => destruct H as [? ? ? _ _]
  | H : calm _ _ _ _ |- _ => destruct H as [_ ? ? ?]
  | H : updated _ _ _ _ _ |- _ => destruct H as [_ ? ? ?]
  end.
