(* ===== verification/Reconciler.v ===== *)
(** * Reconciler: one deployment's usage against its record

    [sendMail] and [evaluateTokenUsageForAlert] of [httpTrigger.ts].  The body
    of [evaluateTokenUsageForAlert] is three steps, each a definition here:
    [fetchOrCreate] (the inner [try]: read the record, create it on a 404),
    [alertPhase] (send the mail if [shouldSendAlert], then record
    [ActionDone]) and [updatePhase] (raise [SumToken] to the new total).  The
    outer [try]/[catch] logs whatever was thrown.

    After the definitions come the concrete inputs the examples run on, the
    specification of each step ([fetchOrCreate_spec], [alertPhase_spec],
    [updatePhase_spec]) and of their composition ([reconcile_spec],
    [evaluate_spec]), and the theorems on runs: whatever the table, the mail
    service and the clock answer, and whichever calls fail, one
    reconciliation never throws, touches no other record, never lowers
    [SumToken], never clears [ActionDone], submits at most one message and
    only when an alert is due, and raises the flag only once the message is
    delivered. *)

From stdpp Require Import base tactics option list strings gmap.
From Stdlib Require Import ZArith Lia.
From S2P Require Import Prelude JsValue DateTime Table Effects Rules Policy Guarantee.

(** The settings read from the process environment: each is the value of a
    variable, or [undefined] ([None]) when the variable is not set. *)
Record Config : Type := mkConfig {
  emailSenderAddress : option string;
  emailRecipientAddress : option string;
  resourceUri : option string;
}.

Section Reconciler.
Context {num : Type} `{!JsNumber num}.
Context (cfg : Config).

(** [new Date().toISOString()] *)
Definition new_Date_toISOString : prog num string :=
  now ← await_ DateNow; mret (toISOString now).

(** The message of [sendMail]. *)
Definition emailMessage (deploymentName : string) (sumToken : num) : EmailMessage :=
  mkEmail (emailSenderAddress cfg) [emailRecipientAddress cfg]
    ("[Alert!] " +:+ deploymentName +:+ " has exceeded the threshold")
    ("The deployment " +:+ deploymentName +:+ " has exceeded the threshold of " +:+
     nshow THRESHOLD +:+ " tokens this month. The total token usage is " +:+
     nshow sumToken +:+ ".").

Definition sendMail (deploymentName : string) (sumToken : num) : prog num string :=
  poller ← await_ (BeginSend (emailMessage deploymentName sumToken));
  await_ (PollUntilDone poller).

(** [`${deploymentName}-${month}`] *)
Definition rowKeyOf (deploymentName month : string) : string :=
  deploymentName +:+ "-" +:+ month.

Definition recordKey (deploymentName month : string) : string * string :=
  ("DeploymentType", rowKeyOf deploymentName month).

(** The entity of a first observation. *)
Definition newEntity (rowKey : string) (sumToken : num) (now : string) : Entity num :=
  mkEntity "DeploymentType" rowKey sumToken false now.

Definition fetchOrCreate (rowKey : string) (sumToken : num) : prog num (Entity num) :=
  try_catch (await_ (GetEntity "DeploymentType" rowKey))
    (fun error =>
       if statusCode_is 404 error then
         now ← new_Date_toISOString;
         let entity := newEntity rowKey sumToken now in
         _ ← await_ (CreateEntity entity);
         mret entity
       else Throw error).

Definition alertPhase (deploymentName : string) (sumToken : num) (entity : Entity num)
  : prog num (Entity num) :=
  if shouldSendAlert (Some entity) sumToken then
    result ← sendMail deploymentName sumToken;
    if String.eqb result "Succeeded" then
      _ ← await_ (ConsoleLog ("Alert mail sent for " +:+ deploymentName));
      now ← new_Date_toISOString;
      let entity := set_LastUpdated now (set_ActionDone true entity) in
      _ ← await_ (UpdateEntity entity);
      mret entity
    else Throw (Error "Failed to send mail")
  else
    _ ← await_ (ConsoleLog ("No alert needed for " +:+ deploymentName));
    mret entity.

Definition updatePhase (sumToken : num) (entity : Entity num) : prog num unit :=
  if ngt sumToken (SumToken entity) then
    now ← new_Date_toISOString;
    let entity := set_LastUpdated now (set_SumToken sumToken entity) in
    await_ (UpdateEntity entity)
  else mret tt.

(** The body of the outer [try]. *)
Definition reconcile (deploymentName : string) (sumToken : num) (month : string)
  : prog num unit :=
  entity ← fetchOrCreate (rowKeyOf deploymentName month) sumToken;
  entity ← alertPhase deploymentName sumToken entity;
  updatePhase sumToken entity.

Definition evaluateTokenUsageForAlert (deploymentName : string) (sumToken : num)
    (month : string) : prog num unit :=
  try_catch (reconcile deploymentName sumToken month)
    (fun error =>
       await_ (ConsoleError "Error processing deployment" deploymentName error)).

End Reconciler.

(** ** Concrete inputs

    The inputs the examples and the witnesses run on: a configuration, the
    deployment and month of the code's comments ([gpt4dev], [2024-10]), an
    empty world and worlds that hold one record. *)

Definition cfg0 : Config :=
  mkConfig (Some "DoNotReply@contoso.example") (Some "ops@contoso.example")
    (Some "subscriptions/0000/resourceGroups/rg/providers/Microsoft.CognitiveServices/accounts/aoai").

(** 2024-10-28T23:59:59.999Z *)
Definition now0 : Z := 1730159999999.

Definition w_empty : world jsnum := mkWorld ∅ [] [] now0 [].

Definition stored (deploymentName month : string) (sumToken : Z) (done : bool)
  : Entity jsnum :=
  mkEntity "DeploymentType" (rowKeyOf deploymentName month) (JInt sumToken) done
    "2024-10-01T00:00:00.000Z".

Definition w_with (e : Entity jsnum) : world jsnum :=
  mkWorld {[entity_key e := e]} [] [] now0 [].

Lemma table_wf_empty {num} : table_wf (∅ : table num).
Proof. intros k e. by rewrite lookup_empty. Qed.

Lemma table_wf_singleton {num} (e : Entity num) :
  table_wf ({[entity_key e := e]} : table num).
Proof.
  intros k e'. rewrite lookup_singleton. case_decide; [|done].
  intros [= <-]. done.
Qed.

#[export] Hint Resolve table_wf_empty table_wf_singleton : monitor.

(** ** The key of a record *)

(** Two (deployment, month) pairs with months of one length have the same
    row key only if they are the same pair: with the seven-character months
    of [monthStringOf], each pair has a record of its own. *)
Theorem rowKeyOf_inj (d1 d2 m1 m2 : string) :
  String.length m1 = String.length m2 ->
  rowKeyOf d1 m1 = rowKeyOf d2 m2 -> d1 = d2 /\ m1 = m2.
Proof.
  unfold rowKeyOf. intros Hlen Heq.
  apply (string_app_inj_suffix d1 d2 ("-" +:+ m1) ("-" +:+ m2)) in Heq as [-> Heq].
  - split; [done|]. by injection Heq.
  - rewrite !string_app_length. by rewrite Hlen.
Qed.

(** The deployment and the month a row key names, the month being its last
    seven characters. *)
Definition deploymentOf (rowKey : string) : string :=
  String.substring 0 (String.length rowKey - 8) rowKey.

Definition monthOf (rowKey : string) : string :=
  String.substring (String.length rowKey - 7) 7 rowKey.

(** C27: The row key of a deployment and the month string of a time names that
    deployment and that month: the key can be read back, whatever characters
    the name of the deployment holds. *)
Theorem rowKeyOf_roundtrip (d : string) (t : Z) :
  deploymentOf (rowKeyOf d (monthStringOf t)) = d /\
  monthOf (rowKeyOf d (monthStringOf t)) = monthStringOf t.
Proof.
  unfold deploymentOf, monthOf, rowKeyOf.
  pose proof (monthStringOf_length t) as Hlen. split.
  - rewrite !string_app_length, Hlen. simpl.
    replace (String.length d + 8 - 8)%nat with (String.length d) by lia.
    apply substring_app_prefix.
  - rewrite <- string_app_assoc, (string_app_length (d +:+ "-")), Hlen.
    replace (String.length (d +:+ "-") + 7 - 7)%nat with (String.length (d +:+ "-")) by lia.
    rewrite <- Hlen at 1. apply substring_app_suffix.
Qed.

(** Without the condition on the lengths the key is ambiguous. *)
Example rowKeyOf_ambiguous : rowKeyOf "gpt-4" "2024-10" = rowKeyOf "gpt" "4-2024-10".
Proof. reflexivity. Qed.

Lemma rowKeyOf_inj_witness :
  String.length (monthStringOf 0) = String.length (monthStringOf now0) /\
  (rowKeyOf "gpt4dev" (monthStringOf 0) = rowKeyOf "gpt4dev" (monthStringOf now0) ->
   "gpt4dev" = "gpt4dev" /\ monthStringOf 0 = monthStringOf now0).
Proof.
  assert (String.length (monthStringOf 0) = String.length (monthStringOf now0)) as Hlen
    by reflexivity.
  split; [done|]. apply (rowKeyOf_inj _ _ _ _ Hlen).
Defined.

(** ** The steps, specified *)

Section Specs.
Context {num : Type} `{!JsNumber num}.
Context (cfg : Config).
Implicit Types (w : world num) (e : Entity num) (k : string * string) (sum : num).

(** The entity [fetchOrCreate] returns, from the record it found or not. *)
Definition fetched sum (o : option (Entity num)) e : Prop :=
  match o with
  | Some e0 => e = e0
  | None => SumToken e = sum /\ ActionDone e = false
  end.

Definition fetch_post rk sum w w' (r : outcome jserror (Entity num)) : Prop :=
  calm ("DeploymentType", rk) sum w w' /\
  forall e, r = Ok e ->
    w_table w' !! ("DeploymentType", rk) = Some e /\
    fetched sum (w_table w !! ("DeploymentType", rk)) e.

Lemma wp_new_Date {A} E (f : string -> prog num A) Q w :
  (forall w' now, idle w w' -> wpe E (f now) Q w') ->
  wpe E (new_Date_toISOString ≫= f) Q w.
Proof.
  intros H. unfold new_Date_toISOString. apply wp_bind, wp_bind, wp_local; [done..|].
  intros w' now Hi. simpl. by apply H.
Qed.

Lemma fetchOrCreate_spec rk sum w :
  wp (fetchOrCreate rk sum) (fetch_post rk sum w) w.
Proof.
  unfold fetchOrCreate. apply wp_try_catch, wp_get. intros w1 [e|err] I1 Hget.
  - split; [chain|]. intros e' [= <-]. rewrite (idle_table _ _ I1), (Hget e eq_refl). done.
  - destruct (statusCode_is 404 err); [|split; [chain | done]].
    apply wp_new_Date. intros w2 now I2.
    apply wp_bind, (wp_create (newEntity rk sum now) _ _ sum); [done..| |].
    + intros w3 err3 C3. split; [chain | done].
    + intros w3 C3 Hnone Hsome. split; [chain|]. intros e' [= <-]. split; [done|].
      change (w_table w2 !! ("DeploymentType", rk) = None) in Hnone.
      rewrite (idle_table _ _ I2), (idle_table _ _ I1) in Hnone. by rewrite Hnone.
Qed.

Definition alert_post d sum e w w' (r : outcome jserror (Entity num)) : Prop :=
  reconciles (entity_key e) sum w w' /\
  mail_effect (entity_key e) (emailMessage cfg d sum) (shouldSendAlert (Some e) sum) w w' /\
  forall e', r = Ok e' ->
    w_table w' !! entity_key e = Some e' /\ SumToken e' = SumToken e /\
    entity_key e' = entity_key e.

Lemma alertPhase_spec d sum e w :
  w_table w !! entity_key e = Some e ->
  wp (alertPhase cfg d sum e) (alert_post d sum e w) w.
Proof.
  intros Hl. unfold alertPhase, alert_post.
  destruct (shouldSendAlert (Some e) sum) eqn:Hdue.
  - apply shouldSendAlert_due in Hdue as [Hgt Hflag].
    unfold sendMail. apply wp_bind, wp_bind, wp_begin_send.
    { intros w1 err [I1|S1]; (split; [chain|]); (split; [|done]).
      - apply mail_none; fields; unfold flag; congruence.
      - apply mail_undelivered; fields; unfold flag; congruence. }
    intros w1 S1. simpl.
    apply (wp_poll _ (emailMessage cfg d sum)).
    { rewrite (sub_submitted _ _ _ S1). apply list_lookup_middle. done. }
    { intros w2 err [I2|D2]; (split; [chain|]); (split; [|done]).
      - apply mail_undelivered; fields; unfold flag; congruence.
      - apply mail_delivered; fields; congruence. }
    { intros w2 D2. simpl. apply wp_bind, wp_local; [done..|]. intros w3 [] I3. simpl.
      apply wp_new_Date. intros w4 now I4.
      apply wp_bind, (wp_update e _ _ _ sum); autorewrite with monitor_rw.
      - fields. congruence.
      - simpl. auto.
      - intros w5 err U5. split; [chain|]. split; [|done].
        apply mail_delivered; fields; congruence.
      - intros w5 U5 Hl5. simpl. split; [chain|]. split; [|by intros e' [= <-]].
        apply mail_delivered; fields; congruence. }
    { intros w2 status Hne I2. simpl.
      destruct (String.eqb_spec status "Succeeded") as [->|_]; [done|]. simpl.
      split; [chain|]. split; [|done].
      apply mail_undelivered; fields; unfold flag; congruence. }
  - apply wp_bind, wp_local; [done..|]. intros w1 [] I1. simpl.
    split; [chain|]. split; [|intros e' [= <-]; by rewrite (idle_table _ _ I1)].
    apply mail_none; fields; unfold flag; congruence.
Qed.

Lemma updatePhase_spec sum e w :
  w_table w !! entity_key e = Some e ->
  wp (updatePhase sum e) (fun w' _ => calm (entity_key e) sum w w') w.
Proof.
  intros Hl. unfold updatePhase. destruct (ngt sum (SumToken e)) eqn:Hgt.
  - apply wp_new_Date. intros w1 now I1.
    assert (w_table w1 !! entity_key e = Some e) as Hl1 by (fields; congruence).
    apply (wp_update e _ _ _ sum); autorewrite with monitor_rw; [done|simpl; auto|..].
    + intros w2 err U2. apply (updated_calm e (set_LastUpdated now (set_SumToken sum e)) sum w1 w2 Hl1 eq_refl) in U2.
      autorewrite with monitor_rw in U2. chain.
    + intros w2 U2 _. apply (updated_calm e (set_LastUpdated now (set_SumToken sum e)) sum w1 w2 Hl1 eq_refl) in U2.
      autorewrite with monitor_rw in U2. chain.
  - apply wp_ret. chain.
Qed.

(** The decision taken on the fetched entity is the decision on the stored
    record. *)
Lemma fetched_due sum o e :
  fetched sum o e -> shouldSendAlert (Some e) sum = shouldSendAlert o sum.
Proof.
  destruct o as [e0|]; simpl; [by intros -> |].
  intros [_ Ha]. unfold shouldSendAlert. simpl. by rewrite Ha.
Qed.

Definition reconcile_post d sum month w w' : Prop :=
  reconciles (recordKey d month) sum w w' /\
  mail_effect (recordKey d month) (emailMessage cfg d sum)
    (shouldSendAlert (w_table w !! recordKey d month) sum) w w'.

Lemma reconcile_spec d sum month w :
  table_wf (w_table w) ->
  wp (reconcile cfg d sum month) (fun w' _ => reconcile_post d sum month w w') w.
Proof.
  intros Hwf. unfold reconcile, reconcile_post, recordKey.
  set (k := ("DeploymentType", rowKeyOf d month)).
  apply wp_bind. eapply wp_mono; [|apply fetchOrCreate_spec].
  intros w1 [e|err] [C1 Hres]; simpl.
  - destruct (Hres e eq_refl) as [Hl1 Hf]. fold k in C1, Hl1, Hf.
    assert (entity_key e = k) as Hk.
    { eapply (rec_wf _ _ _ _ (calm_reconciles _ _ _ _ C1)); done. }
    rewrite <- Hk in Hl1. rewrite <- (fetched_due _ _ _ Hf).
    apply wp_bind. eapply wp_mono; [|by apply alertPhase_spec].
    intros w2 [e2|err2] (R2 & M2 & Hres2); simpl; rewrite Hk in *.
    + destruct (Hres2 e2 eq_refl) as (Hl2 & _ & Hk2). rewrite <- Hk2 in Hl2.
      eapply wp_mono; [|by apply updatePhase_spec].
      intros w3 r3 C3. simpl in C3. rewrite Hk2 in C3. split; [chain|].
      eauto using mail_effect_calm_l, mail_effect_calm_r.
    + split; [chain|]. eauto using mail_effect_calm_l.
  - split; [chain|]. apply mail_none; fields; done.
Qed.

Definition evaluate_post d sum month w w' (r : outcome jserror unit) : Prop :=
  r = Ok tt /\ reconcile_post d sum month w w'.

Lemma evaluate_spec d sum month w :
  table_wf (w_table w) ->
  wp (evaluateTokenUsageForAlert cfg d sum month) (evaluate_post d sum month w) w.
Proof.
  intros Hwf. unfold evaluateTokenUsageForAlert.
  apply wp_try_catch. eapply wp_mono; [|by apply reconcile_spec].
  intros w1 [[]|err] [R1 M1]; [done|].
  apply wp_local; [done..|]. intros w2 [] I2. split; [done|]. split; [chain|].
  apply (mail_effect_calm_r _ sum _ _ _ w1); [done | by apply idle_calm].
Qed.

End Specs.

(** ** The guarantees of a run *)

Section Theorems.
Context {num : Type} `{!JsNumber num}.
Context (cfg : Config) (d : string) (sum : num) (month : string).
Implicit Types (w : world num) (cs : list choice) (e : Entity num).

#[local] Abbreviation k := (recordKey d month).

Lemma evaluate_run cs w :
  table_wf (w_table w) ->
  evaluate_post cfg d sum month w (run_world (evaluateTokenUsageForAlert cfg d sum month) cs w) (run_result (evaluateTokenUsageForAlert cfg d sum month) cs w).
Proof. intros Hwf. by apply (wp_run (evaluateTokenUsageForAlert cfg d sum month)), evaluate_spec. Qed.

(** C8: whatever fails, [evaluateTokenUsageForAlert] resolves: the outer
    [catch] swallows every error, so one deployment's failure cannot reject
    the [Promise.all] of the handler. *)
Theorem evaluate_never_throws cs w : run_result (evaluateTokenUsageForAlert cfg d sum month) cs w = Ok tt.
Proof.
  apply (wp_run (evaluateTokenUsageForAlert cfg d sum month) (fun _ r => r = Ok tt)).
  unfold evaluateTokenUsageForAlert. apply wp_try_catch.
  eapply wp_mono; [|apply wp_any]. intros w1 [[]|err] _; [done|].
  apply wp_local; [done..|]. by intros w2 [] _.
Qed.

(** a reconciliation of one (deployment, month) leaves every other
    record of the table as it was. *)
Theorem evaluate_other_records cs w k' :
  table_wf (w_table w) -> k' <> k ->
  w_table (run_world (evaluateTokenUsageForAlert cfg d sum month) cs w) !! k' = w_table w !! k'.
Proof. intros Hwf Hk'. by apply (evaluate_run cs w Hwf). Qed.

(** the table keeps holding each entity under its own key. *)
Theorem evaluate_table_wf cs w :
  table_wf (w_table w) -> table_wf (w_table (run_world (evaluateTokenUsageForAlert cfg d sum month) cs w)).
Proof. intros Hwf. by apply (evaluate_run cs w Hwf). Qed.

(** C4: a stored [SumToken] is never lowered: after a run the record is
    still there and holds the old value or, when the new total is above it,
    the new total. *)
Theorem evaluate_never_lowers cs w e :
  table_wf (w_table w) -> w_table w !! k = Some e ->
  exists e', w_table (run_world (evaluateTokenUsageForAlert cfg d sum month) cs w) !! k = Some e' /\
    (SumToken e' = SumToken e \/ SumToken e' = raise_to (SumToken e) sum) /\
    not_above (SumToken e) (SumToken e').
Proof.
  intros Hwf Hl. destruct (evaluate_run cs w Hwf) as (_ & Hr & _).
  destruct (reconciles_slot _ _ _ _ _ Hr Hl) as (e' & Hl' & Hs & _).
  exists e'. split; [done|]. destruct Hs as [Hs|[Hgt Hs]]; rewrite Hs.
  - split; [by left | apply ngt_irrefl].
  - split; [right; unfold raise_to; by rewrite Hgt | by apply ngt_asym].
Qed.

(** [ActionDone] is never cleared. *)
Theorem evaluate_keeps_flag cs w :
  table_wf (w_table w) -> flag k w = true -> flag k (run_world (evaluateTokenUsageForAlert cfg d sum month) cs w) = true.
Proof.
  intros Hwf. destruct (evaluate_run cs w Hwf) as (_ & Hr & _).
  by apply (reconciles_flag _ sum).
Qed.

(** [ActionDone] becomes true only for a usage above the threshold. *)
Theorem evaluate_flag_needs_threshold cs w :
  table_wf (w_table w) -> flag k w = false ->
  flag k (run_world (evaluateTokenUsageForAlert cfg d sum month) cs w) = true -> ngt sum THRESHOLD = true.
Proof.
  intros Hwf. destruct (evaluate_run cs w Hwf) as (_ & Hr & _).
  by apply (reconciles_flag_threshold k).
Qed.

(** a run hands at most one message to the mail service, and at most
    one is delivered. *)
Theorem evaluate_mail_at_most_once cs w :
  table_wf (w_table w) ->
  extends_by_at_most_one (w_submitted w) (w_submitted (run_world (evaluateTokenUsageForAlert cfg d sum month) cs w)) /\
  extends_by_at_most_one (w_outbox w) (w_outbox (run_world (evaluateTokenUsageForAlert cfg d sum month) cs w)).
Proof.
  intros Hwf. destruct (evaluate_run cs w Hwf) as (_ & _ & Hmail).
  eauto with monitor.
Qed.

(** C29: no message is sent unless [shouldSendAlert] holds of the stored
    record and the new total. *)
Theorem evaluate_no_alert_unless_due cs w :
  table_wf (w_table w) -> shouldSendAlert (w_table w !! k) sum = false ->
  w_submitted (run_world (evaluateTokenUsageForAlert cfg d sum month) cs w) = w_submitted w /\
  w_outbox (run_world (evaluateTokenUsageForAlert cfg d sum month) cs w) = w_outbox w.
Proof.
  intros Hwf Hdue. destruct (evaluate_run cs w Hwf) as (_ & _ & Hmail).
  rewrite Hdue in Hmail. by eapply mail_effect_not_due.
Qed.

(** C1: once the alert is recorded, no run sends it again. *)
Theorem evaluate_alert_once cs w :
  table_wf (w_table w) -> flag k w = true ->
  w_submitted (run_world (evaluateTokenUsageForAlert cfg d sum month) cs w) = w_submitted w /\
  w_outbox (run_world (evaluateTokenUsageForAlert cfg d sum month) cs w) = w_outbox w.
Proof.
  intros Hwf Hflag. destruct (evaluate_run cs w Hwf) as (_ & _ & Hmail).
  rewrite (flag_not_due _ _ sum Hflag) in Hmail. by eapply mail_effect_not_due.
Qed.

(** C5: the flag is raised only after the message is delivered: an alert is
    never recorded as sent without having been sent. *)
Theorem evaluate_flag_means_delivered cs w :
  table_wf (w_table w) -> flag k w = false ->
  flag k (run_world (evaluateTokenUsageForAlert cfg d sum month) cs w) = true ->
  w_outbox (run_world (evaluateTokenUsageForAlert cfg d sum month) cs w) = w_outbox w ++ [emailMessage cfg d sum].
Proof.
  intros Hwf Hf Hf'. destruct (evaluate_run cs w Hwf) as (_ & _ & Hmail).
  destruct Hmail; [congruence.. | done].
Qed.

(** after a run that recorded the alert, a second run, whatever the
    environment does, sends nothing and leaves the flag set. *)
Theorem evaluate_twice cs1 cs2 w :
  table_wf (w_table w) ->
  flag k (run_world (evaluateTokenUsageForAlert cfg d sum month) cs1 w) = true ->
  w_outbox (run_world (evaluateTokenUsageForAlert cfg d sum month) cs2 (run_world (evaluateTokenUsageForAlert cfg d sum month) cs1 w)) =
    w_outbox (run_world (evaluateTokenUsageForAlert cfg d sum month) cs1 w) /\
  flag k (run_world (evaluateTokenUsageForAlert cfg d sum month) cs2 (run_world (evaluateTokenUsageForAlert cfg d sum month) cs1 w)) = true.
Proof.
  intros Hwf Hflag. destruct (evaluate_run cs1 w Hwf) as (_ & Hr1 & _).
  destruct (evaluate_run cs2 _ (rec_wf _ _ _ _ Hr1 Hwf)) as (_ & Hr2 & Hmail).
  rewrite (flag_not_due _ _ sum Hflag) in Hmail.
  split; [by eapply mail_effect_not_due | by apply (reconciles_flag _ sum _ _ Hr2)].
Qed.

End Theorems.

(** ** The guarantees at concrete inputs *)

Section Witnesses.

#[local] Abbreviation eval1500 := (evaluateTokenUsageForAlert cfg0 "gpt4dev" (JInt 1500) "2024-10").
#[local] Abbreviation eval1800 := (evaluateTokenUsageForAlert cfg0 "gpt4dev" (JInt 1800) "2024-10").
#[local] Abbreviation eval400 := (evaluateTokenUsageForAlert cfg0 "gpt4dev" (JInt 400) "2024-10").
#[local] Abbreviation key0 := (recordKey "gpt4dev" "2024-10").
#[local] Abbreviation alerted0 := (w_with (stored "gpt4dev" "2024-10" 1500 true)).
#[local] Abbreviation fresh0 := (w_with (stored "gpt4dev" "2024-10" 500 false)).

Lemma evaluate_other_records_witness :
  table_wf (w_table w_empty) /\
  ("DeploymentType", "gpt35-2024-10") <> key0 /\
  w_table (run_world eval1500 [] w_empty) !! ("DeploymentType", "gpt35-2024-10") =
  w_table w_empty !! ("DeploymentType", "gpt35-2024-10").
Proof.
  assert (table_wf (w_table w_empty)) as Hwf by apply table_wf_empty.
  assert (("DeploymentType", "gpt35-2024-10") <> key0) as Hk by done.
  split; [done|]. split; [done|]. by apply evaluate_other_records.
Defined.

Lemma evaluate_table_wf_witness :
  table_wf (w_table w_empty) /\ table_wf (w_table (run_world eval1500 [] w_empty)).
Proof.
  assert (table_wf (w_table w_empty)) as Hwf by apply table_wf_empty.
  split; [done|]. by apply evaluate_table_wf.
Defined.

Lemma evaluate_never_lowers_witness :
  table_wf (w_table fresh0) /\
  w_table fresh0 !! key0 = Some (stored "gpt4dev" "2024-10" 500 false) /\
  exists e', w_table (run_world eval400 [] fresh0) !! key0 = Some e' /\
    (SumToken e' = JInt 500 \/ SumToken e' = raise_to (JInt 500) (JInt 400)) /\
    not_above (JInt 500) (SumToken e').
Proof.
  assert (table_wf (w_table fresh0)) as Hwf by apply table_wf_singleton.
  assert (w_table fresh0 !! key0 = Some (stored "gpt4dev" "2024-10" 500 false)) as Hl
    by (vm_compute; reflexivity).
  split; [done|]. split; [done|].
  apply (evaluate_never_lowers cfg0 "gpt4dev" (JInt 400) "2024-10" [] fresh0 _ Hwf Hl).
Defined.

Lemma evaluate_keeps_flag_witness :
  table_wf (w_table alerted0) /\ flag key0 alerted0 = true /\
  flag key0 (run_world eval1800 [] alerted0) = true.
Proof.
  assert (table_wf (w_table alerted0)) as Hwf by apply table_wf_singleton.
  assert (flag key0 alerted0 = true) as Hf by (vm_compute; reflexivity).
  split; [done|]. split; [done|]. by apply evaluate_keeps_flag.
Defined.

Lemma evaluate_flag_needs_threshold_witness :
  table_wf (w_table w_empty) /\ flag key0 w_empty = false /\
  flag key0 (run_world eval1500 [] w_empty) = true /\
  ngt (JInt 1500) THRESHOLD = true.
Proof.
  assert (table_wf (w_table w_empty)) as Hwf by apply table_wf_empty.
  assert (flag key0 w_empty = false) as Hf by (vm_compute; reflexivity).
  assert (flag key0 (run_world eval1500 [] w_empty) = true) as Hf'
    by (vm_compute; reflexivity).
  split; [done|]. split; [done|]. split; [done|].
  by apply (evaluate_flag_needs_threshold cfg0 "gpt4dev" (JInt 1500) "2024-10" [] w_empty).
Defined.

Lemma evaluate_mail_at_most_once_witness :
  table_wf (w_table w_empty) /\
  extends_by_at_most_one (w_submitted w_empty) (w_submitted (run_world eval1500 [] w_empty)) /\
  extends_by_at_most_one (w_outbox w_empty) (w_outbox (run_world eval1500 [] w_empty)).
Proof.
  assert (table_wf (w_table w_empty)) as Hwf by apply table_wf_empty.
  split; [done|]. by apply evaluate_mail_at_most_once.
Defined.

Lemma evaluate_no_alert_unless_due_witness :
  table_wf (w_table fresh0) /\
  shouldSendAlert (w_table fresh0 !! key0) (JInt 400) = false /\
  w_submitted (run_world eval400 [] fresh0) = w_submitted fresh0 /\
  w_outbox (run_world eval400 [] fresh0) = w_outbox fresh0.
Proof.
  assert (table_wf (w_table fresh0)) as Hwf by apply table_wf_singleton.
  assert (shouldSendAlert (w_table fresh0 !! key0) (JInt 400) = false) as Hd
    by (vm_compute; reflexivity).
  split; [done|]. split; [done|]. by apply evaluate_no_alert_unless_due.
Defined.

Lemma evaluate_alert_once_witness :
  table_wf (w_table alerted0) /\ flag key0 alerted0 = true /\
  w_submitted (run_world eval1800 [] alerted0) = w_submitted alerted0 /\
  w_outbox (run_world eval1800 [] alerted0) = w_outbox alerted0.
Proof.
  assert (table_wf (w_table alerted0)) as Hwf by apply table_wf_singleton.
  assert (flag key0 alerted0 = true) as Hf by (vm_compute; reflexivity).
  split; [done|]. split; [done|]. by apply evaluate_alert_once.
Defined.

Lemma evaluate_flag_means_delivered_witness :
  table_wf (w_table w_empty) /\ flag key0 w_empty = false /\
  flag key0 (run_world eval1500 [] w_empty) = true /\
  w_outbox (run_world eval1500 [] w_empty) =
    w_outbox w_empty ++ [emailMessage cfg0 "gpt4dev" (JInt 1500)].
Proof.
  assert (table_wf (w_table w_empty)) as Hwf by apply table_wf_empty.
  assert (flag key0 w_empty = false) as Hf by (vm_compute; reflexivity).
  assert (flag key0 (run_world eval1500 [] w_empty) = true) as Hf'
    by (vm_compute; reflexivity).
  split; [done|]. split; [done|]. split; [done|].
  by apply evaluate_flag_means_delivered.
Defined.

Lemma evaluate_twice_witness :
  table_wf (w_table w_empty) /\
  flag key0 (run_world eval1500 [] w_empty) = true /\
  w_outbox (run_world eval1500 [] (run_world eval1500 [] w_empty)) =
    w_outbox (run_world eval1500 [] w_empty) /\
  flag key0 (run_world eval1500 [] (run_world eval1500 [] w_empty)) = true.
Proof.
  assert (table_wf (w_table w_empty)) as Hwf by apply table_wf_empty.
  assert (flag key0 (run_world eval1500 [] w_empty) = true) as Hf
    by (vm_compute; reflexivity).
  split; [done|]. split; [done|]. by apply evaluate_twice.
Defined.

End Witnesses.
