(* ===== verification/Refinement.v ===== *)
(** * Refinement: the reconciliation the code computes when nothing fails

    The record the design promises ([UsageRecord]: the highest usage seen and
    whether the alert was sent), its policy [shouldAlert] and its
    reconciliation [reconcileRecord], written as pure functions, and the
    proof that a run of [evaluateTokenUsageForAlert] in which no call fails
    and the mail is delivered computes them: seen through [abs_table], the
    table after the run is the table before with the reconciled record under
    the deployment's key, and the outbox gains the alert message exactly when
    the policy asks for it.  The time stamps are what the abstraction
    forgets.

    Each step of the code has its exact effect here ([fetchOrCreate_exact],
    [alertPhase_exact], [updatePhase_exact]), stated with [stepped]: the
    table gains one entity under one key and the mail service a list of
    messages. *)

From stdpp Require Import base tactics option list strings gmap.
From Stdlib Require Import ZArith Lia.
From S2P Require Import Prelude JsValue DateTime Table Effects Rules Policy Guarantee Reconciler.

(** ** The abstract record and its reconciliation *)

Section Abstract.
Context {num : Type} `{!JsNumber num}.

Record UsageRecord : Type := mkUsageRecord {
  cumulativeUsage : num;
  alertSent : bool;
}.

#[global] Instance UsageRecord_eq_dec : EqDecision UsageRecord.
Proof. solve_decision. Defined.

Definition shouldAlert (existingRecord : option UsageRecord) (newUsage : num) : bool :=
  ngt newUsage THRESHOLD &&
  match existingRecord with
  | None => true
  | Some r => negb (alertSent r)
  end.

(** One reconciliation of the record: the record to store and whether the
    notifier is invoked. *)
Definition reconcileRecord (existingRecord : option UsageRecord) (newUsage : num)
  : UsageRecord * bool :=
  let r := default (mkUsageRecord newUsage false) existingRecord in
  let alert := shouldAlert existingRecord newUsage in
  (mkUsageRecord (raise_to (cumulativeUsage r) newUsage) (alertSent r || alert), alert).

(** What an entity of the table stands for. *)
Definition abs_of (e : Entity num) : UsageRecord :=
  mkUsageRecord (SumToken e) (ActionDone e).

Definition abs_table (w : world num) : gmap (string * string) UsageRecord :=
  abs_of <$> w_table w.

(** The messages a reconciliation hands to the notifier. *)
Definition alerts (m : EmailMessage) (due : bool) : list EmailMessage :=
  if due then [m] else [].

(** From [w] to [w'] the table gained [e] under [k] and the mail service
    accepted and delivered the messages [sent]. *)
Record stepped (k : string * string) (e : Entity num) (sent : list EmailMessage)
    (w w' : world num) : Prop := mkStepped {
  sp_table : w_table w' = <[k := e]> (w_table w);
  sp_submitted : w_submitted w' = w_submitted w ++ sent;
  sp_outbox : w_outbox w' = w_outbox w ++ sent;
}.

End Abstract.

Arguments UsageRecord num : clear implicits.

(** ** The policy refines [shouldAlert] *)

Section Steps.
Context {num : Type} `{!JsNumber num}.
Context (cfg : Config).
Implicit Types (w : world num) (e : Entity num) (k : string * string) (sum : num).

Lemma shouldAlert_abs_of e sum :
  shouldAlert (Some (abs_of e)) sum = shouldSendAlert (Some e) sum.
Proof. unfold shouldSendAlert, shouldAlert. simpl. apply andb_comm. Qed.

(** The decision of the code is the decision of the design on the record the
    entity stands for, a null entity standing for no record. *)
Theorem shouldSendAlert_refines (entity : option (Entity num)) sum :
  shouldSendAlert entity sum = shouldAlert (abs_of <$> entity) sum.
Proof.
  destruct entity as [e|]; simpl; [by rewrite shouldAlert_abs_of|].
  unfold shouldSendAlert, shouldAlert. simpl. by rewrite andb_true_r.
Qed.

Lemma stepped_lookup k e sent w w' : stepped k e sent w w' -> w_table w' !! k = Some e.
Proof. intros [-> _ _]. apply lookup_insert_eq. Qed.

Lemma idle_stepped k e w w' :
  w_table w !! k = Some e -> idle w w' -> stepped k e [] w w'.
Proof.
  intros Hl [Ht Hs Ho _ _]. split; rewrite ?app_nil_r; [|done..].
  by rewrite Ht, insert_id.
Qed.

Lemma wrote_stepped e w w' : wrote e w w' -> stepped (entity_key e) e [] w w'.
Proof. intros [Ht Hs Ho _ _]. split; rewrite ?app_nil_r; done. Qed.

Lemma stepped_trans k e1 e2 s1 s2 w w1 w2 :
  stepped k e1 s1 w w1 -> stepped k e2 s2 w1 w2 -> stepped k e2 (s1 ++ s2) w w2.
Proof.
  intros [Ht1 Hs1 Ho1] [Ht2 Hs2 Ho2]. split; rewrite ?app_assoc; [|congruence..].
  by rewrite Ht2, Ht1, insert_insert_eq.
Qed.

(** A step that leaves the table and the mail service alone, after or
    before another. *)
Lemma stepped_idle_r k e s w w1 w2 : stepped k e s w w1 -> idle w1 w2 -> stepped k e s w w2.
Proof.
  intros S I. rewrite <- (app_nil_r s).
  eauto using stepped_trans, idle_stepped, stepped_lookup.
Qed.

Lemma stepped_idle_l k e s w w1 w2 : idle w w1 -> stepped k e s w1 w2 -> stepped k e s w w2.
Proof. intros [Ht Hs Ho _ _] [Ht2 Hs2 Ho2]. split; congruence. Qed.

Lemma stepped_abs k e sent w w' :
  stepped k e sent w w' -> abs_table w' = <[k := abs_of e]> (abs_table w).
Proof. intros [Ht _ _]. unfold abs_table. by rewrite Ht, fmap_insert. Qed.

Lemma abs_table_lookup w k : abs_table w !! k = abs_of <$> w_table w !! k.
Proof. apply lookup_fmap. Qed.

(** A message submitted and then delivered. *)
Lemma sent_stepped k e m w w1 w2 :
  w_table w !! k = Some e -> submitted m w w1 -> delivered m w1 w2 -> stepped k e [m] w w2.
Proof.
  intros Hl [Ht1 Hs1 Ho1 _ _] [Ht2 Hs2 Ho2 _ _]. split; [|congruence..].
  by rewrite Ht2, Ht1, insert_id.
Qed.

(** *** The steps of the code when nothing fails *)

Lemma fetched_abs sum w k e :
  fetched sum (w_table w !! k) e ->
  abs_of e = default (mkUsageRecord sum false) (abs_table w !! k).
Proof.
  rewrite abs_table_lookup. destruct (w_table w !! k); simpl; [by intros -> |].
  destruct e. simpl. by intros [-> ->].
Qed.

Lemma fetchOrCreate_exact E
    `{!forall pk rk, Answers E (GetEntity pk rk), !forall e, Answers E (CreateEntity e)} rk sum w :
  table_wf (w_table w) ->
  wpe E (fetchOrCreate rk sum)
    (fun w' r => exists e, r = Ok e /\ stepped ("DeploymentType", rk) e [] w w' /\
       entity_key e = ("DeploymentType", rk) /\
       fetched sum (w_table w !! ("DeploymentType", rk)) e) w.
Proof.
  intros Hwf. unfold fetchOrCreate.
  apply wp_try_catch. answered wpn_get. intros w1 I1. unfold table_get.
  destruct (w_table w !! ("DeploymentType", rk)) as [e|] eqn:Hl; simpl.
  - exists e. split; [done|]. split; [by apply idle_stepped|]. split; [by apply Hwf | done].
  - apply wp_new_Date. intros w2 now I2.
    apply wp_bind. answered wpn_create.
    { simpl. by rewrite (idle_table _ _ I2), (idle_table _ _ I1). }
    intros w3 W3. simpl. eexists. split; [done|]. split; [|done].
    apply wrote_stepped in W3. eauto using stepped_idle_l.
Qed.

Lemma alertPhase_exact E `{!forall R (o : op num R), Answers E o, !Delivers E} d sum e w :
  w_table w !! entity_key e = Some e ->
  wpe E (alertPhase cfg d sum e)
    (fun w' r => exists e', r = Ok e' /\
       stepped (entity_key e) e' (alerts (emailMessage cfg d sum) (shouldSendAlert (Some e) sum)) w w' /\
       entity_key e' = entity_key e /\
       abs_of e' = mkUsageRecord (SumToken e) (ActionDone e || shouldSendAlert (Some e) sum)) w.
Proof.
  intros Hl. unfold alertPhase. destruct (shouldSendAlert (Some e) sum) eqn:Hdue; unfold alerts.
  - unfold sendMail. apply wp_bind, wp_bind. answered wpn_begin_send. intros w1 S1. simpl.
    answered (wpn_poll _ _ (emailMessage cfg d sum)).
    { rewrite (sub_submitted _ _ _ S1). by apply list_lookup_middle. }
    intros w2 D2. simpl. apply wp_bind, wp_local; [done..|]. intros w3 [] I3. simpl.
    apply wp_new_Date. intros w4 now I4.
    pose proof (sent_stepped _ _ _ _ _ _ Hl S1 D2) as S.
    apply (stepped_idle_r _ _ _ _ _ _ S) in I3. apply (stepped_idle_r _ _ _ _ _ _ I3) in I4.
    apply wp_bind. answered wpn_update; autorewrite with monitor_rw.
    { rewrite (stepped_lookup _ _ _ _ _ I4). eauto. }
    intros w5 W5. simpl. eexists. split; [done|]. apply wrote_stepped in W5.
    autorewrite with monitor_rw in W5. split; [|by rewrite orb_true_r].
    rewrite <- (app_nil_r [_]). eauto using stepped_trans.
  - apply wp_bind, wp_local; [done..|]. intros w1 [] I1. simpl.
    exists e. rewrite orb_false_r. by eauto using idle_stepped.
Qed.

Lemma updatePhase_exact E `{!forall e, Answers E (UpdateEntity e)} sum e w :
  w_table w !! entity_key e = Some e ->
  wpe E (updatePhase sum e)
    (fun w' r => r = Ok tt /\ exists e',
       stepped (entity_key e) e' [] w w' /\
       abs_of e' = mkUsageRecord (raise_to (SumToken e) sum) (ActionDone e)) w.
Proof.
  intros Hl. unfold updatePhase, raise_to. destruct (ngt sum (SumToken e)).
  - apply wp_new_Date. intros w1 now I1. answered wpn_update; autorewrite with monitor_rw.
    { rewrite (idle_table _ _ I1), Hl. eauto. }
    intros w2 W2. split; [done|]. apply wrote_stepped in W2.
    autorewrite with monitor_rw in W2. eauto using stepped_idle_l.
  - apply wp_ret. split; [done|]. exists e. split; [by apply idle_stepped | done].
Qed.

(** *** Their composition *)

(** The reconciliation in the three steps of the code: on the record read or
    synthesized, decide, then raise the usage. *)
Lemma reconcileRecord_steps (o : option (UsageRecord num)) sum :
  let r := default (mkUsageRecord sum false) o in
  reconcileRecord o sum =
  (mkUsageRecord (raise_to (cumulativeUsage r) sum) (alertSent r || shouldAlert (Some r) sum),
   shouldAlert (Some r) sum).
Proof. by destruct o. Qed.

(** What one reconciliation of [sum] for [d] in [month] makes of [w]. *)
Record refines d sum month w w' : Prop := mkRefines {
  ref_table : abs_table w' =
    <[recordKey d month := (reconcileRecord (abs_table w !! recordKey d month) sum).1]> (abs_table w);
  ref_submitted : w_submitted w' = w_submitted w ++
    alerts (emailMessage cfg d sum) (reconcileRecord (abs_table w !! recordKey d month) sum).2;
  ref_outbox : w_outbox w' = w_outbox w ++
    alerts (emailMessage cfg d sum) (reconcileRecord (abs_table w !! recordKey d month) sum).2;
}.

Lemma stepped_refines d sum month e s w w' :
  stepped (recordKey d month) e s w w' ->
  abs_of e = (reconcileRecord (abs_table w !! recordKey d month) sum).1 ->
  s = alerts (emailMessage cfg d sum) (reconcileRecord (abs_table w !! recordKey d month) sum).2 ->
  refines d sum month w w'.
Proof.
  intros S He Hs. split; rewrite <- ?He, <- ?Hs; [by eapply stepped_abs | apply S..].
Qed.

Lemma reconcile_exact E `{!forall R (o : op num R), Answers E o, !Delivers E} d sum month w :
  table_wf (w_table w) ->
  wpe E (reconcile cfg d sum month)
    (fun w' r => r = Ok tt /\ refines d sum month w w') w.
Proof.
  intros Hwf. unfold reconcile.
  apply wp_bind. eapply wp_mono; [|by answered fetchOrCreate_exact].
  intros w1 _ (e & -> & S1 & Hk & He%fetched_abs). fold (recordKey d month) in S1, Hk, He.
  apply wp_bind. eapply wp_mono; [|answered alertPhase_exact; rewrite Hk; by eapply stepped_lookup].
  intros w2 _ (e2 & -> & S2 & Hk2 & He2). rewrite Hk in S2, Hk2.
  eapply wp_mono; [|answered updatePhase_exact; rewrite Hk2; by eapply stepped_lookup].
  intros w3 _ (-> & e3 & S3 & He3). rewrite Hk2 in S3. split; [done|].
  eapply stepped_refines; [exact (stepped_trans _ _ _ _ _ _ _ _ (stepped_trans _ _ _ _ _ _ _ _ S1 S2) S3) |..];
    rewrite reconcileRecord_steps, <- He, shouldAlert_abs_of; simpl;
    [|by rewrite app_nil_r].
  rewrite He3. by injection He2 as -> ->.
Qed.

Lemma evaluate_exact E `{!forall R (o : op num R), Answers E o, !Delivers E} d sum month w :
  table_wf (w_table w) ->
  wpe E (evaluateTokenUsageForAlert cfg d sum month)
    (fun w' r => r = Ok tt /\ refines d sum month w w') w.
Proof.
  intros Hwf. unfold evaluateTokenUsageForAlert. apply wp_try_catch.
  eapply wp_mono; [|by answered reconcile_exact]. by intros w1 r [-> ?].
Qed.

End Steps.

(** ** Runs in which nothing fails *)

Section Runs.
Context {num : Type} `{!JsNumber num}.
Context (cfg : Config) (d : string) (sum : num) (month : string).
Implicit Types (w : world num) (cs : list choice).

Lemma evaluate_run_exact cs w :
  table_wf (w_table w) -> Forall fault_free cs ->
  refines cfg d sum month w (run_world (evaluateTokenUsageForAlert cfg d sum month) cs w).
Proof.
  intros Hwf Hcs.
  apply (wpe_run faultless (evaluateTokenUsageForAlert cfg d sum month)
           (fun w' r => r = Ok tt /\ refines cfg d sum month w w') w);
    [by answered evaluate_exact | by apply respects_faultless].
Qed.

(** C2: When no call fails and the mail is delivered, a run computes the
    reconciliation of the design: the table, seen as usage records, holds the
    reconciled record under the deployment's key and is otherwise as before,
    and the mail service is handed, and delivers, the alert exactly when the
    policy asks for it. *)
Theorem evaluate_refines cs w :
  table_wf (w_table w) -> Forall fault_free cs ->
  abs_table (run_world (evaluateTokenUsageForAlert cfg d sum month) cs w) =
    <[recordKey d month := (reconcileRecord (abs_table w !! recordKey d month) sum).1]> (abs_table w) /\
  w_submitted (run_world (evaluateTokenUsageForAlert cfg d sum month) cs w) =
    w_submitted w ++ alerts (emailMessage cfg d sum) (reconcileRecord (abs_table w !! recordKey d month) sum).2 /\
  w_outbox (run_world (evaluateTokenUsageForAlert cfg d sum month) cs w) =
    w_outbox w ++ alerts (emailMessage cfg d sum) (reconcileRecord (abs_table w !! recordKey d month) sum).2.
Proof. intros Hwf Hcs. by destruct (evaluate_run_exact cs w Hwf Hcs). Qed.

(** A second reconciliation of the same usage, right after the first,
    changes no record and sends nothing. *)
Lemma reconcileRecord_idem (o : option (UsageRecord num)) :
  reconcileRecord (Some (reconcileRecord o sum).1) sum = ((reconcileRecord o sum).1, false).
Proof.
  unfold reconcileRecord, shouldAlert. simpl. rewrite raise_to_idem.
  destruct (ngt sum THRESHOLD), o as [[u []]|]; simpl; by rewrite ?orb_false_r.
Qed.

(** C24: Two runs in succession in which nothing fails, with the same usage: the
    second leaves every record as the first left it and sends nothing. *)
Theorem evaluate_idempotent cs1 cs2 w :
  table_wf (w_table w) -> Forall fault_free cs1 -> Forall fault_free cs2 ->
  abs_table (run_world (evaluateTokenUsageForAlert cfg d sum month) cs2 (run_world (evaluateTokenUsageForAlert cfg d sum month) cs1 w)) =
    abs_table (run_world (evaluateTokenUsageForAlert cfg d sum month) cs1 w) /\
  w_outbox (run_world (evaluateTokenUsageForAlert cfg d sum month) cs2 (run_world (evaluateTokenUsageForAlert cfg d sum month) cs1 w)) =
    w_outbox (run_world (evaluateTokenUsageForAlert cfg d sum month) cs1 w).
Proof.
  intros Hwf H1 H2. destruct (evaluate_run cfg d sum month cs1 w Hwf) as (_ & Hr1 & _).
  destruct (evaluate_run_exact cs1 w Hwf H1) as [Ht1 _ _].
  destruct (evaluate_run_exact cs2 _ (rec_wf _ _ _ _ Hr1 Hwf) H2) as [Ht2 _ Ho2].
  rewrite Ht2, Ho2, Ht1, lookup_insert_eq, reconcileRecord_idem. simpl.
  by rewrite insert_insert_eq, app_nil_r.
Qed.

End Runs.

(** ** With integer usages *)

Section Integers.
Context (cfg : Config) (d month : string).
Implicit Types (w : world jsnum) (cs : list choice) (e : Entity jsnum).

(** C23: When nothing fails, the stored usage after a reconciliation is the
    maximum of the stored usage and the new one, and the record is marked
    as alerted if it was or if the new usage is above 1000. *)
Theorem evaluate_max_usage (old new : Z) cs w e :
  table_wf (w_table w) -> Forall fault_free cs ->
  w_table w !! recordKey d month = Some e -> SumToken e = JInt old ->
  abs_table (run_world (evaluateTokenUsageForAlert cfg d (JInt new) month) cs w) !! recordKey d month =
    Some (mkUsageRecord (JInt (Z.max old new)) (ActionDone e || bool_decide (1000 < new)%Z)).
Proof.
  intros Hwf Hcs Hl Hs.
  destruct (evaluate_run_exact cfg d (JInt new) month cs w Hwf Hcs) as [-> _ _].
  rewrite lookup_insert_eq, abs_table_lookup, Hl. simpl. rewrite Hs, jsnum_raise_to_int.
  unfold shouldAlert. simpl. by destruct (ActionDone e), (bool_decide (1000 < new)%Z).
Qed.

(** A usage that is not a number changes nothing of a stored record and
    raises no alert. *)
Theorem evaluate_nan_ignored cs w e :
  table_wf (w_table w) -> Forall fault_free cs ->
  w_table w !! recordKey d month = Some e ->
  abs_table (run_world (evaluateTokenUsageForAlert cfg d JNaN month) cs w) = abs_table w /\
  w_outbox (run_world (evaluateTokenUsageForAlert cfg d JNaN month) cs w) = w_outbox w.
Proof.
  intros Hwf Hcs Hl. destruct (evaluate_run_exact cfg d JNaN month cs w Hwf Hcs) as [Ht _ Ho].
  rewrite Ht, Ho, abs_table_lookup, Hl. simpl. rewrite app_nil_r. split; [|done].
  unfold raise_to. simpl. rewrite orb_false_r.
  apply insert_id. rewrite abs_table_lookup, Hl. done.
Qed.

(** C37: A stored usage that is not a number is never replaced: no later usage
    compares greater. *)
Theorem evaluate_nan_sticks (sum : jsnum) cs w e :
  table_wf (w_table w) -> Forall fault_free cs ->
  w_table w !! recordKey d month = Some e -> SumToken e = JNaN ->
  cumulativeUsage <$> abs_table (run_world (evaluateTokenUsageForAlert cfg d sum month) cs w) !! recordKey d month =
    Some JNaN.
Proof.
  intros Hwf Hcs Hl Hs.
  destruct (evaluate_run_exact cfg d sum month cs w Hwf Hcs) as [-> _ _].
  rewrite lookup_insert_eq, abs_table_lookup, Hl. simpl. by rewrite Hs, jsnum_raise_to_nan.
Qed.

End Integers.

(** ** The scenarios of the design, run *)

Section Scenarios.

#[local] Abbreviation key0 := (recordKey "gpt4dev" "2024-10").
#[local] Abbreviation run0 sum w :=
  (run_world (evaluateTokenUsageForAlert cfg0 "gpt4dev" (JInt sum) "2024-10") [] w).

(** Scenario A: no record, usage 1500: the record is created with the usage,
    one message is sent and the record ends marked. *)
Example scenario_A :
  w_table (run0 1500 w_empty) !! key0 =
    Some (mkEntity "DeploymentType" "gpt4dev-2024-10" (JInt 1500) true "2024-10-28T23:59:59.999Z") /\
  abs_table (run0 1500 w_empty) !! key0 = Some (mkUsageRecord (JInt 1500) true) /\
  size (abs_table (run0 1500 w_empty)) = 1%nat /\
  w_outbox (run0 1500 w_empty) = [emailMessage cfg0 "gpt4dev" (JInt 1500)] /\
  w_submitted (run0 1500 w_empty) = [emailMessage cfg0 "gpt4dev" (JInt 1500)].
Proof. by vm_compute. Qed.

(** Scenario B: a marked record with usage 1500, new usage 1800: nothing is
    sent, the usage becomes 1800 and the mark stays. *)
Example scenario_B :
  w_table (run0 1800 (w_with (stored "gpt4dev" "2024-10" 1500 true))) !! key0 =
    Some (mkEntity "DeploymentType" "gpt4dev-2024-10" (JInt 1800) true "2024-10-28T23:59:59.999Z") /\
  abs_table (run0 1800 (w_with (stored "gpt4dev" "2024-10" 1500 true))) !! key0 =
    Some (mkUsageRecord (JInt 1800) true) /\
  size (abs_table (run0 1800 (w_with (stored "gpt4dev" "2024-10" 1500 true)))) = 1%nat /\
  w_submitted (run0 1800 (w_with (stored "gpt4dev" "2024-10" 1500 true))) = [].
Proof. by vm_compute. Qed.

(** Scenario C: an unmarked record with usage 500, new usage 400: the record
    is left as it is, time stamp included, and nothing is sent. *)
Example scenario_C :
  run0 400 (w_with (stored "gpt4dev" "2024-10" 500 false)) =
  log (LogInfo "No alert needed for gpt4dev") (w_with (stored "gpt4dev" "2024-10" 500 false)).
Proof. by vm_compute. Qed.

(** The text of the alert. *)
Example scenario_A_message :
  emailMessage cfg0 "gpt4dev" (JInt 1500) =
  mkEmail (Some "DoNotReply@contoso.example") [Some "ops@contoso.example"]
    "[Alert!] gpt4dev has exceeded the threshold"
    "The deployment gpt4dev has exceeded the threshold of 1000 tokens this month. The total token usage is 1500.".
Proof. by vm_compute. Qed.

End Scenarios.

(** ** The theorems at concrete inputs *)

Section RefinementWitnesses.

#[local] Abbreviation key0 := (recordKey "gpt4dev" "2024-10").
#[local] Abbreviation fresh0 := (w_with (stored "gpt4dev" "2024-10" 500 false)).
#[local] Abbreviation nan0 :=
  (mkEntity "DeploymentType" "gpt4dev-2024-10" JNaN false "2024-10-01T00:00:00.000Z").

Lemma evaluate_refines_witness :
  table_wf (w_table w_empty) /\ Forall fault_free [normal; normal] /\
  abs_table (run_world (evaluateTokenUsageForAlert cfg0 "gpt4dev" (JInt 1500) "2024-10") [normal; normal] w_empty) =
    <[key0 := (reconcileRecord (abs_table w_empty !! key0) (JInt 1500)).1]> (abs_table w_empty) /\
  w_submitted (run_world (evaluateTokenUsageForAlert cfg0 "gpt4dev" (JInt 1500) "2024-10") [normal; normal] w_empty) =
    w_submitted w_empty ++ alerts (emailMessage cfg0 "gpt4dev" (JInt 1500)) (reconcileRecord (abs_table w_empty !! key0) (JInt 1500)).2 /\
  w_outbox (run_world (evaluateTokenUsageForAlert cfg0 "gpt4dev" (JInt 1500) "2024-10") [normal; normal] w_empty) =
    w_outbox w_empty ++ alerts (emailMessage cfg0 "gpt4dev" (JInt 1500)) (reconcileRecord (abs_table w_empty !! key0) (JInt 1500)).2.
Proof.
  assert (table_wf (w_table w_empty)) as Hwf by apply table_wf_empty.
  assert (Forall fault_free [normal; normal]) as Hcs by (repeat constructor).
  split; [done|]. split; [done|]. by apply evaluate_refines.
Defined.

Lemma evaluate_idempotent_witness :
  table_wf (w_table w_empty) /\ Forall fault_free [normal] /\ Forall fault_free [] /\
  abs_table (run_world (evaluateTokenUsageForAlert cfg0 "gpt4dev" (JInt 1500) "2024-10") [] (run_world (evaluateTokenUsageForAlert cfg0 "gpt4dev" (JInt 1500) "2024-10") [normal] w_empty)) =
    abs_table (run_world (evaluateTokenUsageForAlert cfg0 "gpt4dev" (JInt 1500) "2024-10") [normal] w_empty) /\
  w_outbox (run_world (evaluateTokenUsageForAlert cfg0 "gpt4dev" (JInt 1500) "2024-10") [] (run_world (evaluateTokenUsageForAlert cfg0 "gpt4dev" (JInt 1500) "2024-10") [normal] w_empty)) =
    w_outbox (run_world (evaluateTokenUsageForAlert cfg0 "gpt4dev" (JInt 1500) "2024-10") [normal] w_empty).
Proof.
  assert (table_wf (w_table w_empty)) as Hwf by apply table_wf_empty.
  assert (Forall fault_free [normal]) as H1 by (repeat constructor).
  assert (Forall fault_free []) as H2 by constructor.
  split; [done|]. split; [done|]. split; [done|]. by apply evaluate_idempotent.
Defined.

Lemma evaluate_max_usage_witness :
  table_wf (w_table fresh0) /\ Forall fault_free [] /\
  w_table fresh0 !! key0 = Some (stored "gpt4dev" "2024-10" 500 false) /\
  SumToken (stored "gpt4dev" "2024-10" 500 false) = JInt 500 /\
  abs_table (run_world (evaluateTokenUsageForAlert cfg0 "gpt4dev" (JInt 1200) "2024-10") [] fresh0) !! key0 =
    Some (mkUsageRecord (JInt (Z.max 500 1200))
            (ActionDone (stored "gpt4dev" "2024-10" 500 false) || bool_decide (1000 < 1200)%Z)).
Proof.
  assert (table_wf (w_table fresh0)) as Hwf by apply table_wf_singleton.
  assert (w_table fresh0 !! key0 = Some (stored "gpt4dev" "2024-10" 500 false)) as Hl
    by (vm_compute; reflexivity).
  split; [done|]. split; [constructor|]. split; [done|]. split; [done|].
  apply (evaluate_max_usage cfg0 "gpt4dev" "2024-10" 500 1200 [] fresh0 _ Hwf (List.Forall_nil _) Hl eq_refl).
Defined.

Lemma evaluate_nan_ignored_witness :
  table_wf (w_table fresh0) /\ Forall fault_free [] /\
  w_table fresh0 !! key0 = Some (stored "gpt4dev" "2024-10" 500 false) /\
  abs_table (run_world (evaluateTokenUsageForAlert cfg0 "gpt4dev" JNaN "2024-10") [] fresh0) = abs_table fresh0 /\
  w_outbox (run_world (evaluateTokenUsageForAlert cfg0 "gpt4dev" JNaN "2024-10") [] fresh0) = w_outbox fresh0.
Proof.
  assert (table_wf (w_table fresh0)) as Hwf by apply table_wf_singleton.
  assert (w_table fresh0 !! key0 = Some (stored "gpt4dev" "2024-10" 500 false)) as Hl
    by (vm_compute; reflexivity).
  split; [done|]. split; [constructor|]. split; [done|].
  apply (evaluate_nan_ignored cfg0 "gpt4dev" "2024-10" [] fresh0 _ Hwf (List.Forall_nil _) Hl).
Defined.

Lemma evaluate_nan_sticks_witness :
  table_wf (w_table (w_with nan0)) /\ Forall fault_free [] /\
  w_table (w_with nan0) !! key0 = Some nan0 /\ SumToken nan0 = JNaN /\
  cumulativeUsage <$> abs_table (run_world (evaluateTokenUsageForAlert cfg0 "gpt4dev" (JInt 5000) "2024-10") [] (w_with nan0)) !! key0 =
    Some JNaN.
Proof.
  assert (table_wf (w_table (w_with nan0))) as Hwf by apply table_wf_singleton.
  assert (w_table (w_with nan0) !! key0 = Some nan0) as Hl by (vm_compute; reflexivity).
  split; [done|]. split; [constructor|]. split; [done|]. split; [done|].
  apply (evaluate_nan_sticks cfg0 "gpt4dev" "2024-10" (JInt 5000) [] _ _ Hwf (List.Forall_nil _) Hl eq_refl).
Defined.

End RefinementWitnesses.
