(* ===== verification/Failures.v ===== *)
(** * Failures: what a reconciliation does when a service lets it down

    Three environments and what [evaluateTokenUsageForAlert] does in each,
    for a record that is stored and due an alert:

    - [notifier_fails]: the mail service accepts the message and reports
      another status than [Succeeded].  The code throws before it reaches the
      update of [SumToken]: the record is left as it was, usage included, and
      the error is logged.
    - [flag_write_fails]: the mail is delivered and the table rejects the
      write of [ActionDone].  The record stays unmarked, so the next run
      delivers the same alert again.
    - [store_down]: the table rejects the read with another status than 404.
      Nothing is written and nothing is sent.

    In each a run resolves: the error ends in the console. *)

From stdpp Require Import base tactics option list strings gmap.
From Stdlib Require Import ZArith Lia.
From S2P Require Import Prelude JsValue DateTime Table Effects Rules Policy Guarantee Reconciler.
From S2P Require Import Refinement.

(** ** The environments *)

Section Environments.
Context {num : Type}.

Definition notifier_fails : @env num :=
  fun _ o c =>
    match o with
    | PollUntilDone _ => ch_fault c = NoFault /\ ch_status c <> "Succeeded"
    | _ => fault_free c
    end.

Definition flag_write_fails : @env num :=
  fun _ o c =>
    match o with
    | UpdateEntity _ => exists err, ch_fault c = FailBefore err
    | _ => fault_free c
    end.

(** The read is rejected with [err]; no other call is constrained. *)
Definition store_down (err : jserror) : @env num :=
  fun _ o c =>
    match o with
    | GetEntity _ _ => ch_fault c = FailBefore err
    | _ => True
    end.

#[export] Instance notifier_fails_answers {R} (o : op num R) : Answers notifier_fails o.
Proof. split. intros c. destruct o; by intros [? _]. Qed.

#[export] Instance flag_write_fails_get pk rk : Answers flag_write_fails (GetEntity pk rk).
Proof. split. by intros c [? _]. Qed.

#[export] Instance flag_write_fails_create e : Answers flag_write_fails (CreateEntity e).
Proof. split. by intros c [? _]. Qed.

#[export] Instance flag_write_fails_begin_send m : Answers flag_write_fails (BeginSend m).
Proof. split. by intros c [? _]. Qed.

#[export] Instance flag_write_fails_poll p : Answers flag_write_fails (PollUntilDone p).
Proof. split. by intros c [? _]. Qed.

#[export] Instance flag_write_fails_delivers : Delivers flag_write_fails.
Proof. split. by intros p c [_ ?]. Qed.

End Environments.

(** ** The steps in these environments *)

Section FailingSteps.
Context {num : Type} `{!JsNumber num}.
Context (cfg : Config).
Implicit Types (w : world num) (e : Entity num) (k : string * string) (sum : num).

(** The message [m] was handed to the mail service and not delivered; the
    table is as it was. *)
Record undelivered (m : EmailMessage) w w' : Prop := mkUndelivered {
  und_table : w_table w' = w_table w;
  und_submitted : w_submitted w' = w_submitted w ++ [m];
  und_outbox : w_outbox w' = w_outbox w;
}.

(** The message [m] was delivered; the table is as it was. *)
Record mailed (m : EmailMessage) w w' : Prop := mkMailed {
  mld_table : w_table w' = w_table w;
  mld_submitted : w_submitted w' = w_submitted w ++ [m];
  mld_outbox : w_outbox w' = w_outbox w ++ [m];
}.

Lemma undelivered_idle_r m w w1 w2 : undelivered m w w1 -> idle w1 w2 -> undelivered m w w2.
Proof. intros [] []. split; congruence. Qed.

Lemma undelivered_idle_l m w w1 w2 : idle w w1 -> undelivered m w1 w2 -> undelivered m w w2.
Proof. intros [] []. split; congruence. Qed.

Lemma mailed_idle_r m w w1 w2 : mailed m w w1 -> idle w1 w2 -> mailed m w w2.
Proof. intros [] []. split; congruence. Qed.

Lemma mailed_idle_l m w w1 w2 : idle w w1 -> mailed m w1 w2 -> mailed m w w2.
Proof. intros [] []. split; congruence. Qed.

Lemma submitted_delivered_mailed m w w1 w2 : submitted m w w1 -> delivered m w1 w2 -> mailed m w w2.
Proof. intros [] []. split; congruence. Qed.

(** A fetch that found the record left the world idle. *)
Lemma stepped_found k e w w' :
  w_table w !! k = Some e -> stepped k e [] w w' ->
  w_table w' = w_table w /\ w_submitted w' = w_submitted w /\ w_outbox w' = w_outbox w.
Proof. intros Hl [-> -> ->]. by rewrite insert_id, !app_nil_r. Qed.

Lemma alertPhase_notifier_fails d sum e w :
  shouldSendAlert (Some e) sum = true ->
  wpe notifier_fails (alertPhase cfg d sum e)
    (fun w' r => r = Err (Error "Failed to send mail") /\
       undelivered (emailMessage cfg d sum) w w') w.
Proof.
  intros Hdue. unfold alertPhase. rewrite Hdue. unfold sendMail.
  apply wp_bind, wp_bind. answered wpn_begin_send. intros w1 [] . simpl.
  answered (wpn_poll_undelivered _ _ (emailMessage cfg d sum)).
  - by intros c [_ ?].
  - rewrite sub_submitted. by apply list_lookup_middle.
  - intros w2 status Hst I2. simpl.
    destruct (String.eqb_spec status "Succeeded") as [->|_]; [done|].
    split; [done|]. apply (undelivered_idle_r _ _ w1); [by split | done].
Qed.

Lemma alertPhase_flag_write_fails d sum e w :
  shouldSendAlert (Some e) sum = true ->
  wpe flag_write_fails (alertPhase cfg d sum e)
    (fun w' r => (exists err, r = Err err) /\ mailed (emailMessage cfg d sum) w w') w.
Proof.
  intros Hdue. unfold alertPhase. rewrite Hdue. unfold sendMail.
  apply wp_bind, wp_bind. answered wpn_begin_send. intros w1 S1. simpl.
  answered (wpn_poll _ _ (emailMessage cfg d sum)).
  { rewrite (sub_submitted _ _ _ S1). by apply list_lookup_middle. }
  intros w2 D2. simpl. apply wp_bind, wp_local; [done..|]. intros w3 [] I3. simpl.
  apply wp_new_Date. intros w4 now I4.
  apply wp_bind, (wpn_rejected _ _ (fun _ => True)); [done | intros c [err ?]; by eauto |].
  intros w5 err _ I5. split; [by eauto|].
  pose proof (submitted_delivered_mailed _ _ _ _ S1 D2). eauto using mailed_idle_r.
Qed.

End FailingSteps.

(** ** One reconciliation in these environments *)

Section FailingRuns.
Context {num : Type} `{!JsNumber num}.
Context (cfg : Config) (d : string) (sum : num) (month : string).
Implicit Types (w : world num) (e : Entity num) (cs : list choice).

(** A stored record is read as it is, wherever reads are answered. *)
Lemma fetchOrCreate_found E `{!forall pk rk, Answers E (GetEntity pk rk)} rk w e :
  w_table w !! ("DeploymentType", rk) = Some e ->
  wpe E (fetchOrCreate rk sum) (fun w' r => r = Ok e /\ idle w w') w.
Proof.
  intros Hl. unfold fetchOrCreate. apply wp_try_catch. answered wpn_get.
  intros w1 I1. unfold table_get. by rewrite Hl.
Qed.

Lemma fetchOrCreate_store_down err rk w :
  statusCode_is 404 err = false ->
  wpe (store_down err) (fetchOrCreate rk sum) (fun w' r => r = Err err /\ idle w w') w.
Proof.
  intros Herr. unfold fetchOrCreate.
  apply wp_try_catch, (wpn_rejected _ _ (eq err)); [done | by eauto |].
  intros w1 ? <- I1. by rewrite Herr.
Qed.

Lemma evaluate_notifier_fails_spec w e :
  w_table w !! recordKey d month = Some e -> shouldSendAlert (Some e) sum = true ->
  wpe notifier_fails (evaluateTokenUsageForAlert cfg d sum month)
    (fun w' r => r = Ok tt /\ undelivered (emailMessage cfg d sum) w w' /\
       LogError "Error processing deployment" d (Error "Failed to send mail") ∈ w_console w') w.
Proof.
  intros Hl Hdue. unfold evaluateTokenUsageForAlert, reconcile.
  apply wp_try_catch, wp_bind. eapply wp_mono; [|by answered fetchOrCreate_found].
  intros w1 _ [-> I1]. apply wp_bind. eapply wp_mono; [|by apply alertPhase_notifier_fails].
  intros w2 _ [-> U2]. apply wp_console_error. intros w3 I3 Hlog.
  eauto using undelivered_idle_l, undelivered_idle_r.
Qed.

Lemma evaluate_flag_write_fails_spec w e :
  w_table w !! recordKey d month = Some e -> shouldSendAlert (Some e) sum = true ->
  wpe flag_write_fails (evaluateTokenUsageForAlert cfg d sum month)
    (fun w' r => r = Ok tt /\ mailed (emailMessage cfg d sum) w w') w.
Proof.
  intros Hl Hdue. unfold evaluateTokenUsageForAlert, reconcile.
  apply wp_try_catch, wp_bind. eapply wp_mono; [|by answered fetchOrCreate_found].
  intros w1 _ [-> I1]. apply wp_bind. eapply wp_mono; [|by apply alertPhase_flag_write_fails].
  intros w2 _ [[err ->] M2]. apply wp_local; [done..|]. intros w3 [] I3.
  eauto using mailed_idle_l, mailed_idle_r.
Qed.

Lemma evaluate_store_down_spec err w :
  statusCode_is 404 err = false ->
  wpe (store_down err) (evaluateTokenUsageForAlert cfg d sum month)
    (fun w' r => r = Ok tt /\ idle w w' /\
       LogError "Error processing deployment" d err ∈ w_console w') w.
Proof.
  intros Herr. unfold evaluateTokenUsageForAlert, reconcile.
  apply wp_try_catch, wp_bind. eapply wp_mono; [|by apply fetchOrCreate_store_down].
  intros w1 _ [-> I1]. apply wp_console_error. intros w2 I2 Hlog.
  split; [done|]. split; [by etrans | done].
Qed.

(** C10: Scenario E, as the code has it: when the notifier reports a failure the
    message was handed over but not delivered, the error is logged, and the
    stored record is left untouched: [SumToken] is not raised to the new
    usage, although that usage is above the threshold. *)
Theorem evaluate_notifier_failure cs w e :
  w_table w !! recordKey d month = Some e -> shouldSendAlert (Some e) sum = true ->
  respects notifier_fails (evaluateTokenUsageForAlert cfg d sum month) cs w ->
  w_table (run_world (evaluateTokenUsageForAlert cfg d sum month) cs w) = w_table w /\
  w_submitted (run_world (evaluateTokenUsageForAlert cfg d sum month) cs w) = w_submitted w ++ [emailMessage cfg d sum] /\
  w_outbox (run_world (evaluateTokenUsageForAlert cfg d sum month) cs w) = w_outbox w /\
  LogError "Error processing deployment" d (Error "Failed to send mail")
    ∈ w_console (run_world (evaluateTokenUsageForAlert cfg d sum month) cs w).
Proof.
  intros Hl Hdue Hcs.
  destruct (proj1 (wpe_run _ _ _ _) (evaluate_notifier_fails_spec w e Hl Hdue) cs Hcs) as (_ & [] & ?).
  done.
Qed.

(** C18: When the table rejects the write of [ActionDone] after the mail was
    delivered, the record stays unmarked and the next run, in which nothing
    fails, delivers the same alert a second time. *)
Theorem evaluate_duplicate_alert cs1 cs2 w e :
  table_wf (w_table w) ->
  w_table w !! recordKey d month = Some e -> shouldSendAlert (Some e) sum = true ->
  respects flag_write_fails (evaluateTokenUsageForAlert cfg d sum month) cs1 w ->
  Forall fault_free cs2 ->
  w_table (run_world (evaluateTokenUsageForAlert cfg d sum month) cs1 w) = w_table w /\
  w_outbox (run_world (evaluateTokenUsageForAlert cfg d sum month) cs2 (run_world (evaluateTokenUsageForAlert cfg d sum month) cs1 w)) =
    w_outbox w ++ [emailMessage cfg d sum; emailMessage cfg d sum].
Proof.
  intros Hwf Hl Hdue Hcs1 Hcs2.
  destruct (proj1 (wpe_run _ _ _ _) (evaluate_flag_write_fails_spec w e Hl Hdue) cs1 Hcs1) as (_ & [Ht _ Ho]).
  split; [done|]. rewrite <- Ht in Hwf, Hl.
  destruct (evaluate_run_exact cfg d sum month cs2 _ Hwf Hcs2) as [_ _ ->].
  rewrite abs_table_lookup, Hl, Ho, reconcileRecord_steps. simpl.
  by rewrite shouldAlert_abs_of, Hdue, <- app_assoc.
Qed.

(** C32: When the table rejects the read with another status than 404, nothing
    is written and nothing is sent, whatever the usage; the error is
    logged. *)
Theorem evaluate_store_failure err cs w :
  statusCode_is 404 err = false ->
  respects (store_down err) (evaluateTokenUsageForAlert cfg d sum month) cs w ->
  w_table (run_world (evaluateTokenUsageForAlert cfg d sum month) cs w) = w_table w /\
  w_submitted (run_world (evaluateTokenUsageForAlert cfg d sum month) cs w) = w_submitted w /\
  LogError "Error processing deployment" d err
    ∈ w_console (run_world (evaluateTokenUsageForAlert cfg d sum month) cs w).
Proof.
  intros Herr Hcs.
  destruct (proj1 (wpe_run _ _ _ _) (evaluate_store_down_spec err w Herr) cs Hcs) as (_ & [] & ?).
  done.
Qed.

End FailingRuns.

(** ** The theorems at concrete inputs *)

Section FailureWitnesses.

#[local] Abbreviation key0 := (recordKey "gpt4dev" "2024-10").
#[local] Abbreviation fresh0 := (w_with (stored "gpt4dev" "2024-10" 500 false)).
#[local] Abbreviation eval1500 := (evaluateTokenUsageForAlert cfg0 "gpt4dev" (JInt 1500) "2024-10").
#[local] Abbreviation busy := (RestError 503 "ServerBusy").

Lemma due0 : shouldSendAlert (Some (stored "gpt4dev" "2024-10" 500 false)) (JInt 1500) = true.
Proof. done. Qed.

Lemma evaluate_notifier_failure_witness :
  w_table fresh0 !! key0 = Some (stored "gpt4dev" "2024-10" 500 false) /\
  shouldSendAlert (Some (stored "gpt4dev" "2024-10" 500 false)) (JInt 1500) = true /\
  respects notifier_fails eval1500 [normal; normal; mail_status "Failed"] fresh0 /\
  w_table (run_world eval1500 [normal; normal; mail_status "Failed"] fresh0) = w_table fresh0 /\
  w_submitted (run_world eval1500 [normal; normal; mail_status "Failed"] fresh0) =
    w_submitted fresh0 ++ [emailMessage cfg0 "gpt4dev" (JInt 1500)] /\
  w_outbox (run_world eval1500 [normal; normal; mail_status "Failed"] fresh0) = w_outbox fresh0 /\
  LogError "Error processing deployment" "gpt4dev" (Error "Failed to send mail")
    ∈ w_console (run_world eval1500 [normal; normal; mail_status "Failed"] fresh0).
Proof.
  assert (w_table fresh0 !! key0 = Some (stored "gpt4dev" "2024-10" 500 false)) as Hl
    by (vm_compute; reflexivity).
  assert (respects notifier_fails eval1500 [normal; normal; mail_status "Failed"] fresh0) as Hcs
    by (simpl; repeat split; done).
  split; [done|]. split; [done|]. split; [done|].
  apply (evaluate_notifier_failure cfg0 "gpt4dev" (JInt 1500) "2024-10" _ fresh0 _ Hl due0 Hcs).
Defined.

Lemma evaluate_duplicate_alert_witness :
  table_wf (w_table fresh0) /\
  w_table fresh0 !! key0 = Some (stored "gpt4dev" "2024-10" 500 false) /\
  shouldSendAlert (Some (stored "gpt4dev" "2024-10" 500 false)) (JInt 1500) = true /\
  respects flag_write_fails eval1500 [normal; normal; normal; normal; normal; failing_before busy] fresh0 /\
  Forall fault_free [] /\
  w_table (run_world eval1500 [normal; normal; normal; normal; normal; failing_before busy] fresh0) = w_table fresh0 /\
  w_outbox (run_world eval1500 [] (run_world eval1500 [normal; normal; normal; normal; normal; failing_before busy] fresh0)) =
    w_outbox fresh0 ++ [emailMessage cfg0 "gpt4dev" (JInt 1500); emailMessage cfg0 "gpt4dev" (JInt 1500)].
Proof.
  assert (table_wf (w_table fresh0)) as Hwf by apply table_wf_singleton.
  assert (w_table fresh0 !! key0 = Some (stored "gpt4dev" "2024-10" 500 false)) as Hl
    by (vm_compute; reflexivity).
  assert (respects flag_write_fails eval1500
            [normal; normal; normal; normal; normal; failing_before busy] fresh0) as Hcs
    by (vm_compute; repeat split; eauto).
  split; [done|]. split; [done|]. split; [done|]. split; [done|]. split; [constructor|].
  apply (evaluate_duplicate_alert cfg0 "gpt4dev" (JInt 1500) "2024-10" _ [] fresh0 _ Hwf Hl due0 Hcs (List.Forall_nil _)).
Defined.

Lemma evaluate_store_failure_witness :
  statusCode_is 404 busy = false /\
  respects (store_down busy) eval1500 [failing_before busy] fresh0 /\
  w_table (run_world eval1500 [failing_before busy] fresh0) = w_table fresh0 /\
  w_submitted (run_world eval1500 [failing_before busy] fresh0) = w_submitted fresh0 /\
  LogError "Error processing deployment" "gpt4dev" busy
    ∈ w_console (run_world eval1500 [failing_before busy] fresh0).
Proof.
  assert (respects (store_down busy) eval1500 [failing_before busy] fresh0) as Hcs
    by (simpl; repeat split; done).
  split; [done|]. split; [done|].
  apply (evaluate_store_failure cfg0 "gpt4dev" (JInt 1500) "2024-10" busy _ fresh0 eq_refl Hcs).
Defined.

End FailureWitnesses.
