(* ===== verification/Successive.v ===== *)
(** * Successive: the reconciliations of one record, run after run

    The function is invoked again and again; each invocation reconciles the
    record of a deployment with the usage it observes.  [successive] runs
    the reconciliations of one record one after the other, each with its own
    usage and its own choices of the environment (faults included).

    Over any such sequence: the flag, once set, stays set and nothing is
    sent any more; a flag that is set was preceded by a delivered alert; the
    stored usage is only ever raised.  And the alert is not lost: if one
    reconciliation of the sequence observes a usage above the threshold and
    meets no fault, the record ends marked and an alert for the deployment
    was delivered, whatever failed before and whatever fails afterwards.
    This is the retry of the design: a failed alert is sent by the next
    invocation that succeeds. *)

From stdpp Require Import base tactics option list strings gmap.
From Stdlib Require Import ZArith Lia.
From S2P Require Import Prelude JsValue DateTime Table Effects Rules Policy Guarantee Reconciler.
From S2P Require Import Refinement.

Section Successive.
Context {num : Type} `{!JsNumber num}.
Context (cfg : Config) (d month : string).
Implicit Types (w : world num) (cs : list choice) (sum : num)
  (l : list (num * list choice)).

#[local] Abbreviation k := (recordKey d month).

(** One reconciliation of the record: the usage observed and the choices
    of the environment during the run. *)
Definition reconciliation w (i : num * list choice) : world num :=
  run_world (evaluateTokenUsageForAlert cfg d i.1 month) i.2 w.

Definition successive l w : world num := foldl reconciliation w l.

(** An alert for the deployment was delivered. *)
Definition alert_delivered w : Prop :=
  exists sum, emailMessage cfg d sum ∈ w_outbox w.

(** The flag is set only after a delivered alert. *)
Definition flag_justified w : Prop := flag k w = true -> alert_delivered w.

(** [b] is [a] or above it. *)
Definition raised (a b : num) : Prop := a = b \/ ngt b a = true.

#[export] Instance raised_preorder : PreOrder raised.
Proof.
  split; [by left|]. intros a b c [->|Hab] [->|Hbc]; [by left | by right | by right |].
  right. by apply (ngt_trans c b a).
Qed.

(** ** One reconciliation *)

Lemma reconciliation_post w i :
  table_wf (w_table w) ->
  reconciles k i.1 w (reconciliation w i) /\
  mail_effect k (emailMessage cfg d i.1) (shouldSendAlert (w_table w !! k) i.1) w (reconciliation w i).
Proof. intros Hwf. by destruct (evaluate_run cfg d i.1 month i.2 w Hwf) as (_ & ? & ?). Qed.

Lemma reconciliation_wf w i : table_wf (w_table w) -> table_wf (w_table (reconciliation w i)).
Proof. intros Hwf. destruct (reconciliation_post w i Hwf) as [Hr _]. by apply Hr. Qed.

Lemma reconciliation_flag w i :
  table_wf (w_table w) -> flag k w = true -> flag k (reconciliation w i) = true.
Proof.
  intros Hwf. destruct (reconciliation_post w i Hwf) as [Hr _]. by apply (reconciles_flag _ i.1).
Qed.

Lemma reconciliation_silent w i :
  table_wf (w_table w) -> flag k w = true ->
  w_submitted (reconciliation w i) = w_submitted w /\ w_outbox (reconciliation w i) = w_outbox w.
Proof.
  intros Hwf Hf. destruct (reconciliation_post w i Hwf) as [_ Hm].
  rewrite (flag_not_due _ _ i.1 Hf) in Hm. by eapply mail_effect_not_due.
Qed.

Lemma reconciliation_justified w i :
  table_wf (w_table w) -> flag_justified w -> flag_justified (reconciliation w i).
Proof.
  intros Hwf Hj Hf'. destruct (reconciliation_post w i Hwf) as [Hr Hm].
  destruct (flag k w) eqn:Hf.
  - destruct (Hj Hf) as [sum Hin]. exists sum.
    by eapply elem_of_prefix; [|apply (rec_outbox _ _ _ _ Hr)].
  - destruct Hm as [_ _ Hflag|_ _ _ Hflag|_ _ Ho]; [congruence..|].
    exists i.1. rewrite Ho. apply elem_of_app. right. apply list_elem_of_here.
Qed.

Lemma reconciliation_raised w i e :
  table_wf (w_table w) -> w_table w !! k = Some e ->
  exists e', w_table (reconciliation w i) !! k = Some e' /\ raised (SumToken e) (SumToken e') /\
    (ActionDone e = true -> ActionDone e' = true).
Proof.
  intros Hwf Hl. destruct (reconciliation_post w i Hwf) as [Hr _].
  destruct (reconciles_slot _ _ _ _ _ Hr Hl) as (e' & Hl' & Hs & Ha).
  exists e'. split; [done|]. split.
  - destruct Hs as [->|[Hgt ->]]; [by left | by right].
  - destruct Ha as [->|[_ ->]]; done.
Qed.

(** A reconciliation that meets no fault and observes a usage above the
    threshold ends with the flag set and an alert delivered. *)
Lemma reconciliation_alerts w sum cs :
  table_wf (w_table w) -> flag_justified w -> Forall fault_free cs ->
  ngt sum THRESHOLD = true ->
  flag k (reconciliation w (sum, cs)) = true /\ alert_delivered (reconciliation w (sum, cs)).
Proof.
  intros Hwf Hj Hcs Hgt. unfold reconciliation. simpl.
  destruct (evaluate_run_exact cfg d sum month cs w Hwf Hcs) as [Ht _ Ho].
  assert (flag k (run_world (evaluateTokenUsageForAlert cfg d sum month) cs w) = true) as Hf'.
  { unfold flag. apply (f_equal (fun t => t !! k)) in Ht.
    rewrite lookup_insert_eq in Ht. unfold abs_table in Ht. rewrite !lookup_fmap in Ht.
    destruct (w_table (run_world _ cs w) !! k) as [e'|]; [|done].
    injection Ht as _ Ha. simpl. rewrite Ha.
    unfold shouldAlert. rewrite Hgt. by destruct (w_table w !! k) as [[? ? ? []]|]. }
  split; [done|]. destruct (flag k w) eqn:Hf.
  - destruct (Hj Hf) as [sum' Hin]. exists sum'. rewrite Ho. apply elem_of_app. by left.
  - exists sum. rewrite Ho. apply elem_of_app. right.
    unfold reconcileRecord, shouldAlert, abs_table, flag in *. rewrite lookup_fmap, Hgt.
    destruct (w_table w !! k) as [e|]; simpl in *; [rewrite Hf|]; apply list_elem_of_here.
Qed.

(** ** Sequences *)

Lemma successive_snoc l i w : successive (l ++ [i]) w = reconciliation (successive l w) i.
Proof. unfold successive. by rewrite foldl_app. Qed.

Lemma successive_app l l' w : successive (l ++ l') w = successive l' (successive l w).
Proof. unfold successive. by rewrite foldl_app. Qed.

(** A property of worlds that every reconciliation of a well-formed world
    preserves holds after every sequence. *)
Lemma successive_ind (P : world num -> Prop) l w :
  (forall w i, table_wf (w_table w) -> P w -> P (reconciliation w i)) ->
  table_wf (w_table w) -> P w -> table_wf (w_table (successive l w)) /\ P (successive l w).
Proof.
  intros Hstep. revert w. induction l as [|i l IH]; intros w Hwf HP; [done|].
  simpl. apply IH; [by apply reconciliation_wf | by apply Hstep].
Qed.

Lemma successive_wf l w : table_wf (w_table w) -> table_wf (w_table (successive l w)).
Proof. intros Hwf. by apply (successive_ind (fun _ => True)). Qed.

Lemma successive_justified l w :
  table_wf (w_table w) -> flag_justified w -> flag_justified (successive l w).
Proof. intros Hwf Hj. apply (successive_ind flag_justified); auto using reconciliation_justified. Qed.

(** Once the alert of a record is recorded, no later reconciliation of the
    record, whatever it observes and whatever fails, submits or delivers a
    message, and the flag stays set. *)
Theorem successive_alert_once l w :
  table_wf (w_table w) -> flag k w = true ->
  flag k (successive l w) = true /\
  w_submitted (successive l w) = w_submitted w /\ w_outbox (successive l w) = w_outbox w.
Proof.
  intros Hwf Hf.
  apply (successive_ind (fun w' => flag k w' = true /\
           w_submitted w' = w_submitted w /\ w_outbox w' = w_outbox w) l w); [|done..].
  intros w' i Hwf' (Hf' & Hs & Ho). split; [by apply reconciliation_flag|].
  destruct (reconciliation_silent w' i Hwf' Hf') as [-> ->]. done.
Qed.

(** Over any sequence of reconciliations, the stored usage of a record is
    what it was or above it, and its flag is not cleared. *)
Theorem successive_raised l w e :
  table_wf (w_table w) -> w_table w !! k = Some e ->
  exists e', w_table (successive l w) !! k = Some e' /\ raised (SumToken e) (SumToken e') /\
    (ActionDone e = true -> ActionDone e' = true).
Proof.
  intros Hwf Hl.
  apply (successive_ind (fun w' => exists e', w_table w' !! k = Some e' /\
           raised (SumToken e) (SumToken e') /\ (ActionDone e = true -> ActionDone e' = true)) l w);
    [|done|by exists e].
  intros w' i Hwf' (e1 & Hl1 & Hs1 & Ha1).
  destruct (reconciliation_raised w' i e1 Hwf' Hl1) as (e2 & Hl2 & Hs2 & Ha2).
  exists e2. split; [done|]. split; [by etrans | auto].
Qed.

(** C16: The alert is not lost.  If one reconciliation of a sequence observes a
    usage above the threshold and meets no fault, then at the end of the
    sequence the record is marked and an alert for the deployment was
    delivered, whatever failed in the reconciliations before and after. *)
Theorem alert_eventually_delivered l w sum cs :
  table_wf (w_table w) -> flag_justified w ->
  (sum, cs) ∈ l -> Forall fault_free cs -> ngt sum THRESHOLD = true ->
  flag k (successive l w) = true /\ alert_delivered (successive l w).
Proof.
  intros Hwf Hj (l1 & l2 & ->)%list_elem_of_split Hcs Hgt.
  rewrite (successive_app l1).
  change (successive ((sum, cs) :: l2) (successive l1 w))
    with (successive l2 (reconciliation (successive l1 w) (sum, cs))).
  destruct (reconciliation_alerts (successive l1 w) sum cs) as [Hf [sum' Hin]];
    [by apply successive_wf | by apply successive_justified | done..|].
  pose proof (reconciliation_wf (successive l1 w) (sum, cs) (successive_wf l1 w Hwf)) as Hwf2.
  destruct (successive_alert_once l2 _ Hwf2 Hf) as (Hf2 & _ & Ho2).
  split; [done|]. exists sum'. by rewrite Ho2.
Qed.

End Successive.

(** ** The theorems at concrete inputs *)

Section SuccessiveWitnesses.

#[local] Abbreviation fresh0 := (w_with (stored "gpt4dev" "2024-10" 500 false)).
#[local] Abbreviation alerted0 := (w_with (stored "gpt4dev" "2024-10" 1500 true)).

(** Two runs in which the notifier fails, a run in which the table is down,
    then a run without fault: the alert is delivered by the fourth. *)
Definition retries : list (jsnum * list choice) :=
  [(JInt 1500, [normal; normal; mail_status "Failed"]);
   (JInt 1600, [normal; normal; mail_status "Failed"]);
   (JInt 1700, [failing_before (RestError 503 "ServerBusy")]);
   (JInt 1800, [])].

Example retries_run :
  w_outbox (successive cfg0 "gpt4dev" "2024-10" (take 3 retries) fresh0) = [] /\
  length (w_submitted (successive cfg0 "gpt4dev" "2024-10" (take 3 retries) fresh0)) = 2%nat /\
  w_outbox (successive cfg0 "gpt4dev" "2024-10" retries fresh0) =
    [emailMessage cfg0 "gpt4dev" (JInt 1800)] /\
  w_table (successive cfg0 "gpt4dev" "2024-10" retries fresh0) !! recordKey "gpt4dev" "2024-10" =
    Some (mkEntity "DeploymentType" "gpt4dev-2024-10" (JInt 1800) true "2024-10-28T23:59:59.999Z").
Proof. by vm_compute. Qed.

Lemma flag_justified_fresh0 : flag_justified cfg0 "gpt4dev" "2024-10" fresh0.
Proof. by intros Hf. Qed.

Lemma alert_eventually_delivered_witness :
  table_wf (w_table fresh0) /\ flag_justified cfg0 "gpt4dev" "2024-10" fresh0 /\
  (JInt 1800, []) ∈ retries /\ Forall fault_free [] /\ ngt (JInt 1800) THRESHOLD = true /\
  flag (recordKey "gpt4dev" "2024-10") (successive cfg0 "gpt4dev" "2024-10" retries fresh0) = true /\
  alert_delivered cfg0 "gpt4dev" (successive cfg0 "gpt4dev" "2024-10" retries fresh0).
Proof.
  assert ((JInt 1800, []) ∈ retries) as Hin by (unfold retries; set_solver).
  assert (ngt (JInt 1800) THRESHOLD = true) as Hgt by done.
  split; [apply table_wf_singleton|]. split; [apply flag_justified_fresh0|].
  split; [done|]. split; [apply List.Forall_nil|]. split; [done|].
  apply (alert_eventually_delivered cfg0 "gpt4dev" "2024-10" retries fresh0 (JInt 1800) []
           (table_wf_singleton _) flag_justified_fresh0 Hin (List.Forall_nil _) Hgt).
Defined.

Lemma successive_alert_once_witness :
  table_wf (w_table alerted0) /\ flag (recordKey "gpt4dev" "2024-10") alerted0 = true /\
  flag (recordKey "gpt4dev" "2024-10") (successive cfg0 "gpt4dev" "2024-10" retries alerted0) = true /\
  w_submitted (successive cfg0 "gpt4dev" "2024-10" retries alerted0) = w_submitted alerted0 /\
  w_outbox (successive cfg0 "gpt4dev" "2024-10" retries alerted0) = w_outbox alerted0.
Proof.
  assert (flag (recordKey "gpt4dev" "2024-10") alerted0 = true) as Hf by (by vm_compute).
  split; [apply table_wf_singleton|]. split; [done|].
  apply (successive_alert_once cfg0 "gpt4dev" "2024-10" retries alerted0 (table_wf_singleton _) Hf).
Defined.

Lemma successive_raised_witness :
  table_wf (w_table fresh0) /\
  w_table fresh0 !! recordKey "gpt4dev" "2024-10" = Some (stored "gpt4dev" "2024-10" 500 false) /\
  exists e', w_table (successive cfg0 "gpt4dev" "2024-10" retries fresh0) !! recordKey "gpt4dev" "2024-10" = Some e' /\
    raised (SumToken (stored "gpt4dev" "2024-10" 500 false)) (SumToken e') /\
    (ActionDone (stored "gpt4dev" "2024-10" 500 false) = true -> ActionDone e' = true).
Proof.
  assert (w_table fresh0 !! recordKey "gpt4dev" "2024-10" = Some (stored "gpt4dev" "2024-10" 500 false))
    as Hl by (by vm_compute).
  split; [apply table_wf_singleton|]. split; [done|].
  apply (successive_raised cfg0 "gpt4dev" "2024-10" retries fresh0 _ (table_wf_singleton _) Hl).
Defined.

End SuccessiveWitnesses.
