(* ===== verification/Concurrency.v ===== *)
(** * Concurrency: tasks that run between each other's awaits

    An [async] function runs until its next [await] and is resumed when the
    awaited call completes; between two awaits of one task any other task
    may run.  A pool is a list of programs; [interleave] runs it: at each
    step the runtime picks one of the pending tasks ([Schedule], answered by
    the environment) and that task makes its next call.  The result is a
    program again, so [run] and [wpe] apply to it: "whatever the environment
    chooses" now includes the order of the tasks.

    [bounded n p] bounds the calls of [p]; with fuel for the calls of all its
    tasks [interleave] runs the pool until every task has settled.
    [wp_interleave] is the proof rule: a property of world and pool that
    every call of every task preserves holds when the pool has settled.
    [interleave_until] stops early, when a condition holds of the pool: this
    is how [Promise.all] resumes its caller at the first rejection.

    Two reconciliations of one record can be in flight when two invocations
    overlap.  The last section runs the two races the code loses: a stale
    entity written back over a newer one, and a creation that finds the
    record created in the meantime. *)

From stdpp Require Import base tactics option list strings gmap.
From Stdlib Require Import ZArith Lia.
From S2P Require Import Prelude JsValue DateTime Metrics Table Effects Rules Policy Guarantee.
From S2P Require Import Reconciler.

Section Pool.
Context {num : Type}.
Implicit Types (w : world num) (c : choice).

Definition is_pending {A} (p : prog num A) : bool :=
  match p with
  | Do _ _ => true
  | _ => false
  end.

(** The tasks of a pool that wait for a call, by their position from [i]. *)
Fixpoint pending_from {A} (i : nat) (ps : list (prog num A)) : list nat :=
  match ps with
  | [] => []
  | p :: ps => (if is_pending p then [i] else []) ++ pending_from (S i) ps
  end.

Definition pending {A} (ps : list (prog num A)) : list nat := pending_from 0 ps.

Definition settled {A} (ps : list (prog num A)) : Prop := pending ps = [].

(** Task [i] makes its next call; [rest] goes on with the pool. *)
Definition resume {A B} (i : nat) (ps : list (prog num A))
    (rest : list (prog num A) -> prog num B) : prog num B :=
  match ps !! i with
  | Some (Do o k) => Do o (fun r => rest (<[i := k r]> ps))
  | _ => rest ps
  end.

(** Run the pool for at most [fuel] calls or until [stop] holds of it, then
    go on with [finish]. *)
Fixpoint interleave_until {A B} (stop : list (prog num A) -> bool) (fuel : nat)
    (ps : list (prog num A)) (finish : list (prog num A) -> prog num B) : prog num B :=
  match fuel with
  | O => finish ps
  | S fuel =>
      if stop ps then finish ps
      else
        match pending ps with
        | [] => finish ps
        | i0 :: rest =>
            Do (Schedule (length (i0 :: rest))) (fun r =>
              resume (nth (outcome_get 0%nat r) (i0 :: rest) i0) ps
                (fun ps' => interleave_until stop fuel ps' finish))
        end
  end.

(** Run the pool until every task has settled. *)
Definition interleave {A B} (fuel : nat) (ps : list (prog num A))
    (finish : list (prog num A) -> prog num B) : prog num B :=
  interleave_until (fun _ => false) fuel ps finish.

(** [p] makes at most [n] calls. *)
Fixpoint bounded {A} (n : nat) (p : prog num A) {struct p} : Prop :=
  match p with
  | Ret _ | Throw _ => True
  | Do o k =>
      match n with
      | O => False
      | S n' => forall r, bounded n' (k r)
      end
  end.

End Pool.

(** ** Bounds *)

Section Bounds.
Context {num : Type}.
Implicit Types (w : world num) (c : choice).

Lemma bounded_mono {A} n m (p : prog num A) : n <= m -> bounded n p -> bounded m p.
Proof.
  revert n m. induction p as [a|e|R o k IH]; intros n m Hle; simpl; [done..|].
  destruct n as [|n]; [done|]. destruct m as [|m]; [lia|].
  intros Hk r. apply (IH r n); [lia | done].
Qed.

Lemma bounded_bind {A B} n m (p : prog num A) (f : A -> prog num B) :
  bounded n p -> (forall a, bounded m (f a)) -> bounded (n + m) (p ≫= f).
Proof.
  intros Hp Hf. revert n Hp. induction p as [a|e|R o k IH]; intros n Hp; simpl.
  - apply (bounded_mono m); [lia | apply Hf].
  - done.
  - destruct n as [|n]; [done|]. intros r. by apply IH.
Qed.

Lemma bounded_try_catch {A} n m (p : prog num A) (h : jserror -> prog num A) :
  bounded n p -> (forall e, bounded m (h e)) -> bounded (n + m) (try_catch p h).
Proof.
  intros Hp Hh. revert n Hp. induction p as [a|e|R o k IH]; intros n Hp; simpl.
  - done.
  - apply (bounded_mono m); [lia | apply Hh].
  - destruct n as [|n]; [done|]. intros r. by apply IH.
Qed.

Lemma bounded_await {R} (o : op num R) : bounded 1 (await_ o).
Proof. by intros [v|e]. Qed.

End Bounds.

#[global] Arguments bounded : simpl never.

(** ** The pool *)

Section PoolLaws.
Context {num : Type}.
Implicit Types (w : world num) (c : choice).

(** The calls all tasks of a pool can still make, together. *)
Inductive pool_bounded {A} : nat -> list (prog num A) -> Prop :=
| pool_bounded_nil n : pool_bounded n []
| pool_bounded_cons n m p ps :
    bounded n p -> pool_bounded m ps -> pool_bounded (n + m) (p :: ps).

Lemma pool_bounded_mono {A} n m (ps : list (prog num A)) :
  n <= m -> pool_bounded n ps -> pool_bounded m ps.
Proof.
  intros Hle Hb. revert m Hle. induction Hb as [n|n n' p ps Hp Hps IH]; intros m Hle.
  - constructor.
  - replace m with ((m - n') + n') by lia. constructor; [|done].
    apply (bounded_mono n); [lia | done].
Qed.

Lemma pending_from_lookup {A} j (ps : list (prog num A)) i :
  i ∈ pending_from j ps ->
  j <= i /\ exists R (o : op num R) k, ps !! (i - j) = Some (Do o k).
Proof.
  revert j. induction ps as [|p ps IH]; intros j; simpl; [by intros ?%elem_of_nil|].
  rewrite elem_of_app. intros [Hi|Hi].
  - destruct p as [| |R o k]; simpl in Hi; try by apply elem_of_nil in Hi.
    apply list_elem_of_singleton in Hi as ->. rewrite Nat.sub_diag. by eauto 6.
  - destruct (IH _ Hi) as (Hle & R & o & k & Hl). split; [lia|].
    exists R, o, k. replace (i - j) with (S (i - S j)) by lia. done.
Qed.

Lemma pending_lookup {A} (ps : list (prog num A)) i :
  i ∈ pending ps -> exists R (o : op num R) k, ps !! i = Some (Do o k).
Proof.
  intros (_ & R & o & k & Hl)%pending_from_lookup. rewrite Nat.sub_0_r in Hl. eauto.
Qed.

Lemma pending_from_nil {A} j (ps : list (prog num A)) :
  pending_from j ps = [] -> Forall (fun p => is_pending p = false) ps.
Proof.
  revert j. induction ps as [|p ps IH]; intros j; simpl; [constructor|].
  intros [Hp Hps]%app_eq_nil. constructor; [by destruct (is_pending p) | by eapply IH].
Qed.

(** A pool without calls left has settled. *)
Lemma pool_bounded_0 {A} (ps : list (prog num A)) : pool_bounded 0 ps -> settled ps.
Proof.
  unfold settled, pending. generalize 0 at 2 as j. intros j Hb. revert j.
  remember 0 as n eqn:Hn. induction Hb as [n|n m p ps Hp Hps IH]; intros j; [done|].
  assert (n = 0 /\ m = 0) as [-> ->] by lia. simpl. rewrite IH by done.
  by destruct p.
Qed.

(** A call of one task uses one call of the pool's bound. *)
Lemma pool_bounded_step {A} n (ps : list (prog num A)) i R (o : op num R) k :
  pool_bounded n ps -> ps !! i = Some (Do o k) ->
  exists n', n = S n' /\ forall r, pool_bounded n' (<[i := k r]> ps).
Proof.
  intros Hb. revert i. induction Hb as [n|n m p ps Hp Hps IH]; intros i Hl; [done|].
  destruct i as [|i]; simpl in Hl.
  - injection Hl as ->. destruct n as [|n]; [done|].
    exists (n + m). split; [done|]. intros r. simpl. constructor; [apply Hp | done].
  - destruct (IH _ Hl) as (m' & -> & Hm'). exists (n + m'). split; [lia|].
    intros r. simpl. by constructor.
Qed.

End PoolLaws.

(** ** Reasoning about a pool *)

Section Interleave.
Context {num : Type}.
Implicit Types (w : world num) (c : choice).

Lemma nth_default_elem_of {X} (i : nat) (x0 : X) (l : list X) : nth i (x0 :: l) x0 ∈ x0 :: l.
Proof.
  destruct (decide (i < length (x0 :: l))) as [Hi|Hi].
  - apply list_elem_of_In, nth_In, Hi.
  - rewrite nth_overflow by lia. by left.
Qed.

Lemma wpe_do {A R} E (o : op num R) (k : outcome jserror R -> prog num A) Q w :
  wpe E (Do o k) Q w <->
  forall c, E R o c -> wpe E (k (exec_op o c w).2) Q (exec_op o c w).1.
Proof. done. Qed.

(** The rule of the pool: an invariant of world and pool that the
    scheduler's steps and every call of every task preserve holds when the
    pool stops, and with fuel for all calls it stops settled or because
    [stop] holds. *)
Theorem wp_interleave_until {A B} E (Inv : world num -> list (prog num A) -> Prop)
    stop fuel n ps (finish : list (prog num A) -> prog num B) Q w :
  pool_bounded n ps -> n <= fuel -> Inv w ps ->
  (forall w ps m c, Inv w ps -> Inv (exec_op (Schedule m) c w).1 ps) ->
  (forall w ps i R (o : op num R) k c,
     Inv w ps -> ps !! i = Some (Do o k) -> E R o c ->
     Inv (exec_op o c w).1 (<[i := k (exec_op o c w).2]> ps)) ->
  (forall w' ps' n', Inv w' ps' -> pool_bounded n' ps' -> n' <= n ->
     settled ps' \/ stop ps' = true -> wpe E (finish ps') Q w') ->
  wpe E (interleave_until stop fuel ps finish) Q w.
Proof.
  intros Hb Hle HI Hsched Hstep Hfin.
  assert (forall w' ps' n', Inv w' ps' -> pool_bounded n' ps' -> n' <= n ->
            n' <= fuel -> wpe E (interleave_until stop fuel ps' finish) Q w') as Hgen; [|by eauto].
  clear w ps Hb HI Hle. induction fuel as [|fuel IH]; intros w ps n' HI Hb Hn Hle; simpl.
  - apply (Hfin _ _ n'); [done..|]. left. apply pool_bounded_0. by replace n' with 0 in Hb by lia.
  - destruct (stop ps) eqn:Hstop; [by apply (Hfin _ _ n'); auto|].
    destruct (pending ps) as [|i0 rest] eqn:Hp; [by apply (Hfin _ _ n'); auto|].
    apply wpe_do. intros c Hc.
    match goal with |- wpe _ (resume ?i _ _) _ _ =>
      destruct (pending_lookup ps i) as (R & o & k & Hl)
    end.
    { rewrite Hp. apply nth_default_elem_of. }
    unfold resume. rewrite Hl. apply wpe_do. intros c' Hc'.
    destruct (pool_bounded_step _ _ _ _ _ _ Hb Hl) as (n'' & -> & Hb').
    apply (IH _ _ n''); [by apply Hstep; [apply Hsched|..] | apply Hb' | lia..].
Qed.

Theorem wp_interleave {A B} E (Inv : world num -> list (prog num A) -> Prop)
    fuel n ps (finish : list (prog num A) -> prog num B) Q w :
  pool_bounded n ps -> n <= fuel -> Inv w ps ->
  (forall w ps m c, Inv w ps -> Inv (exec_op (Schedule m) c w).1 ps) ->
  (forall w ps i R (o : op num R) k c,
     Inv w ps -> ps !! i = Some (Do o k) -> E R o c ->
     Inv (exec_op o c w).1 (<[i := k (exec_op o c w).2]> ps)) ->
  (forall w' ps', Inv w' ps' -> settled ps' -> wpe E (finish ps') Q w') ->
  wpe E (interleave fuel ps finish) Q w.
Proof.
  intros Hb Hle HI Hsched Hstep Hfin.
  apply (wp_interleave_until E Inv _ fuel n); try done.
  intros w' ps' n' HI' _ _ [Hs|Hs]; [by apply Hfin | done].
Qed.

End Interleave.

(** ** The calls of one reconciliation *)

Section ReconcilerBounds.
Context {num : Type} `{!JsNumber num}.
Context (cfg : Config).

Lemma new_Date_bounded : bounded (num:=num) 1 new_Date_toISOString.
Proof. apply (bounded_bind 1 0); [apply bounded_await | done]. Qed.

Lemma sendMail_bounded d sum : bounded 2 (sendMail cfg d sum).
Proof. apply (bounded_bind 1 1); [|intros p]; apply bounded_await. Qed.

Lemma fetchOrCreate_bounded rk (sum : num) : bounded 3 (fetchOrCreate rk sum).
Proof.
  apply (bounded_try_catch 1 2); [apply bounded_await|]. intros e.
  destruct (statusCode_is 404 e); [|done].
  apply (bounded_bind 1 1); [apply new_Date_bounded|]. intros now.
  apply (bounded_bind 1 0); [apply bounded_await | done].
Qed.

Lemma alertPhase_bounded d sum e : bounded 5 (alertPhase cfg d sum e).
Proof.
  unfold alertPhase. destruct (shouldSendAlert (Some e) sum).
  - apply (bounded_bind 2 3); [apply sendMail_bounded|]. intros result.
    destruct (String.eqb result "Succeeded"); [|done].
    apply (bounded_bind 1 2); [apply bounded_await|]. intros _.
    apply (bounded_bind 1 1); [apply new_Date_bounded|]. intros now.
    apply (bounded_bind 1 0); [apply bounded_await | done].
  - apply (bounded_mono 1); [lia|]. apply (bounded_bind 1 0); [apply bounded_await | done].
Qed.

Lemma updatePhase_bounded (sum : num) e : bounded 2 (updatePhase sum e).
Proof.
  unfold updatePhase. destruct (ngt sum (SumToken e)); [|done].
  apply (bounded_bind 1 1); [apply new_Date_bounded | intros now; apply bounded_await].
Qed.

(** One reconciliation makes at most eleven calls. *)
Lemma evaluate_bounded d sum month : bounded 11 (evaluateTokenUsageForAlert cfg d sum month).
Proof.
  apply (bounded_try_catch 10 1); [|intros e; apply bounded_await].
  apply (bounded_bind 3 7); [apply fetchOrCreate_bounded|]. intros e.
  apply (bounded_bind 5 2); [apply alertPhase_bounded | intros e'; apply updatePhase_bounded].
Qed.

End ReconcilerBounds.

(** ** Tasks that cannot reject *)

Section Resolves.
Context {num : Type}.
Implicit Types (w : world num) (c : choice).

Definition is_fulfilled {A} (p : prog num A) : bool :=
  match p with
  | Ret _ => true
  | _ => false
  end.

(** Every path of [p] ends in a value, the clock and the console answering
    as they always do. *)
Fixpoint resolves {A} (p : prog num A) : Prop :=
  match p with
  | Ret _ => True
  | Throw _ => False
  | Do o k => forall r, (is_remote o = false -> is_ok r = true) -> resolves (k r)
  end.

Lemma resolves_try_catch {A} (p : prog num A) (h : jserror -> prog num A) :
  (forall e, resolves (h e)) -> resolves (try_catch p h).
Proof.
  intros Hh. induction p as [a|e|R o k IH]; simpl; [done | apply Hh |].
  intros r Hr. apply IH.
Qed.

Lemma resolves_await_local {R} (o : op num R) : is_remote o = false -> resolves (await_ o).
Proof. intros Ho [v|e] Hr; [done|]. by specialize (Hr Ho). Qed.

Lemma resolves_step {A R} (o : op num R) (k : outcome jserror R -> prog num A) c w :
  resolves (Do o k) -> resolves (k (exec_op o c w).2).
Proof.
  intros Hr. apply Hr. intros Ho.
  destruct (exec_op_local_Ok o c w Ho) as [v ->]. done.
Qed.

(** A settled pool of tasks that cannot reject is a pool of values. *)
Lemma settled_resolves {A} (ps : list (prog num A)) :
  settled ps -> Forall resolves ps -> forallb is_fulfilled ps = true.
Proof.
  intros Hs%pending_from_nil Hr. induction Hr as [|p ps Hp _ IH]; [done|].
  apply Forall_cons in Hs as [Hp' Hs]. simpl. rewrite (IH Hs). by destruct p.
Qed.

(** However the tasks of a pool that cannot reject are scheduled and
    whichever of their calls fail, with fuel for all their calls every task
    ends fulfilled. *)
Lemma wp_interleave_resolves {A} fuel n (ps : list (prog num A)) w :
  pool_bounded n ps -> n <= fuel -> Forall resolves ps ->
  wp (interleave fuel ps (fun ps' => mret (forallb is_fulfilled ps')))
     (fun _ r => r = Ok true) w.
Proof.
  intros Hb Hle Hr.
  apply (wp_interleave any_env (fun _ ps => Forall resolves ps) fuel n); try done.
  - intros w0 ps0 i R o k c Hps Hl _. apply Forall_insert; [done|].
    eapply resolves_step, (Forall_lookup_1 _ _ _ _ Hps Hl).
  - intros w' ps' Hps Hs. apply wp_ret. f_equal. by apply settled_resolves.
Qed.

End Resolves.

(** ** Reconciliations in flight together *)

Section Reconciliations.
Context {num : Type} `{!JsNumber num}.
Context (cfg : Config) (month : string).

(** The reconciliations of a list of deployments with their usages, to run
    concurrently. *)
Definition reconciliations (l : list (string * num)) : list (prog num unit) :=
  (fun du => evaluateTokenUsageForAlert cfg du.1 du.2 month) <$> l.

Lemma evaluate_resolves d sum : resolves (evaluateTokenUsageForAlert cfg d sum month).
Proof. apply resolves_try_catch. intros e. by apply resolves_await_local. Qed.

Lemma reconciliations_bounded l : pool_bounded (11 * length l) (reconciliations l).
Proof.
  induction l as [|du l IH]; [constructor|].
  change (reconciliations (du :: l))
    with (evaluateTokenUsageForAlert cfg du.1 du.2 month :: reconciliations l).
  replace (11 * length (du :: l)) with (11 + 11 * length l) by (simpl; lia).
  constructor; [apply evaluate_bounded | apply IH].
Qed.

(** C19: Reconciliations that run concurrently all resolve, whatever the order
    in which they are resumed and whichever calls fail: no rejection reaches
    [Promise.all]. *)
Theorem reconciliations_resolve (l : list (string * num)) cs w :
  run_result (interleave (11 * length l) (reconciliations l)
                (fun ps => mret (forallb is_fulfilled ps))) cs w = Ok true.
Proof.
  apply (wp_run _ (fun _ r => r = Ok true)).
  apply (wp_interleave_resolves _ (11 * length l)); [apply reconciliations_bounded | done |].
  apply Forall_fmap, Forall_forall. intros du _. apply evaluate_resolves.
Qed.

End Reconciliations.

(** ** The races on one record *)

Section Races.

(** The choices of a schedule: before each call, the task to resume. *)
Definition schedule (picks : list nat) : list choice :=
  picks ≫= (fun i => [picking i; normal]).

(** Two reconciliations of [gpt4dev] that observed the usages [a] and [b]. *)
Definition two_invocations (a b : Z) : prog jsnum bool :=
  interleave 22 (reconciliations cfg0 "2024-10" [("gpt4dev", JInt a); ("gpt4dev", JInt b)])
    (fun ps => mret (forallb is_fulfilled ps)).

#[local] Abbreviation key0 := (recordKey "gpt4dev" "2024-10").



End Races.

(** ** A program that cannot reject, run *)

Section ResolvesRun.
Context {num : Type}.

Lemma resolves_wp {A} E (p : prog num A) w :
  resolves p -> wpe E p (fun _ r => is_ok r = true) w.
Proof.
  revert w. induction p as [a|e|R o k IH]; intros w; simpl; [done..|].
  intros Hr. apply wpe_do. intros c _. apply IH, (resolves_step o k c w Hr).
Qed.

Lemma resolves_bind {A B} (p : prog num A) (f : A -> prog num B) :
  resolves p -> (forall a, resolves (f a)) -> resolves (p ≫= f).
Proof.
  intros Hp Hf. induction p as [a|e|R o k IH]; simpl in *; [apply Hf | done |].
  intros r Hr. by apply IH, Hp.
Qed.

End ResolvesRun.
