(* ===== verification/Isolation.v ===== *)
(** * Isolation: concurrent reconciliations of distinct records

    The reconciliations of one invocation run concurrently, one per
    deployment.  Each reads and writes the record of its own deployment
    only, so the others cannot disturb it: this file proves that, in every
    interleaving and under every fault, the record of each deployment evolves
    as one reconciliation alone would let it ([slot_evolves]: the usage is
    kept or raised to the new one, the flag is kept or raised for a usage
    above the threshold), and that no other record changes.

    The proof is by rely and guarantee.  [wpg E R G p Q w] says that every
    call of [p] is a step within [G] and that [Q] holds at the end, when
    between the calls of [p] the world changes by steps within [R].  A
    reconciliation of the record [k] guarantees [reconciles k sum] and
    relies on [others k]: the record [k] is left alone.  The guarantee of
    each task is within the rely of every other ([reconciles_others]).

    Two reconciliations of the same record are not isolated:
    [Concurrency.race_stale_write_back]. *)

From stdpp Require Import base tactics option list strings gmap.
From Stdlib Require Import ZArith Lia.
From S2P Require Import Prelude JsValue DateTime Metrics Table Effects Rules Policy Guarantee.
From S2P Require Import Reconciler Concurrency.

(** ** Rely and guarantee *)

Section RelyGuarantee.
Context {num : Type}.
Implicit Types (w : world num) (R G : relation (world num)).

Fixpoint wpg {A} (E : @env num) R G (p : prog num A)
    (Q : world num -> outcome jserror A -> Prop) w : Prop :=
  match p with
  | Ret a => forall w', R w w' -> Q w' (Ok a)
  | Throw e => forall w', R w w' -> Q w' (Err e)
  | Do o k =>
      forall w1, R w w1 -> forall c, E _ o c ->
        G w1 (exec_op o c w1).1 /\ wpg E R G (k (exec_op o c w1).2) Q (exec_op o c w1).1
  end.

Context (E : @env num) (R G : relation (world num)) `{!PreOrder R}.

Lemma wpg_mono {A} (p : prog num A) (Q Q' : world num -> outcome jserror A -> Prop) w :
  (forall w' r, Q w' r -> Q' w' r) -> wpg E R G p Q w -> wpg E R G p Q' w.
Proof.
  intros HQ. revert w. induction p as [a|e|X o k IH]; intros w; simpl; [by auto..|].
  intros H w1 Hw1 c Hc. destruct (H w1 Hw1 c Hc). split; [done | by apply IH].
Qed.

(** What holds from [w] holds from every world the others can make of it. *)
Lemma wpg_rely {A} (p : prog num A) Q w w' : wpg E R G p Q w -> R w w' -> wpg E R G p Q w'.
Proof.
  destruct p as [a|e|X o k]; simpl; intros H Hw.
  - intros w'' Hw'. apply H. by etrans.
  - intros w'' Hw'. apply H. by etrans.
  - intros w1 Hw1. apply H. by etrans.
Qed.

Lemma wpg_ret {A} (a : A) (Q : world num -> outcome jserror A -> Prop) w :
  (forall w', R w w' -> Q w' (Ok a)) -> wpg E R G (mret a) Q w.
Proof. done. Qed.

Lemma wpg_bind {A B} (p : prog num A) (f : A -> prog num B) Q w :
  wpg E R G p (fun w' r =>
    match r with
    | Ok a => wpg E R G (f a) Q w'
    | Err e => forall w'', R w' w'' -> Q w'' (Err e)
    end) w ->
  wpg E R G (p ≫= f) Q w.
Proof.
  revert w. induction p as [a|e|X o k IH]; intros w; simpl.
  - intros H. by apply H.
  - intros H w' Hw'. by apply (H w' Hw').
  - intros H w1 Hw1 c Hc. destruct (H w1 Hw1 c Hc). split; [done | by apply IH].
Qed.

Lemma wpg_try_catch {A} (p : prog num A) (h : jserror -> prog num A) Q w :
  wpg E R G p (fun w' r =>
    match r with
    | Ok a => forall w'', R w' w'' -> Q w'' (Ok a)
    | Err e => wpg E R G (h e) Q w'
    end) w ->
  wpg E R G (try_catch p h) Q w.
Proof.
  revert w. induction p as [a|e|X o k IH]; intros w; simpl.
  - intros H w' Hw'. by apply (H w' Hw').
  - intros H. by apply H.
  - intros H w1 Hw1 c Hc. destruct (H w1 Hw1 c Hc). split; [done | by apply IH].
Qed.

(** A call: its step is within the guarantee, and the rest is proved from
    the world it leaves. *)
Lemma wpg_await {X} (o : op num X) (Q : world num -> outcome jserror X -> Prop) w :
  (forall w1 c, R w w1 -> E _ o c ->
     G w1 (exec_op o c w1).1 /\
     forall w2, R (exec_op o c w1).1 w2 -> Q w2 (exec_op o c w1).2) ->
  wpg E R G (await_ o) Q w.
Proof.
  intros H w1 Hw1 c Hc. destruct (H w1 c Hw1 Hc) as [HG HQ]. split; [done|].
  by destruct (exec_op o c w1).2.
Qed.

(** A call, from a rule of [wpe] for it: the rule is applied in the world
    the others have made, and tells the guarantee of the step and what holds
    from then on. *)
Lemma wpg_of_wpe {X} (o : op num X) (Q : world num -> outcome jserror X -> Prop) w :
  (forall w1, R w w1 ->
     wpe E (await_ o) (fun w1' r => G w1 w1' /\ forall w2, R w1' w2 -> Q w2 r) w1) ->
  wpg E R G (await_ o) Q w.
Proof.
  intros H. apply wpg_await. intros w1 c H1 Hc.
  specialize (H w1 H1 c Hc). simpl in H. by destruct (exec_op o c w1).2.
Qed.

Lemma wpg_do {A X} (o : op num X) (rest : outcome jserror X -> prog num A) Q w :
  wpg E R G (Do o rest) Q w <->
  forall w1, R w w1 -> forall c, E _ o c ->
    G w1 (exec_op o c w1).1 /\ wpg E R G (rest (exec_op o c w1).2) Q (exec_op o c w1).1.
Proof. done. Qed.

(** When a task has settled its postcondition holds. *)
Lemma wpg_settled {A} (p : prog num A) Q w :
  is_pending p = false -> wpg E R G p Q w ->
  match p with
  | Ret a => Q w (Ok a)
  | Throw e => Q w (Err e)
  | Do _ _ => False
  end.
Proof. destruct p as [a|e|X o rest]; simpl; [intros _ H; by apply H..|done]. Qed.

End RelyGuarantee.

#[global] Arguments wpg : simpl never.

(** [rg l]: apply the law [l], the rely found to be a preorder by instance
    search. *)
Tactic Notation "rg" uconstr(l) := apply l; try tc_solve.

(** A chain of steps of a preorder, found among the hypotheses. *)
Ltac along := repeat (etrans; [eassumption|]); reflexivity.

(** ** Tasks in parallel

    The rule of parallel composition.  Task [i] of a pool is proved with the
    rely [R i] and the guarantee [G i]; what a task guarantees is within what
    every other task relies on.  Then, when the pool has settled, every task
    has its postcondition [Q i], and a property [J] of the world that the
    steps of the guarantees preserve holds. *)

Section Parallel.
Context {num : Type} {A : Type}.
Context (E : @env num) (R G : nat -> relation (world num)) `{!forall i, PreOrder (R i)}.
Context (Q : nat -> world num -> outcome jserror A -> Prop) (J : world num -> Prop).
Context (len : nat).
Implicit Types (w : world num) (ps : list (prog num A)).

Definition par_inv w ps : Prop :=
  J w /\ length ps = len /\
  forall i p, ps !! i = Some p -> wpg E (R i) (G i) p (Q i) w.

Definition par_post w ps : Prop :=
  J w /\ length ps = len /\
  forall i p, ps !! i = Some p ->
    match p with
    | Ret a => Q i w (Ok a)
    | Throw e => Q i w (Err e)
    | Do _ _ => False
    end.

Context (compatible : forall i j w w', i <> j -> G j w w' -> R i w w').
Context (schedule_rely : forall i m c w, R i w (exec_op (Schedule m) c w).1).
Context (J_step : forall i w w', J w -> G i w w' -> J w').
Context (J_schedule : forall m c w, J w -> J (exec_op (Schedule m) c w).1).

Lemma par_inv_schedule w ps m c : par_inv w ps -> par_inv (exec_op (Schedule m) c w).1 ps.
Proof.
  intros (HJ & Hlen & Hps). split; [by apply J_schedule|]. split; [done|]. intros i p Hp.
  eapply wpg_rely; [apply _ | by apply Hps | apply schedule_rely].
Qed.

Lemma par_inv_step w ps j X (o : op num X) (rest : outcome jserror X -> prog num A) c :
  par_inv w ps -> ps !! j = Some (Do o rest) -> E _ o c ->
  par_inv (exec_op o c w).1 (<[j := rest (exec_op o c w).2]> ps).
Proof.
  intros (HJ & Hlen & Hps) Hj Hc.
  destruct (proj1 (wpg_do _ _ _ _ _ _ _) (Hps j _ Hj) w (reflexivity _) c Hc) as [HG Hrest].
  split; [by eapply J_step|]. split; [by rewrite length_insert|]. intros i p. destruct (decide (i = j)) as [->|Hij].
  - rewrite list_lookup_insert_eq by by eapply lookup_lt_Some. by intros [= <-].
  - rewrite list_lookup_insert_ne by done. intros Hp.
    eapply wpg_rely; [apply _ | by apply Hps | by eapply compatible].
Qed.

Lemma par_inv_settled w ps : par_inv w ps -> settled ps -> par_post w ps.
Proof.
  intros (HJ & Hlen & Hps) Hs. split; [done|]. split; [done|]. intros i p Hp.
  apply (wpg_settled E (R i) (G i)); [|by apply Hps].
  apply pending_from_nil in Hs. rewrite Forall_lookup in Hs. by apply (Hs i).
Qed.

(** A task that has rejected has the postcondition of its rejection. *)
Lemma par_inv_rejected w ps i e : par_inv w ps -> ps !! i = Some (Throw e) -> Q i w (Err e).
Proof.
  intros (_ & _ & Hps) Hi. by apply (wpg_settled E (R i) (G i) (Throw e)); [|apply Hps].
Qed.

(** A step within the rely of every task that keeps [J]. *)
Lemma par_inv_rely w w' ps : (forall i, R i w w') -> (J w -> J w') -> par_inv w ps -> par_inv w' ps.
Proof.
  intros HR HJ (Hw & Hlen & Hps). split; [auto|]. split; [done|]. intros i p Hp.
  eapply wpg_rely; [apply _ | by apply Hps | apply HR].
Qed.

(** The pool run until [stop] holds of it: when it stops, with [n'] calls
    left to its tasks, every task is proved from the world it stops in. *)
Theorem wpg_interleave_until {B} stop fuel n ps (finish : list (prog num A) -> prog num B)
    Post w :
  pool_bounded n ps -> n <= fuel -> par_inv w ps ->
  (forall w' ps' n', par_inv w' ps' -> pool_bounded n' ps' -> n' <= n ->
     settled ps' \/ stop ps' = true -> wpe E (finish ps') Post w') ->
  wpe E (interleave_until stop fuel ps finish) Post w.
Proof.
  intros Hb Hle Hinv Hfin. apply (wp_interleave_until E par_inv stop fuel n); try done.
  - intros. by apply par_inv_schedule.
  - intros. by apply par_inv_step.
Qed.

(** The pool run until every task has settled. *)
Theorem wpg_interleave {B} fuel n ps (finish : list (prog num A) -> prog num B) Post w :
  pool_bounded n ps -> n <= fuel -> par_inv w ps ->
  (forall w' ps', par_post w' ps' -> wpe E (finish ps') Post w') ->
  wpe E (interleave fuel ps finish) Post w.
Proof.
  intros Hb Hle Hinv Hfin. apply (wpg_interleave_until _ fuel n); try done.
  intros w' ps' n' Hinv' _ _ [Hs|Hs]; [by apply Hfin, par_inv_settled | done].
Qed.

End Parallel.

(** What the tasks of a pool made from a list have when the pool has
    settled: each the postcondition of its element. *)
Lemma par_post_lookup {num A X} (Q : nat -> world num -> outcome jserror A -> Prop) J
    (l : list X) w ps i x :
  par_post Q J (length l) w ps -> l !! i = Some x -> exists r, Q i w r.
Proof.
  intros (_ & Hlen & Hps) Hi. destruct (lookup_lt_is_Some_2 ps i) as [p Hp].
  { rewrite Hlen. by eapply lookup_lt_Some. }
  specialize (Hps i p Hp). destruct p; [by eauto..|done].
Qed.

(** The relation of task [i], when the tasks are made from a list. *)
Definition task_rel {num X} (l : list X) (F : X -> relation (world num))
    (dflt : relation (world num)) (i : nat) : relation (world num) :=
  from_option F dflt (l !! i).

#[export] Instance task_rel_preorder {num X} (l : list X) (F : X -> relation (world num)) :
  (forall x, PreOrder (F x)) -> forall i, PreOrder (task_rel l F (fun _ _ => True) i).
Proof. intros HF i. unfold task_rel. destruct (l !! i); simpl; [apply HF | by split]. Qed.

(** ** One reconciliation among others *)

Section Thread.
Context {num : Type} `{!JsNumber num}.
Context (cfg : Config) (k : string * string) (sum : num).
Implicit Types (w : world num) (e : Entity num).

(** What a reconciliation of the record [k] relies on: the others leave the
    record [k] as it is and the table well formed. *)
Record others w w' : Prop := mkOthers {
  oth_slot : w_table w' !! k = w_table w !! k;
  oth_wf : table_wf (w_table w) -> table_wf (w_table w');
}.

#[export] Instance others_preorder : PreOrder others.
Proof.
  split.
  - by intros w.
  - intros w1 w2 w3 [Hs1 Hw1] [Hs2 Hw2]. split; [congruence | auto].
Qed.

(** The step of a call that names no record. *)
Lemma exec_op_others {X} (o : op num X) c w : op_key o = None -> others w (exec_op o c w).1.
Proof. intros Ho. split; [by rewrite exec_op_table_local | apply exec_op_wf]. Qed.

#[local] Abbreviation W := (wpg any_env others (reconciles k sum)).

Lemma wpg_quiet {X} (o : op num X) (Q : world num -> outcome jserror X -> Prop) w :
  op_key o = None -> (forall w' r, others w w' -> Q w' r) -> W (await_ o) Q w.
Proof.
  intros Ho H. apply wpg_await. intros w1 c H1 _. split; [by apply reconciles_local|].
  intros w2 H2. apply H. etrans; [done|]. etrans; [exact (exec_op_others o c w1 Ho) | done].
Qed.

(** The clock and the console, which always answer. *)
Lemma wpg_local {X} (o : op num X) (Q : world num -> outcome jserror X -> Prop) w :
  is_remote o = false -> op_key o = None ->
  (forall w' v, others w w' -> Q w' (Ok v)) -> W (await_ o) Q w.
Proof.
  intros Hl Ho H. apply wpg_await. intros w1 c H1 _. split; [by apply reconciles_local|].
  intros w2 H2. destruct (exec_op_local_Ok o c w1 Hl) as [v ->].
  apply H. etrans; [done|]. etrans; [exact (exec_op_others o c w1 Ho) | done].
Qed.

Lemma wpg_get rk (Q : world num -> outcome jserror (Entity num) -> Prop) w :
  k = ("DeploymentType", rk) ->
  (forall w' r, others w w' -> (forall e, r = Ok e -> w_table w' !! k = Some e) -> Q w' r) ->
  W (await_ (GetEntity "DeploymentType" rk)) Q w.
Proof.
  intros Hk H. apply wpg_await. intros w1 c H1 _.
  split; [rewrite Hk; apply reconciles_get|].
  assert (others w1 (exec_op (GetEntity "DeploymentType" rk) c w1).1) as Hstep.
  { split; [by rewrite exec_get_table | apply exec_op_wf]. }
  intros w2 H2. apply H; [by repeat (etrans; [eassumption|])|].
  intros e He%exec_get_Ok. by rewrite (oth_slot _ _ H2), (oth_slot _ _ Hstep), Hk.
Qed.

Lemma wpg_create e (Q : world num -> outcome jserror unit -> Prop) w :
  entity_key e = k -> SumToken e = sum -> ActionDone e = false ->
  (forall w' r, (table_wf (w_table w) -> table_wf (w_table w')) ->
     (r = Ok tt -> w_table w' !! k = Some e) -> Q w' r) ->
  W (await_ (CreateEntity e)) Q w.
Proof.
  intros Hk Hs Ha H. apply wpg_await. intros w1 c H1 _.
  split; [rewrite <- Hk; by apply reconciles_create|].
  intros w2 H2. apply H.
  - intros Hwf. by apply H2, exec_op_wf, H1.
  - intros [_ Hins]%exec_create_Ok. by rewrite (oth_slot _ _ H2), Hins, <- Hk, lookup_insert_eq.
Qed.

Lemma wpg_update e0 e (Q : world num -> outcome jserror unit -> Prop) w :
  entity_key e = k -> w_table w !! k = Some e0 -> slot_evolves sum (Some e0) (Some e) ->
  (forall w' r, (table_wf (w_table w) -> table_wf (w_table w')) ->
     (w_table w' !! k = Some e0 \/ w_table w' !! k = Some e) ->
     (r = Ok tt -> w_table w' !! k = Some e) -> Q w' r) ->
  W (await_ (UpdateEntity e)) Q w.
Proof.
  intros Hk Hl Hslot H. apply wpg_await. intros w1 c H1 _.
  assert (w_table w1 !! entity_key e = Some e0) as Hl1 by by rewrite Hk, (oth_slot _ _ H1).
  split; [rewrite <- Hk; by eapply reconciles_update|].
  intros w2 H2. apply H.
  - intros Hwf. by apply H2, exec_op_wf, H1.
  - rewrite (oth_slot _ _ H2), <- Hk.
    destruct (exec_update_table e c w1) as [->|[_ ->]]; [by left | right; apply lookup_insert_eq].
  - intros [_ Hins]%exec_update_Ok. by rewrite (oth_slot _ _ H2), Hins, <- Hk, lookup_insert_eq.
Qed.

End Thread.

#[export] Existing Instance others_preorder.

(** ** The steps of a reconciliation among others *)

Section ThreadSteps.
Context {num : Type} `{!JsNumber num}.
Context (cfg : Config) (d : string) (sum : num) (month : string).
Implicit Types (w : world num) (e : Entity num).

#[local] Abbreviation k := (recordKey d month).
#[local] Abbreviation W := (wpg any_env (others k) (reconciles k sum)).

Lemma wpg_new_Date {A} (f : string -> prog num A) Q w :
  (forall w' now, others k w w' -> W (f now) Q w') ->
  W (new_Date_toISOString ≫= f) Q w.
Proof.
  intros H. unfold new_Date_toISOString. rg wpg_bind. rg wpg_bind. apply wpg_local; [done..|].
  intros w1 now H1. apply wpg_ret. intros w2 H2. apply H. by etrans.
Qed.

(** The record [k] holds [e], under its own key, in a well-formed table:
    what a task knows of the world between its calls. *)
Definition holds e w : Prop :=
  table_wf (w_table w) /\ w_table w !! k = Some e.

Lemma holds_others e w w' : holds e w -> others k w w' -> holds e w'.
Proof. intros [Hwf Hl] [Hs Hw]. split; [auto | congruence]. Qed.

Lemma holds_wf e w w' : holds e w -> others k w w' -> table_wf (w_table w').
Proof. intros [Hwf _] [_ Hw]. auto. Qed.

Lemma holds_key e w : holds e w -> entity_key e = k.
Proof. intros [Hwf Hl]. by apply Hwf. Qed.

Lemma fetchOrCreate_isolated w :
  table_wf (w_table w) ->
  W (fetchOrCreate (rowKeyOf d month) sum)
    (fun w' r => table_wf (w_table w') /\ forall e, r = Ok e -> holds e w') w.
Proof.
  intros Hwf. unfold fetchOrCreate. rg wpg_try_catch. apply wpg_get; [done|].
  intros w1 [e|err] H1 Hget.
  - intros w2 H2. pose proof (oth_wf _ _ _ H1 Hwf) as Hwf1.
    split; [by apply H2|]. intros ? [= <-]. by apply (holds_others e w1); [split; auto|].
  - pose proof (oth_wf _ _ _ H1 Hwf) as Hwf1.
    destruct (statusCode_is 404 err); [|intros w2 H2; split; [by apply H2 | done]].
    apply wpg_new_Date. intros w2 now H2. pose proof (oth_wf _ _ _ H2 Hwf1) as Hwf2.
    rg wpg_bind. apply wpg_create; [done..|]. intros w3 [[]|err3] Hwf3 Hl3.
    + apply wpg_ret. intros w4 H4. split; [by apply H4, Hwf3|]. intros ? [= <-].
      apply (holds_others _ w3); [split; auto | done].
    + intros w4 H4. split; [by apply H4, Hwf3 | done].
Qed.

Lemma alertPhase_isolated e w :
  holds e w ->
  W (alertPhase cfg d sum e)
    (fun w' r => table_wf (w_table w') /\ forall e', r = Ok e' -> holds e' w') w.
Proof.
  intros He. unfold alertPhase.
  destruct (shouldSendAlert (Some e) sum) eqn:Hdue.
  - apply shouldSendAlert_due in Hdue as [Hgt Hflag]. unfold sendMail.
    rg wpg_bind. rg wpg_bind. apply wpg_quiet; [done|]. intros w1 [poller|err] H1;
      [|intros w2 H2 w3 H3; split; [apply (holds_wf e w); [done | along] | done]].
    apply wpg_quiet; [done|]. intros w2 [status|err] H2;
      [|intros w3 H3; split; [apply (holds_wf e w); [done | along] | done]].
    destruct (String.eqb status "Succeeded");
      [|intros w3 H3; split; [apply (holds_wf e w); [done | along] | done]].
    rg wpg_bind. apply wpg_local; [done..|]. intros w3 [] H3.
    apply wpg_new_Date. intros w4 now H4.
    assert (holds e w4) as [Hwf4 Hl4] by (apply (holds_others e w); [done | along]).
    rg wpg_bind. apply (wpg_update _ _ e); autorewrite with monitor_rw;
      [by eapply holds_key | done | simpl; auto |].
    intros w5 [[]|err] Hwf5 _ Hl5.
    + apply wpg_ret. intros w6 H6. split; [by apply H6, Hwf5|]. intros ? [= <-].
      apply (holds_others _ w5); [split; auto | done].
    + intros w6 H6. split; [by apply H6, Hwf5 | done].
  - rg wpg_bind. apply wpg_local; [done..|]. intros w1 [] H1. apply wpg_ret. intros w2 H2.
    assert (holds e w2) as He2 by (apply (holds_others e w); [done | along]).
    split; [apply He2 | by intros ? [= <-]].
Qed.

Lemma updatePhase_isolated e w :
  holds e w -> W (updatePhase sum e) (fun _ _ => True) w.
Proof.
  intros He. unfold updatePhase. destruct (ngt sum (SumToken e)) eqn:Hgt; [|done].
  apply wpg_new_Date. intros w1 now H1.
  assert (holds e w1) as [Hwf1 Hl1] by eauto using holds_others.
  apply (wpg_update _ _ e); autorewrite with monitor_rw;
    [by eapply holds_key | done | simpl; auto | done].
Qed.

(** The [catch] block of the reconciliation: the error is logged and the
    promise is fulfilled. *)
Lemma wpg_catch err w :
  W (await_ (ConsoleError "Error processing deployment" d err))
    (fun _ r => r = Ok tt) w.
Proof. apply wpg_local; [done..|]. by intros w' []. Qed.

(** One reconciliation, whatever the others do to the other records, makes
    only steps that a reconciliation of its record may make, and is
    fulfilled. *)
Lemma evaluate_isolated w :
  table_wf (w_table w) ->
  W (evaluateTokenUsageForAlert cfg d sum month) (fun _ r => r = Ok tt) w.
Proof.
  intros Hwf. unfold evaluateTokenUsageForAlert, reconcile.
  rg wpg_try_catch. rg wpg_bind.
  eapply wpg_mono; [|by apply fetchOrCreate_isolated].
  intros w1 [e|err] [Hwf1 He]; simpl; [|intros w2 H2; by apply wpg_catch].
  rg wpg_bind. eapply wpg_mono; [|by apply alertPhase_isolated, He].
  intros w2 [e2|err] [Hwf2 He2]; simpl; [|intros w3 H3; by apply wpg_catch].
  eapply wpg_mono; [|by apply updatePhase_isolated, He2].
  intros w3 [[]|err] _; [done | by apply wpg_catch].
Qed.

End ThreadSteps.

(** ** The pool of reconciliations *)

Section PoolIsolation.
Context {num : Type} `{!JsNumber num}.
Context (cfg : Config) (month : string).
Implicit Types (w : world num) (l : list (string * num)) (k : string * string).

(** The reconciliations of the deployments of [l], run concurrently until
    all have settled. *)
Definition run_reconciliations l : prog num unit :=
  interleave (11 * length l) (reconciliations cfg month l) (fun _ => mret tt).

(** From [w0] to [w] each record of a deployment of [l] evolved as its
    reconciliation allows, and no other record changed. *)
Record evolved l (w0 w : world num) : Prop := mkEvolved {
  ev_clock : (w_clock w0 <= w_clock w)%Z;
  ev_wf : table_wf (w_table w);
  ev_slot : forall d sum, (d, sum) ∈ l ->
    slot_evolves sum (w_table w0 !! recordKey d month) (w_table w !! recordKey d month);
  ev_other : forall k, (forall d sum, (d, sum) ∈ l -> k <> recordKey d month) ->
    w_table w !! k = w_table w0 !! k;
}.

Lemma recordKey_inj d1 d2 : recordKey d1 month = recordKey d2 month -> d1 = d2.
Proof.
  unfold recordKey, rowKeyOf. intros [= H].
  by apply (string_app_inj_suffix d1 d2 ("-" +:+ month) ("-" +:+ month)) in H as [-> _].
Qed.

(** What a reconciliation of one record guarantees is what the
    reconciliation of another relies on. *)
Lemma reconciles_others k k' (sum : num) w w' :
  k' <> k -> reconciles k' sum w w' -> others k w w'.
Proof. intros Hk Hr. split; [by apply Hr | apply Hr]. Qed.

Lemma NoDup_fst_lookup l i j d sum sum' :
  NoDup l.*1 -> l !! i = Some (d, sum) -> l !! j = Some (d, sum') -> i = j.
Proof.
  intros Hnd Hi Hj. apply (NoDup_lookup _ i j d Hnd); rewrite list_lookup_fmap.
  - by rewrite Hi.
  - by rewrite Hj.
Qed.

Lemma evolved_refl l w : table_wf (w_table w) -> evolved l w w.
Proof. intros Hwf. split; [done | done | intros; apply slot_evolves_refl | done]. Qed.

(** A step that leaves the table alone. *)
Lemma evolved_quiet l w0 w w' :
  idle w w' -> evolved l w0 w -> evolved l w0 w'.
Proof. intros [Ht _ _ Hc' _] [Hc Hwf Hs Ho]. split; rewrite ?Ht; auto. lia. Qed.

(** A step of the reconciliation of a deployment of [l]. *)
Lemma evolved_step l w0 w w' i d sum :
  NoDup l.*1 -> l !! i = Some (d, sum) ->
  reconciles (recordKey d month) sum w w' -> evolved l w0 w -> evolved l w0 w'.
Proof.
  intros Hnd Hi Hr [Hc Hwf Hs Ho]. split.
  - pose proof (rec_clock _ _ _ _ Hr). lia.
  - by apply Hr.
  - intros d' sum' Hin. destruct (decide (d' = d)) as [->|Hd].
    + apply list_elem_of_lookup in Hin as [j Hj].
      assert (j = i) as -> by eauto using NoDup_fst_lookup.
      assert (sum' = sum) as -> by congruence.
      eapply slot_evolves_trans; [by apply Hs; apply list_elem_of_lookup; eauto | apply Hr].
    + rewrite (rec_other _ _ _ _ Hr); [by apply Hs|]. by intros ?%recordKey_inj.
  - intros k Hk. rewrite (rec_other _ _ _ _ Hr); [by apply Ho|].
    apply (Hk d sum). apply list_elem_of_lookup. eauto.
Qed.

(** What task [i] relies on and what it guarantees. *)
Definition rely_of l : nat -> relation (world num) :=
  task_rel l (fun du => others (recordKey du.1 month)) (fun _ _ => True).

Definition guarantee_of l : nat -> relation (world num) :=
  task_rel l (fun du => reconciles (recordKey du.1 month) du.2) (fun _ _ => False).

(** The guarantee of a task is within the rely of every other. *)
Lemma guarantee_rely l i j w w' :
  NoDup l.*1 -> i <> j -> guarantee_of l j w w' -> rely_of l i w w'.
Proof.
  unfold guarantee_of, rely_of, task_rel. intros Hnd Hij.
  destruct (l !! j) as [[d sum]|] eqn:Hj; simpl; [|done].
  destruct (l !! i) as [[d' sum']|] eqn:Hi; simpl; [|done].
  apply reconciles_others. intros ->%recordKey_inj. by eauto using NoDup_fst_lookup.
Qed.

Lemma rely_schedule l i m c w : rely_of l i w (exec_op (Schedule m) c w).1.
Proof.
  unfold rely_of, task_rel. destruct (l !! i) as [[d sum]|]; [|done].
  change (others (recordKey d month) w (exec_op (Schedule m) c w).1). by apply exec_op_others.
Qed.

Lemma evolved_guarantee l w0 i w w' :
  NoDup l.*1 -> evolved l w0 w -> guarantee_of l i w w' -> evolved l w0 w'.
Proof.
  unfold guarantee_of, task_rel. intros Hnd Hev.
  destruct (l !! i) as [[d sum]|] eqn:Hi; simpl; [|done]. intros Hr.
  by apply (evolved_step l w0 w w' i d sum).
Qed.

Lemma evolved_schedule l w0 m c w : evolved l w0 w -> evolved l w0 (exec_op (Schedule m) c w).1.
Proof. by apply evolved_quiet, exec_op_idle. Qed.

(** The tasks of the pool, at the start. *)
Lemma reconciliations_safe l w i p :
  table_wf (w_table w) -> reconciliations cfg month l !! i = Some p ->
  wpg any_env (rely_of l i) (guarantee_of l i) p (fun _ r => r = Ok tt) w.
Proof.
  intros Hwf. unfold reconciliations, rely_of, guarantee_of, task_rel.
  rewrite list_lookup_fmap. destruct (l !! i) as [[d sum]|] eqn:Hl; [|done].
  intros [= <-]. by apply evaluate_isolated.
Qed.

(** What is known of the world and of the pool while the pool runs, whatever
    fails. *)
Definition isolated_inv l (w0 w : world num) (ps : list (prog num unit)) : Prop :=
  par_inv any_env (rely_of l) (guarantee_of l) (fun _ _ r => r = Ok tt) (evolved l w0)
    (length l) w ps.

(** No task of the pool rejects. *)
Lemma isolated_inv_fulfilled l w0 w ps i e : isolated_inv l w0 w ps -> ps !! i <> Some (Throw e).
Proof. intros Hinv Hi. by pose proof (par_inv_rejected _ _ _ _ _ _ _ _ i e Hinv Hi). Qed.

(** The rule of the pool of reconciliations, run until [stop] holds, under
    every fault. *)
Lemma wp_reconciliations {B} stop l (finish : list (prog num unit) -> prog num B) Post w :
  NoDup l.*1 -> table_wf (w_table w) ->
  (forall w' ps, isolated_inv l w w' ps -> settled ps \/ stop ps = true ->
     wpe any_env (finish ps) Post w') ->
  wpe any_env (interleave_until stop (11 * length l) (reconciliations cfg month l) finish)
    Post w.
Proof.
  intros Hnd Hwf Hfin.
  apply (wpg_interleave_until any_env (rely_of l) (guarantee_of l) (fun _ _ r => r = Ok tt)
           (evolved l w) (length l)
           (fun i j w1 w2 => guarantee_rely l i j w1 w2 Hnd) (rely_schedule l)
           (fun i w1 w2 => evolved_guarantee l w i w1 w2 Hnd) (evolved_schedule l w)
           stop (11 * length l) (11 * length l));
    [apply reconciliations_bounded | done | | by eauto].
  split; [by apply evolved_refl|]. split; [apply length_fmap|].
  intros i p. by apply reconciliations_safe.
Qed.

Lemma reconciliations_isolated_aux l cs w :
  NoDup l.*1 -> table_wf (w_table w) ->
  evolved l w (run_world (run_reconciliations l) cs w).
Proof.
  intros Hnd Hwf. apply (wp_run (run_reconciliations l) (fun w' _ => evolved l w w')).
  apply wp_reconciliations; [done..|]. intros w' ps Hinv _. apply wp_ret, Hinv.
Qed.

(** C12: However the reconciliations of distinct deployments are interleaved and
    whichever of their calls fail, the record of each deployment evolves as
    its own reconciliation allows (its usage is kept or raised to the new
    usage, its flag is kept or raised for a usage above the threshold), no
    other record changes and the table stays well formed. *)
Theorem reconciliations_isolated l cs w :
  NoDup l.*1 -> table_wf (w_table w) ->
  table_wf (w_table (run_world (run_reconciliations l) cs w)) /\
  (forall d sum, (d, sum) ∈ l ->
     slot_evolves sum (w_table w !! recordKey d month)
       (w_table (run_world (run_reconciliations l) cs w) !! recordKey d month)) /\
  (forall k, (forall d sum, (d, sum) ∈ l -> k <> recordKey d month) ->
     w_table (run_world (run_reconciliations l) cs w) !! k = w_table w !! k).
Proof. intros Hnd Hwf. by destruct (reconciliations_isolated_aux l cs w Hnd Hwf). Qed.

(** A record that exists when concurrent reconciliations start is still
    there when they end, with a usage that is not below and a flag that is
    not cleared. *)
Theorem reconciliations_keep_records l cs w d sum e :
  NoDup l.*1 -> table_wf (w_table w) -> (d, sum) ∈ l ->
  w_table w !! recordKey d month = Some e ->
  exists e', w_table (run_world (run_reconciliations l) cs w) !! recordKey d month = Some e' /\
    not_above (SumToken e) (SumToken e') /\
    (ActionDone e = true -> ActionDone e' = true).
Proof.
  intros Hnd Hwf Hin Hl. destruct (reconciliations_isolated_aux l cs w Hnd Hwf) as [_ _ Hs _].
  specialize (Hs d sum Hin). rewrite Hl in Hs.
  destruct (w_table (run_world _ cs w) !! recordKey d month) as [e'|]; simpl in Hs; [|done].
  exists e'. split; [done|].
  destruct Hs as [[Hs|[Hgt Hs]] [Ha|[_ Ha]]]; rewrite Hs; (split; [|intros; congruence]);
    first [apply ngt_irrefl | by apply ngt_asym].
Qed.

End PoolIsolation.

(** ** The theorems at concrete inputs *)

Section IsolationWitnesses.

#[local] Abbreviation fresh0 := (w_with (stored "gpt4dev" "2024-10" 500 false)).
#[local] Abbreviation two := [("gpt4dev", JInt 1500); ("gpt35", JInt 100)].
#[local] Abbreviation cs0 := (schedule [1; 0; 1; 1; 0]).

Lemma two_NoDup : NoDup two.*1.
Proof. apply NoDup_cons. split; [set_solver | apply NoDup_singleton]. Qed.

Lemma reconciliations_isolated_witness :
  NoDup two.*1 /\ table_wf (w_table fresh0) /\
  table_wf (w_table (run_world (run_reconciliations cfg0 "2024-10" two) cs0 fresh0)) /\
  (forall d sum, (d, sum) ∈ two ->
     slot_evolves sum (w_table fresh0 !! recordKey d "2024-10")
       (w_table (run_world (run_reconciliations cfg0 "2024-10" two) cs0 fresh0) !! recordKey d "2024-10")) /\
  (forall k, (forall d sum, (d, sum) ∈ two -> k <> recordKey d "2024-10") ->
     w_table (run_world (run_reconciliations cfg0 "2024-10" two) cs0 fresh0) !! k = w_table fresh0 !! k).
Proof.
  split; [apply two_NoDup|]. split; [apply table_wf_singleton|].
  apply (reconciliations_isolated cfg0 "2024-10" two cs0 fresh0 two_NoDup (table_wf_singleton _)).
Defined.

Lemma reconciliations_keep_records_witness :
  NoDup two.*1 /\ table_wf (w_table fresh0) /\ ("gpt4dev", JInt 1500) ∈ two /\
  w_table fresh0 !! recordKey "gpt4dev" "2024-10" = Some (stored "gpt4dev" "2024-10" 500 false) /\
  exists e', w_table (run_world (run_reconciliations cfg0 "2024-10" two) cs0 fresh0) !! recordKey "gpt4dev" "2024-10" = Some e' /\
    not_above (SumToken (stored "gpt4dev" "2024-10" 500 false)) (SumToken e') /\
    (ActionDone (stored "gpt4dev" "2024-10" 500 false) = true -> ActionDone e' = true).
Proof.
  assert (("gpt4dev", JInt 1500) ∈ two) as Hin by apply list_elem_of_here.
  assert (w_table fresh0 !! recordKey "gpt4dev" "2024-10" = Some (stored "gpt4dev" "2024-10" 500 false))
    as Hl by (vm_compute; reflexivity).
  split; [apply two_NoDup|]. split; [apply table_wf_singleton|]. split; [done|]. split; [done|].
  apply (reconciliations_keep_records cfg0 "2024-10" two cs0 fresh0 _ _ _ two_NoDup (table_wf_singleton _) Hin Hl).
Defined.

End IsolationWitnesses.
