(* ===== verification/Serializable.v ===== *)
(** * Serializable: concurrent reconciliations compute the design's

    [Refinement] proves that one reconciliation, run alone with no failing
    call, computes [reconcileRecord].  The handler runs the reconciliations
    of the deployments concurrently.  This file proves that, when no call
    fails, the concurrent run computes [reconcileRecord] for every
    deployment, in every interleaving: each record ends as its own
    reconciliation alone would leave it, each alert that is due is submitted
    and delivered exactly once, and nothing else is sent or written.  The
    result of the pool does not depend on the order of its tasks.

    The proof is by rely and guarantee ([Isolation]).  A task sees of the
    world its [view]: the record of its deployment and the messages about
    its deployment.  It relies on the others leaving its view alone
    ([apart]) and guarantees to act on its own record and send its own
    message only ([acts]).  The rules of the calls ([wpt_get], ...) are
    those of [Rules] for an environment that answers, read through the
    view. *)

From stdpp Require Import base tactics option list strings gmap.
From Stdlib Require Import ZArith Lia.
From S2P Require Import Prelude JsValue DateTime Metrics Table Effects Rules Policy Guarantee.
From S2P Require Import Reconciler Refinement Concurrency Isolation.

(** ** The view of a task *)

Section Views.
Context {num : Type} `{!JsNumber num}.
Context (cfg : Config) (month : string).
Implicit Types (w : world num) (e : Entity num) (d : string) (sum : num) (m : EmailMessage).

(** The subject of the alerts of a deployment. *)
Definition subjectOf d : string := "[Alert!] " +:+ d +:+ " has exceeded the threshold".

(** The message is an alert of the deployment. *)
Definition about d m : Prop := subject m = subjectOf d.

#[export] Instance about_dec d m : Decision (about d m).
Proof. unfold about. apply _. Defined.

Lemma subjectOf_inj d d' : subjectOf d = subjectOf d' -> d = d'.
Proof.
  unfold subjectOf. intros H. apply string_app_inj_prefix in H.
  by apply string_app_inj_suffix in H as [-> _].
Qed.

Lemma about_emailMessage d d' sum : about d' (emailMessage cfg d sum) <-> d' = d.
Proof.
  unfold about. change (subject (emailMessage cfg d sum)) with (subjectOf d).
  split; [by intros ->%subjectOf_inj | by intros ->].
Qed.

(** The messages of a list that are alerts of the deployment. *)
Definition mine d (l : list EmailMessage) : list EmailMessage := filter (about d) l.

Lemma mine_snoc d sum l : mine d (l ++ [emailMessage cfg d sum]) = mine d l ++ [emailMessage cfg d sum].
Proof.
  unfold mine. rewrite filter_app, filter_cons_True, filter_nil; [done|].
  by apply about_emailMessage.
Qed.

Lemma mine_others d d' sum l extra :
  d' <> d -> Forall (eq (emailMessage cfg d sum)) extra -> mine d' (l ++ extra) = mine d' l.
Proof.
  intros Hd Hextra. unfold mine. rewrite filter_app.
  rewrite (filter_none (about d') extra); [by rewrite app_nil_r|].
  eapply Forall_impl; [exact Hextra|]. intros m <- Hm. by apply about_emailMessage in Hm.
Qed.

(** What a task sees of the world: its record, in a well-formed table, and
    the messages about its deployment. *)
Record view d (o : option (Entity num)) (s ob : list EmailMessage) w : Prop := mkView {
  v_wf : table_wf (w_table w);
  v_slot : w_table w !! recordKey d month = o;
  v_submitted : mine d (w_submitted w) = s;
  v_outbox : mine d (w_outbox w) = ob;
}.

(** What a task relies on: the others leave its view alone, and the list of
    submitted messages only grows. *)
Record apart d w w' : Prop := mkApart {
  ap_slot : w_table w' !! recordKey d month = w_table w !! recordKey d month;
  ap_wf : table_wf (w_table w) -> table_wf (w_table w');
  ap_submitted : mine d (w_submitted w') = mine d (w_submitted w);
  ap_outbox : mine d (w_outbox w') = mine d (w_outbox w);
  ap_grows : w_submitted w `prefix_of` w_submitted w';
}.

#[export] Instance apart_preorder d : PreOrder (apart d).
Proof.
  split.
  - intros w. by split.
  - intros w1 w2 w3 [] []. split; [congruence | auto | congruence | congruence | by etrans].
Qed.

(** What a task guarantees: its steps are those of a reconciliation of its
    record, and the only message it hands to the mail service is its own. *)
Record acts d sum w w' : Prop := mkActs {
  act_reconciles : reconciles (recordKey d month) sum w w';
  act_submitted : exists extra, w_submitted w' = w_submitted w ++ extra /\
    Forall (eq (emailMessage cfg d sum)) extra;
  act_outbox : exists extra, w_outbox w' = w_outbox w ++ extra /\
    Forall (eq (emailMessage cfg d sum)) extra;
}.

Lemma recordKey_ne d d' : d' <> d -> recordKey d' month <> recordKey d month.
Proof. intros Hd ?%(recordKey_inj month). done. Qed.

(** The guarantee of a task is within the rely of the task of another
    deployment. *)
Lemma acts_apart d d' sum w w' : d' <> d -> acts d sum w w' -> apart d' w w'.
Proof.
  intros Hd [Hr (es & Hs & Hes) (eo & Ho & Heo)]. split.
  - apply Hr. by apply recordKey_ne.
  - apply Hr.
  - rewrite Hs. by eapply mine_others.
  - rewrite Ho. by eapply mine_others.
  - apply Hr.
Qed.

Lemma view_apart d o s ob w w' : view d o s ob w -> apart d w w' -> view d o s ob w'.
Proof. intros [] []. split; [auto | congruence..]. Qed.

(** *** The steps of the calls, seen through the view *)

Lemma idle_acts d sum w w' : idle w w' -> acts d sum w w'.
Proof.
  intros I. split; [by apply idle_reconciles|..]; exists []; rewrite app_nil_r;
    (split; [apply I | constructor]).
Qed.

Lemma idle_apart d w w' : idle w w' -> apart d w w'.
Proof. intros [Ht Hs Ho _ _]. split; rewrite ?Ht, ?Hs, ?Ho; done. Qed.

Lemma submitted_acts d sum w w' : submitted (emailMessage cfg d sum) w w' -> acts d sum w w'.
Proof.
  intros S. split; [by eapply submitted_reconciles|..].
  - exists [emailMessage cfg d sum]. split; [apply S | by repeat constructor].
  - exists []. rewrite app_nil_r. split; [apply S | constructor].
Qed.

Lemma delivered_acts d sum w w' : delivered (emailMessage cfg d sum) w w' -> acts d sum w w'.
Proof.
  intros D. split; [by eapply delivered_reconciles|..].
  - exists []. rewrite app_nil_r. split; [apply D | constructor].
  - exists [emailMessage cfg d sum]. split; [apply D | by repeat constructor].
Qed.

Lemma wrote_acts d sum e w w' :
  wrote e w w' -> entity_key e = recordKey d month ->
  slot_evolves sum (w_table w !! recordKey d month) (Some e) -> acts d sum w w'.
Proof.
  intros [Ht Hs Ho Hc Hl] Hk Hslot. split; [split|..]; rewrite ?Ht, ?Hs, ?Ho, ?Hk; try done.
  - intros k' Hk'. by rewrite lookup_insert_ne.
  - by rewrite lookup_insert_eq.
  - intros Hwf. rewrite <- Hk. by apply table_wf_insert.
  - exists []. by rewrite app_nil_r.
  - exists []. by rewrite app_nil_r.
Qed.

Lemma view_wrote d o s ob e w w' :
  view d o s ob w -> wrote e w w' -> entity_key e = recordKey d month -> view d (Some e) s ob w'.
Proof.
  intros [Hwf Hl Hs Ho] [Ht Hs' Ho' _ _] Hk. split; rewrite ?Ht, ?Hs', ?Ho'; try done.
  - by apply table_wf_insert.
  - rewrite Hk. apply lookup_insert_eq.
Qed.

Lemma view_submitted d sum o s ob w w' :
  view d o s ob w -> submitted (emailMessage cfg d sum) w w' ->
  view d o (s ++ [emailMessage cfg d sum]) ob w'.
Proof.
  intros [Hwf Hl Hs Ho] [Ht Hs' Ho' _ _]. split; rewrite ?Ht, ?Hs', ?Ho'; try done.
  by rewrite mine_snoc, Hs.
Qed.

Lemma view_delivered d sum o s ob w w' :
  view d o s ob w -> delivered (emailMessage cfg d sum) w w' ->
  view d o s (ob ++ [emailMessage cfg d sum]) w'.
Proof.
  intros [Hwf Hl Hs Ho] [Ht Hs' Ho' _ _]. split; rewrite ?Ht, ?Hs', ?Ho'; try done.
  by rewrite mine_snoc, Ho.
Qed.

End Views.

#[export] Existing Instance apart_preorder.

(** ** The calls of a task, when the environment answers *)

Section Task.
Context {num : Type} `{!JsNumber num}.
Context (cfg : Config) (d : string) (sum : num) (month : string).
Context (E : @env num) `{Eanswers : !forall R (o : op num R), Answers E o, Edelivers : !Delivers E}.
Implicit Types (w : world num) (e : Entity num) (o : option (Entity num))
  (s ob : list EmailMessage).

#[local] Abbreviation k := (recordKey d month).
#[local] Abbreviation m := (emailMessage cfg d sum).
#[local] Abbreviation T := (wpg E (apart month d) (acts cfg month d sum)).
#[local] Abbreviation V := (view month d).

Lemma wpt_local {X} (c : op num X) (Q : world num -> outcome jserror X -> Prop) o s ob w :
  is_remote c = false -> is_idle c = true -> V o s ob w ->
  (forall w' v, V o s ob w' -> Q w' (Ok v)) -> T (await_ c) Q w.
Proof.
  intros Hl Hi Hv H. rg wpg_of_wpe. intros w1 H1. apply wp_local; [done..|].
  intros w1' v I. split; [by apply idle_acts|]. intros w2 H2. apply H.
  eapply view_apart; [exact Hv|]. etrans; [exact H1|]. etrans; [by apply idle_apart | done].
Qed.

Lemma wpt_get (Q : world num -> outcome jserror (Entity num) -> Prop) o s ob w :
  V o s ob w ->
  (forall w', V o s ob w' -> Q w' (from_option Ok (Err (RestError 404 "ResourceNotFound")) o)) ->
  T (await_ (GetEntity "DeploymentType" (rowKeyOf d month))) Q w.
Proof.
  intros Hv H. rg wpg_of_wpe. intros w1 H1. answered wpn_get.
  intros w1' I. split; [by apply idle_acts|]. intros w2 H2.
  pose proof (view_apart _ _ _ _ _ _ _ Hv H1) as Hv1.
  unfold table_get. fold k. rewrite (v_slot _ _ _ _ _ _ Hv1).
  destruct o; apply H; (eapply view_apart; [exact Hv1|]);
    (etrans; [by apply idle_apart | done]).
Qed.

Lemma wpt_create e (Q : world num -> outcome jserror unit -> Prop) s ob w :
  V None s ob w -> entity_key e = k -> SumToken e = sum -> ActionDone e = false ->
  (forall w', V (Some e) s ob w' -> Q w' (Ok tt)) -> T (await_ (CreateEntity e)) Q w.
Proof.
  intros Hv Hk Hs Ha H. rg wpg_of_wpe. intros w1 H1.
  pose proof (view_apart _ _ _ _ _ _ _ Hv H1) as Hv1.
  answered wpn_create; [by rewrite Hk, (v_slot _ _ _ _ _ _ Hv1)|].
  intros w1' W. split.
  - apply (wrote_acts _ _ _ _ e); [done..|]. rewrite (v_slot _ _ _ _ _ _ Hv1).
    split; [done | congruence].
  - intros w2 H2. apply H. eapply view_apart; [by eapply view_wrote | done].
Qed.

Lemma wpt_update e0 e (Q : world num -> outcome jserror unit -> Prop) s ob w :
  V (Some e0) s ob w -> entity_key e = k -> slot_evolves sum (Some e0) (Some e) ->
  (forall w', V (Some e) s ob w' -> Q w' (Ok tt)) -> T (await_ (UpdateEntity e)) Q w.
Proof.
  intros Hv Hk Hslot H. rg wpg_of_wpe. intros w1 H1.
  pose proof (view_apart _ _ _ _ _ _ _ Hv H1) as Hv1.
  answered wpn_update; [rewrite Hk, (v_slot _ _ _ _ _ _ Hv1); by eauto|].
  intros w1' W. split.
  - apply (wrote_acts _ _ _ _ e); [done..|]. by rewrite (v_slot _ _ _ _ _ _ Hv1).
  - intros w2 H2. apply H. eapply view_apart; [by eapply view_wrote | done].
Qed.

Lemma wpt_begin_send (Q : world num -> outcome jserror nat -> Prop) o s ob w :
  V o s ob w ->
  (forall w' poller, V o (s ++ [m]) ob w' -> w_submitted w' !! poller = Some m ->
     Q w' (Ok poller)) ->
  T (await_ (BeginSend m)) Q w.
Proof.
  intros Hv H. rg wpg_of_wpe. intros w1 H1.
  pose proof (view_apart _ _ _ _ _ _ _ Hv H1) as Hv1.
  answered wpn_begin_send. intros w1' S. split; [by apply submitted_acts|].
  intros w2 H2. apply H; [eapply view_apart; [by eapply view_submitted | done]|].
  eapply prefix_lookup_Some; [|apply H2]. rewrite (sub_submitted _ _ _ S).
  by apply list_lookup_middle.
Qed.

Lemma wpt_poll poller (Q : world num -> outcome jserror string -> Prop) o s ob w :
  V o s ob w -> w_submitted w !! poller = Some m ->
  (forall w', V o s (ob ++ [m]) w' -> Q w' (Ok "Succeeded")) ->
  T (await_ (PollUntilDone poller)) Q w.
Proof.
  intros Hv Hp H. rg wpg_of_wpe. intros w1 H1.
  pose proof (view_apart _ _ _ _ _ _ _ Hv H1) as Hv1.
  answered (wpn_poll _ _ m); [by eapply prefix_lookup_Some; [|apply H1]|].
  intros w1' D. split; [by apply delivered_acts|].
  intros w2 H2. apply H. eapply view_apart; [by eapply view_delivered | done].
Qed.

Lemma wpt_new_Date {A} (f : string -> prog num A) Q o s ob w :
  V o s ob w -> (forall w' now, V o s ob w' -> T (f now) Q w') ->
  T (new_Date_toISOString ≫= f) Q w.
Proof.
  intros Hv H. unfold new_Date_toISOString. rg wpg_bind. rg wpg_bind.
  apply (wpt_local _ _ o s ob); [done..|]. intros w1 now Hv1.
  apply wpg_ret. intros w2 H2. apply H. by eapply view_apart.
Qed.

(** *** The steps of the reconciliation *)

Lemma fetchOrCreate_view o s ob w :
  V o s ob w ->
  T (fetchOrCreate (rowKeyOf d month) sum)
    (fun w' r => exists e, r = Ok e /\ V (Some e) s ob w' /\ fetched sum o e) w.
Proof.
  intros Hv. unfold fetchOrCreate. rg wpg_try_catch. apply (wpt_get _ o s ob); [done|].
  intros w1 Hv1. destruct o as [e|]; simpl.
  - intros w2 H2. exists e. split; [done|]. split; [by eapply view_apart | done].
  - apply (wpt_new_Date _ _ None s ob); [done|]. intros w2 now Hv2.
    rg wpg_bind. apply (wpt_create _ _ s ob); [done..|]. intros w3 Hv3.
    apply wpg_ret. intros w4 H4. eexists. split; [done|]. split; [by eapply view_apart | done].
Qed.

Lemma alertPhase_view e s ob w :
  V (Some e) s ob w -> entity_key e = k ->
  T (alertPhase cfg d sum e)
    (fun w' r => exists e', r = Ok e' /\
       V (Some e') (s ++ alerts m (shouldSendAlert (Some e) sum))
         (ob ++ alerts m (shouldSendAlert (Some e) sum)) w' /\
       entity_key e' = k /\
       abs_of e' = mkUsageRecord (SumToken e) (ActionDone e || shouldSendAlert (Some e) sum)) w.
Proof.
  intros Hv Hk. unfold alertPhase. destruct (shouldSendAlert (Some e) sum) eqn:Hdue; unfold alerts.
  - apply shouldSendAlert_due in Hdue as [Hgt Hflag]. unfold sendMail.
    rg wpg_bind. rg wpg_bind. apply (wpt_begin_send _ (Some e) s ob); [done|].
    intros w1 poller Hv1 Hp. apply (wpt_poll poller _ (Some e) (s ++ [m]) ob); [done..|].
    intros w2 Hv2. rg wpg_bind. apply (wpt_local _ _ (Some e) (s ++ [m]) (ob ++ [m])); [done..|].
    intros w3 [] Hv3. apply (wpt_new_Date _ _ (Some e) (s ++ [m]) (ob ++ [m])); [done|].
    intros w4 now Hv4. rg wpg_bind.
    apply (wpt_update e _ _ (s ++ [m]) (ob ++ [m])); autorewrite with monitor_rw;
      [done | done | simpl; auto |].
    intros w5 Hv5. apply wpg_ret. intros w6 H6. eexists. split; [done|].
    split; [by eapply view_apart|]. autorewrite with monitor_rw.
    split; [done | by rewrite orb_true_r].
  - rg wpg_bind. apply (wpt_local _ _ (Some e) s ob); [done..|]. intros w1 [] Hv1.
    apply wpg_ret. intros w2 H2. exists e. rewrite !app_nil_r, orb_false_r.
    split; [done|]. split; [by eapply view_apart | done].
Qed.

Lemma updatePhase_view e s ob w :
  V (Some e) s ob w -> entity_key e = k ->
  T (updatePhase sum e)
    (fun w' r => r = Ok tt /\ exists e', V (Some e') s ob w' /\
       abs_of e' = mkUsageRecord (raise_to (SumToken e) sum) (ActionDone e)) w.
Proof.
  intros Hv Hk. unfold updatePhase, raise_to. destruct (ngt sum (SumToken e)) eqn:Hgt.
  - apply (wpt_new_Date _ _ (Some e) s ob); [done|]. intros w1 now Hv1.
    apply (wpt_update e _ _ s ob); autorewrite with monitor_rw; [done | done | simpl; auto |].
    intros w2 Hv2. split; [done|]. eexists. split; [exact Hv2 | done].
  - intros w1 H1. split; [done|]. exists e. split; [by eapply view_apart | done].
Qed.

(** What the task of a deployment leaves of its view: the record and the
    alert of the design. *)
Definition task_post o s ob (w' : world num) (r : outcome jserror unit) : Prop :=
  r = Ok tt /\ exists e',
    V (Some e') (s ++ alerts m (reconcileRecord (abs_of <$> o) sum).2)
      (ob ++ alerts m (reconcileRecord (abs_of <$> o) sum).2) w' /\
    abs_of e' = (reconcileRecord (abs_of <$> o) sum).1.

Lemma fetched_record o e :
  fetched sum o e -> abs_of e = default (mkUsageRecord sum false) (abs_of <$> o).
Proof. destruct o; simpl; [by intros -> |]. destruct e. simpl. by intros [-> ->]. Qed.

Lemma evaluate_view o s ob w :
  V o s ob w -> T (evaluateTokenUsageForAlert cfg d sum month) (task_post o s ob) w.
Proof.
  intros Hv. unfold evaluateTokenUsageForAlert, reconcile. rg wpg_try_catch. rg wpg_bind.
  eapply wpg_mono; [|by apply fetchOrCreate_view].
  intros w1 _ (e & -> & Hv1 & He%fetched_record).
  assert (entity_key e = k) as Hk by (apply (v_wf _ _ _ _ _ _ Hv1), Hv1).
  rg wpg_bind. eapply wpg_mono; [|by apply alertPhase_view].
  intros w2 _ (e2 & -> & Hv2 & Hk2 & He2).
  eapply wpg_mono; [|by apply updatePhase_view].
  intros w3 _ (-> & e3 & Hv3 & He3) w4 H4. split; [done|]. exists e3.
  rewrite reconcileRecord_steps, <- He, shouldAlert_abs_of. simpl.
  split; [by eapply view_apart|]. rewrite He3. by injection He2 as -> ->.
Qed.

End Task.

(** ** The design for a pool: the reconciliations one after the other *)

Section Design.
Context {num : Type} `{!JsNumber num}.
Context (month : string).
Implicit Types (l : list (string * num)) (t : gmap (string * string) (UsageRecord num)).

(** The records after the reconciliations of [l], in the order of [l]. *)
Definition reconcileAll l t : gmap (string * string) (UsageRecord num) :=
  foldl (fun t du =>
           <[recordKey du.1 month := (reconcileRecord (t !! recordKey du.1 month) du.2).1]> t)
    t l.

Lemma reconcileAll_other l t k :
  (forall d sum, (d, sum) ∈ l -> k <> recordKey d month) -> reconcileAll l t !! k = t !! k.
Proof.
  revert t. induction l as [|[d sum] l IH]; intros t Hk; [done|]. simpl.
  rewrite IH by (intros d' sum' Hin; apply (Hk d' sum'); by apply list_elem_of_further).
  apply lookup_insert_ne. apply not_eq_sym, (Hk d sum), list_elem_of_here.
Qed.

Lemma reconcileAll_lookup l t d sum :
  NoDup l.*1 -> (d, sum) ∈ l ->
  reconcileAll l t !! recordKey d month = Some (reconcileRecord (t !! recordKey d month) sum).1.
Proof.
  revert t. induction l as [|[d' sum'] l IH]; intros t Hnd Hin; [by apply elem_of_nil in Hin|].
  apply NoDup_cons in Hnd as [Hd' Hnd]. simpl.
  apply elem_of_cons in Hin as [[= <- <-]|Hin].
  - rewrite reconcileAll_other; [apply lookup_insert_eq|].
    intros d2 sum2 Hin2 ->%(recordKey_inj month). apply Hd'.
    apply list_elem_of_fmap. by exists (d2, sum2).
  - rewrite IH by done. rewrite lookup_insert_ne; [done|].
    intros ->%(recordKey_inj month). apply Hd'. apply list_elem_of_fmap. by exists (d, sum).
Qed.

End Design.

(** ** The pool of reconciliations, when no call fails *)

Section PoolRefinement.
Context {num : Type} `{!JsNumber num}.
Context (cfg : Config) (month : string).
Context (E : @env num) `{Eanswers : !forall R (o : op num R), Answers E o, Edelivers : !Delivers E}.
Implicit Types (w : world num) (l : list (string * num)) (m : EmailMessage)
  (ps : list (prog num unit)).

(** The alert of a deployment of [l]. *)
Definition alert_of l m : Prop :=
  exists d sum, (d, sum) ∈ l /\ m = emailMessage cfg d sum.

(** From [w0] to [w] only the records of the deployments of [l] changed,
    and the mail service was handed alerts of these deployments only. *)
Record served l (w0 w : world num) : Prop := mkServed {
  sv_clock : (w_clock w0 <= w_clock w)%Z;
  sv_other : forall k, (forall d sum, (d, sum) ∈ l -> k <> recordKey d month) ->
    w_table w !! k = w_table w0 !! k;
  sv_submitted : exists extra,
    w_submitted w = w_submitted w0 ++ extra /\ Forall (alert_of l) extra;
  sv_outbox : exists extra,
    w_outbox w = w_outbox w0 ++ extra /\ Forall (alert_of l) extra;
}.

Definition rely_on l : nat -> relation (world num) :=
  task_rel l (fun du => apart month du.1) (fun _ _ => True).

Definition guarantee_by l : nat -> relation (world num) :=
  task_rel l (fun du => acts cfg month du.1 du.2) (fun _ _ => False).

(** What task [i] leaves: the reconciliation of its record as it was in
    [w0], and its alert if it is due. *)
Definition post_of l (w0 : world num) (i : nat) w (r : outcome jserror unit) : Prop :=
  match l !! i with
  | Some (d, sum) =>
      task_post cfg d sum month (w_table w0 !! recordKey d month)
        (mine d (w_submitted w0)) (mine d (w_outbox w0)) w r
  | None => True
  end.

Lemma guarantee_apart l i j w w' :
  NoDup l.*1 -> i <> j -> guarantee_by l j w w' -> rely_on l i w w'.
Proof.
  unfold guarantee_by, rely_on, task_rel. intros Hnd Hij.
  destruct (l !! j) as [[d sum]|] eqn:Hj; simpl; [|done].
  destruct (l !! i) as [[d' sum']|] eqn:Hi; simpl; [|done].
  apply acts_apart. intros ->. by eauto using NoDup_fst_lookup.
Qed.

Lemma rely_on_schedule l i n c w : rely_on l i w (exec_op (Schedule n) c w).1.
Proof.
  unfold rely_on, task_rel. destruct (l !! i) as [[d sum]|]; [|done].
  change (apart month d w (exec_op (Schedule n) c w).1). by apply idle_apart, exec_op_idle.
Qed.

Lemma served_refl l w : served l w w.
Proof. split; [done | done|..]; exists []; by rewrite app_nil_r. Qed.

Lemma alert_of_extra l d sum extra :
  (d, sum) ∈ l -> Forall (eq (emailMessage cfg d sum)) extra -> Forall (alert_of l) extra.
Proof. intros Hin Hextra. eapply Forall_impl; [exact Hextra|]. intros m <-. by exists d, sum. Qed.

Lemma served_guarantee l w0 i w w' :
  served l w0 w -> guarantee_by l i w w' -> served l w0 w'.
Proof.
  unfold guarantee_by, task_rel. intros [Hc Ho (es & Hs & Hes) (eo & Hob & Heo)].
  destruct (l !! i) as [[d sum]|] eqn:Hi; simpl; [|done].
  assert ((d, sum) ∈ l) as Hin by (apply list_elem_of_lookup; eauto).
  intros [Hr (es' & Hs' & Hes') (eo' & Hob' & Heo')]. split.
  - pose proof (rec_clock _ _ _ _ Hr). lia.
  - intros k Hk. rewrite (rec_other _ _ _ _ Hr); [by apply Ho | by apply (Hk d sum)].
  - exists (es ++ es'). rewrite Hs', Hs, app_assoc. split; [done|].
    apply Forall_app. eauto using alert_of_extra.
  - exists (eo ++ eo'). rewrite Hob', Hob, app_assoc. split; [done|].
    apply Forall_app. eauto using alert_of_extra.
Qed.

Lemma served_schedule l w0 n c w : served l w0 w -> served l w0 (exec_op (Schedule n) c w).1.
Proof.
  intros [Hc Ho Hs Hob]. destruct (exec_op_idle (Schedule n) c w eq_refl) as [Ht Hs' Hob' Hc' _].
  split; rewrite ?Ht, ?Hs', ?Hob'; [lia | done..].
Qed.

(** The tasks of the pool, at the start. *)
Lemma reconciliations_views l w i p :
  table_wf (w_table w) -> reconciliations cfg month l !! i = Some p ->
  wpg E (rely_on l i) (guarantee_by l i) p (post_of l w i) w.
Proof.
  intros Hwf. unfold reconciliations, rely_on, guarantee_by, post_of, task_rel.
  rewrite list_lookup_fmap. destruct (l !! i) as [[d sum]|] eqn:Hl; [|done].
  intros [= <-]. simpl. apply (evaluate_view cfg d sum month E). by split.
Qed.

(** What is known of the world and of the pool while the pool runs. *)
Definition pool_inv l (w0 w : world num) ps : Prop :=
  par_inv E (rely_on l) (guarantee_by l) (post_of l w0) (served l w0) (length l) w ps.

(** What the pool leaves when it has settled. *)
Record pool_refines l (w w' : world num) : Prop := mkPoolRefines {
  pr_served : served l w w';
  pr_task : forall d sum, (d, sum) ∈ l ->
    task_post cfg d sum month (w_table w !! recordKey d month)
      (mine d (w_submitted w)) (mine d (w_outbox w)) w' (Ok tt);
}.

Lemma par_post_refines l w w' ps :
  par_post (post_of l w) (served l w) (length l) w' ps -> pool_refines l w w'.
Proof.
  intros Hpost. split; [apply Hpost|]. intros d sum [i Hi]%list_elem_of_lookup.
  destruct (par_post_lookup _ _ l w' ps i _ Hpost Hi) as [r Hr].
  unfold post_of in Hr. rewrite Hi in Hr. by destruct Hr as [-> Hr].
Qed.

(** In an environment that answers no task of the pool rejects. *)
Lemma pool_inv_fulfilled l w0 w ps i e : pool_inv l w0 w ps -> ps !! i <> Some (Throw e).
Proof.
  intros Hinv Hi. pose proof (par_inv_rejected _ _ _ _ _ _ _ _ i e Hinv Hi) as Hq.
  destruct Hinv as (_ & Hlen & _). apply lookup_lt_Some in Hi. rewrite Hlen in Hi.
  apply lookup_lt_is_Some_2 in Hi as [[d sum] Hd]. unfold post_of in Hq. rewrite Hd in Hq.
  by destruct Hq.
Qed.

Lemma pool_inv_refines l w0 w ps : pool_inv l w0 w ps -> settled ps -> pool_refines l w0 w.
Proof. intros Hinv Hs. eapply par_post_refines, par_inv_settled; [|exact Hinv | exact Hs]. apply _. Qed.

(** The rule of the pool of reconciliations, run until [stop] holds. *)
Lemma wpe_reconciliations {B} stop l (finish : list (prog num unit) -> prog num B) Post w :
  NoDup l.*1 -> table_wf (w_table w) ->
  (forall w' ps, pool_inv l w w' ps -> settled ps \/ stop ps = true ->
     wpe E (finish ps) Post w') ->
  wpe E (interleave_until stop (11 * length l) (reconciliations cfg month l) finish) Post w.
Proof.
  intros Hnd Hwf Hfin.
  apply (wpg_interleave_until E (rely_on l) (guarantee_by l) (post_of l w) (served l w)
           (length l)
           (fun i j w1 w2 => guarantee_apart l i j w1 w2 Hnd) (rely_on_schedule l)
           (fun i w1 w2 => served_guarantee l w i w1 w2) (served_schedule l w)
           stop (11 * length l) (11 * length l));
    [apply reconciliations_bounded | done | | by eauto].
  split; [apply served_refl|]. split; [apply length_fmap|].
  intros i p. by apply reconciliations_views.
Qed.

End PoolRefinement.

Section PoolRuns.
Context {num : Type} `{!JsNumber num}.
Context (cfg : Config) (month : string).

Lemma reconciliations_run_exact (l : list (string * num)) cs (w : world num) :
  NoDup l.*1 -> table_wf (w_table w) -> Forall fault_free cs ->
  pool_refines cfg month l w (run_world (run_reconciliations cfg month l) cs w).
Proof.
  intros Hnd Hwf Hcs.
  apply (wpe_run faultless (run_reconciliations cfg month l)
           (fun w' _ => pool_refines cfg month l w w') w); [|by apply respects_faultless].
  apply (wpe_reconciliations cfg month faultless); [done..|].
  intros w' ps Hinv [Hs|Hs]; [|done]. apply wp_ret. by eapply pool_inv_refines.
Qed.

End PoolRuns.

(** ** The pool computes the design *)

Section PoolDesign.
Context {num : Type} `{!JsNumber num}.
Context (cfg : Config) (month : string).
Implicit Types (w : world num) (l : list (string * num)) (m : EmailMessage)
  (t : gmap (string * string) (UsageRecord num)).

(** The alerts the design sends for the deployments of [l], in the order
    of [l]. *)
Definition alertsDue l t : list EmailMessage :=
  l ≫= (fun du => alerts (emailMessage cfg du.1 du.2)
                    (reconcileRecord (t !! recordKey du.1 month) du.2).2).

(** The alerts of the design do not depend on the order of the
    deployments, up to their own order. *)
#[export] Instance alertsDue_Permutation :
  Proper ((≡ₚ) ==> (=) ==> (≡ₚ)) alertsDue.
Proof. intros l l' Hl t ? <-. unfold alertsDue. by rewrite Hl. Qed.

(** A key is the key of a deployment of [l], or of none. *)
Lemma keyOf_cases l k :
  (exists d sum, (d, sum) ∈ l /\ k = recordKey d month) \/
  (forall d sum, (d, sum) ∈ l -> k <> recordKey d month).
Proof.
  destruct (decide (k ∈ (fun du => recordKey du.1 month) <$> l)) as [Hk|Hk].
  - left. apply list_elem_of_fmap in Hk as ([d sum] & -> & Hin). by exists d, sum.
  - right. intros d sum Hin ->. apply Hk, list_elem_of_fmap. by exists (d, sum).
Qed.

Lemma reconcileAll_Permutation l l' t :
  NoDup l.*1 -> l ≡ₚ l' -> reconcileAll month l t = reconcileAll month l' t.
Proof.
  intros Hnd Hp. assert (NoDup l'.*1) as Hnd' by by rewrite <- Hp.
  apply map_eq. intros k. destruct (keyOf_cases l k) as [(d & sum & Hin & ->)|Hk].
  - rewrite !(reconcileAll_lookup month _ t d sum); [done | done | by rewrite <- Hp | done..].
  - rewrite (reconcileAll_other month l t k Hk), (reconcileAll_other month l' t k); [done|].
    intros d sum Hin. apply (Hk d sum). by rewrite Hp.
Qed.

Lemma task_post_slot d sum w w' :
  task_post cfg d sum month (w_table w !! recordKey d month)
    (mine d (w_submitted w)) (mine d (w_outbox w)) w' (Ok tt) ->
  abs_table w' !! recordKey d month =
    Some (reconcileRecord (abs_table w !! recordKey d month) sum).1.
Proof.
  intros (_ & e' & Hv & He). by rewrite !abs_table_lookup, (v_slot _ _ _ _ _ _ Hv), <- He.
Qed.

Lemma pool_refines_table l w w' :
  NoDup l.*1 -> pool_refines cfg month l w w' ->
  abs_table w' = reconcileAll month l (abs_table w).
Proof.
  intros Hnd [Hs Ht]. apply map_eq. intros k.
  destruct (keyOf_cases l k) as [(d & sum & Hin & ->)|Hk].
  - rewrite (reconcileAll_lookup month l _ d sum) by done. by apply task_post_slot, Ht.
  - by rewrite reconcileAll_other, !abs_table_lookup, (sv_other _ _ _ _ _ Hs k Hk).
Qed.

(** The messages about a deployment of the pool: those there were, then its
    alert if it is due. *)
Lemma pool_refines_mine l w w' d sum :
  (d, sum) ∈ l -> pool_refines cfg month l w w' ->
  mine d (w_submitted w') = mine d (w_submitted w) ++
    alerts (emailMessage cfg d sum) (reconcileRecord (abs_table w !! recordKey d month) sum).2 /\
  mine d (w_outbox w') = mine d (w_outbox w) ++
    alerts (emailMessage cfg d sum) (reconcileRecord (abs_table w !! recordKey d month) sum).2.
Proof.
  intros Hin [_ Ht]. destruct (Ht d sum Hin) as (_ & e' & Hv & _).
  rewrite abs_table_lookup. split; [apply (v_submitted _ _ _ _ _ _ Hv) | apply (v_outbox _ _ _ _ _ _ Hv)].
Qed.

(** Every alert of a deployment of [l] is about exactly one deployment
    of [l]. *)
Lemma alert_of_class l extra :
  NoDup l.*1 -> Forall (alert_of cfg l) extra ->
  Forall (fun m => exists du0, du0 ∈ l /\ about du0.1 m /\
            forall du, du ∈ l -> about du.1 m -> du = du0) extra.
Proof.
  intros Hnd Hextra. eapply Forall_impl; [exact Hextra|].
  intros m (d & sum & Hin & ->). exists (d, sum).
  split; [done|]. split; [by apply about_emailMessage|].
  intros [d' sum'] Hin' Hd'%about_emailMessage. simpl in Hd'. subst d'.
  apply list_elem_of_lookup in Hin as [i Hi]. apply list_elem_of_lookup in Hin' as [j Hj].
  assert (j = i) as -> by eauto using NoDup_fst_lookup. congruence.
Qed.

Lemma extras_alertsDue l t extra :
  NoDup l.*1 -> Forall (alert_of cfg l) extra ->
  (forall d sum, (d, sum) ∈ l ->
     mine d extra =
     alerts (emailMessage cfg d sum) (reconcileRecord (t !! recordKey d month) sum).2) ->
  extra ≡ₚ alertsDue l t.
Proof.
  intros Hnd Hextra Hmine.
  rewrite <- (filter_partition (fun du => about du.1) l extra);
    [|by eapply NoDup_fmap_1 | by apply alert_of_class].
  unfold alertsDue. erewrite Forall_bind_ext; [done|].
  apply Forall_forall. intros [d sum] Hin. by apply (Hmine d sum).
Qed.

Lemma pool_refines_mail l w w' :
  NoDup l.*1 -> pool_refines cfg month l w w' ->
  w_submitted w' ≡ₚ w_submitted w ++ alertsDue l (abs_table w) /\
  w_outbox w' ≡ₚ w_outbox w ++ alertsDue l (abs_table w).
Proof.
  intros Hnd Hp. destruct (pr_served _ _ _ _ _ Hp) as [_ _ (es & Hs & Hes) (eo & Ho & Heo)].
  rewrite Hs, Ho. split; f_equiv; (apply extras_alertsDue; [done..|]); intros d sum Hin;
    destruct (pool_refines_mine l w w' d sum Hin Hp) as [Hms Hmo].
  - rewrite Hs in Hms. unfold mine in Hms. rewrite filter_app in Hms. by apply app_inv_head in Hms.
  - rewrite Ho in Hmo. unfold mine in Hmo. rewrite filter_app in Hmo. by apply app_inv_head in Hmo.
Qed.

(** C13: When no call fails, the reconciliations of distinct deployments, however
    interleaved, compute the design: the records are those the
    reconciliations leave one after the other, and the mail service is
    handed, and delivers, the alerts that are due and nothing else. *)
Theorem reconciliations_refine l cs w :
  NoDup l.*1 -> table_wf (w_table w) -> Forall fault_free cs ->
  abs_table (run_world (run_reconciliations cfg month l) cs w) =
    reconcileAll month l (abs_table w) /\
  w_submitted (run_world (run_reconciliations cfg month l) cs w) ≡ₚ
    w_submitted w ++ alertsDue l (abs_table w) /\
  w_outbox (run_world (run_reconciliations cfg month l) cs w) ≡ₚ
    w_outbox w ++ alertsDue l (abs_table w).
Proof.
  intros Hnd Hwf Hcs. pose proof (reconciliations_run_exact cfg month l cs w Hnd Hwf Hcs) as Hp.
  split; [by apply pool_refines_table | by apply pool_refines_mail].
Qed.

(** When no call fails, each deployment of the pool gets its alert once if
    it is due and never otherwise, after the messages about it that were
    there. *)
Theorem reconciliations_alert_once l cs w d sum :
  NoDup l.*1 -> table_wf (w_table w) -> Forall fault_free cs -> (d, sum) ∈ l ->
  mine d (w_outbox (run_world (run_reconciliations cfg month l) cs w)) =
    mine d (w_outbox w) ++
    alerts (emailMessage cfg d sum) (shouldAlert (abs_table w !! recordKey d month) sum).
Proof.
  intros Hnd Hwf Hcs Hin.
  pose proof (reconciliations_run_exact cfg month l cs w Hnd Hwf Hcs) as Hp.
  by destruct (pool_refines_mine l _ _ d sum Hin Hp) as [_ ->].
Qed.

(** C20: When no call fails, the order of the deployments in the pool and the
    order in which the runtime resumes the tasks do not matter: two runs
    from the same world leave the same records and deliver the same alerts,
    up to their order. *)
Theorem reconciliations_order_irrelevant l l' cs cs' w :
  NoDup l.*1 -> l ≡ₚ l' -> table_wf (w_table w) ->
  Forall fault_free cs -> Forall fault_free cs' ->
  abs_table (run_world (run_reconciliations cfg month l) cs w) =
    abs_table (run_world (run_reconciliations cfg month l') cs' w) /\
  w_outbox (run_world (run_reconciliations cfg month l) cs w) ≡ₚ
    w_outbox (run_world (run_reconciliations cfg month l') cs' w).
Proof.
  intros Hnd Hperm Hwf Hcs Hcs'. assert (NoDup l'.*1) as Hnd' by by rewrite <- Hperm.
  pose proof (reconciliations_run_exact cfg month l cs w Hnd Hwf Hcs) as Hp.
  pose proof (reconciliations_run_exact cfg month l' cs' w Hnd' Hwf Hcs') as Hp'.
  rewrite (pool_refines_table l _ _ Hnd Hp), (pool_refines_table l' _ _ Hnd' Hp').
  split; [by apply reconcileAll_Permutation|].
  destruct (pool_refines_mail l _ _ Hnd Hp) as [_ ->].
  destruct (pool_refines_mail l' _ _ Hnd' Hp') as [_ ->]. by rewrite Hperm.
Qed.

End PoolDesign.

(** ** Examples and the theorems at concrete inputs *)

Section SerializableWitnesses.

#[local] Abbreviation fresh0 := (w_with (stored "gpt4dev" "2024-10" 500 false)).
#[local] Abbreviation two := [("gpt4dev", JInt 1500); ("gpt35", JInt 1200)].
#[local] Abbreviation owt := [("gpt35", JInt 1200); ("gpt4dev", JInt 1500)].
#[local] Abbreviation run0 l cs := (run_world (run_reconciliations cfg0 "2024-10" l) cs fresh0).

(** Two schedules of the pool of two deployments above the threshold: the
    alerts are delivered in the order in which the runtime resumed the
    tasks, and the records are the same. *)
Example reconciliations_two_schedules :
  subject <$> w_outbox (run0 two (schedule [0; 0; 0; 0; 0; 0; 0; 0])) =
    [subjectOf "gpt4dev"; subjectOf "gpt35"] /\
  subject <$> w_outbox (run0 two (schedule [1; 1; 1; 1; 1; 1; 1; 1])) =
    [subjectOf "gpt35"; subjectOf "gpt4dev"] /\
  abs_table (run0 two (schedule [1; 1; 1; 1; 1; 1; 1; 1])) !! recordKey "gpt4dev" "2024-10" =
    Some (mkUsageRecord (JInt 1500) true) /\
  abs_table (run0 two (schedule [1; 1; 1; 1; 1; 1; 1; 1])) !! recordKey "gpt35" "2024-10" =
    Some (mkUsageRecord (JInt 1200) true).
Proof. by vm_compute. Qed.

Lemma two_distinct : NoDup two.*1.
Proof. apply NoDup_cons. split; [set_solver | apply NoDup_singleton]. Qed.

Lemma schedule_fault_free picks : Forall fault_free (schedule picks).
Proof. induction picks; [constructor|]. by repeat constructor. Qed.

Lemma reconciliations_refine_witness :
  NoDup two.*1 /\ table_wf (w_table fresh0) /\ Forall fault_free (schedule [1; 0; 1; 1; 0]) /\
  abs_table (run0 two (schedule [1; 0; 1; 1; 0])) = reconcileAll "2024-10" two (abs_table fresh0) /\
  w_submitted (run0 two (schedule [1; 0; 1; 1; 0])) ≡ₚ
    w_submitted fresh0 ++ alertsDue cfg0 "2024-10" two (abs_table fresh0) /\
  w_outbox (run0 two (schedule [1; 0; 1; 1; 0])) ≡ₚ
    w_outbox fresh0 ++ alertsDue cfg0 "2024-10" two (abs_table fresh0).
Proof.
  split; [apply two_distinct|]. split; [apply table_wf_singleton|].
  split; [apply schedule_fault_free|].
  apply (reconciliations_refine cfg0 "2024-10" two (schedule [1; 0; 1; 1; 0]) fresh0
           two_distinct (table_wf_singleton _) (schedule_fault_free _)).
Defined.

Lemma reconciliations_alert_once_witness :
  NoDup two.*1 /\ table_wf (w_table fresh0) /\ Forall fault_free (schedule [1; 0; 1; 1; 0]) /\
  ("gpt35", JInt 1200) ∈ two /\
  mine "gpt35" (w_outbox (run0 two (schedule [1; 0; 1; 1; 0]))) =
    mine "gpt35" (w_outbox fresh0) ++
    alerts (emailMessage cfg0 "gpt35" (JInt 1200))
      (shouldAlert (abs_table fresh0 !! recordKey "gpt35" "2024-10") (JInt 1200)).
Proof.
  assert (("gpt35", JInt 1200) ∈ two) as Hin by (apply list_elem_of_further, list_elem_of_here).
  split; [apply two_distinct|]. split; [apply table_wf_singleton|].
  split; [apply schedule_fault_free|]. split; [done|].
  apply (reconciliations_alert_once cfg0 "2024-10" two (schedule [1; 0; 1; 1; 0]) fresh0
           "gpt35" (JInt 1200) two_distinct (table_wf_singleton _) (schedule_fault_free _) Hin).
Defined.

Lemma reconciliations_order_irrelevant_witness :
  NoDup two.*1 /\ two ≡ₚ owt /\ table_wf (w_table fresh0) /\
  Forall fault_free (schedule [1; 0; 1; 1; 0]) /\ Forall fault_free (schedule [0; 0; 1]) /\
  abs_table (run0 two (schedule [1; 0; 1; 1; 0])) = abs_table (run0 owt (schedule [0; 0; 1])) /\
  w_outbox (run0 two (schedule [1; 0; 1; 1; 0])) ≡ₚ w_outbox (run0 owt (schedule [0; 0; 1])).
Proof.
  assert (two ≡ₚ owt) as Hperm by apply perm_swap.
  split; [apply two_distinct|]. split; [done|]. split; [apply table_wf_singleton|].
  split; [apply schedule_fault_free|]. split; [apply schedule_fault_free|].
  apply (reconciliations_order_irrelevant cfg0 "2024-10" two owt _ _ fresh0
           two_distinct Hperm (table_wf_singleton _) (schedule_fault_free _) (schedule_fault_free _)).
Defined.

End SerializableWitnesses.
