(* ===== verification/HttpTrigger.v ===== *)
(** * HttpTrigger: the handler

    [httpTrigger] of [httpTrigger.ts] with the functions it calls:
    [getCurrentMonthTimespan], [getCurrentMonthString], the sum of the
    samples of a deployment and the fan-out over the deployments.

    The handler asks for a token, queries the metrics API for the time span
    of the current month, takes the time series of the first metric, starts
    one task per time series ([deploymentTask]: the callback of [map]) and
    awaits them with [Promise.all].  [Promise_all] runs the tasks as a pool
    ([Concurrency]): it resumes the handler when every task is fulfilled or
    as soon as one is rejected, and the tasks still in flight then run to
    their end, as nothing cancels them.  The [catch] of the handler turns an
    error into a response ([errorResponse]).

    Reading [x[0].f] of an empty array throws a [TypeError]; the response
    types are those of [Metrics]. *)

From stdpp Require Import base tactics option list strings gmap.
From Stdlib Require Import ZArith Lia.
From S2P Require Import Prelude JsValue DateTime Metrics Table Effects Rules Policy Guarantee.
From S2P Require Import Reconciler Concurrency.

Record HttpResponseInit : Type := mkHttpResponse {
  status : Z;
  body : string;
}.

#[export] Instance HttpResponseInit_eq_dec : EqDecision HttpResponseInit.
Proof. solve_decision. Defined.

(** The error of reading a property of [undefined]. *)
Definition TypeError (property : string) : jserror :=
  mkError "TypeError"
    ("Cannot read properties of undefined (reading '" +:+ property +:+ "')") None None.

Section Handler.
Context {num : Type} `{!JsNumber num}.
Context (cfg : Config).
(** The offset of local time from UTC, in milliseconds. *)
Context (tza : Z).

Definition getCurrentMonthTimespan : prog num string :=
  today ← await_ DateNow;
  let startDateTimeISO := toISOString (startOfLocalMonth tza today) in
  let endDateTimeISO := toISOString today in
  mret (startDateTimeISO +:+ "/" +:+ endDateTimeISO).

Definition getCurrentMonthString : prog num string :=
  now ← await_ DateNow;
  mret (monthStringOf now).

Definition apiUrl (timespan : string) : string :=
  "https://management.azure.com/" +:+ template (resourceUri cfg) +:+
  "/providers/Microsoft.Insights/metrics?api-version=2023-10-01&metricnames=TokenTransaction&$filter=ModelDeploymentName eq '*'&interval=P1D&timespan=" +:+
  timespan.

(** [d.total] as an operand of [+]: a number, or NaN when it is missing. *)
Definition totalOf (d : Sample) : num := from_option nlit nnan (total d).

(** [data.reduce((sum, d) => sum + d.total, 0)] *)
Definition sumTokenOf (data : list Sample) : num :=
  foldl (fun sum d => nadd sum (totalOf d)) (nlit 0) data.

(** [response.data.value[0].timeseries] *)
Definition timeseriesOf (response : MetricsData) : outcome jserror (list TimeSeries) :=
  match value response with
  | metric :: _ => Ok (timeseries metric)
  | [] => Err (TypeError "timeseries")
  end.

(** [deployment.metadatavalues[0].value] *)
Definition deploymentNameOf (deployment : TimeSeries) : outcome jserror string :=
  match metadatavalues deployment with
  | name :: _ => Ok name
  | [] => Err (TypeError "value")
  end.

(** The callback of [timeseries.map]: the task of one deployment. *)
Definition deploymentTask (month : string) (deployment : TimeSeries) : prog num unit :=
  match deploymentNameOf deployment with
  | Ok deploymentName =>
      evaluateTokenUsageForAlert cfg deploymentName (sumTokenOf (data deployment)) month
  | Err error => Throw error
  end.

(** [error.response?.status || 500] and [error.response?.data || error.message] *)
Definition errorResponse (error : jserror) : HttpResponseInit :=
  match err_response error with
  | Some response =>
      mkHttpResponse (if (resp_status response =? 0)%Z then 500 else resp_status response)
        (if String.eqb (resp_data response) "" then err_message error else resp_data response)
  | None => mkHttpResponse 500 (err_message error)
  end.

(** The [catch] block of the handler. *)
Definition onError (error : jserror) : prog num HttpResponseInit :=
  _ ← await_ (ConsoleLogError "Error" error);
  mret (errorResponse error).

(** The first rejected task of a pool. *)
Definition first_rejection (ps : list (prog num unit)) : option jserror :=
  head (omap (fun p => match p with Throw e => Some e | _ => None end) ps).

Definition has_rejection (ps : list (prog num unit)) : bool :=
  bool_decide (is_Some (first_rejection ps)).

(** [await Promise.all(promises)] and what follows it in the handler: the
    response 200 when every task is fulfilled; at the first rejection, the
    [catch] block, and then the tasks still in flight run to their end. *)
Definition Promise_all (fuel : nat) (promises : list (prog num unit))
  : prog num HttpResponseInit :=
  interleave_until has_rejection fuel promises (fun ps =>
    match first_rejection ps with
    | Some error =>
        response ← onError error;
        interleave fuel ps (fun _ => mret response)
    | None => mret (mkHttpResponse 200 "Success")
    end).

(** The [try] block up to the start of the tasks. *)
Definition prepare : prog num (string * list TimeSeries) :=
  accessToken ← await_ (GetToken "https://management.azure.com/.default");
  timespan ← getCurrentMonthTimespan;
  response ← await_ (AxiosGet (apiUrl timespan) ("Bearer " +:+ accessToken));
  match timeseriesOf response with
  | Ok timeseries =>
      month ← getCurrentMonthString;
      mret (month, timeseries)
  | Err error => Throw error
  end.

Definition httpTrigger : prog num HttpResponseInit :=
  try_catch
    (prepared ← prepare;
     let promises := deploymentTask prepared.1 <$> prepared.2 in
     Promise_all (11 * length promises) promises)
    onError.

End Handler.

(** ** The handler cannot reject, and its tasks are bounded *)

Section HandlerLaws.
Context {num : Type} `{!JsNumber num}.
Context (cfg : Config) (tza : Z).
Implicit Types (w : world num) (cs : list choice).

Lemma onError_resolves (e : jserror) : resolves (num:=num) (onError e).
Proof. apply resolves_bind; [by apply resolves_await_local | done]. Qed.

Lemma httpTrigger_resolves : resolves (httpTrigger cfg tza).
Proof. apply resolves_try_catch, onError_resolves. Qed.

(** C30: Whatever the services answer and however the tasks are scheduled, the
    handler resolves with a response: every error ends in its [catch]. *)
Theorem httpTrigger_never_rejects cs w :
  exists response, run_result (httpTrigger cfg tza) cs w = Ok response.
Proof.
  pose proof (proj1 (wp_run _ _ _) (resolves_wp any_env _ w httpTrigger_resolves) cs) as H.
  simpl in H. destruct (run_result _ cs w) as [response|e]; [by eauto | done].
Qed.

Definition named (deployment : TimeSeries) : bool :=
  match metadatavalues deployment with
  | [] => false
  | _ => true
  end.

Lemma deploymentTask_bounded month deployment :
  bounded 11 (deploymentTask cfg month deployment).
Proof.
  unfold deploymentTask. destruct (deploymentNameOf deployment); [|done].
  apply evaluate_bounded.
Qed.

Lemma deploymentTask_resolves month deployment :
  named deployment = true -> resolves (deploymentTask cfg month deployment).
Proof.
  unfold named, deploymentTask, deploymentNameOf.
  destruct (metadatavalues deployment); [done|]. intros _. apply evaluate_resolves.
Qed.

Lemma deploymentTasks_bounded month (l : list TimeSeries) :
  pool_bounded (11 * length (deploymentTask cfg month <$> l)) (deploymentTask cfg month <$> l).
Proof.
  induction l as [|ts l IH]; [constructor|].
  rewrite fmap_cons.
  replace (11 * length (deploymentTask cfg month ts :: (deploymentTask cfg month <$> l)))
    with (11 + 11 * length (deploymentTask cfg month <$> l)) by (simpl; lia).
  constructor; [apply deploymentTask_bounded | apply IH].
Qed.

Lemma first_rejection_resolves (ps : list (prog num unit)) :
  Forall resolves ps -> first_rejection ps = None.
Proof.
  unfold first_rejection. induction 1 as [|p ps Hp _ IH]; [done|].
  simpl. by destruct p.
Qed.

(** [Promise.all] of tasks that cannot reject is fulfilled, whatever the
    environment does: the handler answers 200. *)
Lemma Promise_all_fulfilled E fuel n (ps : list (prog num unit)) w :
  pool_bounded n ps -> n <= fuel -> Forall resolves ps ->
  wpe E (Promise_all fuel ps) (fun _ r => r = Ok (mkHttpResponse 200 "Success")) w.
Proof.
  intros Hb Hle Hr. unfold Promise_all.
  apply (wp_interleave_until E (fun _ ps => Forall resolves ps) _ fuel n); try done.
  - intros w0 ps0 i R o k c Hps Hl _. apply Forall_insert; [done|].
    eapply resolves_step, (Forall_lookup_1 _ _ _ _ Hps Hl).
  - intros w' ps' n' Hps _ _ _. by rewrite (first_rejection_resolves _ Hps).
Qed.

End HandlerLaws.

(** ** The handler when the usage source answers, and when it does not *)

Section HandlerRuns.
Context {num : Type} `{!JsNumber num}.
Context (cfg : Config) (tza : Z).
Implicit Types (w : world num) (cs : list choice).

(** The response holds a metric, and each of its time series has a name. *)
Definition well_formed (response : MetricsData) : Prop :=
  match value response with
  | metric :: _ => forallb named (timeseries metric) = true
  | [] => False
  end.

(** The identity service and the metrics API answer, the latter with a
    well-formed response; the table, the mail service and the scheduler may
    do anything. *)
Definition source_answers : @env num :=
  fun _ o c =>
    match o with
    | GetToken _ => ch_fault c = NoFault
    | AxiosGet _ _ => ch_fault c = NoFault /\ well_formed (rp_metrics (ch_reply c))
    | _ => True
    end.

(** The metrics API rejects the query with [err]. *)
Definition source_fails (err : jserror) : @env num :=
  fun _ o c =>
    match o with
    | GetToken _ => ch_fault c = NoFault
    | AxiosGet _ _ => ch_fault c = FailBefore err
    | _ => True
    end.

#[export] Instance source_answers_token scope : Answers source_answers (GetToken scope).
Proof. by split. Qed.

#[export] Instance source_answers_axios url auth : Answers source_answers (AxiosGet url auth).
Proof. split. by intros c [? _]. Qed.

#[export] Instance source_fails_token err scope : Answers (source_fails err) (GetToken scope).
Proof. by split. Qed.

Lemma wp_getCurrentMonthTimespan {A} E (f : string -> prog num A) Q w :
  (forall w' timespan, idle w w' -> wpe E (f timespan) Q w') ->
  wpe E (getCurrentMonthTimespan tza ≫= f) Q w.
Proof.
  intros H. unfold getCurrentMonthTimespan. apply wp_bind, wp_bind, wp_local; [done..|].
  intros w' today Hi. simpl. by apply H.
Qed.

Lemma wp_getCurrentMonthString {A} E (f : string -> prog num A) Q w :
  (forall w' month, idle w w' -> wpe E (f month) Q w') ->
  wpe E (getCurrentMonthString ≫= f) Q w.
Proof.
  intros H. unfold getCurrentMonthString. apply wp_bind, wp_bind, wp_local; [done..|].
  intros w' now Hi. simpl. by apply H.
Qed.

Lemma prepare_answered w :
  wpe source_answers (prepare cfg tza)
    (fun w' r => exists month l, r = Ok (month, l) /\ forallb named l = true /\ idle w w') w.
Proof.
  unfold prepare. apply wp_bind. answered wpn_get_token. intros w1 token I1. simpl.
  apply wp_getCurrentMonthTimespan. intros w2 timespan I2.
  apply wp_bind. answered (wpn_axios_get _ _ _ well_formed); [by intros c [_ ?]|].
  intros w3 response Hwf I3. simpl. unfold well_formed in Hwf. unfold timeseriesOf.
  destruct (value response) as [|metric ?]; [done|].
  apply wp_getCurrentMonthString. intros w4 month I4. apply wp_ret.
  exists month, (timeseries metric). split; [done|]. split; [done|]. by repeat (etrans; [eassumption|]).
Qed.

Lemma prepare_rejected err w :
  wpe (source_fails err) (prepare cfg tza) (fun w' r => r = Err err /\ idle w w') w.
Proof.
  unfold prepare. apply wp_bind. answered wpn_get_token. intros w1 token I1. simpl.
  apply wp_getCurrentMonthTimespan. intros w2 timespan I2.
  apply wp_bind, (wpn_rejected _ _ (eq err)); [done | by eauto |].
  intros w3 ? <- I3. split; [done|]. by repeat (etrans; [eassumption|]).
Qed.

(** C9: When the usage source answers with a well-formed response, the handler
    answers 200 with the body [Success], whatever the table and the mail
    service do and however the tasks are scheduled: the failure of a
    reconciliation does not change the response. *)
Theorem httpTrigger_success cs w :
  respects source_answers (httpTrigger cfg tza) cs w ->
  run_result (httpTrigger cfg tza) cs w = Ok (mkHttpResponse 200 "Success").
Proof.
  apply (wpe_run source_answers (httpTrigger cfg tza)
           (fun _ r => r = Ok (mkHttpResponse 200 "Success"))).
  unfold httpTrigger. apply wp_try_catch, wp_bind.
  eapply wp_mono; [|apply prepare_answered].
  intros w1 _ (month & l & -> & Hnamed & _). simpl.
  eapply wp_mono; [|eapply Promise_all_fulfilled; [apply deploymentTasks_bounded | done |]].
  - by intros w2 _ ->.
  - apply Forall_fmap, Forall_forall. intros ts Hts. apply deploymentTask_resolves.
    rewrite forallb_forall in Hnamed. by apply Hnamed, list_elem_of_In.
Qed.

(** C25: When the metrics API rejects the query, the handler answers with the
    status and the body of the error, logs it, and touches neither the table
    nor the mail service. *)
Theorem httpTrigger_source_failure err cs w :
  respects (source_fails err) (httpTrigger cfg tza) cs w ->
  run_result (httpTrigger cfg tza) cs w = Ok (errorResponse err) /\
  w_table (run_world (httpTrigger cfg tza) cs w) = w_table w /\
  w_submitted (run_world (httpTrigger cfg tza) cs w) = w_submitted w /\
  LogInfoError "Error" err ∈ w_console (run_world (httpTrigger cfg tza) cs w).
Proof.
  apply (wpe_run (source_fails err) (httpTrigger cfg tza)
           (fun w' r => r = Ok (errorResponse err) /\ w_table w' = w_table w /\
                        w_submitted w' = w_submitted w /\ LogInfoError "Error" err ∈ w_console w')).
  unfold httpTrigger. apply wp_try_catch, wp_bind.
  eapply wp_mono; [|apply prepare_rejected].
  intros w1 _ [-> I1]. simpl. unfold onError.
  apply wp_bind, wp_console_log_error. intros w2 I2 Hlog. simpl.
  destruct I1, I2. repeat split; congruence.
Qed.

(** The status of an error response is never 0: it is the status of the
    response the error carries, or 500. *)
Lemma errorResponse_status (err : jserror) :
  status (errorResponse err) <> 0%Z /\
  (status (errorResponse err) = 500%Z \/
   exists response, err_response err = Some response /\
     status (errorResponse err) = resp_status response).
Proof.
  unfold errorResponse. destruct (err_response err) as [response|]; simpl; [|by auto].
  destruct (Z.eqb_spec (resp_status response) 0); [by auto|]. by eauto.
Qed.

End HandlerRuns.

(** ** The sum of the samples, with integer usages *)

Section HandlerIntegers.

Lemma sumTokenOf_nan (data : list Sample) :
  foldl (fun sum d => nadd sum (totalOf d)) JNaN data = JNaN.
Proof. by induction data. Qed.

Lemma sumTokenOf_from (a : Z) (data : list Sample) (zs : list Z) :
  total <$> data = Some <$> zs ->
  foldl (fun sum d => nadd sum (totalOf d)) (JInt a) data = JInt (a + foldr Z.add 0 zs)%Z.
Proof.
  revert a zs. induction data as [|[[z|]] data IH]; intros a [|z' zs] Heq; try done.
  - simpl. by rewrite Z.add_0_r.
  - injection Heq as -> Heq. simpl. rewrite (IH _ zs Heq). f_equal. lia.
Qed.

(** The usage of a deployment whose samples all have a total is the sum of
    the totals. *)
Theorem sumTokenOf_totals (data : list Sample) (zs : list Z) :
  total <$> data = Some <$> zs -> sumTokenOf data = JInt (foldr Z.add 0 zs)%Z.
Proof. intros Heq. apply (sumTokenOf_from 0 data zs Heq). Qed.

(** C31: One sample without a total makes the usage NaN. *)
Theorem sumTokenOf_missing (data : list Sample) :
  mkSample None ∈ data -> sumTokenOf (num:=jsnum) data = JNaN.
Proof.
  unfold sumTokenOf. generalize (nlit (num:=jsnum) 0) as acc.
  induction data as [|d data IH]; intros acc Hin; [by apply elem_of_nil in Hin|].
  apply elem_of_cons in Hin as [<-|Hin]; simpl.
  - destruct acc; apply sumTokenOf_nan.
  - by apply IH.
Qed.

End HandlerIntegers.

(** ** The handler, run *)

Section HandlerExamples.

#[local] Open Scope Z_scope.

Definition series (name : string) (totals : list (option Z)) : TimeSeries :=
  mkTimeSeries [name] (mkSample <$> totals).

Definition metrics_of (l : list TimeSeries) : MetricsData := mkMetricsData [mkMetric l].

(** The choices of a run in which the source answers [metrics] and
    everything else goes well: the token, the clock, the query. *)
Definition answering (metrics : MetricsData) : list choice :=
  [replying "token" metrics; normal; replying "token" metrics].

#[local] Abbreviation handler := (httpTrigger (num:=jsnum) cfg0 0).

(** Two deployments, one above the threshold: 200, two records, one alert. *)
Example httpTrigger_two_deployments :
  let metrics := metrics_of [series "gpt4dev" [Some 700; Some 800]; series "gpt35" [Some 100]] in
  run_result handler (answering metrics) w_empty = Ok (mkHttpResponse 200 "Success") /\
  SumToken <$> w_table (run_world handler (answering metrics) w_empty) !! recordKey "gpt4dev" "2024-10" =
    Some (JInt 1500) /\
  SumToken <$> w_table (run_world handler (answering metrics) w_empty) !! recordKey "gpt35" "2024-10" =
    Some (JInt 100) /\
  size (w_table (run_world handler (answering metrics) w_empty)) = 2%nat /\
  w_outbox (run_world handler (answering metrics) w_empty) = [emailMessage cfg0 "gpt4dev" (JInt 1500)].
Proof. by vm_compute. Qed.


(** A sample without a total: the usage is NaN, it is stored, and no alert
    is sent although the other samples are above the threshold. *)
Example httpTrigger_missing_total :
  let metrics := metrics_of [series "gpt4dev" [Some 700; None; Some 800]] in
  run_result handler (answering metrics) w_empty = Ok (mkHttpResponse 200 "Success") /\
  SumToken <$> w_table (run_world handler (answering metrics) w_empty) !! recordKey "gpt4dev" "2024-10" =
    Some JNaN /\
  w_submitted (run_world handler (answering metrics) w_empty) = [].
Proof. by vm_compute. Qed.


Lemma httpTrigger_success_witness :
  respects source_answers handler
    (answering (metrics_of [series "gpt4dev" [Some 700; Some 800]])) w_empty /\
  run_result handler (answering (metrics_of [series "gpt4dev" [Some 700; Some 800]])) w_empty =
    Ok (mkHttpResponse 200 "Success").
Proof.
  assert (respects source_answers handler
            (answering (metrics_of [series "gpt4dev" [Some 700; Some 800]])) w_empty) as Hcs
    by (vm_compute; repeat split).
  split; [done|]. apply (httpTrigger_success cfg0 0 _ _ Hcs).
Defined.

Lemma httpTrigger_source_failure_witness :
  respects (source_fails (RestError 429 "TooManyRequests")) handler
    [normal; normal; failing_before (RestError 429 "TooManyRequests")] w_empty /\
  run_result handler [normal; normal; failing_before (RestError 429 "TooManyRequests")] w_empty =
    Ok (errorResponse (RestError 429 "TooManyRequests")) /\
  w_table (run_world handler [normal; normal; failing_before (RestError 429 "TooManyRequests")] w_empty) = w_table w_empty /\
  w_submitted (run_world handler [normal; normal; failing_before (RestError 429 "TooManyRequests")] w_empty) = w_submitted w_empty /\
  LogInfoError "Error" (RestError 429 "TooManyRequests")
    ∈ w_console (run_world handler [normal; normal; failing_before (RestError 429 "TooManyRequests")] w_empty).
Proof.
  assert (respects (source_fails (RestError 429 "TooManyRequests")) handler
            [normal; normal; failing_before (RestError 429 "TooManyRequests")] w_empty) as Hcs
    by (vm_compute; repeat split).
  split; [done|]. apply (httpTrigger_source_failure cfg0 0 _ _ _ Hcs).
Defined.

Lemma sumTokenOf_totals_witness :
  total <$> [mkSample (Some 700); mkSample (Some 800)] = Some <$> [700; 800] /\
  sumTokenOf [mkSample (Some 700); mkSample (Some 800)] = JInt (foldr Z.add 0 [700; 800]).
Proof. split; [done|]. by apply sumTokenOf_totals. Defined.

Lemma sumTokenOf_missing_witness :
  mkSample None ∈ [mkSample (Some 700); mkSample None] /\
  sumTokenOf (num:=jsnum) [mkSample (Some 700); mkSample None] = JNaN.
Proof.
  assert (mkSample None ∈ [mkSample (Some 700); mkSample None]) as Hin
    by (apply list_elem_of_further, list_elem_of_here).
  split; [done|]. apply (sumTokenOf_missing _ Hin).
Defined.

End HandlerExamples.
