(* ===== verification/EndToEnd.v ===== *)
(** * EndToEnd: one invocation computes the design

    The handler composed with the pool and the reconciler.  When the usage
    source answers with the metrics of distinct, named deployments and no
    call fails, an invocation of [httpTrigger] answers 200 and leaves the
    table and the mail service as the design asks: each deployment of the
    response is reconciled with the sum of its samples, under the month read
    from the clock after the query, and the alerts that are due are
    delivered, each once.

    The proof puts together the rule of the pool ([Serializable]), run by
    [Promise.all] until a task rejects, which none does, with the rules of
    the calls that precede it ([HttpTrigger]). *)

From stdpp Require Import base tactics option list strings gmap.
From Stdlib Require Import ZArith Lia.
From S2P Require Import Prelude JsValue DateTime Metrics Table Effects Rules Policy Guarantee.
From S2P Require Import Reconciler Refinement Concurrency Isolation Serializable HttpTrigger.

Section Usages.
Context {num : Type} `{!JsNumber num}.
Context (cfg : Config).
Implicit Types (l : list TimeSeries) (ps : list (prog num unit)).

(** The deployments of a response, each with the usage the handler computes
    for it. *)
Definition usagesOf l : list (string * num) :=
  omap (fun deployment =>
          match deploymentNameOf deployment with
          | Ok deploymentName => Some (deploymentName, sumTokenOf (data deployment))
          | Err _ => None
          end) l.

(** The tasks of the handler are the reconciliations of the usages. *)
Lemma deploymentTasks_reconciliations month l :
  forallb named l = true ->
  deploymentTask cfg month <$> l = reconciliations cfg month (usagesOf l).
Proof.
  unfold reconciliations, usagesOf. induction l as [|ts l IH]; [done|].
  intros [Hts Hl]%andb_prop. rewrite fmap_cons, (IH Hl).
  unfold named in Hts. unfold deploymentTask at 1, deploymentNameOf. simpl.
  unfold deploymentNameOf. by destruct (metadatavalues ts).
Qed.

Lemma first_rejection_fulfilled ps :
  (forall i e, ps !! i <> Some (Throw e)) -> first_rejection ps = None.
Proof.
  unfold first_rejection. induction ps as [|p ps IH]; intros Hps; [done|].
  simpl. destruct p as [a|e|X o k]; [|by destruct (Hps 0%nat e)|];
    apply IH; intros i e; apply (Hps (S i) e).
Qed.

End Usages.

(** ** The invocation *)

Section Invocation.
Context {num : Type} `{!JsNumber num}.
Context (cfg : Config) (tza : Z).
Implicit Types (w : world num) (cs : list choice) (l : list TimeSeries).

(** The identity service answers and the metrics API answers [metrics]. *)
Class Replies (E : @env num) (metrics : MetricsData) : Prop := {
  replies_token scope :: Answers E (GetToken scope);
  replies_query url authorization :: Answers E (AxiosGet url authorization);
  replies_metrics url authorization c :
    E _ (AxiosGet url authorization) c -> rp_metrics (ch_reply c) = metrics;
}.

(** No call fails, the mail is delivered, and the metrics API answers
    [metrics]. *)
Definition source_replies (metrics : MetricsData) : @env num :=
  fun _ o c =>
    fault_free c /\
    match o with
    | AxiosGet _ _ => rp_metrics (ch_reply c) = metrics
    | _ => True
    end.

#[export] Instance source_replies_answers metrics {R} (o : op num R) :
  Answers (source_replies metrics) o.
Proof. split. by intros c [[? _] _]. Qed.

#[export] Instance source_replies_delivers metrics : Delivers (source_replies metrics).
Proof. split. by intros p c [[_ ?] _]. Qed.

#[export] Instance source_replies_replies metrics : Replies (source_replies metrics) metrics.
Proof. split; [apply _..|]. by intros url authorization c [_ ?]. Qed.

(** The metrics API answers [metrics]; the table and the mail service may
    fail in any way, and the tasks are resumed in any order. *)
Definition source_gives (metrics : MetricsData) : @env num :=
  fun _ o c =>
    match o with
    | GetToken _ => ch_fault c = NoFault
    | AxiosGet _ _ => ch_fault c = NoFault /\ rp_metrics (ch_reply c) = metrics
    | _ => True
    end.

#[export] Instance source_gives_replies metrics : Replies (source_gives metrics) metrics.
Proof. split; [by split | split; by intros c [? _] | by intros url authorization c [_ ?]]. Qed.

(** The month is the month of the clock when it is read. *)
Lemma wp_getCurrentMonthString_now {A} E (f : string -> prog num A) Q w :
  (forall w', idle w w' -> wpe E (f (monthStringOf (w_clock w'))) Q w') ->
  wpe E (getCurrentMonthString ≫= f) Q w.
Proof.
  intros H. unfold getCurrentMonthString. apply wp_bind, wp_bind, wp_date_now.
  intros w' Hi. simpl. by apply H.
Qed.

(** The [try] block up to the start of the tasks: the time series of the
    answer and the month of the clock, and nothing written or sent. *)
Lemma prepare_replied E metrics `{!Replies E metrics} l w :
  timeseriesOf metrics = Ok l ->
  wpe E (prepare cfg tza)
    (fun w' r => exists now, (w_clock w <= now <= w_clock w')%Z /\
       r = Ok (monthStringOf now, l) /\ idle w w') w.
Proof.
  intros Hl. unfold prepare. apply wp_bind. answered wpn_get_token. intros w1 token I1. simpl.
  apply wp_getCurrentMonthTimespan. intros w2 timespan I2.
  apply wp_bind. answered (wpn_axios_get _ _ _ (eq metrics));
    [intros c Hc; symmetry; by eapply replies_metrics|].
  intros w3 ? <- I3. cbv beta. rewrite Hl. cbv beta iota.
  apply wp_getCurrentMonthString_now. intros w4 I4. apply wp_ret. exists (w_clock w4).
  assert (idle w w4) as I by by repeat (etrans; [eassumption|]).
  split; [split; [apply I | done] | done].
Qed.

(** [Promise.all] of the reconciliations of distinct deployments, in an
    environment that answers: no task rejects, the handler answers 200 and
    the pool has computed the design. *)
Lemma Promise_all_refines E `{!forall R (o : op num R), Answers E o, !Delivers E}
    month (usages : list (string * num)) w :
  NoDup usages.*1 -> table_wf (w_table w) ->
  wpe E (Promise_all (11 * length usages) (reconciliations cfg month usages))
    (fun w' r => r = Ok (mkHttpResponse 200 "Success") /\ pool_refines cfg month usages w w') w.
Proof.
  intros Hnd Hwf. unfold Promise_all. apply (wpe_reconciliations cfg month E); [done..|].
  intros w' ps Hinv Hstop.
  assert (first_rejection ps = None) as Hnone.
  { apply first_rejection_fulfilled. intros i e. by eapply pool_inv_fulfilled. }
  rewrite Hnone. apply wp_ret. split; [done|]. eapply pool_inv_refines; [done|].
  destruct Hstop as [Hs|Hs]; [done|]. unfold has_rejection in Hs. rewrite Hnone in Hs.
  apply bool_decide_eq_true in Hs. by destruct Hs.
Qed.

(** [Promise.all] of the reconciliations of distinct deployments, whatever
    fails: no task rejects, the handler answers 200 and the records have
    evolved as the reconciliations allow. *)
Lemma Promise_all_isolated month (usages : list (string * num)) w :
  NoDup usages.*1 -> table_wf (w_table w) ->
  wpe any_env (Promise_all (11 * length usages) (reconciliations cfg month usages))
    (fun w' r => r = Ok (mkHttpResponse 200 "Success") /\ evolved month usages w w') w.
Proof.
  intros Hnd Hwf. unfold Promise_all. apply (wp_reconciliations cfg month); [done..|].
  intros w' ps Hinv _.
  rewrite first_rejection_fulfilled by (intros i e; by eapply isolated_inv_fulfilled).
  apply wp_ret. split; [done | apply Hinv].
Qed.

Lemma idle_pool_refines month usages w w1 w' :
  idle w w1 -> pool_refines cfg month usages w1 w' ->
  abs_table w1 = abs_table w /\ w_submitted w1 = w_submitted w /\ w_outbox w1 = w_outbox w /\
  (w_clock w1 <= w_clock w')%Z.
Proof.
  intros [Ht Hs Ho _ _] [Hsv _]. unfold abs_table. rewrite Ht. repeat split; try done.
  apply Hsv.
Qed.

(** What an invocation leaves when the source answers [l] and no call
    fails. *)
Definition invocation_refines l w w' : Prop :=
  exists now, (w_clock w <= now <= w_clock w')%Z /\
    abs_table w' = reconcileAll (monthStringOf now) (usagesOf l) (abs_table w) /\
    w_submitted w' ≡ₚ
      w_submitted w ++ alertsDue cfg (monthStringOf now) (usagesOf l) (abs_table w) /\
    w_outbox w' ≡ₚ
      w_outbox w ++ alertsDue cfg (monthStringOf now) (usagesOf l) (abs_table w).

Lemma httpTrigger_exact metrics l w :
  timeseriesOf metrics = Ok l -> forallb named l = true -> NoDup (usagesOf l).*1 ->
  table_wf (w_table w) ->
  wpe (source_replies metrics) (httpTrigger cfg tza)
    (fun w' r => r = Ok (mkHttpResponse 200 "Success") /\ invocation_refines l w w') w.
Proof.
  intros Hl Hnamed Hnd Hwf. unfold httpTrigger. apply wp_try_catch, wp_bind.
  eapply wp_mono; [|by apply (prepare_replied _ metrics)].
  intros w1 _ (now & Hnow & -> & I1). cbn [fst snd].
  rewrite (deploymentTasks_reconciliations cfg _ l Hnamed).
  unfold reconciliations at 1. rewrite length_fmap.
  eapply wp_mono;
    [|apply (Promise_all_refines (source_replies metrics) (monthStringOf now) (usagesOf l) w1 Hnd);
      by rewrite (idle_table _ _ I1)].
  intros w' _ [-> Hp]. split; [done|]. exists now.
  destruct (idle_pool_refines _ _ _ _ _ I1 Hp) as (Ht & Hs & Ho & Hc).
  destruct (pool_refines_mail cfg _ _ _ _ Hnd Hp) as [Hsub Hout].
  rewrite <- Ht, <- Hs, <- Ho. split; [lia|].
  split; [by apply (pool_refines_table cfg _ _ _ _ Hnd Hp) | done].
Qed.

(** C3: When the usage source answers with the metrics of distinct, named
    deployments and no call fails, the invocation answers 200 and computes
    the design: the records are those of the reconciliations of the
    deployments with the sums of their samples, under the month of a time
    read during the invocation, and the mail service is handed, and
    delivers, the alerts that are due and nothing else. *)
Theorem httpTrigger_refines metrics l cs w :
  timeseriesOf metrics = Ok l -> forallb named l = true -> NoDup (usagesOf l).*1 ->
  table_wf (w_table w) -> respects (source_replies metrics) (httpTrigger cfg tza) cs w ->
  run_result (httpTrigger cfg tza) cs w = Ok (mkHttpResponse 200 "Success") /\
  invocation_refines l w (run_world (httpTrigger cfg tza) cs w).
Proof.
  intros Hl Hnamed Hnd Hwf.
  apply (wpe_run (source_replies metrics) (httpTrigger cfg tza)
           (fun w' r => r = Ok (mkHttpResponse 200 "Success") /\ invocation_refines l w w')).
  by apply httpTrigger_exact.
Qed.

(** What an invocation leaves when the source answers [l], whatever else
    fails: the record of each deployment has evolved as its reconciliation
    allows, and no other record has changed. *)
Definition invocation_isolated l w w' : Prop :=
  exists now, (w_clock w <= now <= w_clock w')%Z /\ table_wf (w_table w') /\
    (forall d sum, (d, sum) ∈ usagesOf l ->
       slot_evolves sum (w_table w !! recordKey d (monthStringOf now))
         (w_table w' !! recordKey d (monthStringOf now))) /\
    (forall k, (forall d sum, (d, sum) ∈ usagesOf l -> k <> recordKey d (monthStringOf now)) ->
       w_table w' !! k = w_table w !! k).

Lemma idle_evolved month usages w w1 w' :
  idle w w1 -> evolved month usages w1 w' -> evolved month usages w w'.
Proof. intros [Ht _ _ Hc _] [Hc' Hwf Hs Ho]. rewrite Ht in Hs, Ho. split; [lia | done..]. Qed.

Lemma httpTrigger_safe metrics l w :
  timeseriesOf metrics = Ok l -> forallb named l = true -> NoDup (usagesOf l).*1 ->
  table_wf (w_table w) ->
  wpe (source_gives metrics) (httpTrigger cfg tza)
    (fun w' r => r = Ok (mkHttpResponse 200 "Success") /\ invocation_isolated l w w') w.
Proof.
  intros Hl Hnamed Hnd Hwf. unfold httpTrigger. apply wp_try_catch, wp_bind.
  eapply wp_mono; [|by apply (prepare_replied _ metrics)].
  intros w1 _ (now & Hnow & -> & I1). cbn [fst snd].
  rewrite (deploymentTasks_reconciliations cfg _ l Hnamed).
  unfold reconciliations at 1. rewrite length_fmap.
  eapply wp_mono; [|apply (wp_env any_env); [done|];
    apply (Promise_all_isolated (monthStringOf now) (usagesOf l) w1 Hnd);
    by rewrite (idle_table _ _ I1)].
  intros w' _ [-> Hev]. split; [done|]. exists now.
  destruct (idle_evolved _ _ _ _ _ I1 Hev) as [_ Hwf' Hs Ho].
  pose proof (ev_clock _ _ _ _ Hev). split; [lia | done].
Qed.

(** C14: When the usage source answers with the metrics of distinct, named
    deployments, then whichever calls to the table and the mail service fail
    and however the tasks are resumed, the invocation answers 200, the
    record of each deployment evolves as its reconciliation allows (the
    usage is kept or raised to the new usage, the flag is kept or raised for
    a usage above the threshold) and no other record changes. *)
Theorem httpTrigger_isolated metrics l cs w :
  timeseriesOf metrics = Ok l -> forallb named l = true -> NoDup (usagesOf l).*1 ->
  table_wf (w_table w) -> respects (source_gives metrics) (httpTrigger cfg tza) cs w ->
  run_result (httpTrigger cfg tza) cs w = Ok (mkHttpResponse 200 "Success") /\
  invocation_isolated l w (run_world (httpTrigger cfg tza) cs w).
Proof.
  intros Hl Hnamed Hnd Hwf.
  apply (wpe_run (source_gives metrics) (httpTrigger cfg tza)
           (fun w' r => r = Ok (mkHttpResponse 200 "Success") /\ invocation_isolated l w w')).
  by apply httpTrigger_safe.
Qed.

End Invocation.

(** ** The theorem at a concrete input *)

Section EndToEndWitnesses.

#[local] Open Scope Z_scope.
#[local] Abbreviation deployments :=
  [series "gpt4dev" [Some 700; Some 800]; series "gpt35" [Some 100]].
#[local] Abbreviation handler := (httpTrigger (num:=jsnum) cfg0 0).

Lemma httpTrigger_refines_witness :
  timeseriesOf (metrics_of deployments) = Ok deployments /\
  forallb named deployments = true /\ NoDup (usagesOf (num:=jsnum) deployments).*1 /\
  table_wf (w_table w_empty) /\
  respects (source_replies (metrics_of deployments)) handler
    (answering (metrics_of deployments)) w_empty /\
  run_result handler (answering (metrics_of deployments)) w_empty =
    Ok (mkHttpResponse 200 "Success") /\
  invocation_refines cfg0 deployments w_empty
    (run_world handler (answering (metrics_of deployments)) w_empty).
Proof.
  assert (NoDup (usagesOf (num:=jsnum) deployments).*1) as Hnd.
  { apply NoDup_cons. split; [set_solver | apply NoDup_singleton]. }
  assert (respects (source_replies (metrics_of deployments)) handler
            (answering (metrics_of deployments)) w_empty) as Hcs
    by (vm_compute; repeat split).
  split; [done|]. split; [done|]. split; [done|]. split; [apply table_wf_empty|].
  split; [done|].
  apply (httpTrigger_refines cfg0 0 (metrics_of deployments) deployments _ w_empty
           eq_refl eq_refl Hnd table_wf_empty Hcs).
Defined.

(** The table rejects the first write and the mail service reports a
    failure: the invocation still answers 200. *)
Definition failing : list choice :=
  answering (metrics_of deployments) ++
  [normal; picking 0; failing_before (RestError 503 "ServerBusy"); picking 1; normal;
   picking 1; normal; picking 1; normal; picking 1; mail_status "Failed"].

Lemma httpTrigger_isolated_witness :
  timeseriesOf (metrics_of deployments) = Ok deployments /\
  forallb named deployments = true /\ NoDup (usagesOf (num:=jsnum) deployments).*1 /\
  table_wf (w_table w_empty) /\
  respects (source_gives (metrics_of deployments)) handler failing w_empty /\
  run_result handler failing w_empty = Ok (mkHttpResponse 200 "Success") /\
  invocation_isolated deployments w_empty (run_world handler failing w_empty).
Proof.
  assert (NoDup (usagesOf (num:=jsnum) deployments).*1) as Hnd.
  { apply NoDup_cons. split; [set_solver | apply NoDup_singleton]. }
  assert (respects (source_gives (metrics_of deployments)) handler failing w_empty) as Hcs
    by (vm_compute; repeat split).
  split; [done|]. split; [done|]. split; [done|]. split; [apply table_wf_empty|].
  split; [done|].
  apply (httpTrigger_isolated cfg0 0 (metrics_of deployments) deployments _ w_empty
           eq_refl eq_refl Hnd table_wf_empty Hcs).
Defined.

End EndToEndWitnesses.
