(* ===== verification/Justified.v ===== *)
(** * Justified: a marked record has a delivered alert, in every run

    [ActionDone] suppresses the alert of a deployment for the rest of the
    month, so it must never be set without an alert having been delivered.
    [Reconciler] proves this of one reconciliation run alone.  This file
    proves it of the invocation, and of every sequence of invocations: the
    tasks of the deployments run concurrently, any call may fail before or
    after it took effect, the response of the metrics API is arbitrary (two
    time series may name the same deployment, so that their tasks race on
    one record) and still, in every world the system reaches, every marked
    record of a month has a delivered alert of its deployment.

    The proof is by rely and guarantee ([Isolation]) with one relation for
    all tasks: a step is [steady] when it keeps the table sound and only
    appends to the lists of the mail service.  A task marks the record only
    with an entity that is [backed]: marked when it was read, in a sound
    table, or marked by the task after its own mail was delivered. *)

From stdpp Require Import base tactics option list strings gmap.
From Stdlib Require Import ZArith Lia.
From S2P Require Import Prelude JsValue DateTime Metrics Table Effects Rules Policy Guarantee.
From S2P Require Import Reconciler Refinement Successive Concurrency Isolation Serializable.
From S2P Require Import HttpTrigger EndToEnd.

(** ** Sound worlds and steady steps *)

Section Steady.
Context {num : Type} `{!JsNumber num}.
Context (cfg : Config).
Implicit Types (w : world num) (e : Entity num) (d month : string) (m : EmailMessage).

(** Every marked record of a month has a delivered alert of its
    deployment.  The months are the texts of seven characters, as
    [monthStringOf] makes them. *)
Definition flags_justified w : Prop :=
  forall d month e, String.length month = 7%nat ->
    w_table w !! recordKey d month = Some e -> ActionDone e = true ->
    alert_delivered cfg d w.

Definition sound w : Prop := table_wf (w_table w) /\ flags_justified w.

(** A step that keeps the world sound and the messages handed to, and
    delivered by, the mail service. *)
Record steady w w' : Prop := mkSteady {
  st_sound : sound w -> sound w';
  st_submitted : w_submitted w `prefix_of` w_submitted w';
  st_outbox : w_outbox w `prefix_of` w_outbox w';
}.

#[export] Instance steady_preorder : PreOrder steady.
Proof. split; [by split|]. intros w1 w2 w3 [] []. split; [auto | by etrans..]. Qed.

Lemma alert_delivered_mono d w w' :
  w_outbox w `prefix_of` w_outbox w' -> alert_delivered cfg d w -> alert_delivered cfg d w'.
Proof. intros Hp [sum Hin]. exists sum. by eapply elem_of_prefix. Qed.

(** A step that leaves the table as it is. *)
Lemma steady_table w w' :
  w_table w' = w_table w -> w_submitted w `prefix_of` w_submitted w' ->
  w_outbox w `prefix_of` w_outbox w' -> steady w w'.
Proof.
  intros Ht Hs Ho. split; [|done..]. intros [Hwf Hj]. split; [by rewrite Ht|].
  intros d month e Hlen Hl Ha. rewrite Ht in Hl.
  eapply alert_delivered_mono; [done|]. by eapply Hj.
Qed.

Lemma idle_steady w w' : idle w w' -> steady w w'.
Proof. intros [Ht Hs Ho _ _]. apply steady_table; by rewrite ?Ht, ?Hs, ?Ho. Qed.

Lemma flags_justified_empty w : w_table w = ∅ -> flags_justified w.
Proof. intros Ht d month e _. by rewrite Ht. Qed.

Lemma idle_sound w w' : idle w w' -> sound w -> sound w'.
Proof. intros I. apply st_sound. by apply idle_steady. Qed.

Lemma submitted_steady m w w' : submitted m w w' -> steady w w'.
Proof.
  intros [Ht Hs Ho _ _]. apply steady_table; rewrite ?Ht, ?Hs, ?Ho; [done | | done].
  by apply prefix_app_r.
Qed.

Lemma delivered_steady m w w' : delivered m w w' -> steady w w'.
Proof.
  intros [Ht Hs Ho _ _]. apply steady_table; rewrite ?Ht, ?Hs, ?Ho; [done | done |].
  by apply prefix_app_r.
Qed.

Lemma exec_op_steady {X} (o : op num X) c w :
  w_table (exec_op o c w).1 = w_table w -> steady w (exec_op o c w).1.
Proof. intros Ht. apply steady_table; [done | apply exec_op_submitted | apply exec_op_outbox]. Qed.

(** A call that writes, if anything, an entity under the key of a
    deployment and a month: the step is steady if the entity is not marked
    or the deployment has its alert. *)
Lemma exec_write_steady {X} (o : op num X) c w e d month :
  String.length month = 7%nat -> entity_key e = recordKey d month ->
  (ActionDone e = true -> alert_delivered cfg d w) ->
  w_table (exec_op o c w).1 = w_table w \/
  w_table (exec_op o c w).1 = <[entity_key e := e]> (w_table w) ->
  steady w (exec_op o c w).1.
Proof.
  intros Hlen Hk Hb [Ht|Ht]; [by apply exec_op_steady|].
  split; [|apply exec_op_submitted | apply exec_op_outbox].
  intros [Hwf Hj]. split; [by apply exec_op_wf|]. intros d' month' e' Hlen' Hl Ha.
  apply (alert_delivered_mono d' w); [apply exec_op_outbox|]. rewrite Ht, Hk in Hl.
  destruct (decide (recordKey d' month' = recordKey d month)) as [Heq|Hne].
  - rewrite Heq, lookup_insert_eq in Hl. injection Hl as <-. injection Heq as Heq.
    apply rowKeyOf_inj in Heq as [-> _]; [by apply Hb | congruence].
  - rewrite lookup_insert_ne in Hl by done. by eapply Hj.
Qed.

End Steady.

#[export] Existing Instance steady_preorder.

(** ** One reconciliation among others, whatever fails *)

Section Task.
Context {num : Type} `{!JsNumber num}.
Context (cfg : Config) (d : string) (sum : num) (month : string).
Context (Hmonth : String.length month = 7%nat).
Implicit Types (w : world num) (e : Entity num).

#[local] Abbreviation k := (recordKey d month).
#[local] Abbreviation m := (emailMessage cfg d sum).
#[local] Abbreviation W := (wpg any_env (steady cfg) (steady cfg)).

(** The entity is one of the record of the task, and if it is marked the
    alert of the deployment was delivered. *)
Definition backed e w : Prop :=
  entity_key e = k /\ (ActionDone e = true -> alert_delivered cfg d w).

Lemma backed_steady e w w' : backed e w -> steady cfg w w' -> backed e w'.
Proof.
  intros [Hk Hb] H. split; [done|]. intros Ha.
  eapply alert_delivered_mono; [apply H | by apply Hb].
Qed.

(** The rule of a call, from its step: the step is steady, and the rest is
    proved from a world the others have made of the one it leaves. *)
Lemma wj_step {X} (o : op num X) (Q : world num -> outcome jserror X -> Prop) w :
  (forall w1 c, steady cfg w w1 ->
     steady cfg w1 (exec_op o c w1).1 /\
     forall w2, steady cfg w w2 -> steady cfg (exec_op o c w1).1 w2 ->
       Q w2 (exec_op o c w1).2) ->
  W (await_ o) Q w.
Proof.
  intros H. apply wpg_await. intros w1 c H1 _. destruct (H w1 c H1) as [Hstep HQ].
  split; [done|]. intros w2 H2. apply HQ; [|done]. by repeat (etrans; [eassumption|]).
Qed.

Lemma wj_quiet {X} (o : op num X) (Q : world num -> outcome jserror X -> Prop) w :
  op_key o = None -> (forall w' r, steady cfg w w' -> Q w' r) -> W (await_ o) Q w.
Proof.
  intros Ho H. apply wj_step. intros w1 c H1.
  split; [by apply exec_op_steady, exec_op_table_local | auto].
Qed.

(** The clock and the console, which always answer. *)
Lemma wj_local {X} (o : op num X) (Q : world num -> outcome jserror X -> Prop) w :
  is_remote o = false -> op_key o = None ->
  (forall w' v, steady cfg w w' -> Q w' (Ok v)) -> W (await_ o) Q w.
Proof.
  intros Hl Ho H. apply wj_step. intros w1 c H1.
  split; [by apply exec_op_steady, exec_op_table_local|].
  intros w2 H2 _. destruct (exec_op_local_Ok o c w1 Hl) as [v ->]. by apply H.
Qed.

Lemma wj_new_Date {A} (f : string -> prog num A) Q w :
  (forall w' now, steady cfg w w' -> W (f now) Q w') -> W (new_Date_toISOString ≫= f) Q w.
Proof.
  intros H. unfold new_Date_toISOString. rg wpg_bind. rg wpg_bind. apply wj_local; [done..|].
  intros w1 now H1. apply wpg_ret. intros w2 H2. apply H. by etrans.
Qed.

(** The entity read from a sound table is backed. *)
Lemma wj_get (Q : world num -> outcome jserror (Entity num) -> Prop) w :
  sound cfg w ->
  (forall w' r, steady cfg w w' -> (forall e, r = Ok e -> backed e w') -> Q w' r) ->
  W (await_ (GetEntity "DeploymentType" (rowKeyOf d month))) Q w.
Proof.
  intros Hs H. apply wj_step. intros w1 c H1. split; [apply exec_op_steady, exec_get_table|].
  intros w2 H2 H12. apply H; [done|]. intros e He%exec_get_Ok.
  destruct (st_sound _ _ _ H1 Hs) as [Hwf Hj].
  apply (backed_steady e w1); [|by etrans; [apply exec_op_steady, exec_get_table|]].
  split; [by apply Hwf | by apply (Hj d month e)].
Qed.

Lemma wj_create e (Q : world num -> outcome jserror unit -> Prop) w :
  entity_key e = k -> ActionDone e = false ->
  (forall w' r, steady cfg w w' -> Q w' r) -> W (await_ (CreateEntity e)) Q w.
Proof.
  intros Hk Ha H. apply wj_step. intros w1 c H1. split; [|auto].
  apply (exec_write_steady cfg _ c w1 e d month); [done | done | congruence |].
  destruct (exec_create_table e c w1) as [?|[_ ?]]; auto.
Qed.

Lemma wj_update e (Q : world num -> outcome jserror unit -> Prop) w :
  backed e w -> (forall w' r, steady cfg w w' -> Q w' r) -> W (await_ (UpdateEntity e)) Q w.
Proof.
  intros Hb H. apply wj_step. intros w1 c H1. split; [|auto].
  destruct (backed_steady e w w1 Hb H1) as [Hk Hb1].
  apply (exec_write_steady cfg _ c w1 e d month); [done..|].
  destruct (exec_update_table e c w1) as [?|[_ ?]]; auto.
Qed.

(** The message handed to the mail service is the one the poller names. *)
Lemma wj_begin_send (Q : world num -> outcome jserror nat -> Prop) w :
  (forall w' r, steady cfg w w' ->
     (forall poller, r = Ok poller -> w_submitted w' !! poller = Some m) -> Q w' r) ->
  W (await_ (BeginSend m)) Q w.
Proof.
  intros H. rg wpg_of_wpe. intros w1 H1. apply wp_begin_send.
  - intros w1' err Hstep.
    assert (steady cfg w1 w1') as S by (destruct Hstep; eauto using idle_steady, submitted_steady).
    split; [done|]. intros w2 H2. apply H; [by repeat (etrans; [eassumption|]) | done].
  - intros w1' S. split; [by eapply submitted_steady|]. intros w2 H2.
    apply H; [etrans; [done|]; etrans; [by eapply submitted_steady | done]|].
    intros ? [= <-]. eapply prefix_lookup_Some; [|apply H2].
    rewrite (sub_submitted _ _ _ S). by apply list_lookup_middle.
Qed.

(** When the mail service reports [Succeeded] the message is delivered. *)
Lemma wj_poll poller (Q : world num -> outcome jserror string -> Prop) w :
  w_submitted w !! poller = Some m ->
  (forall w' r, steady cfg w w' -> (r = Ok "Succeeded" -> alert_delivered cfg d w') -> Q w' r) ->
  W (await_ (PollUntilDone poller)) Q w.
Proof.
  intros Hp H. rg wpg_of_wpe. intros w1 H1.
  apply (wp_poll poller m); [by eapply prefix_lookup_Some; [|apply H1]|..].
  - intros w1' err Hstep.
    assert (steady cfg w1 w1') as S by (destruct Hstep; eauto using idle_steady, delivered_steady).
    split; [done|]. intros w2 H2. apply H; [by repeat (etrans; [eassumption|]) | done].
  - intros w1' D. pose proof (delivered_steady cfg _ _ _ D) as S. split; [done|].
    intros w2 H2. apply H; [by repeat (etrans; [eassumption|])|]. intros _.
    apply (alert_delivered_mono cfg d w1'); [apply H2|]. exists sum.
    rewrite (del_outbox _ _ _ D). apply elem_of_app. right. apply list_elem_of_here.
  - intros w1' status Hne I. pose proof (idle_steady cfg _ _ I) as S. split; [done|].
    intros w2 H2. apply H; [by repeat (etrans; [eassumption|]) | congruence].
Qed.

(** *** The steps of the reconciliation *)

Lemma fetchOrCreate_justified w :
  sound cfg w ->
  W (fetchOrCreate (rowKeyOf d month) sum) (fun w' r => forall e, r = Ok e -> backed e w') w.
Proof.
  intros Hs. unfold fetchOrCreate. rg wpg_try_catch. apply wj_get; [done|].
  intros w1 [e|err] H1 Hb.
  - intros w2 H2 ? [= <-]. eapply backed_steady; [by apply Hb | done].
  - destruct (statusCode_is 404 err); [|by intros w2 H2 e].
    apply wj_new_Date. intros w2 now H2. rg wpg_bind. apply wj_create; [done..|].
    intros w3 [[]|err3] H3; [|by intros w4 H4 e].
    apply wpg_ret. by intros w4 H4 ? [= <-].
Qed.

Lemma alertPhase_justified e w :
  backed e w ->
  W (alertPhase cfg d sum e) (fun w' r => forall e', r = Ok e' -> backed e' w') w.
Proof.
  intros Hb. unfold alertPhase. destruct (shouldSendAlert (Some e) sum).
  - unfold sendMail. rg wpg_bind. rg wpg_bind. apply wj_begin_send.
    intros w1 [poller|err] H1 Hp; [|by intros w2 H2 w3 H3 e'].
    apply (wj_poll poller); [by apply Hp|].
    intros w2 [status|err] H2 Hd; [|by intros w3 H3 e'].
    destruct (String.eqb_spec status "Succeeded") as [->|Hne]; [|by intros w3 H3 e'].
    rg wpg_bind. apply wj_local; [done..|]. intros w3 [] H3.
    apply wj_new_Date. intros w4 now H4. rg wpg_bind.
    assert (backed (set_LastUpdated now (set_ActionDone true e)) w4) as Hb4.
    { split; [autorewrite with monitor_rw; apply Hb|]. intros _.
      eapply alert_delivered_mono; [|by apply Hd]. etrans; [apply H3 | apply H4]. }
    apply wj_update; [done|]. intros w5 [[]|err] H5; [|by intros w6 H6 e'].
    apply wpg_ret. intros w6 H6 ? [= <-]. eapply backed_steady; [done | by etrans].
  - rg wpg_bind. apply wj_local; [done..|]. intros w1 [] H1. apply wpg_ret.
    intros w2 H2 ? [= <-]. eapply backed_steady; [done | by etrans].
Qed.

Lemma updatePhase_justified e w : backed e w -> W (updatePhase sum e) (fun _ _ => True) w.
Proof.
  intros Hb. unfold updatePhase. destruct (ngt sum (SumToken e)); [|done].
  apply wj_new_Date. intros w1 now H1. apply wj_update; [|done].
  destruct (backed_steady e w w1 Hb H1) as [Hk Ha]. split; [by autorewrite with monitor_rw | done].
Qed.

(** The [catch] block of the reconciliation. *)
Lemma catch_justified err w :
  W (await_ (ConsoleError "Error processing deployment" d err)) (fun _ _ => True) w.
Proof. by apply wj_quiet. Qed.

(** One reconciliation, whatever the others do and whatever fails, makes
    steady steps only. *)
Lemma evaluate_justified w :
  sound cfg w -> W (evaluateTokenUsageForAlert cfg d sum month) (fun _ _ => True) w.
Proof.
  intros Hs. unfold evaluateTokenUsageForAlert, reconcile. rg wpg_try_catch. rg wpg_bind.
  eapply wpg_mono; [|by apply fetchOrCreate_justified].
  intros w1 [e|err] Hb; simpl; [|intros w2 H2; apply catch_justified].
  rg wpg_bind. eapply wpg_mono; [|by apply alertPhase_justified, Hb].
  intros w2 [e2|err] Hb2; simpl; [|intros w3 H3; apply catch_justified].
  eapply wpg_mono; [|by apply updatePhase_justified, Hb2].
  intros w3 [[]|err] _; [done | apply catch_justified].
Qed.

End Task.

(** ** The invocation *)

Section Invocation.
Context {num : Type} `{!JsNumber num}.
Context (cfg : Config) (tza : Z).
Implicit Types (w : world num) (cs : list choice) (ps : list (prog num unit)).

#[local] Abbreviation W := (wpg any_env (steady cfg) (steady cfg)).

(** The task of a deployment: a reconciliation, or a rejection. *)
Lemma deploymentTask_justified month deployment w :
  String.length month = 7%nat -> sound cfg w ->
  W (deploymentTask cfg month deployment) (fun _ _ => True) w.
Proof.
  intros Hlen Hs. unfold deploymentTask. destruct (deploymentNameOf deployment); [|done].
  by apply evaluate_justified.
Qed.

(** What is known while the tasks run: the world is sound and every task
    goes on with steady steps. *)
Definition justified_inv w ps : Prop :=
  par_inv any_env (fun _ => steady cfg) (fun _ => steady cfg) (fun _ _ _ => True) (sound cfg)
    (length ps) w ps.

(** The [catch] block of the handler leaves the world as it is. *)
Lemma onError_idle E error (Q : world num -> outcome jserror HttpResponseInit -> Prop) w :
  (forall w', idle w w' -> Q w' (Ok (errorResponse error))) -> wpe E (onError error) Q w.
Proof.
  intros H. unfold onError. apply wp_bind, wp_console_log_error. intros w' I _. by apply H.
Qed.

(** [Promise.all] and what follows it, for tasks that make steady steps:
    on a rejection the [catch] block runs and then the tasks still in
    flight, to their end. *)
Lemma Promise_all_justified fuel n ps w :
  pool_bounded n ps -> n <= fuel -> sound cfg w ->
  (forall i p, ps !! i = Some p -> W p (fun _ _ => True) w) ->
  wpe any_env (Promise_all fuel ps) (fun w' _ => sound cfg w') w.
Proof.
  intros Hb Hle Hs Hps. unfold Promise_all.
  pose proof (fun n c w => idle_sound cfg w _ (exec_op_idle (Schedule n) c w eq_refl)) as Hsched.
  apply (wpg_interleave_until any_env (fun _ => steady cfg) (fun _ => steady cfg)
           (fun _ _ _ => True) (sound cfg) (length ps)
           (fun i j w1 w2 _ H => H)
           (fun i n c w1 => idle_steady cfg _ _ (exec_op_idle (Schedule n) c w1 eq_refl))
           (fun i w1 w2 H G => st_sound cfg w1 w2 G H) Hsched has_rejection fuel n);
    [done | done | by split |].
  intros w1 ps1 n1 Hinv Hb1 Hle1 _. destruct (first_rejection ps1) as [error|];
    [|apply wp_ret, Hinv].
  apply wp_bind, onError_idle. intros w2 I.
  apply (wpg_interleave any_env (fun _ => steady cfg) (fun _ => steady cfg)
           (fun _ _ _ => True) (sound cfg) (length ps)
           (fun i j w1 w2 _ H => H)
           (fun i n c w1 => idle_steady cfg _ _ (exec_op_idle (Schedule n) c w1 eq_refl))
           (fun i w1 w2 H G => st_sound cfg w1 w2 G H) Hsched fuel n1); [done | lia | |].
  - eapply par_inv_rely; [apply _ | intros _; by apply idle_steady | | done].
    by apply idle_sound.
  - intros w3 ps3 Hpost. apply wp_ret, Hpost.
Qed.

(** The [try] block up to the start of the tasks leaves the world as it
    is, and the month has seven characters. *)
Lemma prepare_idle w :
  wpe any_env (prepare cfg tza)
    (fun w' r => idle w w' /\ forall month l, r = Ok (month, l) -> String.length month = 7%nat) w.
Proof.
  unfold prepare. apply wp_bind, wp_idle; [done|]. intros w1 [token|err] I1; [|done].
  apply wp_getCurrentMonthTimespan. intros w2 timespan I2.
  apply wp_bind, wp_idle; [done|]. intros w3 [response|err] I3;
    [|split; [by repeat (etrans; [eassumption|]) | done]].
  destruct (timeseriesOf response) as [l|err];
    [|split; [by repeat (etrans; [eassumption|]) | done]].
  unfold getCurrentMonthString. apply wp_bind, wp_bind, wp_date_now. intros w4 I4.
  split; [by repeat (etrans; [eassumption|])|]. intros ? ? [= <- _].
  apply monthStringOf_length.
Qed.

Lemma httpTrigger_sound w :
  sound cfg w -> wpe any_env (httpTrigger cfg tza) (fun w' _ => sound cfg w') w.
Proof.
  intros Hs. unfold httpTrigger. apply wp_try_catch, wp_bind.
  eapply wp_mono; [|apply prepare_idle].
  intros w1 [[month l]|err] [I1 Hlen]; pose proof (idle_sound cfg _ _ I1 Hs) as Hs1;
    [|apply onError_idle; intros w2 I2; by apply (idle_sound cfg w1)].
  eapply wp_mono; [|eapply Promise_all_justified;
    [apply deploymentTasks_bounded | done | exact Hs1 |]].
  - intros w2 [response|err] Hs2; [done|].
    apply onError_idle. intros w3 I3. by apply (idle_sound cfg w2).
  - intros i p [deployment [-> _]]%list_lookup_fmap_Some.
    apply deploymentTask_justified; [by eapply Hlen | done].
Qed.

(** C15: Whatever the metrics API answers, whichever calls fail and however the
    tasks are resumed, an invocation keeps the table well formed and every
    marked record backed by a delivered alert of its deployment. *)
Theorem httpTrigger_flags_justified cs w :
  table_wf (w_table w) -> flags_justified cfg w ->
  table_wf (w_table (run_world (httpTrigger cfg tza) cs w)) /\
  flags_justified cfg (run_world (httpTrigger cfg tza) cs w).
Proof.
  intros Hwf Hj.
  apply (wp_run (httpTrigger cfg tza) (fun w' _ => sound cfg w')), httpTrigger_sound. by split.
Qed.

(** ** Invocation after invocation *)

(** The invocations of the function, one after the other, each with the
    choices of the environment during it. *)
Definition invocations (css : list (list choice)) w : world num :=
  foldl (fun w cs => run_world (httpTrigger cfg tza) cs w) w css.

Lemma invocations_sound css w : sound cfg w -> sound cfg (invocations css w).
Proof.
  revert w. induction css as [|cs css IH]; intros w Hs; [done|]. apply IH.
  apply (wp_run (httpTrigger cfg tza) (fun w' _ => sound cfg w')). by apply httpTrigger_sound.
Qed.

(** C6: From an empty table, after any number of invocations, whatever the
    metrics API answered, whichever calls failed and however the tasks were
    resumed: no record is marked without a delivered alert of its
    deployment. *)
Theorem invocations_flags_justified css w d month e :
  w_table w = ∅ -> String.length month = 7%nat ->
  w_table (invocations css w) !! recordKey d month = Some e -> ActionDone e = true ->
  exists sum, emailMessage cfg d sum ∈ w_outbox (invocations css w).
Proof.
  intros Ht Hlen Hl Ha. destruct (invocations_sound css w) as [_ Hj]; [|by eapply Hj].
  split; [rewrite Ht; apply table_wf_empty | by apply flags_justified_empty].
Qed.

(** ** Alerts are not lost *)

(** The alert of a deployment of [l] that is due is among the alerts the
    design sends. *)
Lemma alertsDue_elem_of month (l : list (string * num)) t d sum :
  (d, sum) ∈ l -> (reconcileRecord (t !! recordKey d month) sum).2 = true ->
  emailMessage cfg d sum ∈ alertsDue cfg month l t.
Proof.
  intros Hin Hdue. unfold alertsDue. apply list_elem_of_bind. exists (d, sum).
  split; [|done]. cbn [fst snd]. rewrite Hdue. apply list_elem_of_here.
Qed.

(** A record that is not marked and a usage above the threshold: the alert
    is due. *)
Lemma reconcileRecord_due w d month sum :
  ngt sum THRESHOLD = true ->
  (forall e, w_table w !! recordKey d month = Some e -> ActionDone e = false) ->
  (reconcileRecord (abs_table w !! recordKey d month) sum).2 = true.
Proof.
  intros Hgt Ha. unfold reconcileRecord, shouldAlert. simpl. rewrite Hgt, abs_table_lookup.
  destruct (w_table w !! recordKey d month) as [e|]; [|done]. simpl. by rewrite (Ha e).
Qed.

Lemma invocation_alerts l w w' d sum :
  sound cfg w -> invocation_refines cfg l w w' -> (d, sum) ∈ usagesOf l ->
  ngt sum THRESHOLD = true -> alert_delivered cfg d w'.
Proof.
  intros [_ Hj] (now & _ & _ & _ & Hout) Hin Hgt.
  destruct (w_table w !! recordKey d (monthStringOf now)) as [e|] eqn:Hl;
    [destruct (ActionDone e) eqn:Ha|].
  - destruct (Hj d (monthStringOf now) e (monthStringOf_length now) Hl Ha) as [sum' Hin'].
    exists sum'. rewrite Hout. apply elem_of_app. by left.
  - exists sum. rewrite Hout. apply elem_of_app. right. apply alertsDue_elem_of; [done|].
    apply reconcileRecord_due; [done|]. intros e' He'. congruence.
  - exists sum. rewrite Hout. apply elem_of_app. right. apply alertsDue_elem_of; [done|].
    apply reconcileRecord_due; [done|]. intros e' He'. congruence.
Qed.

(** C17: Whatever happened in the invocations before, an invocation in which
    the usage source answers with distinct, named deployments and no call
    fails leaves, for every deployment whose usage is above the threshold,
    an alert delivered: now, or before the record was marked. *)
Theorem invocation_delivers_alerts css metrics l cs w d sum :
  w_table w = ∅ ->
  timeseriesOf metrics = Ok l -> forallb named l = true -> NoDup (usagesOf l).*1 ->
  respects (source_replies metrics) (httpTrigger cfg tza) cs (invocations css w) ->
  (d, sum) ∈ usagesOf l -> ngt sum THRESHOLD = true ->
  alert_delivered cfg d (run_world (httpTrigger cfg tza) cs (invocations css w)).
Proof.
  intros Ht Hl Hnamed Hnd Hcs Hin Hgt.
  assert (sound cfg (invocations css w)) as Hs.
  { apply invocations_sound. split; [rewrite Ht; apply table_wf_empty|].
    by apply flags_justified_empty. }
  pose proof (httpTrigger_exact cfg tza metrics l _ Hl Hnamed Hnd (proj1 Hs)) as Hwp.
  destruct (proj1 (wpe_run _ _ _ _) Hwp cs Hcs) as [_ Hinv]. by eapply invocation_alerts.
Qed.

End Invocation.

(** ** The theorems at concrete inputs *)

Section JustifiedWitnesses.

#[local] Open Scope Z_scope.

(** Two time series name the same deployment: their tasks race on one
    record. *)
#[local] Abbreviation twice :=
  (metrics_of [series "gpt4dev" [Some 800]; series "gpt4dev" [Some 700; Some 800]]).
#[local] Abbreviation handler := (httpTrigger (num:=jsnum) cfg0 0).
#[local] Abbreviation marked :=
  (mkEntity "DeploymentType" "gpt4dev-2024-10" (JInt 1500) true "2024-10-28T23:59:59.999Z").

(** The run of [Concurrency.race_stale_write_back] inside an invocation:
    the first task writes back the entity it read before the second marked
    the record.  The mark is lost, the alert was delivered: the invariant
    holds, and the next invocation alerts again. *)
Example httpTrigger_race :
  let w := w_with (stored "gpt4dev" "2024-10" 500 false) in
  let cs := answering twice ++ normal :: schedule [0; 1; 1; 1; 1; 1; 1; 1; 1; 0; 0; 0]%nat in
  ActionDone <$> w_table (run_world handler cs w) !! recordKey "gpt4dev" "2024-10" =
    Some false /\
  subject <$> w_outbox (run_world handler cs w) =
    ["[Alert!] gpt4dev has exceeded the threshold"] /\
  length (w_outbox (invocations cfg0 0 [cs; answering twice] w)) = 2%nat.
Proof. by vm_compute. Qed.

Lemma httpTrigger_flags_justified_witness :
  table_wf (w_table w_empty) /\ flags_justified cfg0 w_empty /\
  table_wf (w_table (run_world handler (answering twice) w_empty)) /\
  flags_justified cfg0 (run_world handler (answering twice) w_empty).
Proof.
  assert (flags_justified cfg0 w_empty) as Hj by by apply flags_justified_empty.
  split; [apply table_wf_empty|]. split; [done|].
  apply (httpTrigger_flags_justified cfg0 0 (answering twice) w_empty table_wf_empty Hj).
Defined.

Lemma invocations_flags_justified_witness :
  w_table w_empty = ∅ /\ String.length "2024-10" = 7%nat /\
  w_table (invocations cfg0 0 [answering twice; []] w_empty) !! recordKey "gpt4dev" "2024-10" =
    Some marked /\
  ActionDone marked = true /\
  exists sum, emailMessage cfg0 "gpt4dev" sum
    ∈ w_outbox (invocations cfg0 0 [answering twice; []] w_empty).
Proof.
  assert (w_table (invocations cfg0 0 [answering twice; []] w_empty)
            !! recordKey "gpt4dev" "2024-10" = Some marked) as Hl by (by vm_compute).
  split; [done|]. split; [done|]. split; [done|]. split; [done|].
  apply (invocations_flags_justified cfg0 0 [answering twice; []] w_empty "gpt4dev" "2024-10"
           marked eq_refl eq_refl Hl eq_refl).
Defined.

#[local] Abbreviation deployments :=
  [series "gpt4dev" [Some 700; Some 800]; series "gpt35" [Some 100]].
#[local] Abbreviation before := (invocations cfg0 0 [answering twice] w_empty).

Lemma invocation_delivers_alerts_witness :
  w_table w_empty = ∅ /\
  timeseriesOf (metrics_of deployments) = Ok deployments /\
  forallb named deployments = true /\ NoDup (usagesOf (num:=jsnum) deployments).*1 /\
  respects (source_replies (metrics_of deployments)) handler
    (answering (metrics_of deployments)) before /\
  ("gpt4dev", JInt 1500) ∈ usagesOf deployments /\ ngt (JInt 1500) THRESHOLD = true /\
  alert_delivered cfg0 "gpt4dev"
    (run_world handler (answering (metrics_of deployments)) before).
Proof.
  assert (NoDup (usagesOf (num:=jsnum) deployments).*1) as Hnd.
  { apply NoDup_cons. split; [set_solver | apply NoDup_singleton]. }
  assert (respects (source_replies (metrics_of deployments)) handler
            (answering (metrics_of deployments)) before) as Hcs by (vm_compute; repeat split).
  assert (("gpt4dev", JInt 1500) ∈ usagesOf (num:=jsnum) deployments) as Hin
    by apply list_elem_of_here.
  split; [done|]. split; [done|]. split; [done|]. split; [done|]. split; [done|].
  split; [done|]. split; [done|].
  apply (invocation_delivers_alerts cfg0 0 [answering twice] (metrics_of deployments)
           deployments _ w_empty "gpt4dev" (JInt 1500) eq_refl eq_refl eq_refl Hnd Hcs Hin
           eq_refl).
Defined.

End JustifiedWitnesses.
