(* ===== verification/Doubles.v ===== *)
(** * Doubles: the program on IEEE doubles

    The components are generic in the numbers ([JsNumber]); the examples run
    on [jsnum], exact integers or NaN.  This file instantiates the program
    with the doubles of [Float64] and proves when the integers stand for
    them: as long as the samples and every partial sum stay within 2^53 in
    magnitude, the usage computed on doubles is the usage computed on
    integers, the decision of [shouldSendAlert] is the same and the alert
    carries the same text.  Beyond 2^53 sums are rounded: the last section
    shows a usage that stops growing. *)

From stdpp Require Import base tactics option list strings pretty gmap.
From Stdlib Require Import ZArith Lia.
From S2P Require Import Prelude JsValue Float64 DateTime Metrics Table Effects Rules Policy.
From S2P Require Import Guarantee Reconciler Concurrency HttpTrigger.

#[local] Open Scope Z_scope.

(** The double an integer-or-NaN number stands for. *)
Definition to_double (a : jsnum) : f64 :=
  match a with
  | JInt z => f64_of_Z z
  | JNaN => FNaN
  end.

(** Number.isSafeInteger, and NaN. *)
Definition safe (a : jsnum) : Prop :=
  match a with
  | JInt z => Z.abs z < 2 ^ 53
  | JNaN => True
  end.

(** The samples from the first on, and the sums the reduction goes through
    from [acc] on, are within 2^53 in magnitude, up to the first sample
    without a total. *)
Fixpoint exact_from (acc : Z) (data : list Sample) : Prop :=
  match data with
  | [] => True
  | d :: data =>
      match total d with
      | Some z => Z.abs z <= 2 ^ 53 /\ Z.abs (acc + z) <= 2 ^ 53 /\ exact_from (acc + z) data
      | None => True
      end
  end.

Definition to_double_entity (e : Entity jsnum) : Entity f64 :=
  mkEntity (partitionKey e) (rowKey e) (to_double (SumToken e)) (ActionDone e) (LastUpdated e).

(** ** Sums *)

Section Sums.
Implicit Types (data : list Sample) (zs : list Z).

Lemma sumTokenOf_double_nan data :
  foldl (fun sum d => nadd sum (totalOf d)) FNaN data = FNaN.
Proof. by induction data. Qed.

Lemma sumTokenOf_double_from acc data :
  Z.abs acc <= 2 ^ 53 -> exact_from acc data ->
  foldl (fun sum d => nadd sum (totalOf d)) (FInt acc) data =
  to_double (foldl (fun sum d => nadd sum (totalOf d)) (JInt acc) data).
Proof.
  revert acc. induction data as [|[[z|]] data IH]; intros acc Hacc Hex; simpl.
  - by rewrite f64_of_Z_small.
  - destruct Hex as (Hz & Hsum & Hex).
    change (totalOf (num:=f64) (mkSample (Some z))) with (f64_of_Z z).
    rewrite (f64_of_Z_small z Hz). change (f64_add (FInt acc) (FInt z)) with (f64_of_Z (acc + z)).
    rewrite (f64_of_Z_small _ Hsum). by apply IH.
  - by rewrite sumTokenOf_double_nan, sumTokenOf_nan.
Qed.

(** C22: As long as the samples and the partial sums are within 2^53 in
    magnitude, the usage computed on doubles is the double of the usage
    computed on integers, NaN for a sample without a total included. *)
Theorem sumTokenOf_doubles_agree data :
  exact_from 0 data -> sumTokenOf (num:=f64) data = to_double (sumTokenOf (num:=jsnum) data).
Proof. intros Hex. by apply (sumTokenOf_double_from 0 data). Qed.

Lemma exact_from_nonneg acc data zs :
  total <$> data = Some <$> zs -> Forall (fun z => 0 <= z) zs -> 0 <= acc ->
  acc + foldr Z.add 0 zs <= 2 ^ 53 -> exact_from acc data.
Proof.
  revert acc zs. induction data as [|[[z|]] data IH]; intros acc [|z' zs] Heq Hpos Hacc Hle;
    try done.
  injection Heq as -> Heq. apply Forall_cons in Hpos as [Hz Hpos]. simpl in *.
  assert (0 <= foldr Z.add 0 zs).
  { clear -Hpos. induction Hpos; simpl; lia. }
  split; [lia|]. split; [lia|]. apply (IH _ zs); [done | done | lia | lia].
Qed.

(** C21: The usage of a deployment whose samples are counts with a sum of at
    most 2^53 is exact on doubles: it is the sum of the samples. *)
Theorem sumTokenOf_doubles_exact data zs :
  total <$> data = Some <$> zs -> Forall (fun z => 0 <= z) zs ->
  foldr Z.add 0 zs <= 2 ^ 53 ->
  sumTokenOf (num:=f64) data = FInt (foldr Z.add 0 zs).
Proof.
  intros Heq Hpos Hle.
  rewrite sumTokenOf_doubles_agree by (by apply (exact_from_nonneg 0 data zs)).
  change (sumTokenOf (num:=jsnum) data)
    with (foldl (fun sum d => nadd sum (totalOf d)) (JInt 0) data).
  rewrite (sumTokenOf_from 0 data zs Heq). simpl.
  assert (0 <= foldr Z.add 0 zs) by (clear -Hpos; induction Hpos; simpl; lia).
  apply f64_of_Z_small. lia.
Qed.


End Sums.

(** ** The decision and the text of the alert *)

Section Decision.

Lemma to_double_safe z : Z.abs z < 2 ^ 53 -> to_double (JInt z) = FInt z.
Proof. intros Hz. apply f64_of_Z_small. lia. Qed.

Lemma THRESHOLD_double : THRESHOLD (num:=f64) = FInt 1000.
Proof. done. Qed.

Lemma ngt_to_double (a b : jsnum) :
  safe a -> safe b -> ngt (to_double a) (to_double b) = ngt a b.
Proof.
  destruct a as [x|], b as [y|]; simpl; intros Ha Hb; try done.
  - by rewrite !f64_of_Z_small by lia.
  - by destruct (f64_of_Z x).
Qed.

(** For a safe usage, the decision on doubles is the decision on
    integers. *)
Theorem shouldSendAlert_doubles (entity : option (Entity jsnum)) (sumToken : jsnum) :
  safe sumToken ->
  shouldSendAlert (to_double_entity <$> entity) (to_double sumToken) =
  shouldSendAlert entity sumToken.
Proof.
  intros Hs. unfold shouldSendAlert. f_equal; [by destruct entity|].
  apply (ngt_to_double sumToken (JInt 1000) Hs). by vm_compute.
Qed.

(** The alert for a safe usage states the usage in decimal digits, as
    the alert computed on integers does. *)
Theorem emailMessage_doubles cfg (deploymentName : string) (z : Z) :
  Z.abs z < 2 ^ 53 ->
  emailMessage cfg deploymentName (FInt z) = emailMessage cfg deploymentName (JInt z).
Proof.
  intros Hz. unfold emailMessage.
  assert (nshow (THRESHOLD (num:=f64)) = nshow (THRESHOLD (num:=jsnum))) as -> by (by vm_compute).
  by assert (nshow (FInt z) = nshow (JInt z)) as -> by apply (f64_show_safe z Hz).
Qed.

End Decision.

(** ** Beyond 2^53 *)

Section Beyond.


(** Sums overflow to [Infinity], which is above the threshold, and an
    infinity and its opposite add up to NaN. *)
Example sumTokenOf_overflows :
  sumTokenOf (num:=f64) [mkSample (Some (2 ^ 1023)); mkSample (Some (2 ^ 1023))] = FInf false /\
  shouldSendAlert (num:=f64) None (FInf false) = true /\
  nshow (FInf false) = "Infinity" /\
  f64_add (FInf false) (FInf true) = FNaN.
Proof. by vm_compute. Qed.

(** Scenario A on doubles: the run of the reconciler with usage 1500. *)
Example scenario_A_doubles :
  let w0 : world f64 := mkWorld ∅ [] [] now0 [] in
  let w := run_world (evaluateTokenUsageForAlert cfg0 "gpt4dev" (FInt 1500) "2024-10") [] w0 in
  w_table w !! recordKey "gpt4dev" "2024-10" =
    Some (mkEntity "DeploymentType" "gpt4dev-2024-10" (FInt 1500) true "2024-10-28T23:59:59.999Z") /\
  plainText <$> w_outbox w =
    ["The deployment gpt4dev has exceeded the threshold of 1000 tokens this month. The total token usage is 1500."].
Proof. by vm_compute. Qed.

End Beyond.

(** ** The theorems at concrete inputs *)

Section DoublesWitnesses.

#[local] Abbreviation data0 := [mkSample (Some 700); mkSample None; mkSample (Some 800)].
#[local] Abbreviation data1 := [mkSample (Some 700); mkSample (Some 800)].

Lemma sumTokenOf_doubles_agree_witness :
  exact_from 0 data0 /\
  sumTokenOf (num:=f64) data0 = to_double (sumTokenOf (num:=jsnum) data0).
Proof.
  assert (exact_from 0 data0) as Hex by (simpl; split; [|split]; by vm_compute).
  split; [done|]. apply (sumTokenOf_doubles_agree data0 Hex).
Defined.

Lemma sumTokenOf_doubles_exact_witness :
  total <$> data1 = Some <$> [700; 800] /\ Forall (fun z => 0 <= z) [700; 800] /\
  foldr Z.add 0 [700; 800] <= 2 ^ 53 /\
  sumTokenOf (num:=f64) data1 = FInt (foldr Z.add 0 [700; 800]).
Proof.
  assert (Forall (fun z => 0 <= z) [700; 800]) as Hpos by (repeat constructor; lia).
  assert (foldr Z.add 0 [700; 800] <= 2 ^ 53) as Hle by (by vm_compute).
  split; [done|]. split; [done|]. split; [done|].
  apply (sumTokenOf_doubles_exact data1 [700; 800] eq_refl Hpos Hle).
Defined.

Lemma shouldSendAlert_doubles_witness :
  safe (JInt 1500) /\
  shouldSendAlert (to_double_entity <$> Some (stored "gpt4dev" "2024-10" 500 false))
    (to_double (JInt 1500)) =
  shouldSendAlert (Some (stored "gpt4dev" "2024-10" 500 false)) (JInt 1500).
Proof.
  assert (safe (JInt 1500)) as Hs by (by vm_compute).
  split; [done|]. apply (shouldSendAlert_doubles _ _ Hs).
Defined.

Lemma emailMessage_doubles_witness :
  Z.abs 1500 < 2 ^ 53 /\
  emailMessage cfg0 "gpt4dev" (FInt 1500) = emailMessage cfg0 "gpt4dev" (JInt 1500).
Proof.
  assert (Z.abs 1500 < 2 ^ 53) as Hz by (by vm_compute).
  split; [done|]. apply (emailMessage_doubles cfg0 "gpt4dev" 1500 Hz).
Defined.

End DoublesWitnesses.
