(* ===== verification/Startup.v ===== *)
(** * Startup: the constants of the module and the registration of the handler

    When [httpTrigger.ts] is loaded it builds the credential, the table
    client and the mail client, reads its settings from [process.env] and
    registers [httpTrigger] with the Functions host for GET requests.

    [loadModule] is that initialisation as a function of the process
    environment: a variable that is not set reads as [undefined], nothing is
    validated, and the handler runs with whatever was read.  [registrations]
    is the call of [app.http]; [invoke] is the part of the host the
    registration addresses: a request is handed to the function registered
    for its route when its method is among the methods registered.

    The clients are modelled by the arguments they were built from; the
    services behind them are the world of [Effects], which holds the one
    table and the one mail service the clients name. *)

From stdpp Require Import base tactics option list strings gmap.
From Stdlib Require Import ZArith Lia.
From S2P Require Import Prelude JsValue DateTime Metrics Table Effects Rules Policy Guarantee.
From S2P Require Import Reconciler Concurrency HttpTrigger.

(** [process.env] *)
Abbreviation ProcessEnv := (gmap string string).

(** [new DefaultAzureCredential()] *)
Inductive DefaultAzureCredential : Type := mkCredential.

(** [new TableClient(url, tableName, credential)] *)
Record TableClient : Type := mkTableClient {
  tc_url : option string;
  tc_tableName : option string;
  tc_credential : DefaultAzureCredential;
}.

(** [new EmailClient(connectionString)] *)
Record EmailClient : Type := mkEmailClient {
  ec_connectionString : option string;
}.

(** The constants of the module. *)
Record Module : Type := mkModule {
  credential : DefaultAzureCredential;
  tableClient : TableClient;
  client : EmailClient;
  settings : Config;
}.

Definition loadModule (env : ProcessEnv) : Module :=
  let credential := mkCredential in
  let tableClient :=
    mkTableClient (env !! "TABLE_STORAGE_ENDPOINT") (env !! "TABLE_STORAGE_TABLE_NAME")
      credential in
  let communicationServicesConnectionString := env !! "COMMUNICATION_SERVICES_CONNECTION_STRING" in
  let client := mkEmailClient communicationServicesConnectionString in
  let resourceUri := env !! "AOAI_RESOURCE_URI" in
  let emailSenderAddress := env !! "EMAIL_SENDER_ADDRESS" in
  let emailRecipientAddress := env !! "EMAIL_RECIPIENT_ADDRESS" in
  mkModule credential tableClient client
    (mkConfig emailSenderAddress emailRecipientAddress resourceUri).

(** The variables the module reads. *)
Definition variables : list string :=
  ["TABLE_STORAGE_ENDPOINT"; "TABLE_STORAGE_TABLE_NAME";
   "COMMUNICATION_SERVICES_CONNECTION_STRING"; "AOAI_RESOURCE_URI";
   "EMAIL_SENDER_ADDRESS"; "EMAIL_RECIPIENT_ADDRESS"].

(** ** The registration *)

(** The request and the context the host passes to a handler. *)
Record HttpRequest : Type := mkRequest {
  method : string;
  url : string;
  req_route : string;
  req_body : string;
}.

Record InvocationContext : Type := mkContext {
  invocationId : string;
  functionName : string;
}.

Section Registration.
Context {num : Type} `{!JsNumber num}.

Record HttpFunctionOptions : Type := mkHttpFunctionOptions {
  methods : list string;
  authLevel : string;
  handler : HttpRequest -> InvocationContext -> prog num HttpResponseInit;
}.

(** [httpTrigger(request, context)]: the handler reads neither. *)
Definition httpTrigger_handler (m : Module) (tza : Z)
    (request : HttpRequest) (context : InvocationContext) : prog num HttpResponseInit :=
  httpTrigger (settings m) tza.

(** [app.http("httpTrigger", { ... })] *)
Definition registrations (m : Module) (tza : Z) : list (string * HttpFunctionOptions) :=
  [("httpTrigger",
    mkHttpFunctionOptions ["GET"] "anonymous" (httpTrigger_handler m tza))].

(** The route of a function registered without one. *)
Definition default_route (name : string) : string := "api/" +:+ name.

(** The host: the program a request starts, if any. *)
Definition invoke (registry : list (string * HttpFunctionOptions))
    (request : HttpRequest) (invocation : string) : option (prog num HttpResponseInit) :=
  match list_find (fun f => default_route f.1 = req_route request) registry with
  | Some (_, (name, options)) =>
      if decide (method request ∈ methods options)
      then Some (handler options request (mkContext invocation name))
      else None
  | None => None
  end.

(** The program of the process: load the module, register, serve. *)
Definition serve (env : ProcessEnv) (tza : Z) (request : HttpRequest) (invocation : string)
  : option (prog num HttpResponseInit) :=
  invoke (registrations (loadModule env) tza) request invocation.

End Registration.

(** ** Laws *)

Section StartupLaws.
Context {num : Type} `{!JsNumber num}.
Implicit Types (env : ProcessEnv) (request : HttpRequest).

(** The module reads six variables: setting, changing or unsetting any other
    variable of the process changes nothing of the module. *)
Theorem loadModule_reads_variables env (name : string) (value : option string) :
  name ∉ variables -> loadModule (partial_alter (fun _ => value) name env) = loadModule env.
Proof.
  intros Hname. unfold loadModule.
  rewrite !lookup_partial_alter_ne; [done|intros ->; apply Hname; unfold variables; set_solver..].
Qed.

(** Loading validates nothing: from an empty environment every setting is
    [undefined]. *)
Lemma loadModule_empty :
  loadModule ∅ =
  mkModule mkCredential (mkTableClient None None mkCredential) (mkEmailClient None)
    (mkConfig None None None).
Proof. done. Qed.


(** Without the mail addresses the alert is submitted with [undefined]
    addresses. *)
Lemma emailMessage_unset_addresses env (deploymentName : string) (sumToken : num) :
  env !! "EMAIL_SENDER_ADDRESS" = None -> env !! "EMAIL_RECIPIENT_ADDRESS" = None ->
  senderAddress (emailMessage (settings (loadModule env)) deploymentName sumToken) = None /\
  recipients (emailMessage (settings (loadModule env)) deploymentName sumToken) = [None].
Proof. intros Hs Hr. unfold emailMessage, loadModule. simpl. by rewrite Hs, Hr. Qed.

(** A GET request on the route of the function starts the handler, which
    is [httpTrigger] with the settings read when the module was loaded,
    whatever else the request holds; a request with another method or on
    another route starts nothing. *)
Theorem serve_spec env (tza : Z) request (invocation : string) :
  serve (num:=num) env tza request invocation =
  if decide (req_route request = "api/httpTrigger" /\ method request = "GET")
  then Some (httpTrigger (settings (loadModule env)) tza)
  else None.
Proof.
  unfold serve, invoke, registrations. simpl.
  destruct (decide (default_route "httpTrigger" = req_route request)) as [Hr|Hr]; simpl.
  - destruct (decide (method request ∈ ["GET"])) as [Hm|Hm].
    + apply list_elem_of_singleton in Hm. by rewrite decide_True.
    + rewrite decide_False; [done|]. intros [_ Hm']. apply Hm. by rewrite Hm', list_elem_of_singleton.
  - rewrite decide_False; [done|]. intros [Hr' _]. by rewrite Hr' in Hr.
Qed.

End StartupLaws.

(** ** Examples *)

Section StartupExamples.

Definition env0 : ProcessEnv :=
  {[ "TABLE_STORAGE_ENDPOINT" := "https://store.table.core.windows.net";
     "TABLE_STORAGE_TABLE_NAME" := "usage";
     "COMMUNICATION_SERVICES_CONNECTION_STRING" := "endpoint=https://mail.example/;accesskey=k";
     "AOAI_RESOURCE_URI" := "subscriptions/0000/resourceGroups/rg/providers/Microsoft.CognitiveServices/accounts/aoai";
     "EMAIL_SENDER_ADDRESS" := "DoNotReply@contoso.example";
     "EMAIL_RECIPIENT_ADDRESS" := "ops@contoso.example" ]}.

(** The settings of the examples are those of this environment. *)
Example loadModule_env0 : settings (loadModule env0) = cfg0.
Proof. by vm_compute. Qed.

(** A GET runs the handler of the examples; a POST is not served. *)
Example serve_env0 :
  serve (num:=jsnum) env0 0 (mkRequest "GET" "https://f.example/api/httpTrigger" "api/httpTrigger" "") "1"
    = Some (httpTrigger cfg0 0) /\
  serve (num:=jsnum) env0 0 (mkRequest "POST" "https://f.example/api/httpTrigger" "api/httpTrigger" "") "2"
    = None.
Proof. by rewrite !serve_spec, loadModule_env0. Qed.

Lemma loadModule_reads_variables_witness :
  ("PATH" ∉ variables) /\
  loadModule (partial_alter (fun _ => Some "/usr/bin") "PATH" env0) = loadModule env0.
Proof.
  assert ("PATH" ∉ variables) as Hname by (unfold variables; set_solver).
  split; [done|]. apply (loadModule_reads_variables env0 "PATH" (Some "/usr/bin") Hname).
Defined.

(** A process without variables. *)
Definition env_unset : ProcessEnv := ∅.


End StartupExamples.
